(** * PufferLib emulation layer: schema-to-layout codec and environment adapters

    A shallow embedding of [pufferlib/emulation.py].  Python exceptions are
    values of [exn] carried by [PyResult]; numpy structured arrays are byte
    buffers addressed through the aligned layout that [np.dtype(..., align=True)]
    computes; Python dictionaries whose iteration order the code observes are
    association lists, the others are [gmap]s. *)

From Stdlib Require Import ZArith NArith Lia.
From Stdlib Require Import Strings.Byte.
From stdpp Require Import gmap strings list fin_maps pretty.

Local Open Scope Z_scope.

#[local] Set Warnings "-register-all".

(** ** Exceptions and results *)

(** The exception classes that the module raises itself or that the numpy and
    Python operations it uses raise.  [EnvError] stands for whatever a wrapped
    environment raises from its own methods.  [Unmodelled] marks numpy
    behaviour outside the domain modelled here (a leaf value assigned to a
    record, broadcasting other than a scalar fill); no theorem below relies on
    a result that carries it. *)
Inductive exn : Set :=
  | AttributeError
  | IndexError
  | KeyError
  | ValueError
  | TypeError
  | StopIteration
  | APIUsageError
  | InvalidAgentError
  | EnvError
  | Unmodelled.

Inductive PyResult (A : Type) : Type :=
  | Ok (a : A)
  | Raise (e : exn).
Arguments Ok {A} a.
Arguments Raise {A} e.

Global Instance PyResult_ret : MRet PyResult := fun A a => Ok a.
Global Instance PyResult_bind : MBind PyResult := fun A B k r =>
  match r with
  | Ok a => k a
  | Raise e => Raise e
  end.

(** The error taxonomy of the specification (section 7), and the class of the
    taxonomy an exception of the code belongs to.  [APIUsageError] is the
    usage error, [InvalidAgentError] the unknown-agent error, and
    [make_object] reports construction errors as [ValueError] / [TypeError].
    No exception of the module is an unsupported-schema error. *)
Inductive spec_error : Set :=
  | ConstructionError
  | UsageError
  | UnsupportedSchemaError
  | UnknownAgentError.

Definition taxonomy (e : exn) : option spec_error :=
  match e with
  | APIUsageError => Some UsageError
  | InvalidAgentError => Some UnknownAgentError
  | ValueError | TypeError => Some ConstructionError
  | _ => None
  end.

(** ** Scalar types *)

(** The numpy scalar types a leaf space can carry. *)
Inductive ScalarType : Set :=
  | bool_ | int8 | uint8 | int16 | uint16 | int32 | uint32
  | int64 | uint64 | float16 | float32 | float64.

Global Instance ScalarType_eq_dec : EqDecision ScalarType.
Proof. solve_decision. Defined.

(** [dtype.itemsize], in bytes. *)
Definition scalar_itemsize (t : ScalarType) : nat :=
  match t with
  | bool_ | int8 | uint8 => 1
  | int16 | uint16 | float16 => 2
  | int32 | uint32 | float32 => 4
  | int64 | uint64 | float64 => 8
  end%nat.

(** [dtype.alignment]: every one of these types is aligned to its own size
    on the platforms numpy supports as 64-bit. *)
Definition scalar_alignment (t : ScalarType) : nat := scalar_itemsize t.

Definition is_signed (t : ScalarType) : bool :=
  match t with
  | int8 | int16 | int32 | int64 => true
  | _ => false
  end.

(** Modelled from the spec: [utils._get_dtype_bounds] is not part of this
    module.  The specification gives the bounds of a flat view as the natural
    minimum and maximum of its scalar type, and [0, 255] for the one-byte
    fallback type.  The largest finite value of each float type is an
    integer, so the bounds are integers throughout. *)
Definition _get_dtype_bounds (t : ScalarType) : Z * Z :=
  match t with
  | bool_ => (0, 1)
  | int8 => (-128, 127)
  | uint8 => (0, 255)
  | int16 => (-32768, 32767)
  | uint16 => (0, 65535)
  | int32 => (-2147483648, 2147483647)
  | uint32 => (0, 4294967295)
  | int64 => (-9223372036854775808, 9223372036854775807)
  | uint64 => (0, 18446744073709551615)
  | float16 => (-65504, 65504)
  | float32 => (- ((2 ^ 24 - 1) * 2 ^ 104), (2 ^ 24 - 1) * 2 ^ 104)
  | float64 => (- ((2 ^ 53 - 1) * 2 ^ 971), (2 ^ 53 - 1) * 2 ^ 971)
  end.

(** ** Spaces (schemas) *)

(** [pufferlib.spaces]: the leaves are [Box] (a bounded array of one scalar
    type), [Discrete] (one choice among [n]) and [MultiDiscrete] (a vector of
    choices); [Tuple] and [Dict] nest.  A [Dict] lists its children in
    declaration order. *)
Inductive Space : Type :=
  | Box (low high : Z) (shape : list nat) (dtype : ScalarType)
  | Discrete (n : Z)
  | MultiDiscrete (nvec : list Z)
  | Tuple (spaces : list Space)
  | Dict (spaces : list (string * Space)).

Definition isinstance_Box (space : Space) : bool :=
  match space with Box _ _ _ _ => true | _ => false end.

Definition isinstance_Discrete (space : Space) : bool :=
  match space with Discrete _ => true | _ => false end.

(** [space.dtype] and [space.shape] of a leaf ([Tuple] and [Dict] are not
    asked for them by this module; they get the values gymnasium gives them:
    no dtype, no shape, read here as the defaults below). *)
Definition space_dtype (space : Space) : ScalarType :=
  match space with
  | Box _ _ _ dt => dt
  | _ => int64
  end.

Definition space_shape (space : Space) : list nat :=
  match space with
  | Box _ _ sh _ => sh
  | MultiDiscrete nvec => [length nvec]
  | _ => []
  end.

(** [space.n]: only [Discrete] has the attribute. *)
Definition space_n (space : Space) : PyResult Z :=
  match space with
  | Discrete n => Ok n
  | _ => Raise AttributeError
  end.

(** ** Structured dtypes with aligned layout *)

(** A numpy dtype as this module builds them: a scalar type with a sub-array
    shape ([np.dtype((t, shape))], which is [t] itself when [shape] is [()]),
    or a record of named fields built with [align=True]. *)
Inductive DType : Type :=
  | DArr (t : ScalarType) (shape : list nat)
  | DStruct (fields : list (string * DType)).

Definition numel (shape : list nat) : nat := foldr Nat.mul 1%nat shape.

(** [NPY_NEXT_ALIGNED_OFFSET]: the least multiple of [a] that is at least
    [off]. *)
Definition round_up (off a : nat) : nat := ((off + a - 1) / a * a)%nat.

(** One step of numpy's field placement: the field goes to the next offset
    aligned for its type. *)
Definition place (off size align : nat) : nat * nat :=
  let o := round_up off align in (o, (o + size)%nat).

(** The placement loop over a record's fields: [f] gives each field's size
    and alignment. *)
Section PlaceFields.
Context (f : DType -> nat * nat).

Fixpoint place_fields (fs : list (string * DType)) (off maxalign : nat) : nat * nat :=
  match fs with
  | [] => (round_up off maxalign, maxalign)
  | (_, fd) :: fs' =>
      place_fields fs' (snd (place off (fst (f fd)) (snd (f fd))))
        (Nat.max maxalign (snd (f fd)))
  end.
End PlaceFields.

(** [dtype.itemsize] and [dtype.alignment].  A record is laid out like a C
    struct: fields in order at aligned offsets, the total padded to the
    largest field alignment. *)
Fixpoint layout (d : DType) : nat * nat :=
  match d with
  | DArr t shape => ((scalar_itemsize t * numel shape)%nat, scalar_alignment t)
  | DStruct fields => place_fields layout fields 0%nat 1%nat
  end.

Definition itemsize (d : DType) : nat := fst (layout d).
Definition alignment (d : DType) : nat := snd (layout d).

(** [dtype.fields]: each field's name, dtype and byte offset. *)
Fixpoint field_table (fs : list (string * DType)) (off : nat)
  : list (string * (DType * nat)) :=
  match fs with
  | [] => []
  | (name, fd) :: fs' =>
      let '(o, next) := place off (itemsize fd) (alignment fd) in
      (name, (fd, o)) :: field_table fs' next
  end.

Fixpoint assoc {A : Type} (k : string) (l : list (string * A)) : option A :=
  match l with
  | [] => None
  | (k', a) :: l' => if decide (k = k') then Some a else assoc k l'
  end.

(** [arr[name]] on a structured array: the field's dtype and offset.  numpy
    raises [IndexError] when the array is not structured and [ValueError]
    when the record has no such field. *)
Definition getfield (d : DType) (name : string) : PyResult (DType * nat) :=
  match d with
  | DArr _ _ => Raise IndexError
  | DStruct fields =>
      match assoc name (field_table fields 0%nat) with
      | Some f => Ok f
      | None => Raise ValueError
      end
  end.

(** The positional field name [f'f{i}']. *)
Definition fname (i : nat) : string := "f" +:+ pretty i.

(** ** Layout derivation and leaf flattening *)

Section SpaceLoops.
Context {A : Type} (f : Space -> A).

(** [[(f'f{i}', f(elem)) for i, elem in enumerate(space)]], from index [i]. *)
Fixpoint tuple_fields (i : nat) (l : list Space) : list (string * A) :=
  match l with
  | [] => []
  | elem :: l' => (fname i, f elem) :: tuple_fields (S i) l'
  end.

(** [[(k, f(value)) for k, value in space.items()]]. *)
Fixpoint dict_fields (l : list (string * Space)) : list (string * A) :=
  match l with
  | [] => []
  | (k, value) :: l' => (k, f value) :: dict_fields l'
  end.
End SpaceLoops.

(** [dtype_from_space]. *)
Fixpoint dtype_from_space (space : Space) : DType :=
  match space with
  | Tuple spaces => DStruct (tuple_fields dtype_from_space 0%nat spaces)
  | Dict spaces => DStruct (dict_fields dtype_from_space spaces)
  | _ => DArr (space_dtype space) (space_shape space)
  end.

(** [flatten_space]: the leaves in depth-first order. *)
Fixpoint flatten_space (space : Space) : list Space :=
  match space with
  | Tuple spaces => concat (map flatten_space spaces)
  | Dict spaces => concat (map snd (dict_fields flatten_space spaces))
  | _ => [space]
  end.

(** [list.count]. *)
Definition count_occ_dtype (t : ScalarType) (l : list ScalarType) : nat :=
  length (filter (fun t' => t' = t) l).

(** [emulate_observation_space].  [dtypes[0]] raises [IndexError] on a schema
    without leaves. *)
Definition emulate_observation_space (space : Space) : PyResult (Space * DType) :=
  let emulated_dtype := dtype_from_space space in
  if isinstance_Box space then Ok (space, emulated_dtype)
  else
    let leaves := flatten_space space in
    let dtypes := map space_dtype leaves in
    match dtypes with
    | [] => Raise IndexError
    | d0 :: _ =>
        let dtype :=
          if Nat.eqb (count_occ_dtype d0 dtypes) (length dtypes) then d0 else uint8 in
        let '(mmin, mmax) := _get_dtype_bounds dtype in
        let numel := (itemsize emulated_dtype / scalar_itemsize dtype)%nat in
        Ok (Box mmin mmax [numel] dtype, emulated_dtype)
    end.

(** [[e.n for e in leaves]]. *)
Fixpoint leaf_cardinalities (leaves : list Space) : PyResult (list Z) :=
  match leaves with
  | [] => Ok []
  | e :: leaves' =>
      n ← space_n e;
      ns ← leaf_cardinalities leaves';
      Ok (n :: ns)
  end.

(** [emulate_action_space].  A [Discrete] space is returned as it is with its
    own dtype. *)
Definition emulate_action_space (space : Space) : PyResult (Space * DType) :=
  if isinstance_Discrete space then Ok (space, DArr (space_dtype space) [])
  else
    let emulated_dtype := dtype_from_space space in
    let leaves := flatten_space space in
    nvec ← leaf_cardinalities leaves;
    Ok (MultiDiscrete nvec, emulated_dtype).

(** ** Bytes and scalar elements *)

Definition byte_of_N (n : N) : byte :=
  default x00 (Byte.of_N (n mod 256)%N).

(** The [w] little-endian bytes of [n]. *)
Fixpoint le_bytes (w : nat) (n : N) : list byte :=
  match w with
  | O => []
  | S w' => byte_of_N n :: le_bytes w' (n / 256)%N
  end.

Fixpoint le_value (bs : list byte) : N :=
  match bs with
  | [] => 0%N
  | b :: bs' => (Byte.to_N b + 256 * le_value bs')%N
  end.

Definition bits (t : ScalarType) : Z := 8 * Z.of_nat (scalar_itemsize t).

(** An array element is given by an integer: the number itself for the
    boolean and integer types, the IEEE-754 bit pattern for the float types.
    [scalar_to_bytes] is the element's memory image (two's complement,
    little-endian) and [scalar_of_bytes] reads it back. *)
Definition scalar_to_bytes (t : ScalarType) (v : Z) : list byte :=
  le_bytes (scalar_itemsize t) (Z.to_N (v mod 2 ^ bits t)).

Definition scalar_of_bytes (t : ScalarType) (bs : list byte) : Z :=
  let u := Z.of_N (le_value bs) in
  if is_signed t && (2 ^ (bits t - 1) <=? u) then u - 2 ^ bits t else u.

(** The values an element of type [t] can hold. *)
Definition in_range (t : ScalarType) (v : Z) : bool :=
  match t with
  | bool_ => (0 <=? v) && (v <=? 1)
  | _ =>
      if is_signed t then (- 2 ^ (bits t - 1) <=? v) && (v <? 2 ^ (bits t - 1))
      else (0 <=? v) && (v <? 2 ^ bits t)
  end.

(** The element stored when [v] is assigned to a slot of type [t]: a boolean
    slot keeps the truth value, the other types wrap to their width. *)
Definition cast (t : ScalarType) (v : Z) : Z :=
  match t with
  | bool_ => if v =? 0 then 0 else 1
  | _ => v
  end.

(** ** Samples and flat arrays *)

(** A nested sample.  A leaf is a scalar (a Python number, a numpy scalar or
    a zero-dimensional array) or an array with a non-empty shape and its
    elements in row-major order; elements are read relative to the type of
    the field that receives them.  A [dict] sample lists its items in
    iteration order. *)
Inductive Sample : Type :=
  | SScalar (v : Z)
  | SArr (shape : list nat) (vals : list Z)
  | STuple (items : list Sample)
  | SDict (items : list (string * Sample)).

(** A numpy array: element type, shape and the elements in row-major
    order. *)
Record ndarray : Type := NDArray {
  nd_dtype : ScalarType;
  nd_shape : list nat;
  nd_data : list Z
}.

(** Overwrite [buf] from byte [off] on with [bs]. *)
Definition splice (buf : list byte) (off : nat) (bs : list byte) : list byte :=
  take off buf ++ bs ++ drop (off + length bs) buf.

Fixpoint chunks (w : nat) (n : nat) (buf : list byte) : list (list byte) :=
  match n with
  | O => []
  | S n' => take w buf :: chunks w n' (drop w buf)
  end.

(** [arr.view(t).ravel()] on a byte buffer: numpy refuses a size that is not
    a multiple of the new item size. *)
Definition view_as (t : ScalarType) (buf : list byte) : PyResult ndarray :=
  if Nat.eqb (length buf mod scalar_itemsize t) 0
  then Ok (NDArray t [length buf / scalar_itemsize t]%nat
             (map (scalar_of_bytes t)
                (chunks (scalar_itemsize t) (length buf / scalar_itemsize t) buf)))
  else Raise ValueError.

(** The memory of a flat array. *)
Definition array_bytes (a : ndarray) : list byte :=
  concat (map (scalar_to_bytes (nd_dtype a)) (nd_data a)).

(** A dtype made of a scalar type and a shape with at least one axis is a
    sub-array dtype. *)
Definition has_subarray (d : DType) : bool :=
  match d with
  | DArr _ (_ :: _) => true
  | _ => false
  end.

(** [a.view(d)]: the number of items of dtype [d] in the view.  A dtype of
    the array's own item size leaves the shape as it is.  Otherwise numpy
    regroups the last axis only, the leading axes being kept: it refuses an
    array without axes and a sub-array dtype, a smaller dtype must divide
    the array's item size, and a larger one the byte size of the last
    axis. *)
Definition nd_view_records (a : ndarray) (d : DType) : PyResult nat :=
  let sz := scalar_itemsize (nd_dtype a) in
  if Nat.eqb (itemsize d) sz then Ok (numel (nd_shape a))
  else
    match reverse (nd_shape a) with
    | [] => Raise ValueError
    | n :: lead =>
        if has_subarray d then Raise ValueError
        else if (itemsize d <? sz)%nat then
          if Nat.eqb (itemsize d) 0 || negb (Nat.eqb (sz mod itemsize d) 0)
          then Raise ValueError
          else Ok (numel lead * (n * (sz / itemsize d)))%nat
        else if Nat.eqb ((n * sz) mod itemsize d) 0
             then Ok (numel lead * (n * sz / itemsize d))%nat
             else Raise ValueError
    end.

(** ** Encoding: [_emulate] and [emulate] *)

(** [arr[()] = sample] on the field of dtype [d] at byte [off]: a scalar
    fills the field, an array of the field's shape is copied element by
    element. *)
Definition setitem (d : DType) (off : nat) (sample : Sample) (buf : list byte)
  : PyResult (list byte) :=
  match d with
  | DArr t shape =>
      match sample with
      | SScalar v =>
          Ok (splice buf off
                (concat (replicate (numel shape) (scalar_to_bytes t (cast t v)))))
      | SArr sh vals =>
          if decide (sh = shape ∧ length vals = numel shape)
          then Ok (splice buf off (concat (map (fun v => scalar_to_bytes t (cast t v)) vals)))
          else Raise Unmodelled
      | _ => Raise Unmodelled
      end
  | DStruct _ => Raise Unmodelled
  end.

Section EmulateLoops.
Context (f : DType -> nat -> Sample -> list byte -> PyResult (list byte)).
Context (d : DType) (off : nat).

(** [for k, v in sample.items(): _emulate(arr[k], v)]. *)
Fixpoint emulate_dict_items (items : list (string * Sample)) (buf : list byte)
  : PyResult (list byte) :=
  match items with
  | [] => Ok buf
  | (k, v) :: items' =>
      '(fd, o) ← getfield d k;
      buf' ← f fd (off + o)%nat v buf;
      emulate_dict_items items' buf'
  end.

(** [for i, v in enumerate(sample): _emulate(arr[f'f{i}'], v)], from [i]. *)
Fixpoint emulate_tuple_items (i : nat) (items : list Sample) (buf : list byte)
  : PyResult (list byte) :=
  match items with
  | [] => Ok buf
  | v :: items' =>
      '(fd, o) ← getfield d (fname i);
      buf' ← f fd (off + o)%nat v buf;
      emulate_tuple_items (S i) items' buf'
  end.
End EmulateLoops.

(** [_emulate(arr, sample)], where [arr] is the view of dtype [d] at byte
    [off] of the buffer; the updated buffer is returned. *)
Fixpoint _emulate (d : DType) (off : nat) (sample : Sample) (buf : list byte)
  : PyResult (list byte) :=
  match sample with
  | SDict items => emulate_dict_items _emulate d off items buf
  | STuple items => emulate_tuple_items _emulate d off 0%nat items buf
  | _ => setitem d off sample buf
  end.

(** [emulate(sample, sample_dtype, emulated_dtype)]. *)
Definition emulate (sample : Sample) (sample_dtype : ScalarType) (emulated_dtype : DType)
  : PyResult ndarray :=
  let emulated := replicate (itemsize emulated_dtype) x00 in
  buf ← _emulate emulated_dtype 0%nat sample emulated;
  view_as sample_dtype buf.

(** ** Decoding: [_nativize] and [nativize] *)

Section ItemLoop.
Context (f : DType -> nat -> PyResult Sample) (base : nat).

(** The items of a record's fields, in field order. *)
Fixpoint item_fields (fs : list (string * DType)) (off : nat) : PyResult (list Sample) :=
  match fs with
  | [] => Ok []
  | (_, fd) :: fs' =>
      let '(o, next) := place off (itemsize fd) (alignment fd) in
      v ← f fd (base + o)%nat;
      vs ← item_fields fs' next;
      Ok (v :: vs)
  end.
End ItemLoop.

(** The Python value of one element of dtype [d] at byte [off]: a number for
    a scalar type, a tuple of the fields' values for a record. *)
Fixpoint item_record (buf : list byte) (d : DType) (off : nat) : PyResult Sample :=
  match d with
  | DArr t [] => Ok (SScalar (scalar_of_bytes t (take (scalar_itemsize t) (drop off buf))))
  | DArr _ _ => Raise Unmodelled
  | DStruct fields =>
      vs ← item_fields (item_record buf) off fields 0%nat;
      Ok (STuple vs)
  end.

(** [sample.item()] on the field of dtype [d] at byte [off], the array
    holding [nrec] records: numpy converts an array of exactly one element
    and raises [ValueError] otherwise. *)
Definition item (buf : list byte) (nrec : nat) (d : DType) (off : nat) : PyResult Sample :=
  match d with
  | DArr t shape =>
      if Nat.eqb (nrec * numel shape) 1
      then Ok (SScalar (scalar_of_bytes t (take (scalar_itemsize t) (drop off buf))))
      else Raise ValueError
  | DStruct _ =>
      if Nat.eqb nrec 1 then item_record buf d off else Raise ValueError
  end.

Section NativizeLoops.
Context (f : DType -> nat -> Space -> PyResult Sample).
Context (d : DType) (off : nat).

(** [_nativize(sample[f'f{i}'], elem) for i, elem in enumerate(space)]. *)
Fixpoint nativize_tuple_items (i : nat) (spaces : list Space) : PyResult (list Sample) :=
  match spaces with
  | [] => Ok []
  | elem :: spaces' =>
      '(fd, o) ← getfield d (fname i);
      v ← f fd (off + o)%nat elem;
      vs ← nativize_tuple_items (S i) spaces';
      Ok (v :: vs)
  end.

(** [k: _nativize(sample[k], value) for k, value in space.items()]. *)
Fixpoint nativize_dict_items (spaces : list (string * Space))
  : PyResult (list (string * Sample)) :=
  match spaces with
  | [] => Ok []
  | (k, value) :: spaces' =>
      '(fd, o) ← getfield d k;
      v ← f fd (off + o)%nat value;
      vs ← nativize_dict_items spaces';
      Ok ((k, v) :: vs)
  end.
End NativizeLoops.

(** [_nativize(sample, space)], [sample] being the view of dtype [d] at byte
    [off] of a buffer of [nrec] records. *)
Fixpoint _nativize (buf : list byte) (nrec : nat) (d : DType) (off : nat) (space : Space)
  : PyResult Sample :=
  match space with
  | Tuple spaces =>
      vs ← nativize_tuple_items (_nativize buf nrec) d off 0%nat spaces;
      Ok (STuple vs)
  | Dict spaces =>
      vs ← nativize_dict_items (_nativize buf nrec) d off spaces;
      Ok (SDict vs)
  | _ => item buf nrec d off
  end.

(** [nativize(sample, sample_space, emulated_dtype)]: the view of the array
    as items of [emulated_dtype] is decoded from the array's memory. *)
Definition nativize (sample : ndarray) (sample_space : Space) (emulated_dtype : DType)
  : PyResult Sample :=
  nrec ← nd_view_records sample emulated_dtype;
  _nativize (array_bytes sample) nrec emulated_dtype 0%nat sample_space.

(** ** Conforming samples *)

Section ConformLoops.
Context (f : Sample -> Space -> bool).

Fixpoint conforms_tuple (items : list Sample) (spaces : list Space) : bool :=
  match items, spaces with
  | [], [] => true
  | v :: items', e :: spaces' => f v e && conforms_tuple items' spaces'
  | _, _ => false
  end.

Fixpoint conforms_dict (items : list (string * Sample)) (spaces : list (string * Space))
  : bool :=
  match items, spaces with
  | [], [] => true
  | (k, v) :: items', (k', e) :: spaces' =>
      bool_decide (k = k') && f v e && conforms_dict items' spaces'
  | _, _ => false
  end.
End ConformLoops.

(** [sample] has the structure of [space] and every leaf holds elements of
    the leaf's declared type and shape: a scalar where the shape is [()], an
    array of the declared shape otherwise.  A [dict] sample is listed in the
    declaration order of its space. *)
Fixpoint conforms (sample : Sample) (space : Space) : bool :=
  match sample with
  | STuple items =>
      match space with
      | Tuple spaces => conforms_tuple conforms items spaces
      | _ => false
      end
  | SDict items =>
      match space with
      | Dict spaces => conforms_dict conforms items spaces
      | _ => false
      end
  | SScalar v =>
      match space with
      | Tuple _ | Dict _ => false
      | _ => bool_decide (space_shape space = []) && in_range (space_dtype space) v
      end
  | SArr shape vals =>
      match space with
      | Tuple _ | Dict _ => false
      | _ =>
          bool_decide (shape = space_shape space ∧ shape ≠ []
                       ∧ length vals = numel shape)
          && forallb (in_range (space_dtype space)) vals
      end
  end.

(** A schema as Python can build it: the keys of a [Dict] are distinct. *)
Fixpoint wf_space (space : Space) : bool :=
  match space with
  | Tuple spaces => forallb wf_space spaces
  | Dict spaces =>
      bool_decide (NoDup (map fst spaces))
      && forallb (fun b => b) (map snd (dict_fields wf_space spaces))
  | _ => true
  end.

(** Every leaf of the schema is a single scalar (shape [()]). *)
Definition scalar_leaves (space : Space) : bool :=
  forallb (fun e => bool_decide (space_shape e = [])) (flatten_space space).

(** ** Array storage used by the adapters *)

Definition np_zeros (shape : list nat) (t : ScalarType) : ndarray :=
  NDArray t shape (replicate (numel shape) 0).

(** [a[i]] for an integer [i]: the [i]-th sub-array along the first axis. *)
Definition nd_row (a : ndarray) (i : nat) : PyResult ndarray :=
  match nd_shape a with
  | [] => Raise IndexError
  | n :: rest =>
      if (i <? n)%nat
      then Ok (NDArray (nd_dtype a) rest
                 (take (numel rest) (drop (i * numel rest) (nd_data a))))
      else Raise IndexError
  end.

(** The elements a leaf sample gives to a slot of type [t] and shape
    [shape]. *)
Definition leaf_elements (t : ScalarType) (shape : list nat) (ob : Sample)
  : PyResult (list Z) :=
  match ob with
  | SScalar v => Ok (replicate (numel shape) (cast t v))
  | SArr sh vals =>
      if decide (sh = shape ∧ length vals = numel shape)
      then Ok (map (cast t) vals)
      else Raise Unmodelled
  | _ => Raise Unmodelled
  end.

(** [a[i] = ...] with the new elements [row] of the sub-array. *)
Definition nd_set_row (a : ndarray) (i : nat) (row : list Z) : PyResult ndarray :=
  match nd_shape a with
  | [] => Raise IndexError
  | n :: rest =>
      if (i <? n)%nat
      then Ok (NDArray (nd_dtype a) (nd_shape a)
                 (take (i * numel rest) (nd_data a) ++ row
                  ++ drop (i * numel rest + numel rest) (nd_data a)))
      else Raise IndexError
  end.

(** [a[i] = 0]. *)
Definition nd_zero_row (a : ndarray) (i : nat) : PyResult ndarray :=
  nd_set_row a i (replicate (numel (tail (nd_shape a))) 0).

(** [a[i] = ob]. *)
Definition nd_assign_row (a : ndarray) (i : nat) (ob : Sample) : PyResult ndarray :=
  row ← leaf_elements (nd_dtype a) (tail (nd_shape a)) ob;
  nd_set_row a i row.

(** [a[:] = ob]. *)
Definition nd_assign_all (a : ndarray) (ob : Sample) : PyResult ndarray :=
  vals ← leaf_elements (nd_dtype a) (nd_shape a) ob;
  Ok (NDArray (nd_dtype a) (nd_shape a) vals).

(** [_emulate(view[i], ob)], where [view] is [a] seen as records of dtype
    [d], one record per index: the record at index [i] is rewritten in the
    memory of [a]. *)
Definition nd_emulate_record (a : ndarray) (d : DType) (i : nat) (ob : Sample)
  : PyResult ndarray :=
  buf ← _emulate d (i * itemsize d)%nat ob (array_bytes a);
  flat ← view_as (nd_dtype a) buf;
  Ok (NDArray (nd_dtype a) (nd_shape a) (nd_data flat)).

(** The externally supplied shared buffer: observation slots and the
    reward, done, truncated and mask scalars, one per slot. *)
Record Mem (Reward : Type) : Type := mkMem {
  m_obs : ndarray;
  m_rew : list Reward;
  m_done : list bool;
  m_trunc : list bool;
  m_mask : list bool
}.
Arguments mkMem {Reward}.
Arguments m_obs {Reward}.
Arguments m_rew {Reward}.
Arguments m_done {Reward}.
Arguments m_trunc {Reward}.
Arguments m_mask {Reward}.

(** [l[i] = x] on a numpy array: [IndexError] out of range. *)
Definition store {A : Type} (l : list A) (i : nat) (x : A) : PyResult (list A) :=
  if (i <? length l)%nat then Ok (<[i:=x]> l) else Raise IndexError.

(** [mem.rew[i] = r; mem.done[i] = d; mem.trunc[i] = t; mem.mask[i] = True]. *)
Definition mem_write {Reward : Type} (m : Mem Reward) (i : nat)
    (r : Reward) (d t : bool) : PyResult (Mem Reward) :=
  rew ← store (m_rew m) i r;
  dn ← store (m_done m) i d;
  tr ← store (m_trunc m) i t;
  mk ← store (m_mask m) i true;
  Ok (mkMem (m_obs m) rew dn tr mk).

(** ** Values, events and the state monad *)

(** What the adapters hand to a containment check or return as an
    observation: a numpy array or a nested native value. *)
Inductive PyVal : Type :=
  | VArray (a : ndarray)
  | VSample (s : Sample).

Inductive check_site : Set := ObservationCheck | ActionCheck.

(** The calls an adapter makes to its collaborators, in order: the wrapped
    environment's [reset] (with the seed keyword or without), [seed] and
    [step], [warnings.warn], and [space.contains] with the site of the
    check. *)
Inductive event : Type :=
  | EvReset (seed : option Z)
  | EvSeed (seed : Z)
  | EvStep
  | EvWarn
  | EvContains (site : check_site) (space : Space) (data : PyVal).

(** State passing with exceptions: a computation returns a value or raises,
    and leaves a state either way. *)
Definition M (S A : Type) : Type := S -> PyResult A * S.

Definition ret {S A : Type} (a : A) : M S A := fun s => (Ok a, s).
Definition bindM {S A B : Type} (m : M S A) (k : A -> M S B) : M S B := fun s =>
  match m s with
  | (Ok a, s') => k a s'
  | (Raise e, s') => (Raise e, s')
  end.

Notation "'let*' p := m 'in' k" := (bindM m (fun p => k))
  (at level 10, p pattern, m at level 100, k at level 200).

Definition raise {S A : Type} (e : exn) : M S A := fun s => (Raise e, s).
Definition lift {S A : Type} (r : PyResult A) : M S A := fun s => (r, s).
Definition gets {S A : Type} (f : S -> A) : M S A := fun s => (Ok (f s), s).
Definition modify {S : Type} (f : S -> S) : M S unit := fun s => (Ok tt, f s).

(** [try: m except: h]. *)
Definition try_except {S A : Type} (m h : M S A) : M S A := fun s =>
  match m s with
  | (Ok a, s') => (Ok a, s')
  | (Raise _, s') => h s'
  end.

(** The wrapped environment together with the record of calls made. *)
Record World (Env : Type) : Type := mkWorld {
  w_env : Env;
  w_trace : list event
}.
Arguments mkWorld {Env}.
Arguments w_env {Env}.
Arguments w_trace {Env}.

Definition emit {Env : Type} (ev : event) : M (World Env) unit :=
  modify (fun w => mkWorld (w_env w) (w_trace w ++ [ev])).

(** A method call on the wrapped environment. *)
Definition call {Env A : Type} (ev : event) (method : Env -> PyResult A * Env)
  : M (World Env) A := fun w =>
  let '(r, e') := method (w_env w) in
  (r, mkWorld e' (w_trace w ++ [ev])).

(** ** [check_space] *)

Section CheckSpace.
(** [space.contains(data)], gymnasium's containment test; it may raise. *)
Context (contains : Space -> PyVal -> PyResult bool).

Definition check_space {Env : Type} (site : check_site) (data : PyVal) (space : Space)
  : M (World Env) bool :=
  let* _ := emit (EvContains site space data) in
  match contains space data with
  | Raise _ => raise APIUsageError
  | Ok false => raise APIUsageError
  | Ok true => ret true
  end.
End CheckSpace.

(** ** [pad_agent_data] *)

Definition Agent : Type := string.

(** [{agent: data[agent] if agent in data else pad_value for agent in agents}]. *)
Definition pad_agent_data {A : Type} (data : gmap Agent A) (agents : list Agent)
    (pad_value : A) : gmap Agent A :=
  foldl (fun acc agent => <[agent := default pad_value (data !! agent)]> acc) ∅ agents.

(** ** [make_object] *)

(** What [make_object] asks of its first two arguments: an object given as
    [object_instance] with what [callable] and [inspect.isclass] say of it,
    and an object given as [object_creator] with what [callable] says of it
    and the result of calling it. *)
Record ObjectInstance (Env : Type) : Type := mkInstance {
  inst_callable : bool;
  inst_isclass : bool;
  inst_value : Env
}.
Arguments mkInstance {Env}.
Arguments inst_callable {Env}.
Arguments inst_isclass {Env}.
Arguments inst_value {Env}.

Record ObjectCreator (Env Arg : Type) : Type := mkCreator {
  creator_callable : bool;
  creator_call : list Arg -> list (string * Arg) -> PyResult Env
}.
Arguments mkCreator {Env Arg}.
Arguments creator_callable {Env Arg}.
Arguments creator_call {Env Arg}.

(** [make_object(object_instance, object_creator, creator_args,
    creator_kwargs)]; an argument that is [None] is [None] here.  The last
    branch is the end of the function body, which the first test makes
    unreachable. *)
Definition make_object {Env Arg : Type}
    (object_instance : option (ObjectInstance Env))
    (object_creator : option (ObjectCreator Env Arg))
    (creator_args : option (list Arg)) (creator_kwargs : option (list (string * Arg)))
  : PyResult Env :=
  if Bool.eqb (bool_decide (object_instance = None)) (bool_decide (object_creator = None))
  then Raise ValueError
  else
    match object_instance with
    | Some inst =>
        if inst_callable inst || inst_isclass inst then Raise TypeError
        else Ok (inst_value inst)
    | None =>
        match object_creator with
        | Some creator =>
            if negb (creator_callable creator) then Raise TypeError
            else creator_call creator (default [] creator_args)
                   (default [] creator_kwargs)
        | None => Raise Unmodelled
        end
    end.

(** ** The wrapped environments *)

(** A single-agent (gymnasium) environment: its spaces and its methods as
    transitions of its own state. [gym_reset None] is [env.reset()] and
    [gym_reset (Some s)] is [env.reset(seed=s)]. *)
Record GymEnv : Type := mkGymEnv {
  gym_state : Type;
  gym_info : Type;
  gym_reward : Type;
  gym_observation_space : Space;
  gym_action_space : Space;
  gym_reset : option Z -> gym_state -> PyResult (Sample * gym_info) * gym_state;
  gym_seed : Z -> gym_state -> PyResult unit * gym_state;
  gym_step : Sample -> gym_state
             -> PyResult (Sample * gym_reward * bool * bool * gym_info) * gym_state
}.

(** [_seed_and_reset(env, seed)]. *)
Definition _seed_and_reset (E : GymEnv) (seed : option Z)
  : M (World (gym_state E)) (Sample * gym_info E) :=
  match seed with
  | None => call (EvReset None) (gym_reset E None)
  | Some sd =>
      try_except
        (call (EvReset (Some sd)) (gym_reset E (Some sd)))
        (try_except
           (let* _ := call (EvSeed sd) (gym_seed E sd) in
            call (EvReset None) (gym_reset E None))
           (let* r := call (EvReset None) (gym_reset E None) in
            let* _ := emit EvWarn in
            ret r))
  end.

(** ** The single-agent adapter *)

Module GymnasiumPufferEnv.
Section Adapter.
Context (contains : Space -> PyVal -> PyResult bool).
Context (E : GymEnv).

(** The adapter object.  [world] is [self.env] with the record of calls;
    [obs_bound] says that [self.obs] is the view [self.mem.obs[0]] (then
    the elements live in [mem]) and [_obs] is the record view of
    [self.obs], given by its number of records once it exists. *)
Record t : Type := mk {
  world : World (gym_state E);
  initialized : bool;
  done : bool;
  is_observation_checked : bool;
  is_action_checked : bool;
  observation_space : Space;
  obs_dtype : DType;
  action_space : Space;
  atn_dtype : DType;
  is_obs_emulated : bool;
  is_atn_emulated : bool;
  mem : option (Mem (gym_reward E));
  obs : PyVal;
  obs_bound : bool;
  _obs : option nat
}.

Definition set_world (x : World (gym_state E)) (st : t) : t :=
  mk x (initialized st) (done st) (is_observation_checked st) (is_action_checked st) (observation_space st) (obs_dtype st) (action_space st) (atn_dtype st) (is_obs_emulated st) (is_atn_emulated st) (mem st) (obs st) (obs_bound st) (_obs st).

Definition set_initialized (x : bool) (st : t) : t :=
  mk (world st) x (done st) (is_observation_checked st) (is_action_checked st) (observation_space st) (obs_dtype st) (action_space st) (atn_dtype st) (is_obs_emulated st) (is_atn_emulated st) (mem st) (obs st) (obs_bound st) (_obs st).

Definition set_done (x : bool) (st : t) : t :=
  mk (world st) (initialized st) x (is_observation_checked st) (is_action_checked st) (observation_space st) (obs_dtype st) (action_space st) (atn_dtype st) (is_obs_emulated st) (is_atn_emulated st) (mem st) (obs st) (obs_bound st) (_obs st).

Definition set_is_observation_checked (x : bool) (st : t) : t :=
  mk (world st) (initialized st) (done st) x (is_action_checked st) (observation_space st) (obs_dtype st) (action_space st) (atn_dtype st) (is_obs_emulated st) (is_atn_emulated st) (mem st) (obs st) (obs_bound st) (_obs st).

Definition set_is_action_checked (x : bool) (st : t) : t :=
  mk (world st) (initialized st) (done st) (is_observation_checked st) x (observation_space st) (obs_dtype st) (action_space st) (atn_dtype st) (is_obs_emulated st) (is_atn_emulated st) (mem st) (obs st) (obs_bound st) (_obs st).

Definition set_mem (x : option (Mem (gym_reward E))) (st : t) : t :=
  mk (world st) (initialized st) (done st) (is_observation_checked st) (is_action_checked st) (observation_space st) (obs_dtype st) (action_space st) (atn_dtype st) (is_obs_emulated st) (is_atn_emulated st) x (obs st) (obs_bound st) (_obs st).

Definition set_obs (x : PyVal) (st : t) : t :=
  mk (world st) (initialized st) (done st) (is_observation_checked st) (is_action_checked st) (observation_space st) (obs_dtype st) (action_space st) (atn_dtype st) (is_obs_emulated st) (is_atn_emulated st) (mem st) x (obs_bound st) (_obs st).

Definition set_obs_bound (x : bool) (st : t) : t :=
  mk (world st) (initialized st) (done st) (is_observation_checked st) (is_action_checked st) (observation_space st) (obs_dtype st) (action_space st) (atn_dtype st) (is_obs_emulated st) (is_atn_emulated st) (mem st) (obs st) x (_obs st).

Definition set__obs (x : option nat) (st : t) : t :=
  mk (world st) (initialized st) (done st) (is_observation_checked st) (is_action_checked st) (observation_space st) (obs_dtype st) (action_space st) (atn_dtype st) (is_obs_emulated st) (is_atn_emulated st) (mem st) (obs st) (obs_bound st) x.

Definition zoom {A : Type} (m : M (World (gym_state E)) A) : M t A := fun st =>
  let '(r, w) := m (world st) in (r, set_world w st).

(** [__init__] on an environment instance. *)
Definition __init__ (env : gym_state E) : PyResult t :=
  '(observation_space, obs_dtype) ← emulate_observation_space (gym_observation_space E);
  '(action_space, atn_dtype) ← emulate_action_space (gym_action_space E);
  Ok (mk (mkWorld env []) false true false false
        observation_space obs_dtype action_space atn_dtype
        (negb (isinstance_Box (gym_observation_space E)))
        (negb (isinstance_Discrete (gym_action_space E)))
        None
        (VArray (np_zeros (space_shape observation_space) (space_dtype observation_space)))
        false None).

(** Binding to the shared buffer: the assignment [env.mem = m] made by the
    owner of the buffer. *)
Definition bind_mem (m : Mem (gym_reward E)) (st : t) : t := set_mem (Some m) st.

(** The array [self.obs] names. *)
Definition obs_array : M t ndarray := fun st =>
  if obs_bound st then
    match mem st with
    | Some m => (nd_row (m_obs m) 0, st)
    | None => (Raise AttributeError, st)
    end
  else
    match obs st with
    | VArray a => (Ok a, st)
    | VSample _ => (Raise Unmodelled, st)
    end.

(** Writing through [self.obs] when it is an array. *)
Definition put_obs_array (a : ndarray) : M t unit := fun st =>
  if obs_bound st then
    match mem st with
    | Some m =>
        match nd_set_row (m_obs m) 0 (nd_data a) with
        | Ok o => (Ok tt, set_mem (Some (mkMem o (m_rew m) (m_done m) (m_trunc m) (m_mask m))) st)
        | Raise e => (Raise e, st)
        end
    | None => (Raise AttributeError, st)
    end
  else (Ok tt, set_obs (VArray a) st).

(** The value of [self.obs]. *)
Definition read_obs : M t PyVal := fun st =>
  if obs_bound st then
    match mem st with
    | Some m =>
        match nd_row (m_obs m) 0 with
        | Ok a => (Ok (VArray a), st)
        | Raise e => (Raise e, st)
        end
    | None => (Raise AttributeError, st)
    end
  else (Ok (obs st), st).

(** [self._emulate(ob)]. *)
Definition _emulate_ob (ob : Sample) : M t unit :=
  let* emulated := gets is_obs_emulated in
  let* m := gets mem in
  if emulated then
    let* view := gets _obs in
    match view with
    | None => raise AttributeError
    | Some nrec =>
        if Nat.eqb nrec 1 then
          let* a := obs_array in
          let* d := gets obs_dtype in
          let* a' := lift (nd_emulate_record a d 0 ob) in
          put_obs_array a'
        else raise Unmodelled
    end
  else if bool_decide (is_Some m) then
    let* a := obs_array in
    let* a' := lift (nd_assign_all a ob) in
    put_obs_array a'
  else
    modify (set_obs (VSample ob)).

(** [seed]. *)
Definition seed (sd : Z) : M t unit :=
  zoom (call (EvSeed sd) (gym_seed E sd)).

(** The first-call part of [reset]: bind [self.obs] to slot 0 of the shared
    buffer and create the record view. *)
Definition reset_bind : M t unit :=
  let* m := gets mem in
  let* _ :=
    match m with
    | Some m =>
        match nd_shape (m_obs m) with
        | _ :: _ :: _ =>
            let* _ := lift (nd_row (m_obs m) 0) in
            modify (set_obs_bound true)
        | [_] => raise Unmodelled
        | [] => raise IndexError
        end
    | None => ret tt
    end in
  let* emulated := gets is_obs_emulated in
  if emulated then
    let* a := obs_array in
    let* d := gets obs_dtype in
    let* nrec := lift (nd_view_records a d) in
    modify (set__obs (Some nrec))
  else ret tt.

(** [if not self.is_observation_checked: ...] of [reset]. *)
Definition check_observation : M t unit :=
  let* checked := gets is_observation_checked in
  if negb checked then
    let* o := read_obs in
    let* space := gets observation_space in
    let* r := zoom (check_space contains ObservationCheck o space) in
    modify (set_is_observation_checked r)
  else ret tt.

(** [if not self.is_action_checked: ...] of [step]. *)
Definition check_action (action : Sample) : M t unit :=
  let* checked := gets is_action_checked in
  if negb checked then
    let* space := gets action_space in
    let* r := zoom (check_space contains ActionCheck (VSample action) space) in
    modify (set_is_action_checked r)
  else ret tt.

(** [reset]. *)
Definition reset (sd : option Z) : M t (PyVal * gym_info E) :=
  let* init := gets initialized in
  let* _ := (if negb init then reset_bind else ret tt) in
  let* _ := modify (set_initialized true) in
  let* _ := modify (set_done false) in
  let* (ob, info) := zoom (_seed_and_reset E sd) in
  let* _ := _emulate_ob ob in
  let* _ := check_observation in
  let* o := read_obs in
  ret (o, info).

(** The part of [step] after the action check: the environment is stepped
    with the native action and its results are stored. *)
Definition step_env (action : Sample)
  : M t (PyVal * gym_reward E * bool * bool * gym_info E) :=
  let* (ob, reward, dn, truncated, info) := zoom (call EvStep (gym_step E action)) in
  let* _ := _emulate_ob ob in
  let* m := gets mem in
  let* _ :=
    match m with
    | Some m =>
        let* m' := lift (mem_write m 0 reward dn truncated) in
        modify (set_mem (Some m'))
    | None => ret tt
    end in
  let* _ := modify (set_done dn) in
  let* o := read_obs in
  ret (o, reward, dn, truncated, info).

(** [step]. *)
Definition step (action : ndarray)
  : M t (PyVal * gym_reward E * bool * bool * gym_info E) :=
  let* init := gets initialized in
  if negb init then raise APIUsageError else
  let* dn := gets done in
  if dn then raise APIUsageError else
  let* d := gets atn_dtype in
  let* action := lift (nativize action (gym_action_space E) d) in
  let* _ := check_action action in
  step_env action.
End Adapter.
End GymnasiumPufferEnv.

(** ** The multi-agent adapter *)

(** A multi-agent (PettingZoo parallel) environment.  [pz_possible_agents]
    is the fixed population, [pz_agents] the currently active agents;
    [pz_zero] is the reward [0].  The mappings a method returns may omit
    agents. *)
Record PettingZooEnv : Type := mkPettingZooEnv {
  pz_state : Type;
  pz_info : Type;
  pz_reward : Type;
  pz_zero : pz_reward;
  pz_possible_agents : list Agent;
  pz_agents : pz_state -> list Agent;
  pz_observation_space : Agent -> Space;
  pz_action_space : Agent -> Space;
  pz_reset : option Z -> pz_state -> PyResult (gmap Agent Sample * pz_info) * pz_state;
  pz_step : gmap Agent PyVal -> pz_state
            -> PyResult (gmap Agent Sample * gmap Agent pz_reward
                         * gmap Agent bool * gmap Agent bool * pz_info) * pz_state
}.

(** The [actions] argument of the multi-agent [step]: a dense array, one row
    per possible agent, or a mapping from agents to flat actions. *)
Inductive Actions : Type :=
  | ActArray (a : ndarray)
  | ActDict (items : list (Agent * ndarray)).

(** A value of [dict_obs]: the view [self.obs[i]] of a row of the
    observation array, or a value held by the dictionary itself. *)
Inductive ObsRef : Type :=
  | RowView (i : nat)
  | Held (v : PyVal).

(** [d[k] = v] on an insertion-ordered dictionary. *)
Fixpoint alist_set {A : Type} (k : Agent) (v : A) (l : list (Agent * A)) : list (Agent * A) :=
  match l with
  | [] => [(k, v)]
  | (k', v') :: l' => if decide (k = k') then (k, v) :: l' else (k', v') :: alist_set k v l'
  end.

(** [all(d.values())]. *)
Definition all_values (d : gmap Agent bool) : bool :=
  forallb (fun kv => snd kv) (map_to_list d).

Module PettingZooPufferEnv.
Section Adapter.
Context (contains : Space -> PyVal -> PyResult bool).
Context (E : PettingZooEnv).

(** The adapter object.  [obs_bound] says that [self.obs] is the shared
    buffer's [mem.obs]; [_obs] is the record view of [self.obs] reshaped to
    one row per agent, given by the number of records per row. *)
Record t : Type := mk {
  world : World (pz_state E);
  to_puffer : bool;
  initialized : bool;
  all_done : bool;
  is_observation_checked : bool;
  is_action_checked : bool;
  single_observation_space : Space;
  obs_dtype : DType;
  single_action_space : Space;
  atn_dtype : DType;
  is_obs_emulated : bool;
  is_atn_emulated : bool;
  num_agents : nat;
  mem : option (Mem (pz_reward E));
  obs : ndarray;
  obs_bound : bool;
  _obs : option nat;
  dict_obs : gmap Agent ObsRef;
  mask : gmap Agent bool
}.

Definition set_world (x : World (pz_state E)) (st : t) : t :=
  mk x (to_puffer st) (initialized st) (all_done st) (is_observation_checked st)
    (is_action_checked st) (single_observation_space st) (obs_dtype st)
    (single_action_space st) (atn_dtype st) (is_obs_emulated st) (is_atn_emulated st)
    (num_agents st) (mem st) (obs st) (obs_bound st) (_obs st) (dict_obs st) (mask st).

Definition set_initialized (x : bool) (st : t) : t :=
  mk (world st) (to_puffer st) x (all_done st) (is_observation_checked st)
    (is_action_checked st) (single_observation_space st) (obs_dtype st)
    (single_action_space st) (atn_dtype st) (is_obs_emulated st) (is_atn_emulated st)
    (num_agents st) (mem st) (obs st) (obs_bound st) (_obs st) (dict_obs st) (mask st).

Definition set_all_done (x : bool) (st : t) : t :=
  mk (world st) (to_puffer st) (initialized st) x (is_observation_checked st)
    (is_action_checked st) (single_observation_space st) (obs_dtype st)
    (single_action_space st) (atn_dtype st) (is_obs_emulated st) (is_atn_emulated st)
    (num_agents st) (mem st) (obs st) (obs_bound st) (_obs st) (dict_obs st) (mask st).

Definition set_is_observation_checked (x : bool) (st : t) : t :=
  mk (world st) (to_puffer st) (initialized st) (all_done st) x (is_action_checked st)
    (single_observation_space st) (obs_dtype st) (single_action_space st) (atn_dtype
    st) (is_obs_emulated st) (is_atn_emulated st) (num_agents st) (mem st) (obs st)
    (obs_bound st) (_obs st) (dict_obs st) (mask st).

Definition set_is_action_checked (x : bool) (st : t) : t :=
  mk (world st) (to_puffer st) (initialized st) (all_done st) (is_observation_checked
    st) x (single_observation_space st) (obs_dtype st) (single_action_space st)
    (atn_dtype st) (is_obs_emulated st) (is_atn_emulated st) (num_agents st) (mem st)
    (obs st) (obs_bound st) (_obs st) (dict_obs st) (mask st).

Definition set_mem (x : option (Mem (pz_reward E))) (st : t) : t :=
  mk (world st) (to_puffer st) (initialized st) (all_done st) (is_observation_checked
    st) (is_action_checked st) (single_observation_space st) (obs_dtype st)
    (single_action_space st) (atn_dtype st) (is_obs_emulated st) (is_atn_emulated st)
    (num_agents st) x (obs st) (obs_bound st) (_obs st) (dict_obs st) (mask st).

Definition set_obs (x : ndarray) (st : t) : t :=
  mk (world st) (to_puffer st) (initialized st) (all_done st) (is_observation_checked
    st) (is_action_checked st) (single_observation_space st) (obs_dtype st)
    (single_action_space st) (atn_dtype st) (is_obs_emulated st) (is_atn_emulated st)
    (num_agents st) (mem st) x (obs_bound st) (_obs st) (dict_obs st) (mask st).

Definition set_obs_bound (x : bool) (st : t) : t :=
  mk (world st) (to_puffer st) (initialized st) (all_done st) (is_observation_checked
    st) (is_action_checked st) (single_observation_space st) (obs_dtype st)
    (single_action_space st) (atn_dtype st) (is_obs_emulated st) (is_atn_emulated st)
    (num_agents st) (mem st) (obs st) x (_obs st) (dict_obs st) (mask st).

Definition set__obs (x : option nat) (st : t) : t :=
  mk (world st) (to_puffer st) (initialized st) (all_done st) (is_observation_checked
    st) (is_action_checked st) (single_observation_space st) (obs_dtype st)
    (single_action_space st) (atn_dtype st) (is_obs_emulated st) (is_atn_emulated st)
    (num_agents st) (mem st) (obs st) (obs_bound st) x (dict_obs st) (mask st).

Definition set_dict_obs (x : gmap Agent ObsRef) (st : t) : t :=
  mk (world st) (to_puffer st) (initialized st) (all_done st) (is_observation_checked
    st) (is_action_checked st) (single_observation_space st) (obs_dtype st)
    (single_action_space st) (atn_dtype st) (is_obs_emulated st) (is_atn_emulated st)
    (num_agents st) (mem st) (obs st) (obs_bound st) (_obs st) x (mask st).

Definition set_mask (x : gmap Agent bool) (st : t) : t :=
  mk (world st) (to_puffer st) (initialized st) (all_done st) (is_observation_checked
    st) (is_action_checked st) (single_observation_space st) (obs_dtype st)
    (single_action_space st) (atn_dtype st) (is_obs_emulated st) (is_atn_emulated st)
    (num_agents st) (mem st) (obs st) (obs_bound st) (_obs st) (dict_obs st) x.

Definition zoom {A : Type} (m : M (World (pz_state E)) A) : M t A := fun st =>
  let '(r, w) := m (world st) in (r, set_world w st).

(** The properties [agents], [possible_agents] and [done]. *)
Definition agents (st : t) : list Agent := pz_agents E (w_env (world st)).
Definition possible_agents : list Agent := pz_possible_agents E.
Definition done (st : t) : bool :=
  Nat.eqb (length (agents st)) 0 || all_done st.

(** [__init__] on an environment instance. *)
Definition __init__ (env : pz_state E) (to_puffer : bool) : PyResult t :=
  match possible_agents with
  | [] => Raise IndexError
  | single_agent :: _ =>
      let single_observation_space := pz_observation_space E single_agent in
      let single_action_space := pz_action_space E single_agent in
      '(observation_space, obs_dtype) ← emulate_observation_space single_observation_space;
      '(action_space, atn_dtype) ← emulate_action_space single_action_space;
      Ok (mk (mkWorld env []) to_puffer false true false false
            observation_space obs_dtype action_space atn_dtype
            (negb (isinstance_Box single_observation_space))
            (negb (isinstance_Discrete single_action_space))
            (length possible_agents)
            None
            (np_zeros (space_shape observation_space) (space_dtype observation_space))
            false None ∅ ∅)
  end.

Definition bind_mem (m : Mem (pz_reward E)) (st : t) : t := set_mem (Some m) st.

(** [observation_space(agent)] and [action_space(agent)]. *)
Definition observation_space (agent : Agent) (st : t) : PyResult Space :=
  if bool_decide (agent ∈ possible_agents) then Ok (single_observation_space st)
  else Raise InvalidAgentError.

Definition action_space (agent : Agent) (st : t) : PyResult Space :=
  if bool_decide (agent ∈ possible_agents) then Ok (single_action_space st)
  else Raise InvalidAgentError.

(** The array [self.obs] names. *)
Definition obs_array : M t ndarray := fun st =>
  if obs_bound st then
    match mem st with
    | Some m => (Ok (m_obs m), st)
    | None => (Raise AttributeError, st)
    end
  else (Ok (obs st), st).

Definition put_obs_array (a : ndarray) : M t unit := fun st =>
  if obs_bound st then
    match mem st with
    | Some m =>
        (Ok tt, set_mem (Some (mkMem a (m_rew m) (m_done m) (m_trunc m) (m_mask m))) st)
    | None => (Raise AttributeError, st)
    end
  else (Ok tt, set_obs a st).

(** [self._emulate(ob, i, agent)]. *)
Definition _emulate_ob (ob : Sample) (i : nat) (agent : Agent) : M t unit :=
  let* emulated := gets is_obs_emulated in
  let* m := gets mem in
  if emulated then
    let* view := gets _obs in
    match view with
    | None => raise AttributeError
    | Some per =>
        let* n := gets num_agents in
        if negb (i <? n)%nat then raise IndexError
        else if negb (Nat.eqb per 1) then raise Unmodelled
        else
          let* a := obs_array in
          let* d := gets obs_dtype in
          let* a' := lift (nd_emulate_record a d i ob) in
          put_obs_array a'
    end
  else if bool_decide (is_Some m) then
    let* a := obs_array in
    let* a' := lift (nd_assign_row a i ob) in
    put_obs_array a'
  else
    modify (fun st => set_dict_obs (<[agent := Held (VSample ob)]> (dict_obs st)) st).

(** [self.obs[i]] as a value of [dict_obs]: a view when the array has two
    axes or more, a copied scalar when it has one. *)
Definition row_ref (a : ndarray) (i : nat) : PyResult ObsRef :=
  match nd_shape a with
  | [] => Raise IndexError
  | [_] => r ← nd_row a i; Ok (Held (VArray r))
  | _ :: _ :: _ => _ ← nd_row a i; Ok (RowView i)
  end.

(** [{agent: self.obs[i] for i, agent in enumerate(self.possible_agents)}]. *)
Fixpoint make_dict_obs (a : ndarray) (i : nat) (l : list Agent) (acc : gmap Agent ObsRef)
  : PyResult (gmap Agent ObsRef) :=
  match l with
  | [] => Ok acc
  | agent :: l' =>
      r ← row_ref a i;
      make_dict_obs a (S i) l' (<[agent := r]> acc)
  end.

(** The first-call part of [reset]. *)
Definition reset_bind : M t unit :=
  let* m := gets mem in
  let* _ :=
    match m with
    | Some _ => modify (set_obs_bound true)
    | None => ret tt
    end in
  let* emulated := gets is_obs_emulated in
  let* _ :=
    (if emulated then
       let* a := obs_array in
       let* d := gets obs_dtype in
       let* n := gets num_agents in
       let* nrec := lift (nd_view_records a d) in
       if Nat.eqb n 0 || negb (Nat.eqb (nrec mod n) 0) then raise ValueError
       else modify (set__obs (Some (nrec / n)%nat))
     else ret tt) in
  let* a := obs_array in
  let* d := lift (make_dict_obs a 0 possible_agents ∅) in
  modify (set_dict_obs d).

(** The value a [dict_obs] entry denotes. *)
Definition deref (a : ndarray) (r : ObsRef) : PyResult PyVal :=
  match r with
  | RowView i => row ← nd_row a i; Ok (VArray row)
  | Held v => Ok v
  end.

(** [self.dict_obs] as the caller sees it. *)
Definition read_dict_obs : M t (gmap Agent PyVal) :=
  let* a := obs_array in
  let* d := gets dict_obs in
  ret (omap (fun r => match deref a r with Ok v => Some v | Raise _ => None end) d).

(** [{k: False for k in self.possible_agents}]. *)
Definition mask_all_false : gmap Agent bool :=
  foldl (fun acc k => <[k := false]> acc) ∅ possible_agents.

(** The loop of [reset] over the possible agents, from index [i].  For an
    agent that the environment left out the code assigns to
    [self.observation[i]], an attribute the adapter does not have. *)
Fixpoint reset_agents (obs : gmap Agent Sample) (i : nat) (l : list Agent) : M t unit :=
  match l with
  | [] => ret tt
  | agent :: l' =>
      match obs !! agent with
      | None => raise AttributeError
      | Some ob =>
          let* _ := _emulate_ob ob i agent in
          let* _ := modify (fun st => set_mask (<[agent := true]> (mask st)) st) in
          reset_agents obs (S i) l'
      end
  end.

(** [if not self.is_observation_checked: ...] of [reset]: the check is made
    on the observation of the first possible agent. *)
Definition check_observation : M t unit :=
  let* checked := gets is_observation_checked in
  if negb checked then
    match possible_agents with
    | [] => raise IndexError
    | first :: _ =>
        let* d := gets dict_obs in
        match d !! first with
        | None => raise KeyError
        | Some r =>
            let* a := obs_array in
            let* o := lift (deref a r) in
            let* space := gets single_observation_space in
            let* r := zoom (check_space contains ObservationCheck o space) in
            modify (set_is_observation_checked r)
        end
    end
  else ret tt.

(** [if not self.is_action_checked: ...] of [step]: the check is made on
    [next(iter(actions.values()))]. *)
Definition check_action (actions : list (Agent * ndarray)) : M t unit :=
  let* checked := gets is_action_checked in
  if negb checked then
    match actions with
    | [] => raise StopIteration
    | (_, atn) :: _ =>
        let* space := gets single_action_space in
        let* r := zoom (check_space contains ActionCheck (VArray atn) space) in
        modify (set_is_action_checked r)
    end
  else ret tt.

(** [reset]. *)
Definition reset (sd : option Z) : M t (gmap Agent PyVal * pz_info E) :=
  let* init := gets initialized in
  let* _ := (if negb init then reset_bind else ret tt) in
  let* _ := modify (set_initialized true) in
  let* _ := modify (set_all_done false) in
  let* _ := modify (set_mask mask_all_false) in
  let* (obs, info) := zoom (call (EvReset sd) (pz_reset E sd)) in
  let* _ := reset_agents obs 0 possible_agents in
  let* _ := check_observation in
  let* d := read_dict_obs in
  ret (d, info).

(** [{agent: actions[i] for i, agent in enumerate(self.possible_agents)}]. *)
Fixpoint actions_of_array (a : ndarray) (i : nat) (l : list Agent)
    (acc : list (Agent * ndarray)) : PyResult (list (Agent * ndarray)) :=
  match l with
  | [] => Ok acc
  | agent :: l' =>
      row ← nd_row a i;
      actions_of_array a (S i) l' (alist_set agent row acc)
  end.

(** The loop that unpacks the actions of the active agents. *)
Fixpoint unpack_actions (st : t) (items : list (Agent * ndarray))
    (unpacked_actions : gmap Agent PyVal) : PyResult (gmap Agent PyVal) :=
  match items with
  | [] => Ok unpacked_actions
  | (agent, atn) :: items' =>
      if negb (bool_decide (agent ∈ possible_agents)) then Raise InvalidAgentError
      else if negb (bool_decide (agent ∈ agents st)) then
        unpack_actions st items' unpacked_actions
      else
        atn' ← (if is_atn_emulated st
                then s ← nativize atn (single_action_space st) (atn_dtype st);
                     Ok (VSample s)
                else Ok (VArray atn));
        unpack_actions st items' (<[agent := atn']> unpacked_actions)
  end.

(** The loop of [step] over the possible agents, from index [i]. *)
Fixpoint step_agents (obs : gmap Agent Sample) (rewards : gmap Agent (pz_reward E))
    (dones truncateds : gmap Agent bool) (i : nat) (l : list Agent) : M t unit :=
  match l with
  | [] => ret tt
  | agent :: l' =>
      let* _ :=
        match obs !! agent with
        | None =>
            let* a := obs_array in
            let* a' := lift (nd_zero_row a i) in
            put_obs_array a'
        | Some ob =>
            let* _ := modify (fun st => set_mask (<[agent := true]> (mask st)) st) in
            let* _ := _emulate_ob ob i agent in
            let* m := gets mem in
            match m with
            | None => ret tt
            | Some m =>
                match rewards !! agent, dones !! agent, truncateds !! agent with
                | Some r, Some d, Some tr =>
                    let* m' := lift (mem_write m i r d tr) in
                    modify (set_mem (Some m'))
                | _, _, _ => raise KeyError
                end
            end
        end in
      step_agents obs rewards dones truncateds (S i) l'
  end.

(** The part of [step] after the action check: the actions of the active
    agents are unpacked, the environment is stepped, and its results are
    stored and padded. *)
Definition step_env (actions : list (Agent * ndarray))
  : M t (gmap Agent PyVal * gmap Agent (pz_reward E) * gmap Agent bool
         * gmap Agent bool * pz_info E) :=
  let* st := gets (fun st => st) in
  let* unpacked_actions := lift (unpack_actions st actions ∅) in
  let* (obs, rewards, dones, truncateds, infos) :=
    zoom (call EvStep (pz_step E unpacked_actions)) in
  let* _ := modify (set_mask mask_all_false) in
  let* _ := step_agents obs rewards dones truncateds 0 possible_agents in
  let* _ := modify (set_all_done (all_values dones)) in
  let rewards := pad_agent_data rewards possible_agents (pz_zero E) in
  let dones := pad_agent_data dones possible_agents false in
  let truncateds := pad_agent_data truncateds possible_agents false in
  let* d := read_dict_obs in
  ret (d, rewards, dones, truncateds, infos).

(** [step]. *)
Definition step (actions : Actions)
  : M t (gmap Agent PyVal * gmap Agent (pz_reward E) * gmap Agent bool
         * gmap Agent bool * pz_info E) :=
  let* init := gets initialized in
  if negb init then raise APIUsageError else
  let* dn := gets done in
  if dn then raise APIUsageError else
  let* actions :=
    match actions with
    | ActArray a => lift (actions_of_array a 0 possible_agents [])
    | ActDict items => ret items
    end in
  let* _ := check_action actions in
  step_env actions.
End Adapter.
End PettingZooPufferEnv.

(** ** Histories of calls *)

(** A caller drives an adapter by a sequence of [reset] and [step] calls
    and may catch what they raise; the adapter is then in the state the
    calls left. *)
Inductive gym_call : Type :=
  | GymReset (sd : option Z)
  | GymStep (action : ndarray).

Definition gym_exec (contains : Space -> PyVal -> PyResult bool) (E : GymEnv)
    (c : gym_call) (st : GymnasiumPufferEnv.t E) : GymnasiumPufferEnv.t E :=
  match c with
  | GymReset sd => snd (GymnasiumPufferEnv.reset contains E sd st)
  | GymStep action => snd (GymnasiumPufferEnv.step contains E action st)
  end.

Definition gym_run (contains : Space -> PyVal -> PyResult bool) (E : GymEnv)
    (cs : list gym_call) (st : GymnasiumPufferEnv.t E) : GymnasiumPufferEnv.t E :=
  foldl (fun st c => gym_exec contains E c st) st cs.

Inductive pz_call : Type :=
  | PzReset (sd : option Z)
  | PzStep (actions : Actions).

Definition pz_exec (contains : Space -> PyVal -> PyResult bool) (E : PettingZooEnv)
    (c : pz_call) (st : PettingZooPufferEnv.t E) : PettingZooPufferEnv.t E :=
  match c with
  | PzReset sd => snd (PettingZooPufferEnv.reset contains E sd st)
  | PzStep actions => snd (PettingZooPufferEnv.step contains E actions st)
  end.

Definition pz_run (contains : Space -> PyVal -> PyResult bool) (E : PettingZooEnv)
    (cs : list pz_call) (st : PettingZooPufferEnv.t E) : PettingZooPufferEnv.t E :=
  foldl (fun st c => pz_exec contains E c st) st cs.

(** ** Example environments *)

(** A single-agent environment without seeding support: [reset] rejects the
    [seed] keyword, there is no [seed] method, and every step ends the
    episode.  Its state counts the resets. *)
Definition legacy_env : GymEnv := {|
  gym_state := nat;
  gym_info := unit;
  gym_reward := Z;
  gym_observation_space := Box 0 255 [2%nat] uint8;
  gym_action_space := Discrete 2;
  gym_reset := fun sd n =>
    match sd with
    | Some _ => (Raise TypeError, n)
    | None => (Ok (SArr [2%nat] [0; 0], tt), S n)
    end;
  gym_seed := fun _ n => (Raise AttributeError, n);
  gym_step := fun _ n => (Ok (SArr [2%nat] [1; 2], 1, true, false, tt), n)
|}.

(** Two-agent environments that follow a script: [reset] returns the
    observations [reset_obs]; every [step] returns an observation, a reward
    and a truncation flag for ["a"] only, the done flags [dones], and leaves
    the agents [active] active.  The state is the list of active agents. *)
Definition scripted_env (reset_obs : gmap Agent Sample) (dones : gmap Agent bool)
    (active : list Agent) : PettingZooEnv := {|
  pz_state := list Agent;
  pz_info := unit;
  pz_reward := Z;
  pz_zero := 0;
  pz_possible_agents := ["a"; "b"];
  pz_agents := fun agents => agents;
  pz_observation_space := fun _ => Box 0 255 [2%nat] uint8;
  pz_action_space := fun _ => Discrete 2;
  pz_reset := fun _ _ => (Ok (reset_obs, tt), ["a"; "b"]);
  pz_step := fun _ _ =>
    (Ok ({["a" := SArr [2%nat] [3; 3]]}, {["a" := 5]}, dones, {["a" := false]}, tt),
     active)
|}.

Definition both_obs : gmap Agent Sample :=
  {["a" := SArr [2%nat] [1; 1]; "b" := SArr [2%nat] [2; 2]]}.

(** Agent ["b"] leaves at the first step and the results omit it. *)
Definition duo_env : PettingZooEnv :=
  scripted_env both_obs {["a" := false]} ["a"].

(** The done mapping still lists the departed agent ["b"], as not done,
    while the remaining agent ["a"] is done. *)
Definition stale_env : PettingZooEnv :=
  scripted_env both_obs {["a" := true; "b" := false]} ["a"].

(** Every agent is reported done and none remains active. *)
Definition final_env : PettingZooEnv :=
  scripted_env both_obs {["a" := true; "b" := true]} [].

(** The reset result omits agent ["b"]. *)
Definition late_env : PettingZooEnv :=
  scripted_env {["a" := SArr [2%nat] [1; 1]]} {["a" := false]} ["a"].

(** One flat action for each of the two agents. *)
Definition two_actions : Actions :=
  ActDict [("a", NDArray int64 [] [1]); ("b", NDArray int64 [] [0])].

(** A single-agent environment whose actions are pairs of discrete
    choices, so that the adapter flattens them. *)
Definition pair_env : GymEnv := {|
  gym_state := nat;
  gym_info := unit;
  gym_reward := Z;
  gym_observation_space := Box 0 255 [2%nat] uint8;
  gym_action_space := Tuple [Discrete 2; Discrete 3];
  gym_reset := fun _ n => (Ok (SArr [2%nat] [0; 0], tt), S n);
  gym_seed := fun _ n => (Ok tt, n);
  gym_step := fun _ n => (Ok (SArr [2%nat] [1; 2], 1, false, false, tt), n)
|}.

(** An environment whose [reset] always raises. *)
Definition unready_env : GymEnv := {|
  gym_state := nat;
  gym_info := unit;
  gym_reward := Z;
  gym_observation_space := Box 0 255 [2%nat] uint8;
  gym_action_space := Discrete 2;
  gym_reset := fun _ n => (Raise EnvError, n);
  gym_seed := fun _ n => (Ok tt, n);
  gym_step := fun _ n => (Ok (SArr [2%nat] [1; 2], 1, false, false, tt), S n)
|}.

(** A multi-agent environment whose actions are keyed: a [Dict] of two
    discrete choices. *)
Definition keyed_env : PettingZooEnv := {|
  pz_state := list Agent;
  pz_info := unit;
  pz_reward := Z;
  pz_zero := 0;
  pz_possible_agents := ["a"];
  pz_agents := fun agents => agents;
  pz_observation_space := fun _ => Box 0 255 [2%nat] uint8;
  pz_action_space := fun _ => Dict [("move", Discrete 4); ("fire", Discrete 2)];
  pz_reset := fun _ _ => (Ok ({["a" := SArr [2%nat] [1; 1]]}, tt), ["a"]);
  pz_step := fun _ _ =>
    (Ok ({["a" := SArr [2%nat] [3; 3]]}, {["a" := 5]}, {["a" := false]},
         {["a" := false]}, tt), ["a"])
|}.

(** A single-agent environment whose observations are keyed: a position of
    two coordinates and an identifier, all 32-bit integers. *)
Definition keyed_obs_env : GymEnv := {|
  gym_state := nat;
  gym_info := unit;
  gym_reward := Z;
  gym_observation_space :=
    Dict [("pos", Box (-10) 10 [2%nat] int32); ("id", Box 0 5 [] int32)];
  gym_action_space := Discrete 2;
  gym_reset := fun _ n =>
    (Ok (SDict [("pos", SArr [2%nat] [3; -4]); ("id", SScalar 5)], tt), S n);
  gym_seed := fun _ n => (Ok tt, n);
  gym_step := fun _ n =>
    (Ok (SDict [("pos", SArr [2%nat] [1; 1]); ("id", SScalar 0)], 1, false, false, tt), n)
|}.

(** Two agents whose observations are keyed. *)
Definition keyed_obs_duo_env : PettingZooEnv := {|
  pz_state := list Agent;
  pz_info := unit;
  pz_reward := Z;
  pz_zero := 0;
  pz_possible_agents := ["a"; "b"];
  pz_agents := fun agents => agents;
  pz_observation_space := fun _ =>
    Dict [("pos", Box (-10) 10 [2%nat] int32); ("id", Box 0 5 [] int32)];
  pz_action_space := fun _ => Discrete 2;
  pz_reset := fun _ _ =>
    (Ok ({["a" := SDict [("pos", SArr [2%nat] [3; -4]); ("id", SScalar 5)];
           "b" := SDict [("pos", SArr [2%nat] [0; 0]); ("id", SScalar 1)]]}, tt),
     ["a"; "b"]);
  pz_step := fun _ agents => (Raise EnvError, agents)
|}.

(** A population whose agents do not share their spaces: agent ["b"]
    observes three values and chooses among five actions, agent ["a"]
    observes two values and chooses between two actions. *)
Definition mixed_env : PettingZooEnv := {|
  pz_state := list Agent;
  pz_info := unit;
  pz_reward := Z;
  pz_zero := 0;
  pz_possible_agents := ["a"; "b"];
  pz_agents := fun agents => agents;
  pz_observation_space := fun agent =>
    if decide (agent = "a") then Box 0 255 [2%nat] uint8 else Box 0 255 [3%nat] uint8;
  pz_action_space := fun agent =>
    if decide (agent = "a") then Discrete 2 else Discrete 5;
  pz_reset := fun _ _ => (Ok (both_obs, tt), ["a"; "b"]);
  pz_step := fun _ _ =>
    (Ok ({["a" := SArr [2%nat] [3; 3]]}, {["a" := 5]}, {["a" := false]},
         {["a" := false]}, tt), ["a"])
|}.

(** The termination of this environment depends on the action: the episode
    ends for both agents exactly when agent ["a"] plays [1]; both agents
    stay active. *)
Definition choice_env : PettingZooEnv := {|
  pz_state := list Agent;
  pz_info := unit;
  pz_reward := Z;
  pz_zero := 0;
  pz_possible_agents := ["a"; "b"];
  pz_agents := fun agents => agents;
  pz_observation_space := fun _ => Box 0 255 [2%nat] uint8;
  pz_action_space := fun _ => Discrete 2;
  pz_reset := fun _ _ => (Ok (both_obs, tt), ["a"; "b"]);
  pz_step := fun unpacked agents =>
    let stop :=
      match unpacked !! "a" with
      | Some (VArray a) => bool_decide (nd_data a = [1])
      | _ => false
      end in
    (Ok (both_obs, {["a" := 1; "b" := 1]}, {["a" := stop; "b" := stop]},
         {["a" := false; "b" := false]}, tt), agents)
|}.

(** Both agents play [0]. *)
Definition idle_actions : Actions :=
  ActDict [("a", NDArray int64 [] [0]); ("b", NDArray int64 [] [0])].

(** A single-agent environment whose observations tell the resets apart:
    the first element of the observation a reset returns counts the resets
    made before. *)
Definition counting_env : GymEnv := {|
  gym_state := nat;
  gym_info := unit;
  gym_reward := Z;
  gym_observation_space := Box 0 255 [2%nat] uint8;
  gym_action_space := Tuple [Discrete 2; Discrete 3];
  gym_reset := fun _ n => (Ok (SArr [2%nat] [Z.of_nat n; 0], tt), S n);
  gym_seed := fun _ n => (Ok tt, n);
  gym_step := fun _ n => (Ok (SArr [2%nat] [7; 7], 1, false, false, tt), n)
|}.

(** A single-agent environment whose first [reset] raises; later resets
    return an observation that counts the resets made before. *)
Definition flaky_env : GymEnv := {|
  gym_state := nat;
  gym_info := unit;
  gym_reward := Z;
  gym_observation_space := Box 0 255 [2%nat] uint8;
  gym_action_space := Tuple [Discrete 2; Discrete 3];
  gym_reset := fun _ n =>
    match n with
    | O => (Raise EnvError, S n)
    | S _ => (Ok (SArr [2%nat] [Z.of_nat n; 0], tt), S n)
    end;
  gym_seed := fun _ n => (Ok tt, n);
  gym_step := fun _ n => (Ok (SArr [2%nat] [7; 7], 1, false, false, tt), n)
|}.

(** Every value lies within the bounds. *)
Definition in_bounds (lo hi : Z) (vals : list Z) : bool :=
  forallb (fun v => (lo <=? v) && (v <=? hi)) vals.

(** There is one value per entry of [nvec], each one of the entry's
    choices. *)
Definition in_choices (nvec vals : list Z) : bool :=
  Nat.eqb (length vals) (length nvec)
  && forallb (fun vn => (0 <=? fst vn) && (fst vn <? snd vn)) (zip vals nvec).

(** A containment test that can say no, for the examples: an array or a
    nested array is in a [Box] when it has the shape of the box and its
    elements lie within the bounds, a number is in a [Discrete] space when
    it is one of its choices, and an array or a tuple of numbers is in a
    [MultiDiscrete] space when it has one choice per entry. *)
Definition contains_bounds (space : Space) (data : PyVal) : PyResult bool :=
  match space, data with
  | Box lo hi shape _, VArray a =>
      Ok (bool_decide (nd_shape a = shape) && in_bounds lo hi (nd_data a))
  | Box lo hi shape _, VSample (SArr sh vals) =>
      Ok (bool_decide (sh = shape) && in_bounds lo hi vals)
  | Discrete n, VArray a =>
      Ok (bool_decide (nd_shape a = []) && in_choices [n] (nd_data a))
  | Discrete n, VSample (SScalar v) => Ok (in_choices [n] [v])
  | MultiDiscrete nvec, VArray a => Ok (in_choices nvec (nd_data a))
  | MultiDiscrete nvec, VSample (STuple items) =>
      Ok (in_choices nvec
            (omap (fun s => match s with SScalar v => Some v | _ => None end) items))
  | _, _ => Ok false
  end.

(** A containment test that accepts everything. *)
Definition contains_all (space : Space) (data : PyVal) : PyResult bool := Ok true.

(** * Properties *)

(** ** Induction over schemas *)

Lemma Space_nested_ind (P : Space -> Prop) :
  (forall low high shape dtype, P (Box low high shape dtype)) ->
  (forall n, P (Discrete n)) ->
  (forall nvec, P (MultiDiscrete nvec)) ->
  (forall spaces, Forall P spaces -> P (Tuple spaces)) ->
  (forall spaces, Forall (fun kv => P (snd kv)) spaces -> P (Dict spaces)) ->
  forall space, P space.
Proof.
  intros HBox HDisc HMulti HTuple HDict.
  fix IH 1. intros [low high shape dtype | n | nvec | spaces | spaces].
  - apply HBox.
  - apply HDisc.
  - apply HMulti.
  - apply HTuple. induction spaces as [| e spaces IHl]; constructor; [apply IH | exact IHl].
  - apply HDict. induction spaces as [| [k e] spaces IHl]; constructor; [apply IH | exact IHl].
Qed.

(** ** Arithmetic of the aligned layout *)

Lemma scalar_itemsize_pos t : (0 < scalar_itemsize t)%nat.
Proof. destruct t; simpl; lia. Qed.

Lemma round_up_multiple (a q : nat) : (0 < a)%nat -> round_up (q * a) a = (q * a)%nat.
Proof.
  intros Ha. unfold round_up.
  replace (q * a + a - 1)%nat with ((a - 1) + q * a)%nat by lia.
  rewrite Nat.div_add by lia.
  rewrite (Nat.div_small (a - 1) a) by lia. lia.
Qed.

Lemma round_up_one (off : nat) : round_up off 1 = off.
Proof. unfold round_up. rewrite Nat.div_1_r. lia. Qed.

Lemma round_up_ge (off a : nat) : (0 < a)%nat -> (off <= round_up off a)%nat.
Proof.
  intros Ha. unfold round_up.
  pose proof (Nat.div_mod_eq (off + a - 1) a) as Hdm.
  pose proof (Nat.mod_upper_bound (off + a - 1) a ltac:(lia)) as Hub.
  nia.
Qed.

Lemma round_up_divide (off a : nat) : (0 < a)%nat -> (round_up off a mod a = 0)%nat.
Proof. intros Ha. unfold round_up. apply Nat.Div0.mod_mul. Qed.

Lemma layout_struct fs : layout (DStruct fs) = place_fields layout fs 0%nat 1%nat.
Proof. reflexivity. Qed.

(** ** The flat observation view *)

(** The number of scalar elements in all leaves of a schema. *)
Definition total_elements (space : Space) : nat :=
  sum_list (map (fun e => numel (space_shape e)) (flatten_space space)).

Definition is_leaf (space : Space) : bool :=
  match space with
  | Tuple _ | Dict _ => false
  | _ => true
  end.

Definition homogeneous (t : ScalarType) (space : Space) : Prop :=
  Forall (fun e => space_dtype e = t) (flatten_space space).

Lemma flatten_space_leaf space : is_leaf space = true -> flatten_space space = [space].
Proof. destruct space; simpl; intros; congruence. Qed.

Lemma dtype_from_space_leaf space :
  is_leaf space = true ->
  dtype_from_space space = DArr (space_dtype space) (space_shape space).
Proof. destruct space; simpl; intros; congruence. Qed.

Lemma place_fields_homogeneous t (fs : list (string * DType)) (ks : list nat) :
  Forall2 (fun f k => itemsize (snd f) = (k * scalar_itemsize t)%nat
                      /\ (alignment (snd f) = 1%nat \/ alignment (snd f) = scalar_itemsize t))
          fs ks ->
  forall q m, (m = 1%nat \/ m = scalar_itemsize t) ->
  fst (place_fields layout fs (q * scalar_itemsize t) m)
    = ((q + sum_list ks) * scalar_itemsize t)%nat
  /\ (snd (place_fields layout fs (q * scalar_itemsize t) m) = 1%nat
      \/ snd (place_fields layout fs (q * scalar_itemsize t) m) = scalar_itemsize t).
Proof.
  pose proof (scalar_itemsize_pos t) as Hpos.
  induction 1 as [| [name fd] k fs ks [Hsize Halign] _ IH]; intros q m Hm.
  - simpl. split; [| exact Hm].
    rewrite Nat.add_0_r.
    destruct Hm as [-> | ->]; [apply round_up_one | apply round_up_multiple; lia].
  - simpl in *. fold (itemsize fd) (alignment fd).
    assert (Hoff : round_up (q * scalar_itemsize t) (alignment fd)
                   = (q * scalar_itemsize t)%nat).
    { destruct Halign as [-> | ->]; [apply round_up_one | apply round_up_multiple; lia]. }
    rewrite Hoff, Hsize.
    replace (q * scalar_itemsize t + k * scalar_itemsize t)%nat
      with ((q + k) * scalar_itemsize t)%nat by lia.
    destruct (IH (q + k)%nat (Nat.max m (alignment fd))) as [IH1 IH2].
    { destruct Hm as [-> | ->], Halign as [-> | ->]; lia. }
    split; [rewrite IH1; f_equal; lia | exact IH2].
Qed.

Lemma homogeneous_layout t space :
  homogeneous t space ->
  itemsize (dtype_from_space space) = (total_elements space * scalar_itemsize t)%nat
  /\ (alignment (dtype_from_space space) = 1%nat
      \/ alignment (dtype_from_space space) = scalar_itemsize t).
Proof.
  unfold homogeneous, total_elements.
  induction space as [low high shape dtype | n | nvec | spaces IH | spaces IH]
    using Space_nested_ind; intros Hhom.
  1-3: simpl in *; apply Forall_cons in Hhom as [<- _];
       unfold itemsize, alignment, scalar_alignment; simpl; split; [lia | by right].
  - assert (Hfs : forall i,
        Forall2 (fun f k => itemsize (snd f) = (k * scalar_itemsize t)%nat
                            /\ (alignment (snd f) = 1%nat
                                \/ alignment (snd f) = scalar_itemsize t))
          (tuple_fields dtype_from_space i spaces)
          (map total_elements spaces)).
    { simpl in Hhom. induction spaces as [| e spaces IHl]; intros i; simpl; constructor.
      - apply Forall_cons in IH as [IHe _]. simpl in Hhom.
        apply Forall_app in Hhom as [He _]. simpl. apply IHe, He.
      - apply Forall_cons in IH as [_ IH]. simpl in Hhom.
        apply Forall_app in Hhom as [_ Hrest]. apply IHl; assumption. }
    pose proof (place_fields_homogeneous t _ _ (Hfs 0%nat) 0%nat 1%nat (or_introl eq_refl))
      as [H1 H2].
    unfold itemsize, alignment. cbn [dtype_from_space layout]. simpl in H1.
    rewrite H1. split; [| exact H2]. f_equal.
    clear. induction spaces as [| e spaces IHl]; simpl; [done |].
    simpl in IHl. rewrite map_app, sum_list_with_app, <- IHl. reflexivity.
  - assert (Hfs :
        Forall2 (fun f k => itemsize (snd f) = (k * scalar_itemsize t)%nat
                            /\ (alignment (snd f) = 1%nat
                                \/ alignment (snd f) = scalar_itemsize t))
          (dict_fields dtype_from_space spaces)
          (map (fun kv => total_elements (snd kv)) spaces)).
    { simpl in Hhom. induction spaces as [| [k e] spaces IHl]; simpl; constructor.
      - apply Forall_cons in IH as [IHe _]. simpl in Hhom.
        apply Forall_app in Hhom as [He _]. simpl. apply IHe, He.
      - apply Forall_cons in IH as [_ IH]. simpl in Hhom.
        apply Forall_app in Hhom as [_ Hrest]. apply IHl; assumption. }
    pose proof (place_fields_homogeneous t _ _ Hfs 0%nat 1%nat (or_introl eq_refl))
      as [H1 H2].
    unfold itemsize, alignment. cbn [dtype_from_space layout]. simpl in H1.
    rewrite H1. split; [| exact H2]. f_equal.
    clear. induction spaces as [| [k e] spaces IHl]; simpl; [done |].
    simpl in IHl. rewrite map_app, sum_list_with_app, <- IHl. reflexivity.
Qed.

Lemma count_occ_dtype_all t l :
  Nat.eqb (count_occ_dtype t l) (length l) = true <-> Forall (fun t' => t' = t) l.
Proof.
  unfold count_occ_dtype. rewrite Nat.eqb_eq. split.
  - induction l as [| x l IH]; intros Hlen; [constructor |].
    rewrite filter_cons in Hlen. destruct (decide (x = t)) as [-> | Hne]; simpl in Hlen.
    + constructor; [done | apply IH; lia].
    + pose proof (length_filter (fun t' => t' = t) l). lia.
  - induction 1 as [| x l -> _ IH]; [done |].
    rewrite filter_cons, decide_True by done. simpl. by rewrite IH.
Qed.

Lemma homogeneous_first space t0 rest :
  map space_dtype (flatten_space space) = t0 :: rest ->
  forall t, homogeneous t space -> t = t0.
Proof.
  unfold homogeneous. intros Heq t Hhom.
  destruct (flatten_space space) as [| e l]; [done |].
  simpl in Heq. apply Forall_cons in Hhom as [He _]. congruence.
Qed.

(** C2 as stated fails on a schema without leaves: the derivation indexes
    the first leaf type and raises. *)
Lemma emulate_observation_space_no_leaf :
  is_leaf (Tuple []) = false
  /\ emulate_observation_space (Tuple []) = Raise IndexError.
Proof. split; reflexivity. Qed.

(** C2 (amended): for every non-leaf schema with at least one leaf, the
    derived observation view is one-dimensional; when all leaves share a
    scalar type it has that type, that type's bounds and as many elements as
    the leaves hold together; when they do not it has the one-byte type
    [uint8] with bounds [0, 255] and as many elements as the packed layout
    has bytes; in both cases length times element size is exactly the size
    of the packed layout. *)
Theorem emulate_observation_space_view (space : Space) :
  is_leaf space = false ->
  flatten_space space <> [] ->
  (forall t, homogeneous t space ->
     emulate_observation_space space
       = Ok (Box (fst (_get_dtype_bounds t)) (snd (_get_dtype_bounds t))
               [total_elements space] t,
             dtype_from_space space)
     /\ (total_elements space * scalar_itemsize t)%nat = itemsize (dtype_from_space space))
  /\ ((forall t, ~ homogeneous t space) ->
      emulate_observation_space space
        = Ok (Box 0 255 [itemsize (dtype_from_space space)] uint8, dtype_from_space space)
      /\ (itemsize (dtype_from_space space) * scalar_itemsize uint8)%nat
         = itemsize (dtype_from_space space)).
Proof.
  intros Hleaf Hne. unfold emulate_observation_space.
  assert (HBox : isinstance_Box space = false) by (destruct space; done).
  rewrite HBox.
  destruct (map space_dtype (flatten_space space)) as [| t0 rest] eqn:Hdt.
  { destruct (flatten_space space); done. }
  split.
  - intros t Hhom.
    pose proof (homogeneous_first _ _ _ Hdt t Hhom) as ->.
    destruct (homogeneous_layout t0 space Hhom) as [Hsize _].
    assert (Hall : Nat.eqb (count_occ_dtype t0 (t0 :: rest)) (length (t0 :: rest)) = true).
    { apply count_occ_dtype_all. rewrite <- Hdt. apply Forall_fmap.
      eapply Forall_impl; [exact Hhom |]. done. }
    rewrite Hall, Hsize.
    rewrite Nat.div_mul by (pose proof (scalar_itemsize_pos t0); lia).
    split; [| done]. by destruct (_get_dtype_bounds t0).
  - intros Hhet.
    destruct (Nat.eqb (count_occ_dtype t0 (t0 :: rest)) (length (t0 :: rest))) eqn:Hall.
    + exfalso. apply (Hhet t0). apply count_occ_dtype_all in Hall.
      rewrite <- Hdt in Hall. unfold homogeneous.
      apply Forall_fmap in Hall. exact Hall.
    + cbn [_get_dtype_bounds scalar_itemsize]. rewrite Nat.div_1_r. split; [done | lia].
Qed.

Lemma emulate_observation_space_view_witness :
  let space := Tuple [Box (-1) 1 [4%nat] float32; Box (-1) 1 [2%nat] float32;
                      Box (-1) 1 [1%nat] float32] in
  is_leaf space = false
  /\ flatten_space space <> []
  /\ homogeneous float32 space
  /\ emulate_observation_space space
     = Ok (Box (fst (_get_dtype_bounds float32)) (snd (_get_dtype_bounds float32))
             [7%nat] float32,
           dtype_from_space space).
Proof.
  intros space.
  assert (Hleaf : is_leaf space = false) by reflexivity.
  assert (Hne : flatten_space space <> []) by discriminate.
  assert (Hhom : homogeneous float32 space) by (repeat constructor).
  split; [exact Hleaf |]. split; [exact Hne |]. split; [exact Hhom |].
  exact (proj1 (proj1 (emulate_observation_space_view space Hleaf Hne) float32 Hhom)).
Defined.

(** The heterogeneous fallback of the specification: [float32] and [int8]
    leaves give a [uint8] view of the full packed size. *)
Example emulate_observation_space_fallback :
  emulate_observation_space
    (Dict [("a", Box (-1) 1 [3%nat] float32); ("b", Box 0 1 [] int8)])
  = Ok (Box 0 255 [16%nat] uint8,
        DStruct [("a", DArr float32 [3%nat]); ("b", DArr int8 [])]).
Proof. reflexivity. Qed.

(** ** The flat action view *)

Lemma leaf_cardinalities_error leaves :
  Exists (fun e => isinstance_Discrete e = false) leaves ->
  leaf_cardinalities leaves = Raise AttributeError.
Proof.
  induction leaves as [| e leaves IH]; intros Hex.
  - by apply Exists_nil in Hex.
  - simpl. destruct e; simpl; try reflexivity.
    apply Exists_cons in Hex as [Hhd | Htl]; [done |].
    rewrite (IH Htl). reflexivity.
Qed.

(** C3 as stated fails: the failure on a continuous leaf is the
    [AttributeError] of reading [e.n], which is no unsupported-schema error
    of the taxonomy. *)
Lemma emulate_action_space_continuous_error_kind :
  exists e,
    emulate_action_space (Tuple [Discrete 2; Box (-1) 1 [2%nat] float32]) = Raise e
    /\ taxonomy e <> Some UnsupportedSchemaError.
Proof. exists AttributeError. split; [reflexivity | discriminate]. Qed.

(** C3 (amended): for every action schema that is not itself a single
    discrete choice and has at least one leaf without a finite cardinality,
    constructing the flat action view fails, with the [AttributeError] of
    reading the missing cardinality; no view is returned. *)
Theorem emulate_action_space_continuous_leaf (space : Space) :
  isinstance_Discrete space = false ->
  (exists e, e ∈ flatten_space space /\ isinstance_Discrete e = false) ->
  emulate_action_space space = Raise AttributeError.
Proof.
  intros Hnd [e [Hin He]]. unfold emulate_action_space. rewrite Hnd.
  rewrite leaf_cardinalities_error; [reflexivity |].
  apply Exists_exists. eauto.
Qed.

Lemma emulate_action_space_continuous_leaf_witness :
  let space := Tuple [Discrete 2; Box (-1) 1 [2%nat] float32] in
  isinstance_Discrete space = false
  /\ (exists e, e ∈ flatten_space space /\ isinstance_Discrete e = false)
  /\ emulate_action_space space = Raise AttributeError.
Proof.
  intros space.
  assert (Hnd : isinstance_Discrete space = false) by reflexivity.
  assert (Hex : exists e, e ∈ flatten_space space /\ isinstance_Discrete e = false).
  { exists (Box (-1) 1 [2%nat] float32). split; [| reflexivity].
    simpl. apply list_elem_of_In. simpl. tauto. }
  split; [exact Hnd |]. split; [exact Hex |].
  exact (emulate_action_space_continuous_leaf space Hnd Hex).
Defined.

(** The action flattening of the specification: cardinalities [2, 5, 3]. *)
Example emulate_action_space_discrete :
  emulate_action_space (Tuple [Discrete 2; Discrete 5; Discrete 3])
  = Ok (MultiDiscrete [2; 5; 3],
        DStruct [("f0", DArr int64 []); ("f1", DArr int64 []); ("f2", DArr int64 [])]).
Proof. reflexivity. Qed.

(** ** Reasoning about monadic code *)

Lemma bindM_ok {S A B : Type} (m : M S A) (k : A -> M S B) s a s' :
  m s = (Ok a, s') -> bindM m k s = k a s'.
Proof. unfold bindM. by intros ->. Qed.

Lemma bindM_raise {S A B : Type} (m : M S A) (k : A -> M S B) s e s' :
  m s = (Raise e, s') -> bindM m k s = (Raise e, s').
Proof. unfold bindM. by intros ->. Qed.

Lemma bindM_inv {S A B : Type} (m : M S A) (k : A -> M S B) s b s' :
  bindM m k s = (Ok b, s') ->
  exists a s1, m s = (Ok a, s1) /\ k a s1 = (Ok b, s').
Proof.
  unfold bindM. destruct (m s) as [[a | e] s1]; [eauto | discriminate].
Qed.

(** Components of the state that a computation leaves as they are. *)
Section Keeps.
Context {S X : Type} (f : S -> X).

Definition keeps {A : Type} (m : M S A) : Prop :=
  forall s, f (snd (m s)) = f s.

Lemma keeps_ret {A : Type} (a : A) : keeps (ret a).
Proof. by intros s. Qed.

Lemma keeps_raise {A : Type} (e : exn) : keeps (@raise S A e).
Proof. by intros s. Qed.

Lemma keeps_lift {A : Type} (r : PyResult A) : keeps (lift r).
Proof. by intros s. Qed.

Lemma keeps_gets {A : Type} (g : S -> A) : keeps (gets g).
Proof. by intros s. Qed.

Lemma keeps_modify (g : S -> S) : (forall s, f (g s) = f s) -> keeps (modify g).
Proof. intros Hg s. apply Hg. Qed.

Lemma keeps_bind {A B : Type} (m : M S A) (k : A -> M S B) :
  keeps m -> (forall a, keeps (k a)) -> keeps (bindM m k).
Proof.
  intros Hm Hk s. unfold bindM. specialize (Hm s).
  destruct (m s) as [[a | e] s1]; simpl in *; [| done].
  by rewrite Hk.
Qed.

Lemma keeps_try_except {A : Type} (m h : M S A) :
  keeps m -> keeps h -> keeps (try_except m h).
Proof.
  intros Hm Hh s. unfold try_except. specialize (Hm s).
  destruct (m s) as [[a | e] s1]; simpl in *; [done |].
  by rewrite Hh.
Qed.
End Keeps.

(** ** Padding to the full population *)

Lemma pad_agent_data_lookup {A : Type} (data : gmap Agent A) agents pad agent :
  pad_agent_data data agents pad !! agent
  = if decide (agent ∈ agents) then Some (default pad (data !! agent)) else None.
Proof.
  unfold pad_agent_data.
  assert (Hgen : forall acc : gmap Agent A,
    foldl (fun acc agent => <[agent := default pad (data !! agent)]> acc) acc agents !! agent
    = if decide (agent ∈ agents) then Some (default pad (data !! agent))
      else acc !! agent).
  { induction agents as [| x agents IH]; intros acc.
    - simpl. done.
    - cbn [foldl]. rewrite IH.
      destruct (decide (agent ∈ agents)) as [Hin | Hnin].
      + rewrite decide_True; [done |]. apply elem_of_cons. by right.
      + destruct (decide (agent = x)) as [-> | Hne].
        * rewrite lookup_insert_eq. rewrite decide_True; [done |].
          apply elem_of_cons. by left.
        * rewrite lookup_insert_ne by done.
          rewrite decide_False; [done |].
          intros [? | ?]%elem_of_cons; done. }
  rewrite Hgen. by destruct (decide (agent ∈ agents)).
Qed.

Lemma pad_agent_data_dom {A : Type} (data : gmap Agent A) agents pad :
  dom (pad_agent_data data agents pad) = list_to_set agents.
Proof.
  apply set_eq. intros agent.
  rewrite elem_of_dom, pad_agent_data_lookup, elem_of_list_to_set.
  destruct (decide (agent ∈ agents)); split; intros H; try done.
Qed.

(** ** The seeding fallback *)

(** C9: with a seed, the reset first tries the seeded call; if that raises
    it calls [seed] and then the unseeded reset; if either of those raises it
    makes the plain unseeded reset and, when that returns, warns after it.
    The outcome of the last stage is the outcome of the plain reset alone:
    the failures of the seeding attempts are never passed on. *)
Theorem _seed_and_reset_fallback (E : GymEnv) (sd : Z) (w : World (gym_state E)) :
  (forall r e1,
     gym_reset E (Some sd) (w_env w) = (Ok r, e1) ->
     _seed_and_reset E (Some sd) w
     = (Ok r, mkWorld e1 (w_trace w ++ [EvReset (Some sd)])))
  /\ (forall x e1 e2 r e3,
     gym_reset E (Some sd) (w_env w) = (Raise x, e1) ->
     gym_seed E sd e1 = (Ok tt, e2) ->
     gym_reset E None e2 = (Ok r, e3) ->
     _seed_and_reset E (Some sd) w
     = (Ok r, mkWorld e3 (w_trace w ++ [EvReset (Some sd); EvSeed sd; EvReset None])))
  /\ (forall x e1 e2 y e3 r e4,
     gym_reset E (Some sd) (w_env w) = (Raise x, e1) ->
     gym_seed E sd e1 = (Ok tt, e2) ->
     gym_reset E None e2 = (Raise y, e3) ->
     gym_reset E None e3 = (r, e4) ->
     _seed_and_reset E (Some sd) w
     = (r, mkWorld e4 (w_trace w ++ [EvReset (Some sd); EvSeed sd; EvReset None; EvReset None]
                         ++ match r with Ok _ => [EvWarn] | Raise _ => [] end)))
  /\ (forall x e1 y e2 r e3,
     gym_reset E (Some sd) (w_env w) = (Raise x, e1) ->
     gym_seed E sd e1 = (Raise y, e2) ->
     gym_reset E None e2 = (r, e3) ->
     _seed_and_reset E (Some sd) w
     = (r, mkWorld e3 (w_trace w ++ [EvReset (Some sd); EvSeed sd; EvReset None]
                         ++ match r with Ok _ => [EvWarn] | Raise _ => [] end))).
Proof.
  destruct w as [env tr].
  unfold _seed_and_reset, try_except, bindM, call, emit, modify, ret; simpl.
  repeat split.
  - intros r e1 ->. reflexivity.
  - intros x e1 e2 r e3 -> . simpl. intros -> . simpl. intros ->. simpl.
    by rewrite <- !app_assoc.
  - intros x e1 e2 y e3 r e4 ->. simpl. intros ->. simpl. intros ->. simpl. intros ->.
    destruct r; simpl; by rewrite <- !app_assoc.
  - intros x e1 y e2 r e3 ->. simpl. intros ->. simpl. intros ->.
    destruct r; simpl; by rewrite <- !app_assoc.
Qed.

Lemma _seed_and_reset_fallback_witness :
  gym_reset legacy_env (Some 7) 0%nat = (Raise TypeError, 0%nat)
  /\ gym_seed legacy_env 7 0%nat = (Raise AttributeError, 0%nat)
  /\ gym_reset legacy_env None 0%nat = (Ok (SArr [2%nat] [0; 0], tt), 1%nat)
  /\ _seed_and_reset legacy_env (Some 7) (mkWorld 0%nat [])
     = (Ok (SArr [2%nat] [0; 0], tt),
        mkWorld 1%nat [EvReset (Some 7); EvSeed 7; EvReset None; EvWarn]).
Proof.
  split; [reflexivity |]. split; [reflexivity |]. split; [reflexivity |].
  exact (proj2 (proj2 (proj2 (_seed_and_reset_fallback legacy_env 7 (mkWorld 0%nat []))))
           TypeError 0%nat AttributeError 0%nat (Ok (SArr [2%nat] [0; 0], tt)) 1%nat
           eq_refl eq_refl eq_refl).
Defined.

(** Relations between the state before and after that a computation
    respects whatever its outcome. *)
Section Respects.
Context {S : Type} (R : S -> S -> Prop).
Context (R_refl : forall s, R s s).
Context (R_trans : forall s1 s2 s3, R s1 s2 -> R s2 s3 -> R s1 s3).

Definition respects {A : Type} (m : M S A) : Prop :=
  forall s, R s (snd (m s)).

Lemma respects_ret {A : Type} (a : A) : respects (ret a).
Proof. intros s. apply R_refl. Qed.

Lemma respects_raise {A : Type} (e : exn) : respects (@raise S A e).
Proof. intros s. apply R_refl. Qed.

Lemma respects_lift {A : Type} (r : PyResult A) : respects (lift r).
Proof. intros s. apply R_refl. Qed.

Lemma respects_gets {A : Type} (g : S -> A) : respects (gets g).
Proof. intros s. apply R_refl. Qed.

Lemma respects_bind {A B : Type} (m : M S A) (k : A -> M S B) :
  respects m -> (forall a, respects (k a)) -> respects (bindM m k).
Proof.
  intros Hm Hk s. unfold bindM. specialize (Hm s).
  destruct (m s) as [[a | e] s1]; simpl in *; [| done].
  eapply R_trans; [exact Hm | apply Hk].
Qed.
End Respects.

Lemma keeps_proj {S X Y A : Type} (f : S -> X) (g : X -> Y) (m : M S A) :
  keeps f m -> keeps (fun s => g (f s)) m.
Proof. intros Hm s. by rewrite Hm. Qed.

Lemma keeps_respects {S X A : Type} (f : S -> X) (R : S -> S -> Prop) (m : M S A) :
  (forall s s', f s' = f s -> R s s') -> keeps f m -> respects R m.
Proof. intros HR Hm s. apply HR, Hm. Qed.

Lemma respects_modify {S : Type} (R : S -> S -> Prop) (g : S -> S) :
  (forall s, R s (g s)) -> respects R (modify g).
Proof. intros Hg s. apply Hg. Qed.

Lemma respects_try_except {S A : Type} (R : S -> S -> Prop) (m h : M S A) :
  (forall s1 s2 s3, R s1 s2 -> R s2 s3 -> R s1 s3) ->
  respects R m -> respects R h -> respects R (try_except m h).
Proof.
  intros Htrans Hm Hh s. unfold try_except. specialize (Hm s).
  destruct (m s) as [[a | e] s1]; simpl in *; [done |].
  eapply Htrans; [exact Hm | apply Hh].
Qed.

(** The state a sequence ends in is related to the state its first part
    ends in. *)
Lemma bindM_after {S A B : Type} (R : S -> S -> Prop) (m : M S A) (k : A -> M S B) :
  (forall s, R s s) -> (forall a, respects R (k a)) ->
  forall s, R (snd (m s)) (snd (bindM m k s)).
Proof.
  intros Hrefl Hk s. unfold bindM.
  destruct (m s) as [[a | e] s1]; simpl; [apply Hk | apply Hrefl].
Qed.

Ltac respects_go Hrefl Htrans lemmas :=
  repeat first
    [ lemmas
    | match goal with
      | |- respects _ (ret _) => apply respects_ret; exact Hrefl
      | |- respects _ (raise _) => apply respects_raise; exact Hrefl
      | |- respects _ (lift _) => apply respects_lift; exact Hrefl
      | |- respects _ (gets _) => apply respects_gets; exact Hrefl
      | |- respects _ (bindM _ _) => apply respects_bind; [exact Htrans | | intros ?]
      | |- respects _ (try_except _ _) => apply respects_try_except; [exact Htrans | |]
      | |- respects _ (match _ with _ => _ end) => case_match
      end ].

(** ** Containment checks in the record of calls *)

Definition is_check (site : check_site) (ev : event) : bool :=
  match ev with
  | EvContains s _ _ =>
      match s, site with
      | ObservationCheck, ObservationCheck | ActionCheck, ActionCheck => true
      | _, _ => false
      end
  | _ => false
  end.

(** How many times [space.contains] was called at a site. *)
Fixpoint check_count (site : check_site) (tr : list event) : nat :=
  match tr with
  | [] => 0
  | ev :: tr' => (if is_check site ev then 1 else 0) + check_count site tr'
  end%nat.

(** The check an event records at a site: the space and the data
    [space.contains] was called on. *)
Definition check_of (site : check_site) (ev : event) : list (Space * PyVal) :=
  match ev with
  | EvContains _ space data => if is_check site ev then [(space, data)] else []
  | _ => []
  end.

(** The containment checks made at a site, in the order of the calls. *)
Fixpoint site_checks (site : check_site) (tr : list event) : list (Space * PyVal) :=
  match tr with
  | [] => []
  | ev :: tr' => check_of site ev ++ site_checks site tr'
  end.

Definition checks (tr : list event) : list (Space * PyVal) * list (Space * PyVal) :=
  (site_checks ObservationCheck tr, site_checks ActionCheck tr).

(** Whether the call an event records is a containment check that did not
    say yes, and whether every containment check a record holds said yes. *)
Definition check_succeeds (contains : Space -> PyVal -> PyResult bool) (ev : event) : bool :=
  match ev with
  | EvContains _ space data =>
      match contains space data with
      | Ok true => true
      | _ => false
      end
  | _ => true
  end.

Definition checks_succeed (contains : Space -> PyVal -> PyResult bool) (tr : list event)
  : bool :=
  forallb (check_succeeds contains) tr.

Lemma check_count_app site tr1 tr2 :
  check_count site (tr1 ++ tr2) = (check_count site tr1 + check_count site tr2)%nat.
Proof. induction tr1 as [| ev tr1 IH]; simpl; [done | rewrite IH; lia]. Qed.

Lemma site_checks_app site tr1 tr2 :
  site_checks site (tr1 ++ tr2) = site_checks site tr1 ++ site_checks site tr2.
Proof.
  induction tr1 as [| ev tr1 IH]; [done |].
  cbn [app site_checks]. by rewrite IH, app_assoc.
Qed.

Lemma check_of_other site ev : is_check site ev = false -> check_of site ev = [].
Proof. intros H. destruct ev; try done. unfold check_of. by rewrite H. Qed.

Lemma check_count_site_checks site tr :
  check_count site tr = length (site_checks site tr).
Proof.
  induction tr as [| ev tr IH]; [done |].
  cbn [check_count site_checks]. rewrite length_app, IH. f_equal.
  destruct ev; try done. unfold check_of. by destruct (is_check site _).
Qed.

Lemma checks_snoc tr ev :
  is_check ObservationCheck ev = false -> is_check ActionCheck ev = false ->
  checks (tr ++ [ev]) = checks tr.
Proof.
  intros H1 H2. unfold checks. rewrite !site_checks_app. cbn [site_checks].
  by rewrite (check_of_other _ _ H1), (check_of_other _ _ H2), !app_nil_r.
Qed.

Lemma checks_succeed_site contains site tr :
  checks_succeed contains tr = true ->
  Forall (fun c => contains (fst c) (snd c) = Ok true) (site_checks site tr).
Proof.
  unfold checks_succeed. induction tr as [| ev tr IH]; intros H; [by apply Forall_nil |].
  cbn [forallb] in H. apply andb_true_iff in H as [Hev H].
  cbn [site_checks]. apply Forall_app. split; [| by apply IH].
  destruct ev as [| | | | s space data]; try (by apply Forall_nil).
  unfold check_of. destruct (is_check site _); [| by apply Forall_nil].
  apply Forall_cons. split; [| by apply Forall_nil].
  cbn [check_succeeds fst snd] in *. by destruct (contains space data) as [[] |].
Qed.

(** *** What a flag records of the checks made *)

Section Ledger.
Context (contains : Space -> PyVal -> PyResult bool).

Definition check_failed (c : Space * PyVal) : Prop :=
  contains (fst c) (snd c) <> Ok true.

(** The checks [made] at a site whose flag is [flag], [space] being the
    space the adapter declares for the site: every check was made against
    [space]; while the flag is unset every check made so far failed; once it
    is set the last check made succeeded and those before it failed. *)
Definition ledger (space : Space) (flag : bool) (made : list (Space * PyVal)) : Prop :=
  Forall (fun c => fst c = space) made
  /\ if flag
     then exists pre data,
            made = pre ++ [(space, data)] /\ Forall check_failed pre
            /\ contains space data = Ok true
     else Forall check_failed made.

Lemma failed_succeeded_nil (l : list (Space * PyVal)) :
  Forall check_failed l ->
  Forall (fun c => contains (fst c) (snd c) = Ok true) l ->
  l = [].
Proof.
  destruct l as [| c l]; [done |].
  intros Hf Hs. apply Forall_cons in Hf as [Hf _]. apply Forall_cons in Hs as [Hs _].
  by destruct Hf.
Qed.

(** When the checks made all succeeded the flag tells how many were made:
    none, or the one check against [space]. *)
Lemma ledger_succeed space flag made :
  ledger space flag made ->
  Forall (fun c => contains (fst c) (snd c) = Ok true) made ->
  if flag then exists data, made = [(space, data)] else made = [].
Proof.
  intros [_ H] Hs. destruct flag.
  - destruct H as (pre & data & -> & Hpre & _).
    apply Forall_app in Hs as [Hs _].
    rewrite (failed_succeeded_nil pre Hpre Hs). by exists data.
  - by apply failed_succeeded_nil.
Qed.

Lemma ledger_check space made data :
  ledger space false made ->
  ledger space
    (match contains space data with Ok true => true | _ => false end)
    (made ++ [(space, data)]).
Proof.
  intros [Hsp Hf]. split.
  - apply Forall_app. split; [done |]. apply Forall_cons. split; [done | by apply Forall_nil].
  - destruct (contains space data) as [[] | e] eqn:Hc.
    + by exists made, data.
    + apply Forall_app. split; [done |]. apply Forall_cons. split; [| by apply Forall_nil].
      unfold check_failed. cbn [fst snd]. by rewrite Hc.
    + apply Forall_app. split; [done |]. apply Forall_cons. split; [| by apply Forall_nil].
      unfold check_failed. cbn [fst snd]. by rewrite Hc.
Qed.

(** [check_space] records the call and returns exactly when the test said
    yes. *)
Lemma check_space_result {Env : Type} site data space (w : World Env) :
  check_space contains site data space w
  = (match contains space data with
     | Ok true => Ok true
     | _ => Raise APIUsageError
     end,
     mkWorld (w_env w) (w_trace w ++ [EvContains site space data])).
Proof.
  unfold check_space, bindM, emit, modify, raise, ret. simpl.
  by destruct (contains space data) as [[] |].
Qed.
End Ledger.

Lemma call_keeps_checks {Env A : Type} (ev : event) (method : Env -> PyResult A * Env) :
  is_check ObservationCheck ev = false -> is_check ActionCheck ev = false ->
  keeps (fun w => checks (w_trace w)) (call ev method).
Proof.
  intros H1 H2 w. unfold call. destruct (method (w_env w)) as [r e']. simpl.
  by apply checks_snoc.
Qed.

Lemma emit_keeps_checks {Env : Type} (ev : event) :
  is_check ObservationCheck ev = false -> is_check ActionCheck ev = false ->
  keeps (fun w : World Env => checks (w_trace w)) (emit ev).
Proof. intros H1 H2 w. unfold emit, modify. simpl. by apply checks_snoc. Qed.

Lemma _seed_and_reset_keeps_checks (E : GymEnv) sd :
  keeps (fun w => checks (w_trace w)) (_seed_and_reset E sd).
Proof.
  unfold _seed_and_reset. destruct sd as [sd |].
  - repeat first
      [ apply keeps_try_except | apply keeps_bind; [| intros ?]
      | apply call_keeps_checks; reflexivity | apply emit_keeps_checks; reflexivity
      | apply keeps_ret ].
  - apply call_keeps_checks; reflexivity.
Qed.

(** ** The single-agent adapter: what the auxiliary steps leave alone *)

Ltac keeps_go lemmas :=
  repeat first
    [ lemmas
    | match goal with
      | |- keeps _ (ret _) => apply keeps_ret
      | |- keeps _ (raise _) => apply keeps_raise
      | |- keeps _ (lift _) => apply keeps_lift
      | |- keeps _ (gets _) => apply keeps_gets
      | |- keeps _ (modify _) => apply keeps_modify; intros []; reflexivity
      | |- keeps _ (bindM _ _) => apply keeps_bind; [| intros ?]
      | |- keeps _ (try_except _ _) => apply keeps_try_except
      | |- keeps _ (match _ with _ => _ end) => case_match
      end ].

(** Inverting a successful run of a sequence of binds. *)
Ltac inv_binds H :=
  repeat first
    [ apply bindM_inv in H as (? & ? & ? & H)
    | match type of H with
      | (let '(_, _) := ?p in _) _ = _ => destruct p
      end ].

Section GymnasiumFacts.
Context (contains : Space -> PyVal -> PyResult bool).
Context (E : GymEnv).

(** The state flags and the spaces fixed at construction. *)
Definition gym_flags (st : GymnasiumPufferEnv.t E) :=
  (GymnasiumPufferEnv.initialized E st,
   GymnasiumPufferEnv.done E st,
   GymnasiumPufferEnv.is_observation_checked E st,
   GymnasiumPufferEnv.is_action_checked E st,
   (GymnasiumPufferEnv.observation_space E st, GymnasiumPufferEnv.obs_dtype E st,
    GymnasiumPufferEnv.action_space E st, GymnasiumPufferEnv.atn_dtype E st,
    GymnasiumPufferEnv.is_obs_emulated E st, GymnasiumPufferEnv.is_atn_emulated E st)).

(** What the handling of the observation buffer leaves alone: the wrapped
    environment, the record of calls and the flags. *)
Definition gym_frame (st : GymnasiumPufferEnv.t E) :=
  (GymnasiumPufferEnv.world E st, gym_flags st).

Lemma gym_obs_array_keeps : keeps gym_frame (GymnasiumPufferEnv.obs_array E).
Proof. intros st. unfold GymnasiumPufferEnv.obs_array. by repeat case_match. Qed.

Lemma gym_read_obs_state st : snd (GymnasiumPufferEnv.read_obs E st) = st.
Proof. unfold GymnasiumPufferEnv.read_obs. by repeat case_match. Qed.

Lemma gym_read_obs_keeps : keeps gym_frame (GymnasiumPufferEnv.read_obs E).
Proof. intros st. by rewrite gym_read_obs_state. Qed.

Lemma gym_put_obs_array_keeps a : keeps gym_frame (GymnasiumPufferEnv.put_obs_array E a).
Proof.
  intros st. unfold GymnasiumPufferEnv.put_obs_array.
  repeat case_match; try reflexivity; by destruct st.
Qed.

Lemma gym__emulate_ob_keeps ob : keeps gym_frame (GymnasiumPufferEnv._emulate_ob E ob).
Proof.
  unfold GymnasiumPufferEnv._emulate_ob.
  keeps_go ltac:(first [ apply gym_obs_array_keeps | apply gym_put_obs_array_keeps ]).
Qed.

Lemma gym_reset_bind_keeps : keeps gym_frame (GymnasiumPufferEnv.reset_bind E).
Proof.
  unfold GymnasiumPufferEnv.reset_bind.
  keeps_go ltac:(first [ apply gym_obs_array_keeps | apply gym_put_obs_array_keeps ]).
Qed.

Lemma gym_zoom_keeps_flags {A : Type} (m : M (World (gym_state E)) A) :
  keeps gym_flags (GymnasiumPufferEnv.zoom E m).
Proof.
  intros st. unfold GymnasiumPufferEnv.zoom.
  destruct (m (GymnasiumPufferEnv.world E st)) as [r w]. reflexivity.
Qed.

Lemma gym_zoom_world {A : Type} (m : M (World (gym_state E)) A) st :
  GymnasiumPufferEnv.world E (snd (GymnasiumPufferEnv.zoom E m st))
  = snd (m (GymnasiumPufferEnv.world E st)).
Proof.
  unfold GymnasiumPufferEnv.zoom.
  destruct (m (GymnasiumPufferEnv.world E st)) as [r w]. reflexivity.
Qed.

(** *** The guard of [step] *)

Lemma gym_step_guard action st :
  GymnasiumPufferEnv.initialized E st = false \/ GymnasiumPufferEnv.done E st = true ->
  GymnasiumPufferEnv.step contains E action st = (Raise APIUsageError, st).
Proof.
  intros H. unfold GymnasiumPufferEnv.step, bindM, gets, raise. simpl.
  destruct (GymnasiumPufferEnv.initialized E st); simpl; [| done].
  destruct H as [H | ->]; done.
Qed.

Lemma gym_init_uninitialized env st :
  GymnasiumPufferEnv.__init__ E env = Ok st ->
  GymnasiumPufferEnv.initialized E st = false.
Proof.
  unfold GymnasiumPufferEnv.__init__. intros H.
  destruct (emulate_observation_space (gym_observation_space E)) as [[o od] |]; [| done].
  destruct (emulate_action_space (gym_action_space E)) as [[a ad] |]; [| done].
  simpl in H. by injection H as <-.
Qed.

Lemma gym_step_done action st o r dn tr info st' :
  GymnasiumPufferEnv.step contains E action st = (Ok (o, r, dn, tr, info), st') ->
  GymnasiumPufferEnv.done E st' = dn.
Proof.
  unfold GymnasiumPufferEnv.step. intros H.
  apply bindM_inv in H as (init & s1 & _ & H).
  destruct (negb init); [done |].
  apply bindM_inv in H as (d0 & s2 & _ & H).
  destruct d0; [done |].
  inv_binds H.
  unfold ret in H. injection H as <- <- <- <- <- <-.
  match goal with
  | Hm : modify _ _ = (Ok _, ?s), Hr : GymnasiumPufferEnv.read_obs E ?s = (Ok _, ?s') |- _ =>
      pose proof (gym_read_obs_state s) as Hs; rewrite Hr in Hs; simpl in Hs; subst s';
      unfold modify in Hm; injection Hm as _ <-
  end.
  reflexivity.
Qed.
(** *** The containment checks *)

Lemma check_space_world {Env : Type} site data space (w : World Env) :
  snd (check_space contains site data space w)
  = mkWorld (w_env w) (w_trace w ++ [EvContains site space data]).
Proof.
  unfold check_space, bindM, emit, modify, raise, ret. simpl.
  by destruct (contains space data) as [[] |].
Qed.

Lemma check_space_ok {Env : Type} site data space (w w' : World Env) r :
  check_space contains site data space w = (Ok r, w') -> r = true.
Proof.
  unfold check_space, bindM, emit, modify, raise, ret. simpl.
  destruct (contains space data) as [[] |]; intros H; by inversion H.
Qed.

Lemma gym_check_observation_checked st :
  GymnasiumPufferEnv.is_observation_checked E st = true ->
  GymnasiumPufferEnv.check_observation contains E st = (Ok tt, st).
Proof.
  intros H. unfold GymnasiumPufferEnv.check_observation, bindM, gets. simpl.
  by rewrite H.
Qed.

Lemma gym_check_action_checked action st :
  GymnasiumPufferEnv.is_action_checked E st = true ->
  GymnasiumPufferEnv.check_action contains E action st = (Ok tt, st).
Proof.
  intros H. unfold GymnasiumPufferEnv.check_action, bindM, gets. simpl.
  by rewrite H.
Qed.

(** A check that returns has set its flag. *)
Lemma gym_check_observation_sets u st st' :
  GymnasiumPufferEnv.check_observation contains E st = (Ok u, st') ->
  GymnasiumPufferEnv.is_observation_checked E st' = true.
Proof.
  unfold GymnasiumPufferEnv.check_observation. intros H.
  apply bindM_inv in H as (checked & s1 & Hg & H).
  unfold gets in Hg. injection Hg as <- <-.
  destruct (GymnasiumPufferEnv.is_observation_checked E st) eqn:Hflag; simpl in H.
  - unfold ret in H. by injection H as _ <-.
  - inv_binds H. unfold modify in H. injection H as _ <-. simpl.
    match goal with
    | Hz : GymnasiumPufferEnv.zoom _ _ _ = (Ok ?r, _) |- _ =>
        unfold GymnasiumPufferEnv.zoom in Hz;
        destruct (check_space contains _ _ _ _) as [[r' |] w'] eqn:Hc; [| done];
        injection Hz as -> _; by apply check_space_ok in Hc
    end.
Qed.

Lemma gym_check_action_sets action u st st' :
  GymnasiumPufferEnv.check_action contains E action st = (Ok u, st') ->
  GymnasiumPufferEnv.is_action_checked E st' = true.
Proof.
  unfold GymnasiumPufferEnv.check_action. intros H.
  apply bindM_inv in H as (checked & s1 & Hg & H).
  unfold gets in Hg. injection Hg as <- <-.
  destruct (GymnasiumPufferEnv.is_action_checked E st) eqn:Hflag; simpl in H.
  - unfold ret in H. by injection H as _ <-.
  - inv_binds H. unfold modify in H. injection H as _ <-. simpl.
    match goal with
    | Hz : GymnasiumPufferEnv.zoom _ _ _ = (Ok ?r, _) |- _ =>
        unfold GymnasiumPufferEnv.zoom in Hz;
        destruct (check_space contains _ _ _ _) as [[r' |] w'] eqn:Hc; [| done];
        injection Hz as -> _; by apply check_space_ok in Hc
    end.
Qed.

(** The first action check is made on the nativized action and the
    adapter's own action space. *)
Lemma gym_check_action_trace action st :
  GymnasiumPufferEnv.is_action_checked E st = false ->
  w_trace (GymnasiumPufferEnv.world E
             (snd (GymnasiumPufferEnv.check_action contains E action st)))
  = w_trace (GymnasiumPufferEnv.world E st)
    ++ [EvContains ActionCheck (GymnasiumPufferEnv.action_space E st) (VSample action)].
Proof.
  intros Hflag.
  unfold GymnasiumPufferEnv.check_action, bindM, gets, GymnasiumPufferEnv.zoom. simpl.
  rewrite Hflag. simpl.
  pose proof (check_space_world ActionCheck (VSample action)
                (GymnasiumPufferEnv.action_space E st) (GymnasiumPufferEnv.world E st)) as Hw.
  destruct (check_space contains ActionCheck (VSample action)
              (GymnasiumPufferEnv.action_space E st) (GymnasiumPufferEnv.world E st))
    as [[r |] w]; simpl in *; by rewrite Hw.
Qed.
(** *** The record of calls only grows *)

Definition gym_trace (st : GymnasiumPufferEnv.t E) : list event :=
  w_trace (GymnasiumPufferEnv.world E st).

Definition gym_extends (s s' : GymnasiumPufferEnv.t E) : Prop :=
  exists rest, gym_trace s' = gym_trace s ++ rest.

Lemma gym_extends_refl s : gym_extends s s.
Proof. exists []. by rewrite app_nil_r. Qed.

Lemma gym_extends_trans s1 s2 s3 :
  gym_extends s1 s2 -> gym_extends s2 s3 -> gym_extends s1 s3.
Proof. intros [r1 H1] [r2 H2]. exists (r1 ++ r2). by rewrite H2, H1, app_assoc. Qed.

Lemma gym_frame_extends {A : Type} (m : M (GymnasiumPufferEnv.t E) A) :
  keeps gym_frame m -> respects gym_extends m.
Proof.
  apply keeps_respects. intros s s' H. unfold gym_frame in H.
  injection H as Hw _. exists []. unfold gym_trace. by rewrite Hw, app_nil_r.
Qed.

Definition world_extends {Env : Type} (w w' : World Env) : Prop :=
  exists rest, w_trace w' = w_trace w ++ rest.

Lemma world_extends_refl {Env : Type} (w : World Env) : world_extends w w.
Proof. exists []. by rewrite app_nil_r. Qed.

Lemma world_extends_trans {Env : Type} (w1 w2 w3 : World Env) :
  world_extends w1 w2 -> world_extends w2 w3 -> world_extends w1 w3.
Proof. intros [r1 H1] [r2 H2]. exists (r1 ++ r2). by rewrite H2, H1, app_assoc. Qed.

Lemma call_extends {Env A : Type} ev (method : Env -> PyResult A * Env) :
  respects world_extends (call ev method).
Proof. intros w. unfold call. destruct (method (w_env w)). by exists [ev]. Qed.

Lemma emit_extends {Env : Type} ev : respects (@world_extends Env) (emit ev).
Proof. intros w. by exists [ev]. Qed.

Lemma check_space_extends {Env : Type} site data space :
  respects (@world_extends Env) (check_space contains site data space).
Proof. intros w. rewrite check_space_world. by eexists. Qed.

Lemma _seed_and_reset_extends sd : respects world_extends (_seed_and_reset E sd).
Proof.
  unfold _seed_and_reset.
  respects_go (@world_extends_refl (gym_state E)) (@world_extends_trans (gym_state E))
    ltac:(first [ apply call_extends | apply emit_extends ]).
Qed.

Lemma gym_zoom_extends {A : Type} (m : M (World (gym_state E)) A) :
  respects world_extends m -> respects gym_extends (GymnasiumPufferEnv.zoom E m).
Proof.
  intros Hm st. unfold gym_extends, gym_trace. rewrite gym_zoom_world. apply Hm.
Qed.

Ltac gym_extends_go :=
  respects_go gym_extends_refl gym_extends_trans
    ltac:(first
      [ apply gym_frame_extends;
        first [ apply gym_obs_array_keeps | apply gym_read_obs_keeps
              | apply gym_put_obs_array_keeps | apply gym__emulate_ob_keeps
              | apply gym_reset_bind_keeps ]
      | apply gym_zoom_extends;
        first [ apply call_extends | apply check_space_extends
              | apply _seed_and_reset_extends ]
      | match goal with
        | |- respects _ (modify _) =>
            apply respects_modify; intros []; exists []; symmetry; apply app_nil_r
        end ]).

Lemma gym_step_env_extends action :
  respects gym_extends (GymnasiumPufferEnv.step_env E action).
Proof. unfold GymnasiumPufferEnv.step_env. gym_extends_go. Qed.

(** The first step of an adapter nativizes the action and then checks the
    nativized value against the adapter's own action space; when the
    nativization raises, the step raises with no check made. *)
Lemma gym_step_first_check action st :
  GymnasiumPufferEnv.initialized E st = true ->
  GymnasiumPufferEnv.done E st = false ->
  GymnasiumPufferEnv.is_action_checked E st = false ->
  match nativize action (gym_action_space E) (GymnasiumPufferEnv.atn_dtype E st) with
  | Ok native =>
      exists rest,
        gym_trace (snd (GymnasiumPufferEnv.step contains E action st))
        = gym_trace st
          ++ EvContains ActionCheck (GymnasiumPufferEnv.action_space E st) (VSample native)
          :: rest
  | Raise e => GymnasiumPufferEnv.step contains E action st = (Raise e, st)
  end.
Proof.
  intros Hinit Hdone Hflag.
  destruct (nativize action (gym_action_space E) (GymnasiumPufferEnv.atn_dtype E st))
    as [native | e] eqn:Hnat.
  - unfold GymnasiumPufferEnv.step.
    unfold bindM at 1, gets at 1. simpl. rewrite Hinit. simpl.
    unfold bindM at 1, gets at 1. simpl. rewrite Hdone.
    unfold bindM at 1, gets at 1. simpl.
    unfold bindM at 1, lift at 1. rewrite Hnat.
    pose proof (bindM_after gym_extends
                  (GymnasiumPufferEnv.check_action contains E native)
                  (fun _ => GymnasiumPufferEnv.step_env E native) gym_extends_refl
                  (fun _ => gym_step_env_extends native) st) as [rest Hrest].
    unfold gym_trace in *.
    rewrite (gym_check_action_trace native st Hflag) in Hrest.
    exists rest. rewrite Hrest. by rewrite <- app_assoc.
  - unfold GymnasiumPufferEnv.step, bindM, gets, lift. simpl.
    rewrite Hinit. simpl. rewrite Hdone. by rewrite Hnat.
Qed.
(** *** The spaces fixed at construction stay fixed *)

Definition gym_cfg (st : GymnasiumPufferEnv.t E) :=
  (GymnasiumPufferEnv.observation_space E st, GymnasiumPufferEnv.obs_dtype E st,
   GymnasiumPufferEnv.action_space E st, GymnasiumPufferEnv.atn_dtype E st,
   GymnasiumPufferEnv.is_obs_emulated E st, GymnasiumPufferEnv.is_atn_emulated E st).

Lemma gym_frame_cfg {A : Type} (m : M (GymnasiumPufferEnv.t E) A) :
  keeps gym_frame m -> keeps gym_cfg m.
Proof. apply (keeps_proj gym_frame (fun x => snd (snd x))). Qed.

Lemma gym_zoom_cfg {A : Type} (m : M (World (gym_state E)) A) :
  keeps gym_cfg (GymnasiumPufferEnv.zoom E m).
Proof. apply (keeps_proj gym_flags snd), gym_zoom_keeps_flags. Qed.

Ltac gym_cfg_go :=
  keeps_go
    ltac:(first
      [ apply gym_frame_cfg;
        first [ apply gym_obs_array_keeps | apply gym_read_obs_keeps
              | apply gym_put_obs_array_keeps | apply gym__emulate_ob_keeps
              | apply gym_reset_bind_keeps ]
      | apply gym_zoom_cfg ]).

Lemma gym_reset_cfg sd : keeps gym_cfg (GymnasiumPufferEnv.reset contains E sd).
Proof.
  unfold GymnasiumPufferEnv.reset, GymnasiumPufferEnv.check_observation. gym_cfg_go.
Qed.

Lemma gym_step_cfg action : keeps gym_cfg (GymnasiumPufferEnv.step contains E action).
Proof.
  unfold GymnasiumPufferEnv.step, GymnasiumPufferEnv.check_action,
    GymnasiumPufferEnv.step_env.
  gym_cfg_go.
Qed.

(** *** Each check is made once *)

(** The checks made so far are those the flags record, each site against
    the space the adapter declares for it. *)
Definition gym_checked_once (st : GymnasiumPufferEnv.t E) : Prop :=
  ledger contains (GymnasiumPufferEnv.observation_space E st)
    (GymnasiumPufferEnv.is_observation_checked E st)
    (site_checks ObservationCheck (gym_trace st))
  /\ ledger contains (GymnasiumPufferEnv.action_space E st)
       (GymnasiumPufferEnv.is_action_checked E st)
       (site_checks ActionCheck (gym_trace st)).

(** What every call keeps: the checks made stay those the flags record, a
    flag that is set stays set, and the checks made are only added to. *)
Definition gym_once_kept (s s' : GymnasiumPufferEnv.t E) : Prop :=
  (gym_checked_once s -> gym_checked_once s')
  /\ (GymnasiumPufferEnv.is_observation_checked E s = true ->
      GymnasiumPufferEnv.is_observation_checked E s' = true)
  /\ (GymnasiumPufferEnv.is_action_checked E s = true ->
      GymnasiumPufferEnv.is_action_checked E s' = true)
  /\ site_checks ObservationCheck (gym_trace s)
     `prefix_of` site_checks ObservationCheck (gym_trace s')
  /\ site_checks ActionCheck (gym_trace s)
     `prefix_of` site_checks ActionCheck (gym_trace s').

Lemma gym_once_kept_refl s : gym_once_kept s s.
Proof. unfold gym_once_kept. do 3 (split; [tauto |]). split; reflexivity. Qed.

Lemma gym_once_kept_trans s1 s2 s3 :
  gym_once_kept s1 s2 -> gym_once_kept s2 s3 -> gym_once_kept s1 s3.
Proof.
  intros (H1 & Ho1 & Ha1 & Po1 & Pa1) (H2 & Ho2 & Ha2 & Po2 & Pa2).
  do 3 (split; [tauto |]). split; by etrans.
Qed.

Definition gym_chk (st : GymnasiumPufferEnv.t E) :=
  (checks (gym_trace st),
   GymnasiumPufferEnv.is_observation_checked E st,
   GymnasiumPufferEnv.is_action_checked E st,
   GymnasiumPufferEnv.observation_space E st,
   GymnasiumPufferEnv.action_space E st).

Lemma gym_chk_once_kept s s' : gym_chk s' = gym_chk s -> gym_once_kept s s'.
Proof.
  unfold gym_chk, checks. intros H. injection H as H1 H2 Ho Ha Hos Has.
  unfold gym_once_kept, gym_checked_once. rewrite H1, H2, Ho, Ha, Hos, Has.
  do 3 (split; [tauto |]). split; reflexivity.
Qed.

Lemma gym_frame_chk {A : Type} (m : M (GymnasiumPufferEnv.t E) A) :
  keeps gym_frame m -> keeps gym_chk m.
Proof.
  apply (keeps_proj gym_frame
           (fun x => (checks (w_trace (fst x)),
                      snd (fst (fst (snd x))), snd (fst (snd x)),
                      fst (fst (fst (fst (fst (snd (snd x)))))),
                      snd (fst (fst (fst (snd (snd x)))))))).
Qed.

Lemma gym_zoom_chk {A : Type} (m : M (World (gym_state E)) A) :
  keeps (fun w => checks (w_trace w)) m -> keeps gym_chk (GymnasiumPufferEnv.zoom E m).
Proof.
  intros Hm s. pose proof (gym_zoom_keeps_flags m s) as Hf.
  pose proof (f_equal (fun x => (snd (fst (fst x)), snd (fst x),
                                 fst (fst (fst (fst (fst (snd x))))),
                                 snd (fst (fst (fst (snd x)))))) Hf) as Hg.
  unfold gym_flags in Hg. cbn [fst snd] in Hg. injection Hg as Ho Ha Hos Has.
  unfold gym_chk, gym_trace. rewrite gym_zoom_world, Ho, Ha, Hos, Has.
  by rewrite (Hm (GymnasiumPufferEnv.world E s)).
Qed.

Ltac gym_chk_go :=
  keeps_go
    ltac:(first
      [ apply gym_frame_chk;
        first [ apply gym_obs_array_keeps | apply gym_read_obs_keeps
              | apply gym_put_obs_array_keeps | apply gym__emulate_ob_keeps
              | apply gym_reset_bind_keeps ]
      | apply gym_zoom_chk;
        first [ apply call_keeps_checks; reflexivity
              | apply _seed_and_reset_keeps_checks ] ]).

Lemma gym_step_env_chk action : keeps gym_chk (GymnasiumPufferEnv.step_env E action).
Proof. unfold GymnasiumPufferEnv.step_env. gym_chk_go. Qed.

(** The observation check, when it is made, is made on the observation the
    adapter holds, against the adapter's observation space; it sets the flag
    when the test says yes and raises otherwise. *)
Lemma gym_check_observation_run st :
  GymnasiumPufferEnv.is_observation_checked E st = false ->
  forall o, GymnasiumPufferEnv.read_obs E st = (Ok o, st) ->
  GymnasiumPufferEnv.check_observation contains E st
  = let w := mkWorld (w_env (GymnasiumPufferEnv.world E st))
               (gym_trace st
                ++ [EvContains ObservationCheck
                      (GymnasiumPufferEnv.observation_space E st) o]) in
    match contains (GymnasiumPufferEnv.observation_space E st) o with
    | Ok true =>
        (Ok tt, GymnasiumPufferEnv.set_is_observation_checked E true
                  (GymnasiumPufferEnv.set_world E w st))
    | _ => (Raise APIUsageError, GymnasiumPufferEnv.set_world E w st)
    end.
Proof.
  intros Hflag o Hread.
  unfold GymnasiumPufferEnv.check_observation.
  unfold bindM at 1, gets at 1. rewrite Hflag. cbn [negb].
  unfold bindM at 1. rewrite Hread.
  unfold bindM at 1, gets at 1.
  unfold bindM at 1, GymnasiumPufferEnv.zoom. rewrite check_space_result.
  unfold gym_trace.
  by destruct (contains (GymnasiumPufferEnv.observation_space E st) o) as [[] |].
Qed.

Lemma gym_check_action_run action st :
  GymnasiumPufferEnv.is_action_checked E st = false ->
  GymnasiumPufferEnv.check_action contains E action st
  = let w := mkWorld (w_env (GymnasiumPufferEnv.world E st))
               (gym_trace st
                ++ [EvContains ActionCheck
                      (GymnasiumPufferEnv.action_space E st) (VSample action)]) in
    match contains (GymnasiumPufferEnv.action_space E st) (VSample action) with
    | Ok true =>
        (Ok tt, GymnasiumPufferEnv.set_is_action_checked E true
                  (GymnasiumPufferEnv.set_world E w st))
    | _ => (Raise APIUsageError, GymnasiumPufferEnv.set_world E w st)
    end.
Proof.
  intros Hflag.
  unfold GymnasiumPufferEnv.check_action.
  unfold bindM at 1, gets at 1. rewrite Hflag. cbn [negb].
  unfold bindM at 1, gets at 1.
  unfold bindM at 1, GymnasiumPufferEnv.zoom. rewrite check_space_result.
  unfold gym_trace.
  by destruct (contains (GymnasiumPufferEnv.action_space E st) (VSample action))
    as [[] |].
Qed.

Lemma gym_check_observation_once : respects gym_once_kept
  (GymnasiumPufferEnv.check_observation contains E).
Proof.
  intros st.
  destruct (GymnasiumPufferEnv.is_observation_checked E st) eqn:Hflag.
  { rewrite gym_check_observation_checked by done. apply gym_once_kept_refl. }
  pose proof (gym_read_obs_state st) as Hst.
  destruct (GymnasiumPufferEnv.read_obs E st) as [[o | e] s1] eqn:Hread;
    cbn [snd] in Hst; subst s1.
  2: { unfold GymnasiumPufferEnv.check_observation, bindM, gets. simpl.
       rewrite Hflag. simpl. rewrite Hread. apply gym_once_kept_refl. }
  rewrite (gym_check_observation_run st Hflag o Hread). cbv zeta.
  pose proof (ledger_check contains (GymnasiumPufferEnv.observation_space E st)
                (site_checks ObservationCheck (gym_trace st)) o) as Hl.
  unfold gym_once_kept, gym_checked_once, gym_trace in *.
  destruct (contains (GymnasiumPufferEnv.observation_space E st) o) as [[] | e];
    cbn [snd]; destruct st; cbn in *; rewrite !site_checks_app; cbn;
    rewrite ?app_nil_r; subst;
    (split; [intros [Hobs Hact]; split; [by apply Hl | done] |]);
    (split; [done |]); (split; [done |]);
    (split; [by apply prefix_app_r | done]).
Qed.

Lemma gym_check_action_once action : respects gym_once_kept
  (GymnasiumPufferEnv.check_action contains E action).
Proof.
  intros st.
  destruct (GymnasiumPufferEnv.is_action_checked E st) eqn:Hflag.
  { rewrite gym_check_action_checked by done. apply gym_once_kept_refl. }
  rewrite (gym_check_action_run action st Hflag). cbv zeta.
  pose proof (ledger_check contains (GymnasiumPufferEnv.action_space E st)
                (site_checks ActionCheck (gym_trace st)) (VSample action)) as Hl.
  unfold gym_once_kept, gym_checked_once, gym_trace in *.
  destruct (contains (GymnasiumPufferEnv.action_space E st) (VSample action))
    as [[] | e];
    cbn [snd]; destruct st; cbn in *; rewrite !site_checks_app; cbn;
    rewrite ?app_nil_r; subst;
    (split; [intros [Hobs Hact]; split; [done | by apply Hl] |]);
    (split; [done |]); (split; [done |]);
    (split; [done | by apply prefix_app_r]).
Qed.

Ltac gym_once_go :=
  respects_go gym_once_kept_refl gym_once_kept_trans
    ltac:(first
      [ apply gym_check_observation_once | apply gym_check_action_once
      | apply (keeps_respects gym_chk); [apply gym_chk_once_kept |];
        first
          [ apply gym_frame_chk;
            first [ apply gym_obs_array_keeps | apply gym_read_obs_keeps
                  | apply gym_put_obs_array_keeps | apply gym__emulate_ob_keeps
                  | apply gym_reset_bind_keeps ]
          | apply gym_zoom_chk;
            first [ apply call_keeps_checks; reflexivity
                  | apply _seed_and_reset_keeps_checks ] ]
      | match goal with
        | |- respects _ (modify _) =>
            apply respects_modify; intros []; apply gym_chk_once_kept; reflexivity
        end ]).

Lemma gym_reset_once sd :
  respects gym_once_kept (GymnasiumPufferEnv.reset contains E sd).
Proof. unfold GymnasiumPufferEnv.reset. gym_once_go. Qed.

Lemma gym_step_once action :
  respects gym_once_kept (GymnasiumPufferEnv.step contains E action).
Proof.
  unfold GymnasiumPufferEnv.step, GymnasiumPufferEnv.step_env. gym_once_go.
Qed.

(** A reset that returns has made the observation check, a step that
    returns the action check. *)
Lemma gym_reset_checked sd r st st' :
  GymnasiumPufferEnv.reset contains E sd st = (Ok r, st') ->
  GymnasiumPufferEnv.is_observation_checked E st' = true.
Proof.
  unfold GymnasiumPufferEnv.reset. intros H. inv_binds H.
  unfold ret in H. injection H as _ <-.
  match goal with
  | Hc : GymnasiumPufferEnv.check_observation _ _ _ = (Ok _, ?s),
    Hr : GymnasiumPufferEnv.read_obs E ?s = (Ok _, ?s') |- _ =>
      pose proof (gym_read_obs_state s) as Hs; rewrite Hr in Hs; simpl in Hs; subst s';
      exact (gym_check_observation_sets _ _ _ Hc)
  end.
Qed.

Definition gym_check_flags (st : GymnasiumPufferEnv.t E) :=
  (GymnasiumPufferEnv.is_observation_checked E st,
   GymnasiumPufferEnv.is_action_checked E st).

Lemma gym_step_env_keeps_check_flags action :
  keeps gym_check_flags (GymnasiumPufferEnv.step_env E action).
Proof.
  unfold GymnasiumPufferEnv.step_env.
  keeps_go
    ltac:(first
      [ apply (keeps_proj gym_frame (fun x => (snd (fst (fst (snd x))), snd (fst (snd x)))));
        first [ apply gym_read_obs_keeps | apply gym__emulate_ob_keeps ]
      | apply (keeps_proj gym_flags (fun x => (snd (fst (fst x)), snd (fst x))));
        apply gym_zoom_keeps_flags ]).
Qed.

Lemma gym_step_checked action r st st' :
  GymnasiumPufferEnv.step contains E action st = (Ok r, st') ->
  GymnasiumPufferEnv.is_action_checked E st' = true.
Proof.
  unfold GymnasiumPufferEnv.step. intros H.
  apply bindM_inv in H as (init & s1 & _ & H).
  destruct (negb init); [done |].
  apply bindM_inv in H as (d0 & s2 & _ & H).
  destruct d0; [done |].
  apply bindM_inv in H as (d & s3 & _ & H).
  apply bindM_inv in H as (native & s4 & _ & H).
  apply bindM_inv in H as (u & s5 & Hc & H).
  apply gym_check_action_sets in Hc.
  pose proof (gym_step_env_keeps_check_flags native s5) as Hk.
  rewrite H in Hk. unfold gym_check_flags in Hk. simpl in Hk.
  injection Hk as _ Hk. by rewrite Hk.
Qed.

(** *** Where the checks are made *)

(** The observation read from the adapter depends on its observation
    storage only. *)
Lemma gym_read_obs_ext s1 s2 :
  GymnasiumPufferEnv.obs_bound E s1 = GymnasiumPufferEnv.obs_bound E s2 ->
  GymnasiumPufferEnv.mem E s1 = GymnasiumPufferEnv.mem E s2 ->
  GymnasiumPufferEnv.obs E s1 = GymnasiumPufferEnv.obs E s2 ->
  fst (GymnasiumPufferEnv.read_obs E s1) = fst (GymnasiumPufferEnv.read_obs E s2).
Proof.
  intros Hb Hm Ho. unfold GymnasiumPufferEnv.read_obs. rewrite Hb, Hm, Ho.
  by repeat case_match.
Qed.

(** An observation check that returns was made, when the flag was unset, on
    the observation the adapter holds afterwards as well. *)
Lemma gym_check_observation_made u st st' o :
  GymnasiumPufferEnv.check_observation contains E st = (Ok u, st') ->
  GymnasiumPufferEnv.read_obs E st' = (Ok o, st') ->
  checks (gym_trace st')
  = (site_checks ObservationCheck (gym_trace st)
     ++ (if GymnasiumPufferEnv.is_observation_checked E st then []
         else [(GymnasiumPufferEnv.observation_space E st, o)]),
     site_checks ActionCheck (gym_trace st)).
Proof.
  intros Hc Hread.
  destruct (GymnasiumPufferEnv.is_observation_checked E st) eqn:Hflag.
  { rewrite gym_check_observation_checked in Hc by done. injection Hc as _ <-.
    unfold checks. by rewrite app_nil_r. }
  pose proof (gym_read_obs_state st) as Hst.
  destruct (GymnasiumPufferEnv.read_obs E st) as [[o1 | e] s1] eqn:Hread1;
    cbn [snd] in Hst; subst s1.
  2: { unfold GymnasiumPufferEnv.check_observation, bindM, gets in Hc. simpl in Hc.
       rewrite Hflag in Hc. simpl in Hc. by rewrite Hread1 in Hc. }
  rewrite (gym_check_observation_run st Hflag o1 Hread1) in Hc. cbv zeta in Hc.
  destruct (contains (GymnasiumPufferEnv.observation_space E st) o1) as [[] | e];
    [| done | done].
  injection Hc as _ <-.
  assert (o = o1) as ->.
  { match type of Hread with
    | GymnasiumPufferEnv.read_obs E ?s' = _ =>
        pose proof (gym_read_obs_ext s' st eq_refl eq_refl eq_refl) as Hext
    end.
    rewrite Hread, Hread1 in Hext. cbn [fst] in Hext. by injection Hext. }
  unfold checks, gym_trace. cbn [GymnasiumPufferEnv.world
    GymnasiumPufferEnv.set_is_observation_checked GymnasiumPufferEnv.set_world w_trace].
  rewrite !site_checks_app. cbn. by rewrite app_nil_r.
Qed.

(** A reset that returns has added to the checks made exactly the check of
    the observation it returns against the adapter's observation space, and
    only when no observation check had succeeded before. *)
Lemma gym_reset_made sd o info st st' :
  GymnasiumPufferEnv.reset contains E sd st = (Ok (o, info), st') ->
  checks (gym_trace st')
  = (site_checks ObservationCheck (gym_trace st)
     ++ (if GymnasiumPufferEnv.is_observation_checked E st then []
         else [(GymnasiumPufferEnv.observation_space E st, o)]),
     site_checks ActionCheck (gym_trace st)).
Proof.
  unfold GymnasiumPufferEnv.reset. intros H.
  apply bindM_inv in H as (init & s0 & Hg & H). unfold gets in Hg. injection Hg as <- <-.
  apply bindM_inv in H as (u1 & s1 & H1 & H).
  apply bindM_inv in H as (u2 & s2 & H2 & H). unfold modify in H2. injection H2 as _ <-.
  apply bindM_inv in H as (u3 & s3 & H3 & H). unfold modify in H3. injection H3 as _ <-.
  apply bindM_inv in H as ([ob info'] & s4 & H4 & H).
  apply bindM_inv in H as (u5 & s5 & H5 & H).
  apply bindM_inv in H as (u6 & s6 & H6 & H).
  apply bindM_inv in H as (o' & s7 & H7 & H).
  unfold ret in H. injection H as -> -> <-.
  pose proof (gym_read_obs_state s6) as Hs. rewrite H7 in Hs. cbn [snd] in Hs. subst s7.
  rewrite (gym_check_observation_made _ _ _ _ H6 H7).
  assert (Hk1 : gym_chk s1 = gym_chk st).
  { assert (Hk : keeps gym_chk
                   (if negb (GymnasiumPufferEnv.initialized E st)
                    then GymnasiumPufferEnv.reset_bind E else ret tt)).
    { case_match; [apply gym_frame_chk, gym_reset_bind_keeps | apply keeps_ret]. }
    specialize (Hk st). by rewrite H1 in Hk. }
  assert (Hk4 : gym_chk s4
                = gym_chk (GymnasiumPufferEnv.set_done E false
                             (GymnasiumPufferEnv.set_initialized E true s1))).
  { pose proof (gym_zoom_chk (_seed_and_reset E sd)
                  (_seed_and_reset_keeps_checks E sd)
                  (GymnasiumPufferEnv.set_done E false
                     (GymnasiumPufferEnv.set_initialized E true s1))) as Hk.
    by rewrite H4 in Hk. }
  assert (Hk5 : gym_chk s5 = gym_chk s4).
  { pose proof (gym_frame_chk _ (gym__emulate_ob_keeps ob) s4) as Hk.
    by rewrite H5 in Hk. }
  assert (Hall : gym_chk s5 = gym_chk st).
  { rewrite Hk5, Hk4, <- Hk1. by destruct s1. }
  unfold gym_chk, checks in Hall. injection Hall as -> -> -> _ -> _.
  reflexivity.
Qed.

(** A step that returns has decoded the action and has added to the checks
    made exactly the check of the decoded action against the adapter's
    action space, and only when no action check had succeeded before. *)
Lemma gym_step_made action r st st' :
  GymnasiumPufferEnv.step contains E action st = (Ok r, st') ->
  exists native,
    nativize action (gym_action_space E) (GymnasiumPufferEnv.atn_dtype E st) = Ok native
    /\ checks (gym_trace st')
       = (site_checks ObservationCheck (gym_trace st),
          site_checks ActionCheck (gym_trace st)
          ++ (if GymnasiumPufferEnv.is_action_checked E st then []
              else [(GymnasiumPufferEnv.action_space E st, VSample native)])).
Proof.
  unfold GymnasiumPufferEnv.step. intros H.
  apply bindM_inv in H as (init & s0 & Hg & H). unfold gets in Hg. injection Hg as <- <-.
  destruct (negb (GymnasiumPufferEnv.initialized E st)); [done |].
  apply bindM_inv in H as (dn & s0 & Hg & H). unfold gets in Hg. injection Hg as <- <-.
  destruct (GymnasiumPufferEnv.done E st); [done |].
  apply bindM_inv in H as (d & s0 & Hg & H). unfold gets in Hg. injection Hg as <- <-.
  apply bindM_inv in H as (native & s0 & Hn & H). unfold lift in Hn. injection Hn as Hn <-.
  apply bindM_inv in H as (u & s1 & Hc & H).
  exists native. split; [exact Hn |].
  pose proof (gym_step_env_chk native s1) as Hk. rewrite H in Hk. cbn [snd] in Hk.
  unfold gym_chk, checks in Hk. injection Hk as Hko Hka _ _ _ _.
  unfold checks at 1. rewrite Hko, Hka. fold (checks (gym_trace s1)).
  destruct (GymnasiumPufferEnv.is_action_checked E st) eqn:Hflag.
  { rewrite gym_check_action_checked in Hc by done. injection Hc as _ <-.
    unfold checks. by rewrite app_nil_r. }
  rewrite (gym_check_action_run native st Hflag) in Hc. cbv zeta in Hc.
  destruct (contains (GymnasiumPufferEnv.action_space E st) (VSample native)) as [[] | e];
    [| done | done].
  injection Hc as _ <-.
  unfold checks, gym_trace. cbn [GymnasiumPufferEnv.world
    GymnasiumPufferEnv.set_is_action_checked GymnasiumPufferEnv.set_world w_trace].
  rewrite !site_checks_app. cbn. by rewrite app_nil_r.
Qed.

(** *** Histories *)

Lemma gym_exec_cfg c st : gym_cfg (gym_exec contains E c st) = gym_cfg st.
Proof. destruct c; [apply gym_reset_cfg | apply gym_step_cfg]. Qed.

Lemma gym_run_cfg cs st : gym_cfg (gym_run contains E cs st) = gym_cfg st.
Proof.
  revert st. induction cs as [| c cs IH]; intros st; [done |].
  simpl. fold (gym_run contains E cs (gym_exec contains E c st)).
  by rewrite IH, gym_exec_cfg.
Qed.

Lemma gym_exec_once c st : gym_once_kept st (gym_exec contains E c st).
Proof. destruct c; [apply gym_reset_once | apply gym_step_once]. Qed.

Lemma gym_run_once cs st : gym_once_kept st (gym_run contains E cs st).
Proof.
  revert st. induction cs as [| c cs IH]; intros st.
  - apply gym_once_kept_refl.
  - simpl. fold (gym_run contains E cs (gym_exec contains E c st)).
    eapply gym_once_kept_trans; [apply gym_exec_once | apply IH].
Qed.

Lemma gym_init_state env st :
  GymnasiumPufferEnv.__init__ E env = Ok st ->
  gym_checked_once st
  /\ emulate_action_space (gym_action_space E)
     = Ok (GymnasiumPufferEnv.action_space E st, GymnasiumPufferEnv.atn_dtype E st).
Proof.
  unfold GymnasiumPufferEnv.__init__. intros H.
  destruct (emulate_observation_space (gym_observation_space E)) as [[o od] |]; [| done].
  destruct (emulate_action_space (gym_action_space E)) as [[a ad] |]; [| done].
  simpl in H. injection H as <-.
  split; [| done]. split; (split; [by apply Forall_nil | by apply Forall_nil]).
Qed.

Lemma gym_init_observation_space env st :
  GymnasiumPufferEnv.__init__ E env = Ok st ->
  emulate_observation_space (gym_observation_space E)
  = Ok (GymnasiumPufferEnv.observation_space E st, GymnasiumPufferEnv.obs_dtype E st).
Proof.
  unfold GymnasiumPufferEnv.__init__. intros H.
  destruct (emulate_observation_space (gym_observation_space E)) as [[o od] |]; [| done].
  destruct (emulate_action_space (gym_action_space E)) as [[a ad] |]; [| done].
  simpl in H. by injection H as <-.
Qed.
End GymnasiumFacts.

(** C10: on a first step (the action not checked yet) of the single-agent
    adapter, whatever calls came before, the flat action is nativized first:
    when that raises the step raises and no check is made; otherwise the
    containment check is the next call, and it is made on the nativized
    nested action against the adapter's emulated action space (the first
    component of [emulate_action_space]), whether or not the environment's
    action space needed emulation. *)
Theorem gymnasium_first_step_check (contains : Space -> PyVal -> PyResult bool)
    (E : GymEnv) (env : gym_state E) (st0 : GymnasiumPufferEnv.t E)
    (cs : list gym_call) (action : ndarray) (space : Space) (d : DType) :
  GymnasiumPufferEnv.__init__ E env = Ok st0 ->
  emulate_action_space (gym_action_space E) = Ok (space, d) ->
  GymnasiumPufferEnv.initialized E (gym_run contains E cs st0) = true ->
  GymnasiumPufferEnv.done E (gym_run contains E cs st0) = false ->
  GymnasiumPufferEnv.is_action_checked E (gym_run contains E cs st0) = false ->
  match nativize action (gym_action_space E) d with
  | Ok native =>
      exists rest,
        gym_trace E (snd (GymnasiumPufferEnv.step contains E action
                            (gym_run contains E cs st0)))
        = gym_trace E (gym_run contains E cs st0)
          ++ EvContains ActionCheck space (VSample native) :: rest
  | Raise e =>
      GymnasiumPufferEnv.step contains E action (gym_run contains E cs st0)
      = (Raise e, gym_run contains E cs st0)
  end.
Proof.
  intros Hinit Hspace Hready Hdone Hflag.
  destruct (gym_init_state contains E env st0 Hinit) as [_ Hemu].
  rewrite Hspace in Hemu. injection Hemu as Hs Hd.
  pose proof (gym_run_cfg contains E cs st0) as Hcfg.
  unfold gym_cfg in Hcfg. injection Hcfg as _ _ Hs' Hd' _ _.
  pose proof (gym_step_first_check contains E action _ Hready Hdone Hflag) as H.
  rewrite Hs', Hd', <- Hs, <- Hd in H. exact H.
Qed.

Lemma gymnasium_first_step_check_witness :
  exists st0,
    GymnasiumPufferEnv.__init__ pair_env 0%nat = Ok st0
    /\ emulate_action_space (gym_action_space pair_env)
       = Ok (MultiDiscrete [2; 3], DStruct [("f0", DArr int64 []); ("f1", DArr int64 [])])
    /\ GymnasiumPufferEnv.initialized pair_env
         (gym_run contains_all pair_env [GymReset None] st0) = true
    /\ GymnasiumPufferEnv.done pair_env
         (gym_run contains_all pair_env [GymReset None] st0) = false
    /\ GymnasiumPufferEnv.is_action_checked pair_env
         (gym_run contains_all pair_env [GymReset None] st0) = false
    /\ exists rest,
         gym_trace pair_env
           (snd (GymnasiumPufferEnv.step contains_all pair_env (NDArray int64 [2%nat] [1; 2])
                   (gym_run contains_all pair_env [GymReset None] st0)))
         = gym_trace pair_env (gym_run contains_all pair_env [GymReset None] st0)
           ++ EvContains ActionCheck (MultiDiscrete [2; 3])
                (VSample (STuple [SScalar 1; SScalar 2])) :: rest.
Proof.
  eexists. split; [reflexivity |].
  split; [reflexivity |]. split; [reflexivity |]. split; [reflexivity |].
  split; [reflexivity |].
  exact (gymnasium_first_step_check contains_all pair_env 0%nat _ [GymReset None]
           (NDArray int64 [2%nat] [1; 2]) _ _ eq_refl eq_refl eq_refl eq_refl eq_refl).
Defined.

(** ** The multi-agent adapter: what the auxiliary steps leave alone *)

Section PettingZooFacts.
Context (contains : Space -> PyVal -> PyResult bool).
Context (E : PettingZooEnv).

Definition pz_cfg (st : PettingZooPufferEnv.t E) :=
  (PettingZooPufferEnv.single_observation_space E st, PettingZooPufferEnv.obs_dtype E st,
   PettingZooPufferEnv.single_action_space E st, PettingZooPufferEnv.atn_dtype E st,
   PettingZooPufferEnv.is_obs_emulated E st, PettingZooPufferEnv.is_atn_emulated E st,
   PettingZooPufferEnv.num_agents E st, PettingZooPufferEnv.to_puffer E st).

Definition pz_flags (st : PettingZooPufferEnv.t E) :=
  (PettingZooPufferEnv.initialized E st,
   PettingZooPufferEnv.all_done E st,
   PettingZooPufferEnv.is_observation_checked E st,
   PettingZooPufferEnv.is_action_checked E st,
   pz_cfg st).

Definition pz_frame (st : PettingZooPufferEnv.t E) :=
  (PettingZooPufferEnv.world E st, pz_flags st).

Lemma pz_obs_array_state st : snd (PettingZooPufferEnv.obs_array E st) = st.
Proof. unfold PettingZooPufferEnv.obs_array. by repeat case_match. Qed.

Lemma pz_obs_array_keeps : keeps pz_frame (PettingZooPufferEnv.obs_array E).
Proof. intros st. by rewrite pz_obs_array_state. Qed.

Lemma pz_put_obs_array_keeps a : keeps pz_frame (PettingZooPufferEnv.put_obs_array E a).
Proof.
  intros st. unfold PettingZooPufferEnv.put_obs_array.
  repeat case_match; try reflexivity; by destruct st.
Qed.

Ltac pz_frame_go lemmas :=
  keeps_go
    ltac:(first
      [ apply pz_obs_array_keeps | apply pz_put_obs_array_keeps | lemmas ]).

Lemma pz__emulate_ob_keeps ob i agent :
  keeps pz_frame (PettingZooPufferEnv._emulate_ob E ob i agent).
Proof. unfold PettingZooPufferEnv._emulate_ob. pz_frame_go fail. Qed.

Lemma pz_reset_bind_keeps : keeps pz_frame (PettingZooPufferEnv.reset_bind E).
Proof. unfold PettingZooPufferEnv.reset_bind. pz_frame_go fail. Qed.

Lemma pz_read_dict_obs_state st : snd (PettingZooPufferEnv.read_dict_obs E st) = st.
Proof.
  unfold PettingZooPufferEnv.read_dict_obs, bindM, gets, ret.
  pose proof (pz_obs_array_state st) as H.
  destruct (PettingZooPufferEnv.obs_array E st) as [[a | e] s1]; simpl in *; by subst.
Qed.

Lemma pz_read_dict_obs_keeps : keeps pz_frame (PettingZooPufferEnv.read_dict_obs E).
Proof. intros st. by rewrite pz_read_dict_obs_state. Qed.

Lemma pz_reset_agents_keeps obs i l :
  keeps pz_frame (PettingZooPufferEnv.reset_agents E obs i l).
Proof.
  revert i. induction l as [| agent l IH]; intros i; simpl.
  - apply keeps_ret.
  - pz_frame_go ltac:(first [ apply pz__emulate_ob_keeps | apply IH ]).
Qed.

Lemma pz_step_agents_keeps obs rewards dones truncateds i l :
  keeps pz_frame (PettingZooPufferEnv.step_agents E obs rewards dones truncateds i l).
Proof.
  revert i. induction l as [| agent l IH]; intros i; simpl.
  - apply keeps_ret.
  - pz_frame_go ltac:(first [ apply pz__emulate_ob_keeps | apply IH ]).
Qed.

Lemma pz_zoom_keeps_flags {A : Type} (m : M (World (pz_state E)) A) :
  keeps pz_flags (PettingZooPufferEnv.zoom E m).
Proof.
  intros st. unfold PettingZooPufferEnv.zoom.
  destruct (m (PettingZooPufferEnv.world E st)) as [r w]. reflexivity.
Qed.

Lemma pz_zoom_world {A : Type} (m : M (World (pz_state E)) A) st :
  PettingZooPufferEnv.world E (snd (PettingZooPufferEnv.zoom E m st))
  = snd (m (PettingZooPufferEnv.world E st)).
Proof.
  unfold PettingZooPufferEnv.zoom.
  destruct (m (PettingZooPufferEnv.world E st)) as [r w]. reflexivity.
Qed.

(** *** The guard of [step] *)

Lemma pz_step_guard actions st :
  PettingZooPufferEnv.initialized E st = false \/ PettingZooPufferEnv.done E st = true ->
  PettingZooPufferEnv.step contains E actions st = (Raise APIUsageError, st).
Proof.
  intros H. unfold PettingZooPufferEnv.step, bindM, gets, raise. simpl.
  destruct (PettingZooPufferEnv.initialized E st); simpl; [| done].
  destruct H as [H | ->]; done.
Qed.

Lemma pz_init_uninitialized env p st :
  PettingZooPufferEnv.__init__ E env p = Ok st ->
  PettingZooPufferEnv.initialized E st = false.
Proof.
  unfold PettingZooPufferEnv.__init__. intros H.
  destruct (PettingZooPufferEnv.possible_agents E) as [| single l]; [done |].
  destruct (emulate_observation_space _) as [[o od] |]; [| done].
  destruct (emulate_action_space _) as [[a ad] |]; [| done].
  simpl in H. by injection H as <-.
Qed.
(** *** What a step that returns has done *)

Lemma pz_check_action_env actions st :
  w_env (PettingZooPufferEnv.world E
           (snd (PettingZooPufferEnv.check_action contains E actions st)))
  = w_env (PettingZooPufferEnv.world E st).
Proof.
  unfold PettingZooPufferEnv.check_action, bindM, gets, raise, ret. simpl.
  destruct (PettingZooPufferEnv.is_action_checked E st); simpl; [done |].
  destruct actions as [| [agent atn] actions]; simpl; [done |].
  unfold PettingZooPufferEnv.zoom.
  pose proof (check_space_world contains ActionCheck (VArray atn)
                (PettingZooPufferEnv.single_action_space E st)
                (PettingZooPufferEnv.world E st)) as Hw.
  destruct (check_space contains ActionCheck (VArray atn) _ _) as [[r |] w];
    simpl in *; by subst w.
Qed.

Lemma pz_step_env_inv actions st out st' :
  PettingZooPufferEnv.step_env E actions st = (Ok out, st') ->
  exists unpacked obs rewards dones truncateds infos env1 d,
    pz_step E unpacked (w_env (PettingZooPufferEnv.world E st))
    = (Ok (obs, rewards, dones, truncateds, infos), env1)
    /\ w_env (PettingZooPufferEnv.world E st') = env1
    /\ PettingZooPufferEnv.all_done E st' = all_values dones
    /\ out = (d,
              pad_agent_data rewards (PettingZooPufferEnv.possible_agents E) (pz_zero E),
              pad_agent_data dones (PettingZooPufferEnv.possible_agents E) false,
              pad_agent_data truncateds (PettingZooPufferEnv.possible_agents E) false,
              infos).
Proof.
  unfold PettingZooPufferEnv.step_env. intros H.
  apply bindM_inv in H as (st_ & s1 & Hg & H). unfold gets in Hg. injection Hg as <- <-.
  apply bindM_inv in H as (unpacked & s2 & Hl & H). unfold lift in Hl.
  injection Hl as Hunp <-.
  apply bindM_inv in H as ([[[[obs rewards] dones] truncateds] infos] & s3 & Hz & H).
  unfold PettingZooPufferEnv.zoom, call in Hz.
  destruct (pz_step E unpacked (w_env (PettingZooPufferEnv.world E st)))
    as [r env1] eqn:Hstep.
  injection Hz as -> <-.
  apply bindM_inv in H as (u1 & s4 & Hm & H). unfold modify in Hm. injection Hm as _ <-.
  apply bindM_inv in H as (u2 & s5 & Hloop & H).
  apply bindM_inv in H as (u3 & s6 & Hm & H). unfold modify in Hm. injection Hm as _ <-.
  apply bindM_inv in H as (d & s7 & Hr & H).
  pose proof (pz_read_dict_obs_state
                (PettingZooPufferEnv.set_all_done E (all_values dones) s5)) as Hs.
  rewrite Hr in Hs. simpl in Hs. subst s7.
  unfold ret in H. injection H as <- <-.
  match type of Hloop with
  | _ ?s0 = _ =>
      pose proof (pz_step_agents_keeps obs rewards dones truncateds 0
                    (PettingZooPufferEnv.possible_agents E) s0) as Hk
  end.
  rewrite Hloop in Hk. unfold pz_frame in Hk. simpl in Hk. injection Hk as Hw _.
  exists unpacked, obs, rewards, dones, truncateds, infos, env1, d.
  split; [done |]. split; [| by split].
  destruct s5. simpl in *. by rewrite Hw.
Qed.

Lemma pz_step_inv actions st out st' :
  PettingZooPufferEnv.step contains E actions st = (Ok out, st') ->
  PettingZooPufferEnv.initialized E st = true
  /\ PettingZooPufferEnv.done E st = false
  /\ exists unpacked obs rewards dones truncateds infos env1 d,
    pz_step E unpacked (w_env (PettingZooPufferEnv.world E st))
    = (Ok (obs, rewards, dones, truncateds, infos), env1)
    /\ w_env (PettingZooPufferEnv.world E st') = env1
    /\ PettingZooPufferEnv.all_done E st' = all_values dones
    /\ out = (d,
              pad_agent_data rewards (PettingZooPufferEnv.possible_agents E) (pz_zero E),
              pad_agent_data dones (PettingZooPufferEnv.possible_agents E) false,
              pad_agent_data truncateds (PettingZooPufferEnv.possible_agents E) false,
              infos).
Proof.
  unfold PettingZooPufferEnv.step. intros H.
  apply bindM_inv in H as (init & s1 & Hg & H). unfold gets in Hg. injection Hg as <- <-.
  destruct (PettingZooPufferEnv.initialized E st) eqn:Hinit; [| done]. simpl in H.
  apply bindM_inv in H as (dn & s1 & Hg & H). unfold gets in Hg. injection Hg as <- <-.
  destruct (PettingZooPufferEnv.done E st) eqn:Hdone; [done |].
  split; [done |]. split; [done |].
  apply bindM_inv in H as (acts & s2 & Ha & H).
  assert (s2 = st) as ->.
  { destruct actions; [unfold lift in Ha | unfold ret in Ha]; by injection Ha. }
  apply bindM_inv in H as (u & s3 & Hc & H).
  pose proof (pz_check_action_env acts st) as Henv. rewrite Hc in Henv. simpl in Henv.
  apply pz_step_env_inv in H. by rewrite Henv in H.
Qed.
(** *** The episode flags across a reset *)

Definition pz_life (st : PettingZooPufferEnv.t E) :=
  (PettingZooPufferEnv.initialized E st, PettingZooPufferEnv.all_done E st).

Lemma pz_frame_life {A : Type} (m : M (PettingZooPufferEnv.t E) A) :
  keeps pz_frame m -> keeps pz_life m.
Proof.
  apply (keeps_proj pz_frame
           (fun x => (fst (fst (fst (fst (snd x)))), snd (fst (fst (fst (snd x))))))).
Qed.

Lemma pz_zoom_life {A : Type} (m : M (World (pz_state E)) A) :
  keeps pz_life (PettingZooPufferEnv.zoom E m).
Proof.
  apply (keeps_proj pz_flags
           (fun x => (fst (fst (fst (fst x))), snd (fst (fst (fst x)))))).
  apply pz_zoom_keeps_flags.
Qed.

Ltac pz_life_go :=
  keeps_go
    ltac:(first
      [ apply pz_frame_life;
        first [ apply pz_obs_array_keeps | apply pz_put_obs_array_keeps
              | apply pz__emulate_ob_keeps | apply pz_reset_bind_keeps
              | apply pz_read_dict_obs_keeps | apply pz_reset_agents_keeps
              | apply pz_step_agents_keeps ]
      | apply pz_zoom_life ]).

Lemma pz_check_observation_life :
  keeps pz_life (PettingZooPufferEnv.check_observation contains E).
Proof. unfold PettingZooPufferEnv.check_observation. pz_life_go. Qed.

Lemma pz_check_action_life actions :
  keeps pz_life (PettingZooPufferEnv.check_action contains E actions).
Proof. unfold PettingZooPufferEnv.check_action. pz_life_go. Qed.

Lemma pz_check_observation_env st :
  w_env (PettingZooPufferEnv.world E
           (snd (PettingZooPufferEnv.check_observation contains E st)))
  = w_env (PettingZooPufferEnv.world E st).
Proof.
  unfold PettingZooPufferEnv.check_observation, bindM, gets, raise, ret, lift. simpl.
  destruct (PettingZooPufferEnv.is_observation_checked E st); simpl; [done |].
  destruct (PettingZooPufferEnv.possible_agents E) as [| first l]; simpl; [done |].
  destruct (PettingZooPufferEnv.dict_obs E st !! first) as [r |]; simpl; [| done].
  pose proof (pz_obs_array_state st) as Hs.
  destruct (PettingZooPufferEnv.obs_array E st) as [[a | e] s1]; simpl in *; subst s1;
    [| done].
  destruct (PettingZooPufferEnv.deref a r) as [o | e]; simpl; [| done].
  unfold PettingZooPufferEnv.zoom.
  pose proof (check_space_world contains ObservationCheck o
                (PettingZooPufferEnv.single_observation_space E st)
                (PettingZooPufferEnv.world E st)) as Hw.
  destruct (check_space contains ObservationCheck o _ _) as [[r' |] w];
    simpl in *; by subst w.
Qed.

(** The loop of [reset] only completes when the environment returned an
    observation for every possible agent. *)
Lemma pz_reset_agents_present obs i l st u st' :
  PettingZooPufferEnv.reset_agents E obs i l st = (Ok u, st') ->
  Forall (fun agent => is_Some (obs !! agent)) l.
Proof.
  revert i st. induction l as [| agent l IH]; intros i st H; [constructor |].
  simpl in H. destruct (obs !! agent) as [ob |] eqn:Hob; [| done].
  inv_binds H. constructor; [by rewrite Hob | eauto].
Qed.

(** A reset that returns leaves the episode open, with the active agents
    of the environment as the reset left them. *)
Lemma pz_reset_inv sd st r st' :
  PettingZooPufferEnv.reset contains E sd st = (Ok r, st') ->
  PettingZooPufferEnv.initialized E st' = true
  /\ PettingZooPufferEnv.all_done E st' = false
  /\ exists obs info env0,
      pz_reset E sd env0 = (Ok (obs, info), w_env (PettingZooPufferEnv.world E st'))
      /\ Forall (fun agent => is_Some (obs !! agent)) (PettingZooPufferEnv.possible_agents E).
Proof.
  unfold PettingZooPufferEnv.reset. intros H.
  apply bindM_inv in H as (init & s1 & _ & H).
  apply bindM_inv in H as (u1 & s2 & _ & H).
  apply bindM_inv in H as (u2 & s3 & Hm & H). unfold modify in Hm. injection Hm as _ <-.
  apply bindM_inv in H as (u3 & s4 & Hm & H). unfold modify in Hm. injection Hm as _ <-.
  apply bindM_inv in H as (u4 & s5 & Hm & H). unfold modify in Hm. injection Hm as _ <-.
  apply bindM_inv in H as ([obs info] & s6 & Hz & H).
  apply bindM_inv in H as (u5 & s7 & Hloop & H).
  apply bindM_inv in H as (u6 & s8 & Hc & H).
  apply bindM_inv in H as (d & s9 & Hr & H).
  unfold ret in H. injection H as _ <-.
  pose proof (pz_read_dict_obs_state s8) as Hs. rewrite Hr in Hs. simpl in Hs. subst s9.
  unfold PettingZooPufferEnv.zoom, call in Hz.
  match type of Hz with
  | context [pz_reset E sd ?env] => destruct (pz_reset E sd env) as [res env1] eqn:Hreset
  end.
  injection Hz as -> <-.
  pose proof (pz_reset_agents_keeps obs 0 (PettingZooPufferEnv.possible_agents E)) as Hk.
  match type of Hloop with _ ?s0 = _ => specialize (Hk s0) end.
  rewrite Hloop in Hk. unfold pz_frame, pz_flags in Hk. simpl in Hk.
  injection Hk as Hw Hinit Hdone _ _ _.
  pose proof (pz_check_observation_life s7) as Hl. rewrite Hc in Hl.
  unfold pz_life in Hl. simpl in Hl. injection Hl as Hinit' Hdone'.
  pose proof (pz_check_observation_env s7) as He. rewrite Hc in He. simpl in He.
  split; [congruence |]. split; [congruence |].
  eexists obs, info, _. split.
  - rewrite He, Hw. simpl. exact Hreset.
  - exact (pz_reset_agents_present _ _ _ _ _ _ Hloop).
Qed.
End PettingZooFacts.

Lemma all_values_true (d : gmap Agent bool) :
  all_values d = true <-> map_Forall (fun _ b => b = true) d.
Proof.
  unfold all_values. rewrite map_Forall_to_list, forallb_forall, Forall_forall.
  split.
  - intros H [k b] Hin. apply list_elem_of_In in Hin. exact (H _ Hin).
  - intros H [k b] Hin. apply list_elem_of_In in Hin. exact (H _ Hin).
Qed.

(** C5: a multi-agent step that returns gives the reward, done and
    truncated mappings keyed by exactly the possible agents; an agent that
    the wrapped environment's result omits has the default (reward 0, done
    false, truncated false) and an agent it lists keeps its value. *)
Theorem step_pads_population (contains : Space -> PyVal -> PyResult bool)
    (E : PettingZooEnv) (actions : Actions) (st st' : PettingZooPufferEnv.t E)
    (d : gmap Agent PyVal) (rewards : gmap Agent (pz_reward E))
    (dones truncateds : gmap Agent bool) (infos : pz_info E) :
  PettingZooPufferEnv.step contains E actions st
  = (Ok (d, rewards, dones, truncateds, infos), st') ->
  exists unpacked obs raw_rewards raw_dones raw_truncateds env1,
    pz_step E unpacked (w_env (PettingZooPufferEnv.world E st))
    = (Ok (obs, raw_rewards, raw_dones, raw_truncateds, infos), env1)
    /\ dom rewards = list_to_set (pz_possible_agents E)
    /\ dom dones = list_to_set (pz_possible_agents E)
    /\ dom truncateds = list_to_set (pz_possible_agents E)
    /\ forall agent, agent ∈ pz_possible_agents E ->
         rewards !! agent = Some (default (pz_zero E) (raw_rewards !! agent))
         /\ dones !! agent = Some (default false (raw_dones !! agent))
         /\ truncateds !! agent = Some (default false (raw_truncateds !! agent)).
Proof.
  intros H. apply pz_step_inv in H as (_ & _ & H).
  destruct H as (unpacked & obs & rr & rd & rt & infos' & env1 & d' & Hstep & _ & _ & Hout).
  injection Hout as -> -> -> -> ->.
  exists unpacked, obs, rr, rd, rt, env1.
  split; [exact Hstep |].
  unfold PettingZooPufferEnv.possible_agents.
  rewrite !pad_agent_data_dom. repeat split; try reflexivity;
    rewrite pad_agent_data_lookup; by rewrite decide_True.
Qed.

(** The example of the specification: agent ["b"] has left, and its
    reward, done and truncated entries are the defaults. *)
Lemma step_pads_population_witness :
  exists st0 out st',
    PettingZooPufferEnv.__init__ duo_env ["a"; "b"] false = Ok st0
    /\ PettingZooPufferEnv.step contains_all duo_env two_actions
         (pz_run contains_all duo_env [PzReset None] st0) = (Ok out, st')
    /\ let '(d, rewards, dones, truncateds, infos) := out in
       dom rewards = list_to_set (pz_possible_agents duo_env)
       /\ rewards !! "b" = Some 0 /\ dones !! "b" = Some false
       /\ truncateds !! "b" = Some false.
Proof.
  eexists.
  destruct (PettingZooPufferEnv.step contains_all duo_env two_actions
              (pz_run contains_all duo_env [PzReset None] _))
    as [[[[[[d rewards] dones] truncateds] infos] | e] st'] eqn:Hstep.
  - exists (d, rewards, dones, truncateds, infos), st'.
    split; [reflexivity |]. split; [reflexivity |].
    destruct (step_pads_population contains_all duo_env two_actions _ _ _ _ _ _ _ Hstep)
      as (unpacked & obs & rr & rd & rt & env1 & Hraw & Hdom & _ & _ & Hpad).
    split; [exact Hdom |].
    destruct (Hpad "b") as (Hr & Hd & Ht).
    { apply list_elem_of_In. simpl. tauto. }
    vm_compute in Hraw. injection Hraw as _ <- <- <- _.
    repeat split; assumption.
  - exfalso. vm_compute in Hstep. discriminate Hstep.
Defined.

(** ** Steps before any reset *)

Lemma gym_run_steps_only contains (E : GymEnv) env st0 (actions : list ndarray) :
  GymnasiumPufferEnv.__init__ E env = Ok st0 ->
  gym_run contains E (map GymStep actions) st0 = st0.
Proof.
  intros Hinit. apply gym_init_uninitialized in Hinit.
  induction actions as [| a actions IH]; [done |].
  simpl. rewrite (gym_step_guard contains E a st0) by (by left). exact IH.
Qed.

Lemma pz_run_steps_only contains (E : PettingZooEnv) env p st0 (actions : list Actions) :
  PettingZooPufferEnv.__init__ E env p = Ok st0 ->
  pz_run contains E (map PzStep actions) st0 = st0.
Proof.
  intros Hinit. apply pz_init_uninitialized in Hinit.
  induction actions as [| a actions IH]; [done |].
  simpl. rewrite (pz_step_guard contains E a st0) by (by left). exact IH.
Qed.

(** ** The multi-agent done flag *)

(** C8 as stated fails: after this step the only active agent, ["a"], is
    done in the returned mapping, yet the adapter's [done] is false, because
    the wrapped environment's done mapping also lists the departed agent
    ["b"] as not done. *)
Lemma done_ignores_active_agents :
  exists st0 d rewards dones truncateds infos st',
    PettingZooPufferEnv.__init__ stale_env ["a"; "b"] false = Ok st0
    /\ PettingZooPufferEnv.step contains_all stale_env two_actions
         (pz_run contains_all stale_env [PzReset None] st0)
       = (Ok (d, rewards, dones, truncateds, infos), st')
    /\ ~ (PettingZooPufferEnv.done stale_env st' = true
          <-> (length (PettingZooPufferEnv.agents stale_env st') = 0%nat
               \/ forall agent, agent ∈ PettingZooPufferEnv.agents stale_env st' ->
                   dones !! agent = Some true)).
Proof.
  eexists.
  destruct (PettingZooPufferEnv.step contains_all stale_env two_actions
              (pz_run contains_all stale_env [PzReset None] _))
    as [[[[[[d rewards] dones] truncateds] infos] | e] st'] eqn:Hstep.
  - exists d, rewards, dones, truncateds, infos, st'.
    split; [reflexivity |]. split; [reflexivity |].
    assert (Hres : dones !! "a" = Some true
                   /\ PettingZooPufferEnv.agents stale_env st' = ["a"]
                   /\ PettingZooPufferEnv.done stale_env st' = false).
    { vm_compute in Hstep. injection Hstep as _ _ <- _ _ <-. by vm_compute. }
    destruct Hres as (Ha & Hactive & Hdone).
    intros [_ Hiff]. rewrite Hdone in Hiff.
    assert (false = true) as Habs; [| discriminate Habs].
    apply Hiff. right. intros agent Hin. rewrite Hactive in Hin.
    apply list_elem_of_singleton in Hin. by subst agent.
  - exfalso. vm_compute in Hstep. discriminate Hstep.
Qed.

(** C8 (amended): after every reset and every step of the multi-agent
    adapter that returns, its [done] flag is true if and only if no agent is
    active or every value of the done mapping that the wrapped environment
    returned from that step is true; after a reset, if and only if no agent
    is active. *)
Theorem done_after_reset_and_step (contains : Space -> PyVal -> PyResult bool)
    (E : PettingZooEnv) :
  (forall sd st r st',
     PettingZooPufferEnv.reset contains E sd st = (Ok r, st') ->
     (PettingZooPufferEnv.done E st' = true
      <-> length (PettingZooPufferEnv.agents E st') = 0%nat))
  /\ (forall actions st out st',
     PettingZooPufferEnv.step contains E actions st = (Ok out, st') ->
     exists unpacked obs rewards dones truncateds infos,
       pz_step E unpacked (w_env (PettingZooPufferEnv.world E st))
       = (Ok (obs, rewards, dones, truncateds, infos),
          w_env (PettingZooPufferEnv.world E st'))
       /\ (PettingZooPufferEnv.done E st' = true
           <-> (length (PettingZooPufferEnv.agents E st') = 0%nat
                \/ map_Forall (fun _ b => b = true) dones))).
Proof.
  split.
  - intros sd st r st' H. apply pz_reset_inv in H as (_ & Hdone & _).
    unfold PettingZooPufferEnv.done. rewrite Hdone, orb_false_r.
    apply Nat.eqb_eq.
  - intros actions st out st' H. apply pz_step_inv in H as (_ & _ & H).
    destruct H as (unpacked & obs & rr & rd & rt & infos & env1 & d & Hraw & <- & Hdone & _).
    exists unpacked, obs, rr, rd, rt, infos. split; [exact Hraw |].
    unfold PettingZooPufferEnv.done. rewrite Hdone, orb_true_iff, Nat.eqb_eq.
    by rewrite all_values_true.
Qed.

Lemma done_after_reset_and_step_witness :
  exists st0 r st',
    PettingZooPufferEnv.__init__ final_env ["a"; "b"] false = Ok st0
    /\ PettingZooPufferEnv.reset contains_all final_env None st0 = (Ok r, st')
    /\ (PettingZooPufferEnv.done final_env st' = true
        <-> length (PettingZooPufferEnv.agents final_env st') = 0%nat).
Proof.
  eexists.
  destruct (PettingZooPufferEnv.reset contains_all final_env None _)
    as [[r | e] st'] eqn:Hreset.
  - exists r, st'. split; [reflexivity |]. split; [reflexivity |].
    exact (proj1 (done_after_reset_and_step contains_all final_env) _ _ _ _ Hreset).
  - exfalso. vm_compute in Hreset. discriminate Hreset.
Defined.

(** ** The multi-agent reset *)

(** C6: when the wrapped environment's reset result omits a possible agent
    the reset does not zero-fill that agent's slot: it raises the
    [AttributeError] of assigning to [self.observation], which the adapter
    does not have; [step] zero-fills [self.obs] in the same situation. *)
Theorem reset_absent_agent_raises :
  (exists st0,
     PettingZooPufferEnv.__init__ late_env ["a"; "b"] false = Ok st0
     /\ fst (PettingZooPufferEnv.reset contains_all late_env None st0)
        = Raise AttributeError)
  /\ (exists st0 out,
       PettingZooPufferEnv.__init__ duo_env ["a"; "b"] false = Ok st0
       /\ fst (PettingZooPufferEnv.step contains_all duo_env two_actions
                 (pz_run contains_all duo_env [PzReset None] st0)) = Ok out
       /\ PettingZooPufferEnv.mask duo_env
            (snd (PettingZooPufferEnv.step contains_all duo_env two_actions
                    (pz_run contains_all duo_env [PzReset None] st0))) !! "b"
          = Some false).
Proof.
  split.
  - eexists. split; [reflexivity |]. by vm_compute.
  - do 2 eexists. split; [reflexivity |]. split; by vm_compute.
Qed.

(** A reset returns only when the wrapped environment gave an observation
    for every possible agent. *)
Lemma reset_returns_only_with_all_agents (contains : Space -> PyVal -> PyResult bool)
    (E : PettingZooEnv) sd st r st' :
  PettingZooPufferEnv.reset contains E sd st = (Ok r, st') ->
  exists obs info env0,
    pz_reset E sd env0 = (Ok (obs, info), w_env (PettingZooPufferEnv.world E st'))
    /\ Forall (fun agent => is_Some (obs !! agent)) (pz_possible_agents E).
Proof. intros H. by apply pz_reset_inv in H as (_ & _ & H). Qed.

(** ** The multi-agent adapter: each check is made once *)

Section PettingZooOnce.
Context (contains : Space -> PyVal -> PyResult bool).
Context (E : PettingZooEnv).

Definition pz_trace (st : PettingZooPufferEnv.t E) : list event :=
  w_trace (PettingZooPufferEnv.world E st).

(** The checks made so far are those the flags record, each site against
    the space the adapter declares for every agent. *)
Definition pz_checked_once (st : PettingZooPufferEnv.t E) : Prop :=
  ledger contains (PettingZooPufferEnv.single_observation_space E st)
    (PettingZooPufferEnv.is_observation_checked E st)
    (site_checks ObservationCheck (pz_trace st))
  /\ ledger contains (PettingZooPufferEnv.single_action_space E st)
       (PettingZooPufferEnv.is_action_checked E st)
       (site_checks ActionCheck (pz_trace st)).

Definition pz_once_kept (s s' : PettingZooPufferEnv.t E) : Prop :=
  (pz_checked_once s -> pz_checked_once s')
  /\ (PettingZooPufferEnv.is_observation_checked E s = true ->
      PettingZooPufferEnv.is_observation_checked E s' = true)
  /\ (PettingZooPufferEnv.is_action_checked E s = true ->
      PettingZooPufferEnv.is_action_checked E s' = true)
  /\ site_checks ObservationCheck (pz_trace s)
     `prefix_of` site_checks ObservationCheck (pz_trace s')
  /\ site_checks ActionCheck (pz_trace s)
     `prefix_of` site_checks ActionCheck (pz_trace s').

Lemma pz_once_kept_refl s : pz_once_kept s s.
Proof. unfold pz_once_kept. do 3 (split; [tauto |]). split; reflexivity. Qed.

Lemma pz_once_kept_trans s1 s2 s3 :
  pz_once_kept s1 s2 -> pz_once_kept s2 s3 -> pz_once_kept s1 s3.
Proof.
  intros (H1 & Ho1 & Ha1 & Po1 & Pa1) (H2 & Ho2 & Ha2 & Po2 & Pa2).
  do 3 (split; [tauto |]). split; by etrans.
Qed.

Definition pz_chk (st : PettingZooPufferEnv.t E) :=
  (checks (pz_trace st),
   PettingZooPufferEnv.is_observation_checked E st,
   PettingZooPufferEnv.is_action_checked E st,
   PettingZooPufferEnv.single_observation_space E st,
   PettingZooPufferEnv.single_action_space E st).

Lemma pz_chk_once_kept s s' : pz_chk s' = pz_chk s -> pz_once_kept s s'.
Proof.
  unfold pz_chk, checks. intros H. injection H as H1 H2 Ho Ha Hos Has.
  unfold pz_once_kept, pz_checked_once. rewrite H1, H2, Ho, Ha, Hos, Has.
  do 3 (split; [tauto |]). split; reflexivity.
Qed.

Lemma pz_frame_chk {A : Type} (m : M (PettingZooPufferEnv.t E) A) :
  keeps (pz_frame E) m -> keeps pz_chk m.
Proof.
  apply (keeps_proj (pz_frame E)
           (fun x => (checks (w_trace (fst x)),
                      snd (fst (fst (snd x))), snd (fst (snd x)),
                      fst (fst (fst (fst (fst (fst (fst (snd (snd x)))))))),
                      snd (fst (fst (fst (fst (fst (snd (snd x)))))))))).
Qed.

Lemma pz_zoom_chk {A : Type} (m : M (World (pz_state E)) A) :
  keeps (fun w => checks (w_trace w)) m -> keeps pz_chk (PettingZooPufferEnv.zoom E m).
Proof.
  intros Hm s. pose proof (pz_zoom_keeps_flags E m s) as Hf.
  pose proof (f_equal (fun x => (snd (fst (fst x)), snd (fst x),
                                 fst (fst (fst (fst (fst (fst (fst (snd x))))))),
                                 snd (fst (fst (fst (fst (fst (snd x)))))))) Hf) as Hg.
  unfold pz_flags, pz_cfg in Hg. cbn [fst snd] in Hg. injection Hg as Ho Ha Hos Has.
  unfold pz_chk, pz_trace. rewrite pz_zoom_world, Ho, Ha, Hos, Has.
  by rewrite (Hm (PettingZooPufferEnv.world E s)).
Qed.

Ltac pz_chk_go :=
  keeps_go
    ltac:(first
      [ apply pz_frame_chk;
        first [ apply pz_obs_array_keeps | apply pz_put_obs_array_keeps
              | apply pz__emulate_ob_keeps | apply pz_reset_bind_keeps
              | apply pz_read_dict_obs_keeps | apply pz_reset_agents_keeps
              | apply pz_step_agents_keeps ]
      | apply pz_zoom_chk; apply call_keeps_checks; reflexivity ]).

Lemma pz_step_env_chk actions : keeps pz_chk (PettingZooPufferEnv.step_env E actions).
Proof. unfold PettingZooPufferEnv.step_env. pz_chk_go. Qed.

(** A check that returns has set its flag. *)
Lemma pz_check_observation_sets u st st' :
  PettingZooPufferEnv.check_observation contains E st = (Ok u, st') ->
  PettingZooPufferEnv.is_observation_checked E st' = true.
Proof.
  unfold PettingZooPufferEnv.check_observation. intros H.
  apply bindM_inv in H as (checked & s1 & Hg & H).
  unfold gets in Hg. injection Hg as <- <-.
  destruct (PettingZooPufferEnv.is_observation_checked E st) eqn:Hflag; simpl in H.
  - unfold ret in H. by injection H as _ <-.
  - destruct (PettingZooPufferEnv.possible_agents E) as [| first l]; [done |].
    apply bindM_inv in H as (d & s1 & Hg & H). unfold gets in Hg. injection Hg as <- <-.
    destruct (PettingZooPufferEnv.dict_obs E st !! first) as [r |]; [| done].
    inv_binds H. unfold modify in H. injection H as _ <-. simpl.
    match goal with
    | Hz : PettingZooPufferEnv.zoom _ _ _ = (Ok ?r, _) |- _ =>
        unfold PettingZooPufferEnv.zoom in Hz;
        destruct (check_space contains _ _ _ _) as [[r' |] w'] eqn:Hc; [| done];
        injection Hz as -> _; by apply check_space_ok in Hc
    end.
Qed.

Lemma pz_check_action_sets actions u st st' :
  PettingZooPufferEnv.check_action contains E actions st = (Ok u, st') ->
  PettingZooPufferEnv.is_action_checked E st' = true.
Proof.
  unfold PettingZooPufferEnv.check_action. intros H.
  apply bindM_inv in H as (checked & s1 & Hg & H).
  unfold gets in Hg. injection Hg as <- <-.
  destruct (PettingZooPufferEnv.is_action_checked E st) eqn:Hflag; simpl in H.
  - unfold ret in H. by injection H as _ <-.
  - destruct actions as [| [agent atn] actions]; [done |].
    inv_binds H. unfold modify in H. injection H as _ <-. simpl.
    match goal with
    | Hz : PettingZooPufferEnv.zoom _ _ _ = (Ok ?r, _) |- _ =>
        unfold PettingZooPufferEnv.zoom in Hz;
        destruct (check_space contains _ _ _ _) as [[r' |] w'] eqn:Hc; [| done];
        injection Hz as -> _; by apply check_space_ok in Hc
    end.
Qed.

Lemma pz_reset_checked sd r st st' :
  PettingZooPufferEnv.reset contains E sd st = (Ok r, st') ->
  PettingZooPufferEnv.is_observation_checked E st' = true.
Proof.
  unfold PettingZooPufferEnv.reset. intros H. inv_binds H.
  unfold ret in H. injection H as _ <-.
  match goal with
  | Hc : PettingZooPufferEnv.check_observation _ _ _ = (Ok _, ?s),
    Hr : PettingZooPufferEnv.read_dict_obs E ?s = (Ok _, ?s') |- _ =>
      pose proof (pz_read_dict_obs_state E s) as Hs; rewrite Hr in Hs; simpl in Hs;
      subst s'; exact (pz_check_observation_sets _ _ _ Hc)
  end.
Qed.

Lemma pz_step_checked actions r st st' :
  PettingZooPufferEnv.step contains E actions st = (Ok r, st') ->
  PettingZooPufferEnv.is_action_checked E st' = true.
Proof.
  unfold PettingZooPufferEnv.step. intros H.
  apply bindM_inv in H as (init & s1 & _ & H).
  destruct (negb init); [done |].
  apply bindM_inv in H as (d0 & s2 & _ & H).
  destruct d0; [done |].
  apply bindM_inv in H as (acts & s3 & _ & H).
  apply bindM_inv in H as (u & s4 & Hc & H).
  apply pz_check_action_sets in Hc.
  pose proof (pz_step_env_chk acts s4) as Hk.
  rewrite H in Hk. unfold pz_chk in Hk. simpl in Hk. congruence.
Qed.

(** The array [self.obs] names depends on the observation storage only. *)
Lemma pz_obs_array_ext s1 s2 :
  PettingZooPufferEnv.obs_bound E s1 = PettingZooPufferEnv.obs_bound E s2 ->
  PettingZooPufferEnv.mem E s1 = PettingZooPufferEnv.mem E s2 ->
  PettingZooPufferEnv.obs E s1 = PettingZooPufferEnv.obs E s2 ->
  fst (PettingZooPufferEnv.obs_array E s1) = fst (PettingZooPufferEnv.obs_array E s2).
Proof.
  intros Hb Hm Ho. unfold PettingZooPufferEnv.obs_array. rewrite Hb, Hm, Ho.
  by repeat case_match.
Qed.

(** The observation check, when it is made, is made on the observation
    held for the first possible agent, against the adapter's observation
    space; it sets the flag when the test says yes and raises otherwise. *)
Lemma pz_check_observation_run st first l r a o :
  PettingZooPufferEnv.is_observation_checked E st = false ->
  PettingZooPufferEnv.possible_agents E = first :: l ->
  PettingZooPufferEnv.dict_obs E st !! first = Some r ->
  PettingZooPufferEnv.obs_array E st = (Ok a, st) ->
  PettingZooPufferEnv.deref a r = Ok o ->
  PettingZooPufferEnv.check_observation contains E st
  = let w := mkWorld (w_env (PettingZooPufferEnv.world E st))
               (pz_trace st
                ++ [EvContains ObservationCheck
                      (PettingZooPufferEnv.single_observation_space E st) o]) in
    match contains (PettingZooPufferEnv.single_observation_space E st) o with
    | Ok true =>
        (Ok tt, PettingZooPufferEnv.set_is_observation_checked E true
                  (PettingZooPufferEnv.set_world E w st))
    | _ => (Raise APIUsageError, PettingZooPufferEnv.set_world E w st)
    end.
Proof.
  intros Hflag Hpop Hr Ha Ho.
  unfold PettingZooPufferEnv.check_observation.
  unfold bindM at 1, gets at 1. rewrite Hflag. cbn [negb]. rewrite Hpop.
  unfold bindM at 1, gets at 1. rewrite Hr.
  unfold bindM at 1. rewrite Ha.
  unfold bindM at 1, lift at 1. rewrite Ho.
  unfold bindM at 1, gets at 1.
  unfold bindM at 1, PettingZooPufferEnv.zoom. rewrite check_space_result.
  unfold pz_trace.
  by destruct (contains (PettingZooPufferEnv.single_observation_space E st) o) as [[] |].
Qed.

(** When the check cannot be made the call raises and leaves the adapter
    as it was. *)
Lemma pz_check_observation_skip st :
  PettingZooPufferEnv.is_observation_checked E st = false ->
  (forall first l r a o,
     PettingZooPufferEnv.possible_agents E = first :: l ->
     PettingZooPufferEnv.dict_obs E st !! first = Some r ->
     PettingZooPufferEnv.obs_array E st = (Ok a, st) ->
     PettingZooPufferEnv.deref a r = Ok o -> False) ->
  exists e, PettingZooPufferEnv.check_observation contains E st = (Raise e, st).
Proof.
  intros Hflag Hno.
  unfold PettingZooPufferEnv.check_observation, bindM, gets, raise, lift. simpl.
  rewrite Hflag. simpl.
  destruct (PettingZooPufferEnv.possible_agents E) as [| first l] eqn:Hpop; [by eexists |].
  destruct (PettingZooPufferEnv.dict_obs E st !! first) as [r |] eqn:Hr; [| by eexists].
  pose proof (pz_obs_array_state E st) as Hs.
  destruct (PettingZooPufferEnv.obs_array E st) as [[a | e] s1] eqn:Ha;
    cbn [snd] in Hs; subst s1; [| by eexists].
  destruct (PettingZooPufferEnv.deref a r) as [o | e] eqn:Ho; [| by eexists].
  destruct (Hno first l r a o eq_refl Hr eq_refl Ho).
Qed.

Lemma pz_check_observation_cases st :
  PettingZooPufferEnv.is_observation_checked E st = false ->
  (exists first l r a o,
     PettingZooPufferEnv.possible_agents E = first :: l
     /\ PettingZooPufferEnv.dict_obs E st !! first = Some r
     /\ PettingZooPufferEnv.obs_array E st = (Ok a, st)
     /\ PettingZooPufferEnv.deref a r = Ok o)
  \/ exists e, PettingZooPufferEnv.check_observation contains E st = (Raise e, st).
Proof.
  intros Hflag.
  destruct (PettingZooPufferEnv.possible_agents E) as [| first l] eqn:Hpop.
  { right. apply pz_check_observation_skip; [done |]. intros. congruence. }
  destruct (PettingZooPufferEnv.dict_obs E st !! first) as [r |] eqn:Hr.
  2: { right. apply pz_check_observation_skip; [done |]. intros. congruence. }
  pose proof (pz_obs_array_state E st) as Hs.
  destruct (PettingZooPufferEnv.obs_array E st) as [[a | e] s1] eqn:Ha;
    cbn [snd] in Hs; subst s1.
  2: { right. apply pz_check_observation_skip; [done |]. intros. congruence. }
  destruct (PettingZooPufferEnv.deref a r) as [o | e] eqn:Ho.
  2: { right. apply pz_check_observation_skip; [done |]. intros. congruence. }
  left. by exists first, l, r, a, o.
Qed.

Lemma pz_check_action_run agent atn actions st :
  PettingZooPufferEnv.is_action_checked E st = false ->
  PettingZooPufferEnv.check_action contains E ((agent, atn) :: actions) st
  = let w := mkWorld (w_env (PettingZooPufferEnv.world E st))
               (pz_trace st
                ++ [EvContains ActionCheck
                      (PettingZooPufferEnv.single_action_space E st) (VArray atn)]) in
    match contains (PettingZooPufferEnv.single_action_space E st) (VArray atn) with
    | Ok true =>
        (Ok tt, PettingZooPufferEnv.set_is_action_checked E true
                  (PettingZooPufferEnv.set_world E w st))
    | _ => (Raise APIUsageError, PettingZooPufferEnv.set_world E w st)
    end.
Proof.
  intros Hflag.
  unfold PettingZooPufferEnv.check_action.
  unfold bindM at 1, gets at 1. rewrite Hflag. cbn [negb].
  unfold bindM at 1, gets at 1.
  unfold bindM at 1, PettingZooPufferEnv.zoom. rewrite check_space_result.
  unfold pz_trace.
  by destruct (contains (PettingZooPufferEnv.single_action_space E st) (VArray atn))
    as [[] |].
Qed.

Lemma pz_check_observation_checked st :
  PettingZooPufferEnv.is_observation_checked E st = true ->
  PettingZooPufferEnv.check_observation contains E st = (Ok tt, st).
Proof.
  intros H. unfold PettingZooPufferEnv.check_observation, bindM, gets. simpl.
  by rewrite H.
Qed.

Lemma pz_check_action_checked actions st :
  PettingZooPufferEnv.is_action_checked E st = true ->
  PettingZooPufferEnv.check_action contains E actions st = (Ok tt, st).
Proof.
  intros H. unfold PettingZooPufferEnv.check_action, bindM, gets. simpl.
  by rewrite H.
Qed.

Lemma pz_check_observation_once : respects pz_once_kept
  (PettingZooPufferEnv.check_observation contains E).
Proof.
  intros st.
  destruct (PettingZooPufferEnv.is_observation_checked E st) eqn:Hflag.
  { rewrite pz_check_observation_checked by done. apply pz_once_kept_refl. }
  destruct (pz_check_observation_cases st Hflag)
    as [(first & l & r & a & o & Hpop & Hr & Ha & Ho) | [e He]].
  2: { rewrite He. apply pz_once_kept_refl. }
  rewrite (pz_check_observation_run st first l r a o Hflag Hpop Hr Ha Ho). cbv zeta.
  pose proof (ledger_check contains (PettingZooPufferEnv.single_observation_space E st)
                (site_checks ObservationCheck (pz_trace st)) o) as Hl.
  clear Hr Ha.
  unfold pz_once_kept, pz_checked_once, pz_trace in *.
  destruct (contains (PettingZooPufferEnv.single_observation_space E st) o) as [[] | e];
    cbn [snd]; destruct st; cbn in *; rewrite !site_checks_app; cbn;
    rewrite ?app_nil_r; subst;
    (split; [intros [Hobs Hact]; split; [by apply Hl | done] |]);
    (split; [done |]); (split; [done |]);
    (split; [by apply prefix_app_r | done]).
Qed.

Lemma pz_check_action_once actions : respects pz_once_kept
  (PettingZooPufferEnv.check_action contains E actions).
Proof.
  intros st.
  destruct (PettingZooPufferEnv.is_action_checked E st) eqn:Hflag.
  { rewrite pz_check_action_checked by done. apply pz_once_kept_refl. }
  destruct actions as [| [agent atn] actions].
  { unfold PettingZooPufferEnv.check_action, bindM, gets, raise. simpl.
    rewrite Hflag. apply pz_once_kept_refl. }
  rewrite (pz_check_action_run agent atn actions st Hflag). cbv zeta.
  pose proof (ledger_check contains (PettingZooPufferEnv.single_action_space E st)
                (site_checks ActionCheck (pz_trace st)) (VArray atn)) as Hl.
  unfold pz_once_kept, pz_checked_once, pz_trace in *.
  destruct (contains (PettingZooPufferEnv.single_action_space E st) (VArray atn))
    as [[] | e];
    cbn [snd]; destruct st; cbn in *; rewrite !site_checks_app; cbn;
    rewrite ?app_nil_r; subst;
    (split; [intros [Hobs Hact]; split; [done | by apply Hl] |]);
    (split; [done |]); (split; [done |]);
    (split; [done | by apply prefix_app_r]).
Qed.

Ltac pz_once_go :=
  respects_go pz_once_kept_refl pz_once_kept_trans
    ltac:(first
      [ apply pz_check_observation_once | apply pz_check_action_once
      | apply (keeps_respects pz_chk); [apply pz_chk_once_kept |];
        first
          [ apply pz_step_env_chk
          | apply pz_frame_chk;
            first [ apply pz_obs_array_keeps | apply pz_put_obs_array_keeps
                  | apply pz__emulate_ob_keeps | apply pz_reset_bind_keeps
                  | apply pz_read_dict_obs_keeps | apply pz_reset_agents_keeps
                  | apply pz_step_agents_keeps ]
          | apply pz_zoom_chk; apply call_keeps_checks; reflexivity ]
      | match goal with
        | |- respects _ (modify _) =>
            apply respects_modify; intros []; apply pz_chk_once_kept; reflexivity
        end ]).

Lemma pz_reset_once sd :
  respects pz_once_kept (PettingZooPufferEnv.reset contains E sd).
Proof. unfold PettingZooPufferEnv.reset. pz_once_go. Qed.

Lemma pz_step_once actions :
  respects pz_once_kept (PettingZooPufferEnv.step contains E actions).
Proof. unfold PettingZooPufferEnv.step. pz_once_go. Qed.

Lemma pz_run_once cs st : pz_once_kept st (pz_run contains E cs st).
Proof.
  revert st. induction cs as [| c cs IH]; intros st.
  - apply pz_once_kept_refl.
  - simpl. fold (pz_run contains E cs (pz_exec contains E c st)).
    eapply pz_once_kept_trans; [| apply IH].
    destruct c; [apply pz_reset_once | apply pz_step_once].
Qed.

(** *** Where the checks are made *)

(** An observation check that returns was made, when the flag was unset, on
    the observation that the adapter afterwards returns for the first
    possible agent. *)
Lemma pz_check_observation_made u st st' d :
  PettingZooPufferEnv.check_observation contains E st = (Ok u, st') ->
  PettingZooPufferEnv.read_dict_obs E st' = (Ok d, st') ->
  if PettingZooPufferEnv.is_observation_checked E st
  then checks (pz_trace st') = checks (pz_trace st)
  else exists first o,
         head (PettingZooPufferEnv.possible_agents E) = Some first
         /\ d !! first = Some o
         /\ checks (pz_trace st')
            = (site_checks ObservationCheck (pz_trace st)
               ++ [(PettingZooPufferEnv.single_observation_space E st, o)],
               site_checks ActionCheck (pz_trace st)).
Proof.
  intros Hc Hread.
  destruct (PettingZooPufferEnv.is_observation_checked E st) eqn:Hflag.
  { rewrite pz_check_observation_checked in Hc by done. by injection Hc as _ <-. }
  destruct (pz_check_observation_cases st Hflag)
    as [(first & l & r & a & o & Hpop & Hr & Ha & Ho) | [e He]].
  2: { by rewrite He in Hc. }
  rewrite (pz_check_observation_run st first l r a o Hflag Hpop Hr Ha Ho) in Hc.
  cbv zeta in Hc.
  destruct (contains (PettingZooPufferEnv.single_observation_space E st) o) as [[] | e];
    [| done | done].
  injection Hc as _ <-.
  exists first, o. split; [by rewrite Hpop |]. split.
  - unfold PettingZooPufferEnv.read_dict_obs, bindM, gets, ret in Hread.
    match type of Hread with
    | context [PettingZooPufferEnv.obs_array E ?s'] =>
        pose proof (pz_obs_array_ext s' st eq_refl eq_refl eq_refl) as Hext;
        pose proof (pz_obs_array_state E s') as Hs';
        destruct (PettingZooPufferEnv.obs_array E s') as [[a' | e'] s1]; [| done]
    end.
    cbn [snd] in Hs'. subst s1.
    rewrite Ha in Hext. cbn [fst] in Hext. injection Hext as ->.
    injection Hread as <-.
    rewrite lookup_omap. cbn [PettingZooPufferEnv.dict_obs
      PettingZooPufferEnv.set_is_observation_checked PettingZooPufferEnv.set_world].
    rewrite Hr. cbn. by rewrite Ho.
  - unfold checks, pz_trace. cbn [PettingZooPufferEnv.world
      PettingZooPufferEnv.set_is_observation_checked PettingZooPufferEnv.set_world w_trace].
    rewrite !site_checks_app. cbn. by rewrite app_nil_r.
Qed.

(** A reset that returns has added to the checks made exactly the check of
    the observation it returns for the first possible agent against the
    adapter's observation space, and only when no observation check had
    succeeded before. *)
Lemma pz_reset_made sd d info st st' :
  PettingZooPufferEnv.reset contains E sd st = (Ok (d, info), st') ->
  if PettingZooPufferEnv.is_observation_checked E st
  then checks (pz_trace st') = checks (pz_trace st)
  else exists first o,
         head (PettingZooPufferEnv.possible_agents E) = Some first
         /\ d !! first = Some o
         /\ checks (pz_trace st')
            = (site_checks ObservationCheck (pz_trace st)
               ++ [(PettingZooPufferEnv.single_observation_space E st, o)],
               site_checks ActionCheck (pz_trace st)).
Proof.
  unfold PettingZooPufferEnv.reset. intros H.
  apply bindM_inv in H as (init & s0 & Hg & H). unfold gets in Hg. injection Hg as <- <-.
  apply bindM_inv in H as (u1 & s1 & H1 & H).
  apply bindM_inv in H as (u2 & s2 & H2 & H). unfold modify in H2. injection H2 as _ <-.
  apply bindM_inv in H as (u3 & s3 & H3 & H). unfold modify in H3. injection H3 as _ <-.
  apply bindM_inv in H as (u4 & s4 & H4 & H). unfold modify in H4. injection H4 as _ <-.
  apply bindM_inv in H as ([obs info'] & s5 & H5 & H).
  apply bindM_inv in H as (u6 & s6 & H6 & H).
  apply bindM_inv in H as (u7 & s7 & H7 & H).
  apply bindM_inv in H as (d' & s8 & H8 & H).
  unfold ret in H. injection H as -> -> <-.
  pose proof (pz_read_dict_obs_state E s7) as Hs. rewrite H8 in Hs. cbn [snd] in Hs.
  subst s8.
  pose proof (pz_check_observation_made _ _ _ _ H7 H8) as Hmade.
  assert (Hk1 : pz_chk s1 = pz_chk st).
  { assert (Hk : keeps pz_chk
                   (if negb (PettingZooPufferEnv.initialized E st)
                    then PettingZooPufferEnv.reset_bind E else ret tt)).
    { destruct (negb (PettingZooPufferEnv.initialized E st));
        [apply pz_frame_chk, pz_reset_bind_keeps | apply keeps_ret]. }
    specialize (Hk st). by rewrite H1 in Hk. }
  match type of H5 with
  | _ ?s0 = _ =>
      assert (Hk5 : pz_chk s5 = pz_chk s0);
      [ pose proof (pz_zoom_chk (call (EvReset sd) (pz_reset E sd))
                      (call_keeps_checks (EvReset sd) (pz_reset E sd) eq_refl eq_refl)
                      s0) as Hk;
        by rewrite H5 in Hk |]
  end.
  assert (Hk6 : pz_chk s6 = pz_chk s5).
  { pose proof (pz_frame_chk _ (pz_reset_agents_keeps E obs 0
                                  (PettingZooPufferEnv.possible_agents E)) s5) as Hk.
    by rewrite H6 in Hk. }
  assert (Hall : pz_chk s6 = pz_chk st).
  { rewrite Hk6, Hk5, <- Hk1. by destruct s1. }
  unfold pz_chk, checks in Hall. injection Hall as Ho Ha Hfo _ Hos _.
  unfold checks in Hmade |- *. rewrite Hfo, Hos, Ho, Ha in Hmade. exact Hmade.
Qed.

(** A step that returns has added to the checks made exactly the check of
    the first action of the mapping it was given (the first row of a dense
    array) against the adapter's action space, and only when no action check
    had succeeded before. *)
Lemma pz_step_checks_made actions out st st' :
  PettingZooPufferEnv.step contains E actions st = (Ok out, st') ->
  if PettingZooPufferEnv.is_action_checked E st
  then checks (pz_trace st') = checks (pz_trace st)
  else exists acts agent atn rest,
         match actions with
         | ActArray a =>
             PettingZooPufferEnv.actions_of_array a 0
               (PettingZooPufferEnv.possible_agents E) []
         | ActDict items => Ok items
         end = Ok acts
         /\ acts = (agent, atn) :: rest
         /\ checks (pz_trace st')
            = (site_checks ObservationCheck (pz_trace st),
               site_checks ActionCheck (pz_trace st)
               ++ [(PettingZooPufferEnv.single_action_space E st, VArray atn)]).
Proof.
  unfold PettingZooPufferEnv.step. intros H.
  apply bindM_inv in H as (init & s0 & Hg & H). unfold gets in Hg. injection Hg as <- <-.
  destruct (negb (PettingZooPufferEnv.initialized E st)); [done |].
  apply bindM_inv in H as (dn & s0 & Hg & H). unfold gets in Hg. injection Hg as <- <-.
  destruct (PettingZooPufferEnv.done E st); [done |].
  apply bindM_inv in H as (acts & s2 & Ha & H).
  assert (Hacts : match actions with
                  | ActArray a =>
                      PettingZooPufferEnv.actions_of_array a 0
                        (PettingZooPufferEnv.possible_agents E) []
                  | ActDict items => Ok items
                  end = Ok acts /\ s2 = st).
  { destruct actions; [unfold lift in Ha | unfold ret in Ha]; by injection Ha as -> ->. }
  destruct Hacts as [Hacts ->].
  apply bindM_inv in H as (u & s3 & Hc & H).
  pose proof (pz_step_env_chk acts s3) as Hk. rewrite H in Hk. cbn [snd] in Hk.
  unfold pz_chk, checks in Hk. injection Hk as Hko Hka _ _ _ _.
  unfold checks. rewrite Hko, Hka.
  destruct (PettingZooPufferEnv.is_action_checked E st) eqn:Hflag.
  { rewrite pz_check_action_checked in Hc by done. by injection Hc as _ <-. }
  destruct acts as [| [agent atn] rest].
  { unfold PettingZooPufferEnv.check_action, bindM, gets, raise in Hc. simpl in Hc.
    by rewrite Hflag in Hc. }
  exists ((agent, atn) :: rest), agent, atn, rest. split; [done |]. split; [done |].
  rewrite (pz_check_action_run agent atn rest st Hflag) in Hc. cbv zeta in Hc.
  destruct (contains (PettingZooPufferEnv.single_action_space E st) (VArray atn))
    as [[] | e]; [| done | done].
  injection Hc as _ <-.
  unfold pz_trace. cbn [PettingZooPufferEnv.world
    PettingZooPufferEnv.set_is_action_checked PettingZooPufferEnv.set_world w_trace].
  rewrite !site_checks_app. cbn. by rewrite app_nil_r.
Qed.

Lemma pz_init_checked_once env p st :
  PettingZooPufferEnv.__init__ E env p = Ok st -> pz_checked_once st.
Proof.
  unfold PettingZooPufferEnv.__init__. intros H.
  destruct (PettingZooPufferEnv.possible_agents E) as [| single l]; [done |].
  destruct (emulate_observation_space _) as [[o od] |]; [| done].
  destruct (emulate_action_space _) as [[a ad] |]; [| done].
  simpl in H. injection H as <-.
  split; (split; [by apply Forall_nil | by apply Forall_nil]).
Qed.

(** The spaces the adapter declares are the flat views of the spaces of the
    first possible agent. *)
Lemma pz_init_spaces env p st :
  PettingZooPufferEnv.__init__ E env p = Ok st ->
  exists first,
    head (PettingZooPufferEnv.possible_agents E) = Some first
    /\ emulate_observation_space (pz_observation_space E first)
       = Ok (PettingZooPufferEnv.single_observation_space E st,
             PettingZooPufferEnv.obs_dtype E st)
    /\ emulate_action_space (pz_action_space E first)
       = Ok (PettingZooPufferEnv.single_action_space E st,
             PettingZooPufferEnv.atn_dtype E st).
Proof.
  unfold PettingZooPufferEnv.__init__. intros H.
  destruct (PettingZooPufferEnv.possible_agents E) as [| single l]; [done |].
  destruct (emulate_observation_space _) as [[o od] |] eqn:Ho; [| done].
  destruct (emulate_action_space _) as [[a ad] |] eqn:Ha; [| done].
  simpl in H. injection H as <-. exists single. by rewrite Ho, Ha.
Qed.
End PettingZooOnce.

(** ** Bytes of a scalar element *)

Lemma length_le_bytes w n : length (le_bytes w n) = w.
Proof. revert n. induction w as [| w IH]; intros n; simpl; [done | by rewrite IH]. Qed.

Lemma to_N_byte_of_N n : Byte.to_N (byte_of_N n) = (n mod 256)%N.
Proof.
  unfold byte_of_N.
  pose proof (Byte.to_of_N_option_map (n mod 256)%N) as H.
  assert (Hlt : (n mod 256 < 256)%N) by (apply N.mod_lt; lia).
  destruct (N.leb_spec (n mod 256) 255) as [_ | Hgt]; [| lia].
  destruct (Byte.of_N (n mod 256)) as [b |]; simpl in *; [by injection H | done].
Qed.




Lemma le_value_le_bytes w n : le_value (le_bytes w n) = (n mod 256 ^ N.of_nat w)%N.
Proof.
  revert n. induction w as [| w IH]; intros n.
  - simpl. by rewrite N.mod_1_r.
  - cbn [le_bytes le_value]. rewrite to_N_byte_of_N, IH.
    rewrite Nat2N.inj_succ, N.pow_succ_r'.
    rewrite (N.Div0.mod_mul_r n 256 (256 ^ N.of_nat w)). lia.
Qed.

Lemma bits_pow t : 2 ^ bits t = Z.of_N (256 ^ N.of_nat (scalar_itemsize t)).
Proof. by destruct t. Qed.

Lemma bits_half t : 2 ^ bits t = 2 * 2 ^ (bits t - 1).
Proof. by destruct t. Qed.

Lemma bits_half_pos t : 0 < 2 ^ (bits t - 1).
Proof. by destruct t. Qed.

Lemma length_scalar_to_bytes t v : length (scalar_to_bytes t v) = scalar_itemsize t.
Proof. apply length_le_bytes. Qed.


(** Writing an element of the type's range and reading it gives the
    element. *)
Lemma scalar_of_to_bytes t v :
  in_range t v = true -> scalar_of_bytes t (scalar_to_bytes t (cast t v)) = v.
Proof.
  intros Hrange.
  assert (Hcast : cast t v = v).
  { destruct t; simpl in *; try done.
    destruct (Z.eqb_spec v 0); lia. }
  rewrite Hcast. unfold scalar_to_bytes, scalar_of_bytes.
  rewrite le_value_le_bytes.
  pose proof (bits_half t) as Hhalf. pose proof (bits_half_pos t) as Hpos.
  assert (Hm : 0 <= v mod 2 ^ bits t < 2 ^ bits t) by (apply Z.mod_pos_bound; lia).
  rewrite N.mod_small.
  2: { apply N2Z.inj_lt. rewrite <- bits_pow, Z2N.id by lia. lia. }
  rewrite Z2N.id by lia.
  assert (Hr : if is_signed t then - 2 ^ (bits t - 1) <= v < 2 ^ (bits t - 1)
               else 0 <= v < 2 ^ bits t).
  { destruct t; simpl in Hrange |- *; lia. }
  destruct (is_signed t); simpl.
  - destruct (Z.leb_spec (2 ^ (bits t - 1)) (v mod 2 ^ bits t)) as [Hge | Hlt].
    + assert (v < 0).
      { destruct (Z.lt_ge_cases v 0); [done |].
        rewrite Z.mod_small in Hge by lia. lia. }
      replace v with ((v + 2 ^ bits t) + (-1) * 2 ^ bits t) at 1 by lia.
      rewrite Z.mod_add by lia. rewrite Z.mod_small by lia. lia.
    + destruct (Z.lt_ge_cases v 0) as [Hneg | Hnn]; [| by apply Z.mod_small; lia].
      replace v with ((v + 2 ^ bits t) + (-1) * 2 ^ bits t) in Hlt at 1 by lia.
      rewrite Z.mod_add in Hlt by lia. rewrite Z.mod_small in Hlt by lia. lia.
  - apply Z.mod_small. lia.
Qed.

(** ** Views of a buffer *)



(** ** Positional fields as named fields *)

Fixpoint enumerate_from {A : Type} (i : nat) (l : list A) : list (string * A) :=
  match l with
  | [] => []
  | x :: l' => (fname i, x) :: enumerate_from (S i) l'
  end.

Lemma fname_inj i j : fname i = fname j -> i = j.
Proof. unfold fname. simpl. intros H. injection H as H. by apply (inj pretty). Qed.

Lemma enumerate_from_names {A : Type} i (l : list A) :
  map fst (enumerate_from i l) = map fname (seq i (length l)).
Proof.
  revert i. induction l as [| x l IH]; intros i; simpl; [done | by rewrite IH].
Qed.

Lemma enumerate_from_NoDup {A : Type} i (l : list A) :
  NoDup (map fst (enumerate_from i l)).
Proof.
  rewrite enumerate_from_names. apply NoDup_fmap_2; [| apply NoDup_seq].
  intros a b. apply fname_inj.
Qed.

Lemma enumerate_from_snd {A : Type} i (l : list A) : map snd (enumerate_from i l) = l.
Proof.
  revert i. induction l as [| x l IH]; intros i; simpl; [done | by rewrite IH].
Qed.

Lemma tuple_fields_enumerate {A : Type} (f : Space -> A) i l :
  tuple_fields f i l = dict_fields f (enumerate_from i l).
Proof.
  revert i. induction l as [| x l IH]; intros i; simpl; [done | by rewrite IH].
Qed.

Lemma emulate_tuple_items_enumerate f d off i items buf :
  emulate_tuple_items f d off i items buf
  = emulate_dict_items f d off (enumerate_from i items) buf.
Proof.
  revert i buf. induction items as [| v items IH]; intros i buf; simpl; [done |].
  destruct (getfield d (fname i)) as [[fd o] |]; simpl; [| done].
  destruct (f fd (off + o)%nat v buf) as [buf' |]; simpl; [apply IH | done].
Qed.

Lemma nativize_tuple_items_enumerate f d off i spaces :
  nativize_tuple_items f d off i spaces
  = (vs ← nativize_dict_items f d off (enumerate_from i spaces); Ok (map snd vs)).
Proof.
  revert i. induction spaces as [| e spaces IH]; intros i; simpl; [done |].
  destruct (getfield d (fname i)) as [[fd o] |]; simpl; [| done].
  destruct (f fd (off + o)%nat e) as [v |]; simpl; [| done].
  rewrite IH.
  by destruct (nativize_dict_items f d off (enumerate_from (S i) spaces)).
Qed.

Lemma conforms_tuple_enumerate c i items spaces :
  conforms_dict c (enumerate_from i items) (enumerate_from i spaces)
  = conforms_tuple c items spaces.
Proof.
  revert i spaces. induction items as [| v items IH]; intros i [| e spaces]; simpl; try done.
  rewrite bool_decide_true by done. by rewrite IH.
Qed.

(** ** Where the fields of a record lie *)

(** The offset after the last field placed. *)
Fixpoint fields_end (fs : list (string * DType)) (off : nat) : nat :=
  match fs with
  | [] => off
  | (_, fd) :: fs' => fields_end fs' (snd (place off (itemsize fd) (alignment fd)))
  end.

Lemma place_fields_align_ge f fs off m : (m <= snd (place_fields f fs off m))%nat.
Proof.
  revert off m. induction fs as [| [k fd] fs IH]; intros off m; simpl; [done |].
  etransitivity; [| apply IH]. lia.
Qed.

Lemma alignment_pos d : (0 < alignment d)%nat.
Proof.
  destruct d as [t shape | fs]; unfold alignment; simpl.
  - apply scalar_itemsize_pos.
  - pose proof (place_fields_align_ge layout fs 0 1). lia.
Qed.

Lemma fields_end_ge fs off : (off <= fields_end fs off)%nat.
Proof.
  revert off. induction fs as [| [k fd] fs IH]; intros off; simpl; [done |].
  etransitivity; [| apply IH].
  pose proof (round_up_ge off (alignment fd) (alignment_pos fd)). lia.
Qed.

Lemma place_fields_end fs off m :
  (0 < m)%nat -> (fields_end fs off <= fst (place_fields layout fs off m))%nat.
Proof.
  revert off m. induction fs as [| [k fd] fs IH]; intros off m Hm; simpl.
  - by apply round_up_ge.
  - apply IH. lia.
Qed.

Lemma itemsize_struct_ge fs : (fields_end fs 0 <= itemsize (DStruct fs))%nat.
Proof. unfold itemsize. rewrite layout_struct. apply place_fields_end. lia. Qed.

Lemma assoc_app_here {A : Type} k (e : A) pre rest :
  k ∉ map fst pre -> assoc k (pre ++ (k, e) :: rest) = Some e.
Proof.
  induction pre as [| [k' e'] pre IH]; intros Hnin; simpl.
  - by rewrite decide_True.
  - rewrite decide_False.
    + apply IH. intros Hin. apply Hnin. simpl. by right.
    + intros ->. apply Hnin. simpl. by left.
Qed.

(** ** Writing to and reading from a region of a buffer *)

Lemma length_splice buf off bs :
  (off + length bs <= length buf)%nat -> length (splice buf off bs) = length buf.
Proof.
  intros H. unfold splice. rewrite !length_app, length_take, length_drop. lia.
Qed.

Lemma lookup_splice_outside buf off bs i :
  (off + length bs <= length buf)%nat ->
  (i < off \/ off + length bs <= i)%nat ->
  splice buf off bs !! i = buf !! i.
Proof.
  intros Hlen Hi. unfold splice. destruct Hi as [Hlt | Hge].
  - rewrite lookup_app_l by (rewrite length_take; lia). by apply lookup_take_lt.
  - rewrite lookup_app_r by (rewrite length_take; lia).
    rewrite length_take, lookup_app_r by lia.
    rewrite lookup_drop. f_equal. lia.
Qed.

Lemma take_drop_splice buf off bs :
  (off + length bs <= length buf)%nat ->
  take (length bs) (drop off (splice buf off bs)) = bs.
Proof.
  intros Hlen. unfold splice.
  rewrite drop_app_length' by (rewrite length_take; lia).
  apply take_app_length.
Qed.

(** Two buffers that agree on a region give the same bytes there. *)
Lemma take_drop_agree (b1 b2 : list byte) off n :
  (forall i, (off <= i < off + n)%nat -> b1 !! i = b2 !! i) ->
  take n (drop off b1) = take n (drop off b2).
Proof.
  intros Hagree. apply list_eq. intros j.
  destruct (Nat.lt_ge_cases j n) as [Hlt | Hge].
  - rewrite !lookup_take_lt, !lookup_drop by done. apply Hagree. lia.
  - by rewrite !lookup_take_ge.
Qed.

(** ** The round trip through a packed buffer *)

(** Encoding [s] at a place of a buffer changes only the bytes of that
    place, and decoding any buffer that has those bytes there gives [s]
    back. *)
Definition roundtrip_at (space : Space) (s : Sample) : Prop :=
  forall buf off,
    (off + itemsize (dtype_from_space space) <= length buf)%nat ->
    exists buf',
      _emulate (dtype_from_space space) off s buf = Ok buf'
      /\ length buf' = length buf
      /\ (forall i, (i < off \/ off + itemsize (dtype_from_space space) <= i)%nat ->
            buf' !! i = buf !! i)
      /\ (forall buf'',
            (forall i, (off <= i < off + itemsize (dtype_from_space space))%nat ->
               buf'' !! i = buf' !! i) ->
            _nativize buf'' 1 (dtype_from_space space) off space = Ok s).

Lemma roundtrip_leaf space s :
  is_leaf space = true -> space_shape space = [] -> conforms s space = true ->
  roundtrip_at space s.
Proof.
  intros Hleaf Hshape Hconf buf off Hlen.
  rewrite dtype_from_space_leaf in * by done. rewrite Hshape in *.
  unfold itemsize in *. simpl in Hlen |- *. rewrite Nat.mul_1_r in *.
  assert (Hs : exists v, s = SScalar v /\ in_range (space_dtype space) v = true).
  { destruct s as [v | sh vals | items | items].
    - exists v. split; [done |].
      destruct space; simpl in Hleaf, Hconf |- *; try done;
        by apply andb_true_iff in Hconf as [_ Hconf].
    - exfalso. destruct space; simpl in Hleaf, Hshape, Hconf; try done;
        apply andb_true_iff in Hconf as [Hconf _];
        apply bool_decide_eq_true in Hconf; destruct Hconf as (H1 & H2 & _);
        congruence.
    - destruct space; simpl in *; done.
    - destruct space; simpl in *; done. }
  destruct Hs as (v & -> & Hrange).
  set (t := space_dtype space) in *.
  set (bs := scalar_to_bytes t (cast t v)).
  assert (Hbs : length bs = scalar_itemsize t) by apply length_scalar_to_bytes.
  exists (splice buf off bs).
  assert (Hemu : _emulate (DArr t []) off (SScalar v) buf = Ok (splice buf off bs)).
  { simpl. by rewrite app_nil_r. }
  split; [exact Hemu |].
  split; [apply length_splice; lia |].
  split; [intros i Hi; apply lookup_splice_outside; lia |].
  intros buf'' Hagree.
  assert (Hnat : _nativize buf'' 1 (DArr t []) off space
                 = Ok (SScalar (scalar_of_bytes t (take (scalar_itemsize t) (drop off buf''))))).
  { destruct space; simpl in *; done. }
  rewrite Hnat. do 2 f_equal.
  rewrite (take_drop_agree buf'' (splice buf off bs) off (scalar_itemsize t)) by done.
  rewrite <- Hbs, take_drop_splice by lia.
  by apply scalar_of_to_bytes.
Qed.

Lemma roundtrip_fields (spaces : list (string * Space)) :
  Forall (fun kv => forall s, conforms s (snd kv) = true -> roundtrip_at (snd kv) s) spaces ->
  forall items fs_all pre start buf off,
    conforms_dict conforms items spaces = true ->
    field_table fs_all 0 = pre ++ field_table (dict_fields dtype_from_space spaces) start ->
    NoDup (map fst spaces) ->
    (forall k, k ∈ map fst spaces -> k ∉ map fst pre) ->
    (off + fields_end (dict_fields dtype_from_space spaces) start <= length buf)%nat ->
    exists buf',
      emulate_dict_items _emulate (DStruct fs_all) off items buf = Ok buf'
      /\ length buf' = length buf
      /\ (forall i,
            (i < off + start
             \/ off + fields_end (dict_fields dtype_from_space spaces) start <= i)%nat ->
            buf' !! i = buf !! i)
      /\ (forall buf'',
            (forall i,
               (off + start <= i
                < off + fields_end (dict_fields dtype_from_space spaces) start)%nat ->
               buf'' !! i = buf' !! i) ->
            nativize_dict_items (_nativize buf'' 1) (DStruct fs_all) off spaces = Ok items).
Proof.
  induction 1 as [| [k e] spaces IHe _ IH];
    intros items fs_all pre start buf off Hconf Htbl Hnd Hdisj Hlen.
  - destruct items as [| [k' v] items]; [| done].
    exists buf. repeat split; done.
  - destruct items as [| [k' v] items]; [done |].
    simpl in Hconf.
    apply andb_true_iff in Hconf as [Hconf Hrest].
    apply andb_true_iff in Hconf as [Hk Hv].
    apply bool_decide_eq_true in Hk. subst k'.
    simpl in IHe, Htbl, Hlen, Hnd, Hdisj.
    set (d1 := dtype_from_space e) in *.
    set (o := round_up start (alignment d1)) in *.
    set (rest := dict_fields dtype_from_space spaces) in *.
    assert (Hget : getfield (DStruct fs_all) k = Ok (d1, o)).
    { unfold getfield. rewrite Htbl, assoc_app_here; [done |].
      apply Hdisj. by left. }
    pose proof (round_up_ge start (alignment d1) (alignment_pos d1)) as Ho.
    pose proof (fields_end_ge rest (o + itemsize d1)) as Hend.
    fold o in Ho.
    apply NoDup_cons in Hnd as [Hk Hnd].
    destruct (IHe v Hv buf (off + o)%nat) as (buf1 & Hemu1 & Hlen1 & Hframe1 & Hread1);
      [fold d1; lia |].
    fold d1 in Hemu1, Hframe1, Hread1.
    destruct (IH items fs_all (pre ++ [(k, (d1, o))]) (o + itemsize d1)%nat buf1 off)
      as (buf' & Hemu' & Hlen' & Hframe' & Hread'); try done.
    { by rewrite <- app_assoc. }
    { intros k2 Hk2. rewrite map_app. apply not_elem_of_app. split.
      - apply Hdisj. by right.
      - simpl. intros Hin%list_elem_of_singleton. by subst k2. }
    { lia. }
    exists buf'. split.
    { cbn [emulate_dict_items]. rewrite Hget. cbn [mbind PyResult_bind].
      rewrite Hemu1. exact Hemu'. }
    split; [congruence |].
    cbn [dict_fields fields_end place snd]. fold d1 o rest.
    split.
    { intros i Hi. rewrite Hframe' by lia. apply Hframe1. lia. }
    intros buf'' Hagree. cbn [nativize_dict_items]. rewrite Hget.
    cbn [mbind PyResult_bind].
    rewrite (Hread1 buf'').
    2: { intros i Hi. rewrite Hagree by lia. apply Hframe'. lia. }
    rewrite (Hread' buf''); [done |].
    intros i Hi. apply Hagree. lia.
Qed.

Lemma scalar_leaves_tuple spaces :
  scalar_leaves (Tuple spaces) = true -> Forall (fun e => scalar_leaves e = true) spaces.
Proof.
  unfold scalar_leaves. simpl. induction spaces as [| e spaces IH]; intros H; [constructor |].
  simpl in H. rewrite forallb_app in H. apply andb_true_iff in H as [He Hrest].
  constructor; [exact He | by apply IH].
Qed.

Lemma scalar_leaves_dict spaces :
  scalar_leaves (Dict spaces) = true ->
  Forall (fun kv => scalar_leaves (snd kv) = true) spaces.
Proof.
  unfold scalar_leaves. simpl.
  induction spaces as [| [k e] spaces IH]; intros H; [constructor |].
  simpl in H. rewrite forallb_app in H. apply andb_true_iff in H as [He Hrest].
  constructor; [exact He | by apply IH].
Qed.

Lemma wf_space_tuple spaces :
  wf_space (Tuple spaces) = true -> Forall (fun e => wf_space e = true) spaces.
Proof. simpl. intros H. apply Forall_forall. intros e He.
  rewrite forallb_forall in H. apply H. by apply list_elem_of_In. Qed.

Lemma wf_space_dict spaces :
  wf_space (Dict spaces) = true ->
  NoDup (map fst spaces) /\ Forall (fun kv => wf_space (snd kv) = true) spaces.
Proof.
  simpl. intros H. apply andb_true_iff in H as [Hnd H].
  apply bool_decide_eq_true in Hnd. split; [exact Hnd |].
  clear Hnd. induction spaces as [| [k e] spaces IH]; [constructor |].
  simpl in H. apply andb_true_iff in H as [He Hrest].
  constructor; [exact He | by apply IH].
Qed.

Lemma Forall_enumerate_from {A : Type} (P : A -> Prop) i (l : list A) :
  Forall P l -> Forall (fun kv => P (snd kv)) (enumerate_from i l).
Proof.
  intros H. revert i. induction H as [| x l Hx _ IH]; intros i; simpl; constructor; auto.
Qed.

(** Every conforming sample of a well-formed schema with scalar leaves
    makes the round trip at every place of a buffer. *)
Lemma roundtrip_space space :
  wf_space space = true -> scalar_leaves space = true ->
  forall s, conforms s space = true -> roundtrip_at space s.
Proof.
  induction space as [low high shape dtype | n | nvec | spaces IH | spaces IH]
    using Space_nested_ind; intros Hwf Hsc s Hconf.
  1-3: apply roundtrip_leaf; [done | | done];
       unfold scalar_leaves in Hsc; cbn [flatten_space forallb] in Hsc;
       rewrite andb_true_r in Hsc; by apply bool_decide_eq_true in Hsc.
  - destruct s as [v | sh vals | items | items]; simpl in Hconf; try done.
    apply wf_space_tuple in Hwf. apply scalar_leaves_tuple in Hsc.
    assert (Hall : Forall (fun e => forall s, conforms s e = true -> roundtrip_at e s) spaces).
    { rewrite Forall_forall in IH, Hwf, Hsc |- *. intros e He. auto. }
    apply (Forall_enumerate_from _ 0) in Hall.
    intros buf off Hlen.
    rewrite <- (conforms_tuple_enumerate conforms 0) in Hconf.
    assert (Hd : dtype_from_space (Tuple spaces)
                 = DStruct (dict_fields dtype_from_space (enumerate_from 0 spaces))).
    { simpl. by rewrite tuple_fields_enumerate. }
    rewrite Hd in *.
    pose proof (itemsize_struct_ge (dict_fields dtype_from_space (enumerate_from 0 spaces)))
      as Hend.
    destruct (roundtrip_fields _ Hall (enumerate_from 0 items) _ [] 0%nat buf off Hconf
                eq_refl (enumerate_from_NoDup 0 spaces))
      as (buf' & Hemu & Hlen' & Hframe & Hread).
    { intros k _ Hin. by apply elem_of_nil in Hin. }
    { lia. }
    exists buf'. split.
    { simpl. by rewrite emulate_tuple_items_enumerate. }
    split; [done |]. split.
    { intros i Hi. apply Hframe. lia. }
    intros buf'' Hagree. simpl.
    rewrite nativize_tuple_items_enumerate, Hread.
    + simpl. by rewrite enumerate_from_snd.
    + intros i Hi. apply Hagree. lia.
  - destruct s as [v | sh vals | items | items]; simpl in Hconf; try done.
    apply wf_space_dict in Hwf as [Hnd Hwf]. apply scalar_leaves_dict in Hsc.
    assert (Hall : Forall (fun kv => forall s, conforms s (snd kv) = true ->
                                     roundtrip_at (snd kv) s) spaces).
    { rewrite Forall_forall in IH, Hwf, Hsc |- *. intros e He. auto. }
    intros buf off Hlen.
    assert (Hd : dtype_from_space (Dict spaces)
                 = DStruct (dict_fields dtype_from_space spaces)) by reflexivity.
    rewrite Hd in *.
    pose proof (itemsize_struct_ge (dict_fields dtype_from_space spaces)) as Hend.
    destruct (roundtrip_fields _ Hall items _ [] 0%nat buf off Hconf eq_refl Hnd)
      as (buf' & Hemu & Hlen' & Hframe & Hread).
    { intros k _ Hin. by apply elem_of_nil in Hin. }
    { lia. }
    exists buf'. split; [exact Hemu |].
    split; [done |]. split.
    { intros i Hi. apply Hframe. lia. }
    intros buf'' Hagree. simpl. rewrite Hread; [done |].
    intros i Hi. apply Hagree. lia.
Qed.

(** ** The packed size covers the leaves *)

(** The bytes the leaves of a schema hold. *)
Definition leaf_bytes (space : Space) : nat :=
  sum_list (map (fun e => scalar_itemsize (space_dtype e) * numel (space_shape e))%nat
              (flatten_space space)).

Lemma fields_end_sum fs off :
  (off + sum_list (map (fun f => itemsize (snd f)) fs) <= fields_end fs off)%nat.
Proof.
  revert off. induction fs as [| [k fd] fs IH]; intros off; simpl; [lia |].
  etransitivity; [| apply IH].
  pose proof (round_up_ge off (alignment fd) (alignment_pos fd)). lia.
Qed.

Lemma sum_list_cons (x : nat) (l : list nat) : sum_list (x :: l) = (x + sum_list l)%nat.
Proof. reflexivity. Qed.

Lemma sum_tuple_fields_itemsize i spaces :
  sum_list (map (fun f => itemsize (snd f)) (tuple_fields dtype_from_space i spaces))
  = sum_list (map (fun e => itemsize (dtype_from_space e)) spaces).
Proof.
  revert i. induction spaces as [| e spaces IH]; intros i; [done |].
  cbn [tuple_fields map]. rewrite !sum_list_cons. cbn [snd]. by rewrite IH.
Qed.

Lemma sum_dict_fields_itemsize spaces :
  sum_list (map (fun f => itemsize (snd f)) (dict_fields dtype_from_space spaces))
  = sum_list (map (fun kv => itemsize (dtype_from_space (snd kv))) spaces).
Proof.
  induction spaces as [| [k e] spaces IH]; [done |].
  cbn [dict_fields map]. rewrite !sum_list_cons. cbn [snd]. by rewrite IH.
Qed.

Lemma itemsize_ge_leaf_bytes space :
  (leaf_bytes space <= itemsize (dtype_from_space space))%nat.
Proof.
  induction space as [low high shape dtype | n | nvec | spaces IH | spaces IH]
    using Space_nested_ind.
  1-3: unfold leaf_bytes, itemsize; simpl; lia.
  - cbn [dtype_from_space].
    etransitivity; [| apply itemsize_struct_ge]. etransitivity; [| apply fields_end_sum].
    rewrite sum_tuple_fields_itemsize, Nat.add_0_l. unfold leaf_bytes. cbn [flatten_space].
    induction IH as [| e spaces He _ IHl]; [done |].
    cbn [map concat]. rewrite map_app, sum_list_with_app, sum_list_cons.
    unfold leaf_bytes in He. lia.
  - cbn [dtype_from_space].
    etransitivity; [| apply itemsize_struct_ge]. etransitivity; [| apply fields_end_sum].
    rewrite sum_dict_fields_itemsize, Nat.add_0_l. unfold leaf_bytes. cbn [flatten_space].
    induction IH as [| [k e] spaces He _ IHl]; [done |].
    cbn [dict_fields map concat snd]. rewrite map_app, sum_list_with_app, sum_list_cons.
    unfold leaf_bytes in He. cbn [snd] in He |- *. lia.
Qed.

Lemma itemsize_pos_scalar_leaves space :
  flatten_space space <> [] -> scalar_leaves space = true ->
  (0 < itemsize (dtype_from_space space))%nat.
Proof.
  intros Hne Hsc. pose proof (itemsize_ge_leaf_bytes space) as Hge.
  unfold leaf_bytes, scalar_leaves in *.
  destruct (flatten_space space) as [| e l]; [done |].
  simpl in Hsc, Hge. apply andb_true_iff in Hsc as [He _].
  apply bool_decide_eq_true in He. rewrite He in Hge. simpl in Hge.
  pose proof (scalar_itemsize_pos (space_dtype e)). lia.
Qed.

(** ** The record view of a flat array *)

Lemma has_subarray_scalar_leaves space :
  scalar_leaves space = true -> has_subarray (dtype_from_space space) = false.
Proof.
  destruct space as [lo hi shape t | n | nvec | spaces | spaces]; try done.
  unfold scalar_leaves. cbn [flatten_space forallb space_shape dtype_from_space].
  rewrite andb_true_r. intros H%bool_decide_eq_true. by rewrite H.
Qed.

(** A one-axis array whose bytes make exactly one item of [d] is viewed as
    one item. *)
Lemma nd_view_records_one t n vals d :
  has_subarray d = false ->
  (0 < itemsize d)%nat ->
  (n * scalar_itemsize t = itemsize d)%nat ->
  nd_view_records (NDArray t [n] vals) d = Ok 1%nat.
Proof.
  intros Hsub Hpos Hsize. unfold nd_view_records. cbn [nd_dtype nd_shape].
  pose proof (scalar_itemsize_pos t) as Ht.
  destruct (Nat.eqb_spec (itemsize d) (scalar_itemsize t)) as [Heq | Hne].
  - cbn [numel foldr]. f_equal. nia.
  - unfold reverse. cbn [rev_append]. rewrite Hsub.
    destruct (Nat.ltb_spec (itemsize d) (scalar_itemsize t)) as [Hlt | Hge].
    { exfalso. destruct n as [| n']; [lia | nia]. }
    rewrite Hsize, Nat.Div0.mod_same, Nat.div_same by lia. reflexivity.
Qed.

(** The view regroups the last axis only: two rows of one 64-bit integer
    each do not make a 16-byte record, one row of two does. *)
Example nativize_regroups_last_axis :
  let space := Tuple [Discrete 2; Discrete 3] in
  nativize (NDArray int64 [2%nat; 1%nat] [1; 2]) space (dtype_from_space space)
  = Raise ValueError
  /\ nativize (NDArray int64 [1%nat; 2%nat] [1; 2]) space (dtype_from_space space)
     = Ok (STuple [SScalar 1; SScalar 2])
  /\ nativize (NDArray int64 [2%nat] [1; 2]) space (dtype_from_space space)
     = Ok (STuple [SScalar 1; SScalar 2]).
Proof. repeat split. Qed.

(** ** The codec round trip *)




(** The action round trip of the specification: cardinalities [2, 5, 3]
    and the action [(1, 4, 0)]. *)
Example nativize_emulate_action :
  let space := Tuple [Discrete 2; Discrete 5; Discrete 3] in
  (flat ← emulate (STuple [SScalar 1; SScalar 4; SScalar 0]) int64 (dtype_from_space space);
   nativize flat space (dtype_from_space space))
  = Ok (STuple [SScalar 1; SScalar 4; SScalar 0]).
Proof. reflexivity. Qed.

(** ** Further properties of the codec *)

Lemma field_table_names fs off : map fst (field_table fs off) = map fst fs.
Proof.
  revert off. induction fs as [| [k fd] fs IH]; intros off; simpl; [done |].
  by rewrite IH.
Qed.

Lemma field_table_app fs1 fs2 off :
  field_table (fs1 ++ fs2) off
  = field_table fs1 off ++ field_table fs2 (fields_end fs1 off).
Proof.
  revert off. induction fs1 as [| [k fd] fs1 IH]; intros off; simpl; [done |].
  by rewrite IH.
Qed.

Lemma dict_fields_app {A : Type} (f : Space -> A) l1 l2 :
  dict_fields f (l1 ++ l2) = dict_fields f l1 ++ dict_fields f l2.
Proof. induction l1 as [| [k e] l1 IH]; simpl; [done | by rewrite IH]. Qed.

Lemma dict_fields_names {A : Type} (f : Space -> A) l :
  map fst (dict_fields f l) = map fst l.
Proof. induction l as [| [k e] l IH]; simpl; [done | by rewrite IH]. Qed.

(** Looking a declared key up in the record derived from a [Dict] gives the
    dtype derived from that key's space. *)
Lemma getfield_dict_fields pre k e post :
  k ∉ map fst pre ->
  exists o,
    getfield (DStruct (dict_fields dtype_from_space (pre ++ (k, e) :: post))) k
    = Ok (dtype_from_space e, o).
Proof.
  intros Hk. unfold getfield.
  rewrite dict_fields_app, field_table_app. cbn [dict_fields field_table].
  destruct (place (fields_end (dict_fields dtype_from_space pre) 0)
              (itemsize (dtype_from_space e)) (alignment (dtype_from_space e)))
    as [o next].
  exists o. rewrite assoc_app_here; [done |].
  by rewrite field_table_names, dict_fields_names.
Qed.

Lemma nativize_dict_items_leaves buf nrec off (Q : Space -> Prop) post :
  forall pre vs,
    Forall (fun kv => forall off s,
              _nativize buf nrec (dtype_from_space (snd kv)) off (snd kv) = Ok s ->
              Q (snd kv)) post ->
    NoDup (map fst (pre ++ post)) ->
    nativize_dict_items (_nativize buf nrec)
      (DStruct (dict_fields dtype_from_space (pre ++ post))) off post = Ok vs ->
    Forall (fun kv => Q (snd kv)) post.
Proof.
  induction post as [| [k e] post IH]; intros pre vs Hall Hnd Hnat; [constructor |].
  apply Forall_cons in Hall as [He Hall].
  assert (Hk : k ∉ map fst pre).
  { rewrite map_app in Hnd. apply NoDup_app in Hnd as (_ & Hdisj & _).
    intros Hin. apply (Hdisj k Hin). simpl. by left. }
  destruct (getfield_dict_fields pre k e post Hk) as [o Hget].
  cbn [nativize_dict_items] in Hnat. rewrite Hget in Hnat. cbn [mbind PyResult_bind] in Hnat.
  destruct (_nativize buf nrec (dtype_from_space e) (off + o) e) as [v |] eqn:Hv; [| done].
  cbn [mbind PyResult_bind] in Hnat.
  destruct (nativize_dict_items _ _ off post) as [vs' |] eqn:Hrest; [| done].
  constructor; [by eapply He |].
  apply (IH (pre ++ [(k, e)]) vs'); [done | by rewrite <- app_assoc |].
  by rewrite <- app_assoc.
Qed.

Lemma Forall_flatten_tuple (Q : Space -> Prop) spaces :
  Forall (fun sp => Forall Q (flatten_space sp)) spaces ->
  Forall Q (flatten_space (Tuple spaces)).
Proof.
  cbn [flatten_space]. induction 1 as [| e spaces He _ IH]; [constructor |].
  cbn [map concat]. apply Forall_app. by split.
Qed.

Lemma Forall_flatten_dict (Q : Space -> Prop) spaces :
  Forall (fun kv => Forall Q (flatten_space (snd kv))) spaces ->
  Forall Q (flatten_space (Dict spaces)).
Proof.
  cbn [flatten_space]. induction 1 as [| [k e] spaces He _ IH]; [constructor |].
  cbn [dict_fields map concat snd]. apply Forall_app. by split.
Qed.

(** Decoding returns only when every leaf of the schema holds exactly one
    element per record. *)
Lemma _nativize_single_elements buf nrec space :
  wf_space space = true ->
  forall off s,
    _nativize buf nrec (dtype_from_space space) off space = Ok s ->
    Forall (fun e => (nrec * numel (space_shape e))%nat = 1%nat) (flatten_space space).
Proof.
  induction space as [low high shape dtype | n | nvec | spaces IH | spaces IH]
    using Space_nested_ind; intros Hwf off s Hnat.
  1-3: cbn [flatten_space]; apply Forall_cons; split; [| apply Forall_nil];
       cbn [_nativize dtype_from_space space_dtype space_shape item] in Hnat;
       cbn [space_shape];
       match type of Hnat with
       | context [Nat.eqb ?a ?b] => destruct (Nat.eqb_spec a b); [done | discriminate Hnat]
       end.
  - apply wf_space_tuple in Hwf.
    cbn [_nativize dtype_from_space] in Hnat.
    rewrite tuple_fields_enumerate, nativize_tuple_items_enumerate in Hnat.
    destruct (nativize_dict_items _ _ off (enumerate_from 0 spaces)) as [vs |] eqn:Hvs;
      [| done].
    assert (Hall : Forall (fun kv => Forall (fun e => (nrec * numel (space_shape e))%nat = 1%nat)
                                       (flatten_space (snd kv))) (enumerate_from 0 spaces)).
    { apply (nativize_dict_items_leaves buf nrec off
               (fun sp => Forall (fun e => (nrec * numel (space_shape e))%nat = 1%nat)
                            (flatten_space sp)) _ [] vs).
      - apply (Forall_enumerate_from
                 (fun sp => forall off s,
                    _nativize buf nrec (dtype_from_space sp) off sp = Ok s ->
                    Forall (fun e => (nrec * numel (space_shape e))%nat = 1%nat)
                      (flatten_space sp))).
        rewrite Forall_forall in IH, Hwf |- *.
        intros e He off' s' Hs'. eapply IH; eauto.
      - apply enumerate_from_NoDup.
      - exact Hvs. }
    apply Forall_flatten_tuple.
    rewrite <- (enumerate_from_snd 0 spaces). by apply Forall_fmap.
  - apply wf_space_dict in Hwf as [Hnd Hwf].
    cbn [_nativize dtype_from_space] in Hnat.
    destruct (nativize_dict_items _ _ off spaces) as [vs |] eqn:Hvs; [| done].
    assert (Hall : Forall (fun kv => Forall (fun e => (nrec * numel (space_shape e))%nat = 1%nat)
                                       (flatten_space (snd kv))) spaces).
    { apply (nativize_dict_items_leaves buf nrec off
               (fun sp => Forall (fun e => (nrec * numel (space_shape e))%nat = 1%nat)
                            (flatten_space sp)) _ [] vs).
      - rewrite Forall_forall in IH, Hwf |- *.
        intros kv He off' s' Hs'. eapply IH; eauto.
      - exact Hnd.
      - exact Hvs. }
    by apply Forall_flatten_dict.
Qed.

(** [nativize] returns a value only for schemas in which every leaf holds
    exactly one element: for any flat array, if some leaf of the schema has
    a shape with no or several elements, the decoding raises. *)
Theorem nativize_needs_single_elements (flat : ndarray) (space : Space) (s : Sample) :
  wf_space space = true ->
  nativize flat space (dtype_from_space space) = Ok s ->
  Forall (fun e => numel (space_shape e) = 1%nat) (flatten_space space).
Proof.
  intros Hwf H. unfold nativize in H.
  destruct (nd_view_records flat (dtype_from_space space)) as [nrec |]; [| done].
  cbn [mbind PyResult_bind] in H.
  apply _nativize_single_elements in H; [| done].
  eapply Forall_impl; [exact H |]. intros e He. simpl in He.
  by apply Nat.eq_mul_1 in He as [_ He].
Qed.

Lemma nativize_needs_single_elements_witness :
  let space := Tuple [Discrete 2; Dict [("a", Discrete 5)]] in
  let flat := NDArray int64 [2%nat] [1; 4] in
  wf_space space = true
  /\ nativize flat space (dtype_from_space space)
     = Ok (STuple [SScalar 1; SDict [("a", SScalar 4)]])
  /\ Forall (fun e => numel (space_shape e) = 1%nat) (flatten_space space).
Proof.
  intros space flat.
  assert (Hwf : wf_space space = true) by reflexivity.
  assert (Hnat : nativize flat space (dtype_from_space space)
                 = Ok (STuple [SScalar 1; SDict [("a", SScalar 4)]])) by reflexivity.
  split; [exact Hwf |]. split; [exact Hnat |].
  exact (nativize_needs_single_elements flat space _ Hwf Hnat).
Defined.

(** *** Encoding never fails on a conforming sample *)


Lemma length_concat_fixed {A : Type} (f : A -> list byte) (w : nat) (l : list A) :
  (forall x, length (f x) = w) -> length (concat (map f l)) = (length l * w)%nat.
Proof.
  intros Hf. induction l as [| x l IH]; simpl; [done |].
  by rewrite length_app, Hf, IH.
Qed.





(** The element type chosen for the flat observation view divides the packed
    size, and the view has one dimension of the quotient's length. *)
Lemma emulate_observation_space_divides space ospace d :
  isinstance_Box space = false ->
  emulate_observation_space space = Ok (ospace, d) ->
  d = dtype_from_space space
  /\ (itemsize d mod scalar_itemsize (space_dtype ospace) = 0)%nat
  /\ space_shape ospace = [(itemsize d / scalar_itemsize (space_dtype ospace))%nat].
Proof.
  intros HBox H. unfold emulate_observation_space in H. rewrite HBox in H.
  destruct (map space_dtype (flatten_space space)) as [| t0 rest] eqn:Hdt; [done |].
  destruct (Nat.eqb (count_occ_dtype t0 (t0 :: rest)) (length (t0 :: rest))) eqn:Hall.
  - destruct (_get_dtype_bounds t0) as [mmin mmax]. injection H as <- <-.
    split; [done |]. split; [| done]. cbn [space_dtype].
    apply count_occ_dtype_all in Hall. rewrite <- Hdt in Hall.
    apply Forall_fmap in Hall.
    destruct (homogeneous_layout t0 space) as [-> _].
    { eapply Forall_impl; [exact Hall |]. done. }
    apply Nat.Div0.mod_mul.
  - cbn [_get_dtype_bounds] in H. injection H as <- <-.
    split; [done |]. split; [| done]. cbn [space_dtype scalar_itemsize].
    apply Nat.mod_1_r.
Qed.



(** *** The flat action view of discrete schemas *)

Lemma leaf_cardinalities_discrete leaves :
  Forall (fun e => isinstance_Discrete e = true) leaves ->
  exists nvec, leaf_cardinalities leaves = Ok nvec /\ map Discrete nvec = leaves.
Proof.
  induction 1 as [| e leaves He _ (nvec & IH & Hmap)].
  - by exists [].
  - destruct e as [| n | | |]; try done.
    exists (n :: nvec). simpl. rewrite IH. simpl. by rewrite Hmap.
Qed.

(** For every composite action schema all of whose leaves are discrete
    choices, the flat action view exists: it is a [MultiDiscrete] listing the
    leaves' cardinalities in depth-first order, and the packed action record
    is exactly one 64-bit integer per leaf, without padding. *)
Theorem emulate_action_space_all_discrete (space : Space) :
  isinstance_Discrete space = false ->
  Forall (fun e => isinstance_Discrete e = true) (flatten_space space) ->
  exists nvec,
    emulate_action_space space = Ok (MultiDiscrete nvec, dtype_from_space space)
    /\ map Discrete nvec = flatten_space space
    /\ itemsize (dtype_from_space space) = (length nvec * scalar_itemsize int64)%nat.
Proof.
  intros Hnd Hall.
  destruct (leaf_cardinalities_discrete _ Hall) as (nvec & Hcard & Hmap).
  exists nvec. unfold emulate_action_space. rewrite Hnd, Hcard.
  split; [done |]. split; [done |].
  destruct (homogeneous_layout int64 space) as [-> _].
  { eapply Forall_impl; [exact Hall |]. by intros [| | | |]. }
  f_equal. unfold total_elements. rewrite <- Hmap.
  clear. induction nvec as [| n nvec IH]; simpl; [done | by rewrite IH].
Qed.

Lemma emulate_action_space_all_discrete_witness :
  let space := Dict [("move", Discrete 4); ("fire", Tuple [Discrete 2; Discrete 3])] in
  exists nvec,
    emulate_action_space space = Ok (MultiDiscrete nvec, dtype_from_space space)
    /\ map Discrete nvec = flatten_space space
    /\ itemsize (dtype_from_space space) = (length nvec * scalar_itemsize int64)%nat.
Proof.
  intros space.
  apply (emulate_action_space_all_discrete space); [reflexivity |].
  repeat constructor.
Defined.

(** ** The single-agent adapter: what a call does *)

Section GymnasiumBehaviour.
Context (contains : Space -> PyVal -> PyResult bool).
Context (E : GymEnv).

(** The observation storage of the adapter. *)
Definition gym_store (st : GymnasiumPufferEnv.t E) :=
  (GymnasiumPufferEnv.mem E st, GymnasiumPufferEnv.obs E st,
   GymnasiumPufferEnv.obs_bound E st, GymnasiumPufferEnv._obs E st).

(** The episode flags. *)
Definition gym_life (st : GymnasiumPufferEnv.t E) :=
  (GymnasiumPufferEnv.initialized E st, GymnasiumPufferEnv.done E st).

Lemma gym_zoom_keeps_store {A : Type} (m : M (World (gym_state E)) A) :
  keeps gym_store (GymnasiumPufferEnv.zoom E m).
Proof.
  intros st. unfold GymnasiumPufferEnv.zoom.
  destruct (m (GymnasiumPufferEnv.world E st)) as [r w]. reflexivity.
Qed.

Lemma gym_check_action_keeps_store action :
  keeps gym_store (GymnasiumPufferEnv.check_action contains E action).
Proof.
  unfold GymnasiumPufferEnv.check_action.
  keeps_go ltac:(apply gym_zoom_keeps_store).
Qed.

Lemma gym_check_action_keeps_cfg action :
  keeps (gym_cfg E) (GymnasiumPufferEnv.check_action contains E action).
Proof.
  unfold GymnasiumPufferEnv.check_action.
  keeps_go ltac:(apply gym_zoom_cfg).
Qed.

Lemma gym_check_action_keeps_life action :
  keeps gym_life (GymnasiumPufferEnv.check_action contains E action).
Proof.
  unfold GymnasiumPufferEnv.check_action.
  keeps_go ltac:(apply (keeps_proj (gym_flags E)
                          (fun x => (fst (fst (fst (fst x))), snd (fst (fst (fst x))))));
                 apply gym_zoom_keeps_flags).
Qed.

Lemma gym_check_action_env action st :
  w_env (GymnasiumPufferEnv.world E
           (snd (GymnasiumPufferEnv.check_action contains E action st)))
  = w_env (GymnasiumPufferEnv.world E st).
Proof.
  unfold GymnasiumPufferEnv.check_action, bindM, gets, raise, ret. simpl.
  destruct (GymnasiumPufferEnv.is_action_checked E st); simpl; [done |].
  unfold GymnasiumPufferEnv.zoom.
  pose proof (check_space_world contains ActionCheck (VSample action)
                (GymnasiumPufferEnv.action_space E st)
                (GymnasiumPufferEnv.world E st)) as Hw.
  destruct (check_space contains ActionCheck (VSample action) _ _) as [[r |] w];
    simpl in *; by subst w.
Qed.

(** A step that returns has passed both guards, decoded the action, stepped
    the environment once with the decoded action and stored the results. *)
Lemma gym_step_inv action st o r dn tr info st' :
  GymnasiumPufferEnv.step contains E action st = (Ok (o, r, dn, tr, info), st') ->
  GymnasiumPufferEnv.initialized E st = true
  /\ GymnasiumPufferEnv.done E st = false
  /\ exists native ob s1 s2 s3,
      nativize action (gym_action_space E) (GymnasiumPufferEnv.atn_dtype E st) = Ok native
      /\ gym_step E native (w_env (GymnasiumPufferEnv.world E st))
         = (Ok (ob, r, dn, tr, info), w_env (GymnasiumPufferEnv.world E s1))
      /\ gym_store s1 = gym_store st
      /\ gym_cfg E s1 = gym_cfg E st
      /\ GymnasiumPufferEnv._emulate_ob E ob s1 = (Ok tt, s2)
      /\ match GymnasiumPufferEnv.mem E s2 with
         | Some m =>
             exists m', mem_write m 0 r dn tr = Ok m'
                        /\ s3 = GymnasiumPufferEnv.set_mem E (Some m') s2
         | None => s3 = s2
         end
      /\ st' = GymnasiumPufferEnv.set_done E dn s3
      /\ GymnasiumPufferEnv.read_obs E st' = (Ok o, st').
Proof.
  unfold GymnasiumPufferEnv.step. intros H.
  apply bindM_inv in H as (init & s0 & Hg & H). unfold gets in Hg. injection Hg as <- <-.
  destruct (GymnasiumPufferEnv.initialized E st) eqn:Hinit; [| done]. simpl in H.
  apply bindM_inv in H as (d0 & s0 & Hg & H). unfold gets in Hg. injection Hg as <- <-.
  destruct (GymnasiumPufferEnv.done E st) eqn:Hdone; [done |].
  split; [done |]. split; [done |].
  apply bindM_inv in H as (d & s0 & Hg & H). unfold gets in Hg. injection Hg as <- <-.
  apply bindM_inv in H as (native & s0 & Hl & H). unfold lift in Hl.
  injection Hl as Hnat <-.
  apply bindM_inv in H as (u & sc & Hc & H).
  pose proof (gym_check_action_env native st) as Henv. rewrite Hc in Henv. simpl in Henv.
  pose proof (gym_check_action_keeps_store native st) as Hst. rewrite Hc in Hst.
  simpl in Hst.
  pose proof (gym_check_action_keeps_cfg native st) as Hcfg. rewrite Hc in Hcfg.
  simpl in Hcfg.
  unfold GymnasiumPufferEnv.step_env in H.
  apply bindM_inv in H as ([[[[ob r'] dn'] tr'] info'] & s1 & Hz & H).
  unfold GymnasiumPufferEnv.zoom, call in Hz.
  destruct (gym_step E native (w_env (GymnasiumPufferEnv.world E sc)))
    as [res env1] eqn:Hstep.
  injection Hz as -> <-.
  apply bindM_inv in H as ([] & s2 & Hemu & H).
  apply bindM_inv in H as (m & s2' & Hg & H). unfold gets in Hg. injection Hg as <- <-.
  apply bindM_inv in H as ([] & s3 & Hmem & H).
  apply bindM_inv in H as ([] & s4 & Hm & H). unfold modify in Hm. injection Hm as <-.
  apply bindM_inv in H as (o' & s5 & Hr & H).
  unfold ret in H. injection H as <- <- <- <- <- <-.
  pose proof (gym_read_obs_state E (GymnasiumPufferEnv.set_done E dn' s3)) as Hs.
  rewrite Hr in Hs. simpl in Hs. subst s5.
  match type of Hemu with
  | GymnasiumPufferEnv._emulate_ob E ob ?s = _ => set (s1 := s) in *
  end.
  exists native, ob, s1, s2, s3.
  split; [done |]. split; [simpl; by rewrite <- Henv |].
  split; [by rewrite <- Hst |]. split; [by rewrite <- Hcfg |].
  split; [exact Hemu |]. split; [| by split].
  destruct (GymnasiumPufferEnv.mem E s2) as [m |].
  - apply bindM_inv in Hmem as (m' & s & Hl & Hm). unfold lift in Hl.
    injection Hl as Hw <-. unfold modify in Hm. injection Hm as <-.
    by exists m'.
  - unfold ret in Hmem. by injection Hmem as <-.
Qed.

(** The reward, done, truncated and mask slots of the shared buffer. *)
Definition gym_scalars (st : GymnasiumPufferEnv.t E) :=
  option_map (fun m => (m_rew m, m_done m, m_trunc m, m_mask m))
    (GymnasiumPufferEnv.mem E st).

Lemma gym_obs_array_state st : snd (GymnasiumPufferEnv.obs_array E st) = st.
Proof. unfold GymnasiumPufferEnv.obs_array. by repeat case_match. Qed.

Lemma gym_obs_array_keeps_scalars : keeps gym_scalars (GymnasiumPufferEnv.obs_array E).
Proof. intros st. by rewrite gym_obs_array_state. Qed.

Lemma gym_put_obs_array_keeps_scalars a :
  keeps gym_scalars (GymnasiumPufferEnv.put_obs_array E a).
Proof.
  intros st. unfold GymnasiumPufferEnv.put_obs_array, gym_scalars.
  repeat case_match; simplify_eq; try reflexivity; by destruct st; simplify_eq/=.
Qed.

Lemma gym__emulate_ob_keeps_scalars ob :
  keeps gym_scalars (GymnasiumPufferEnv._emulate_ob E ob).
Proof.
  unfold GymnasiumPufferEnv._emulate_ob.
  keeps_go ltac:(first [ apply gym_obs_array_keeps_scalars
                       | apply gym_put_obs_array_keeps_scalars ]).
Qed.

Lemma store_inv {A : Type} (l l' : list A) i x :
  store l i x = Ok l' -> (i < length l)%nat /\ l' = <[i:=x]> l.
Proof.
  unfold store. destruct (Nat.ltb_spec i (length l)) as [Hlt | Hge]; [| done].
  intros Heq. by injection Heq as <-.
Qed.

Lemma mem_write_inv {R : Type} (m m' : Mem R) i r d t :
  mem_write m i r d t = Ok m' ->
  m' = mkMem (m_obs m) (<[i:=r]> (m_rew m)) (<[i:=d]> (m_done m))
         (<[i:=t]> (m_trunc m)) (<[i:=true]> (m_mask m))
  /\ (i < length (m_rew m))%nat /\ (i < length (m_done m))%nat
  /\ (i < length (m_trunc m))%nat /\ (i < length (m_mask m))%nat.
Proof.
  unfold mem_write. intros H.
  destruct (store (m_rew m) i r) as [rew |] eqn:H1; [| done].
  destruct (store (m_done m) i d) as [dn |] eqn:H2; [| done].
  destruct (store (m_trunc m) i t) as [tr |] eqn:H3; [| done].
  destruct (store (m_mask m) i true) as [mk |] eqn:H4; [| done].
  simpl in H. injection H as <-.
  apply store_inv in H1 as [L1 ->], H2 as [L2 ->], H3 as [L3 ->], H4 as [L4 ->].
  done.
Qed.

(** What the observation check leaves alone. *)
Lemma gym_check_observation_keeps_store :
  keeps gym_store (GymnasiumPufferEnv.check_observation contains E).
Proof.
  unfold GymnasiumPufferEnv.check_observation.
  keeps_go ltac:(first [ apply gym_zoom_keeps_store
                       | intros st; by rewrite gym_read_obs_state ]).
Qed.

Lemma gym_check_observation_keeps_life :
  keeps gym_life (GymnasiumPufferEnv.check_observation contains E).
Proof.
  unfold GymnasiumPufferEnv.check_observation.
  keeps_go ltac:(first
    [ apply (keeps_proj (gym_flags E)
               (fun x => (fst (fst (fst (fst x))), snd (fst (fst (fst x))))));
      apply gym_zoom_keeps_flags
    | intros st; by rewrite gym_read_obs_state ]).
Qed.

Lemma gym_frame_life {A : Type} (m : M (GymnasiumPufferEnv.t E) A) :
  keeps (gym_frame E) m -> keeps gym_life m.
Proof.
  apply (keeps_proj (gym_frame E)
           (fun x => (fst (fst (fst (fst (snd x)))), snd (fst (fst (fst (snd x))))))).
Qed.

(** A reset that returns has reset the environment through
    [_seed_and_reset], stored its observation and checked it. *)
Lemma gym_reset_inv sd st o info st' :
  GymnasiumPufferEnv.reset contains E sd st = (Ok (o, info), st') ->
  exists s0 ob w s2,
    (if GymnasiumPufferEnv.initialized E st then s0 = st
     else GymnasiumPufferEnv.reset_bind E st = (Ok tt, s0))
    /\ _seed_and_reset E sd (GymnasiumPufferEnv.world E s0) = (Ok (ob, info), w)
    /\ GymnasiumPufferEnv._emulate_ob E ob
         (GymnasiumPufferEnv.set_world E w
            (GymnasiumPufferEnv.set_done E false
               (GymnasiumPufferEnv.set_initialized E true s0))) = (Ok tt, s2)
    /\ GymnasiumPufferEnv.check_observation contains E s2 = (Ok tt, st')
    /\ GymnasiumPufferEnv.read_obs E st' = (Ok o, st').
Proof.
  unfold GymnasiumPufferEnv.reset. intros H.
  apply bindM_inv in H as (init & s & Hg & H). unfold gets in Hg. injection Hg as <- <-.
  apply bindM_inv in H as ([] & s0 & Hb & H).
  apply bindM_inv in H as ([] & s & Hm & H). unfold modify in Hm. injection Hm as <-.
  apply bindM_inv in H as ([] & s & Hm & H). unfold modify in Hm. injection Hm as <-.
  apply bindM_inv in H as ([ob info'] & s1 & Hz & H).
  unfold GymnasiumPufferEnv.zoom in Hz. simpl in Hz.
  destruct (_seed_and_reset E sd (GymnasiumPufferEnv.world E s0)) as [res w] eqn:Hsr.
  injection Hz as -> <-.
  apply bindM_inv in H as ([] & s2 & Hemu & H).
  apply bindM_inv in H as ([] & s3 & Hc & H).
  apply bindM_inv in H as (o' & s4 & Hr & H).
  unfold ret in H. injection H as <- <- <-.
  pose proof (gym_read_obs_state E s3) as Hs. rewrite Hr in Hs. simpl in Hs. subst s4.
  exists s0, ob, w, s2. split.
  { destruct (GymnasiumPufferEnv.initialized E st); simpl in Hb; [| done].
    unfold ret in Hb. by injection Hb as <-. }
  done.
Qed.
End GymnasiumBehaviour.

(** The single-agent [step] forwards to the environment: a step that returns
    has decoded the flat action with [nativize] against the environment's
    own action space, has called the environment's [step] exactly on that
    decoded action, and returns the environment's reward, done flag,
    truncation flag and info unchanged; the adapter's [done] attribute is
    the done flag returned. *)
Theorem gymnasium_step_forwards (contains : Space -> PyVal -> PyResult bool) (E : GymEnv)
    (action : ndarray) (st st' : GymnasiumPufferEnv.t E)
    (o : PyVal) (r : gym_reward E) (dn tr : bool) (info : gym_info E) :
  GymnasiumPufferEnv.step contains E action st = (Ok (o, r, dn, tr, info), st') ->
  exists native ob,
    nativize action (gym_action_space E) (GymnasiumPufferEnv.atn_dtype E st) = Ok native
    /\ gym_step E native (w_env (GymnasiumPufferEnv.world E st))
       = (Ok (ob, r, dn, tr, info), w_env (GymnasiumPufferEnv.world E st'))
    /\ GymnasiumPufferEnv.done E st' = dn.
Proof.
  intros H. apply gym_step_inv in H
    as (_ & _ & native & ob & s1 & s2 & s3 & Hnat & Hstep & _ & _ & Hemu & Hmem & -> & _).
  exists native, ob. split; [done |]. split; [| done].
  rewrite Hstep. do 2 f_equal.
  pose proof (gym__emulate_ob_keeps E ob s1) as Hk. rewrite Hemu in Hk.
  unfold gym_frame in Hk. simpl in Hk. injection Hk as Hw _.
  destruct (GymnasiumPufferEnv.mem E s2) as [m |].
  - destruct Hmem as (m' & _ & ->). simpl. by rewrite Hw.
  - subst s3. simpl. by rewrite Hw.
Qed.

Lemma gymnasium_step_forwards_witness :
  exists st0 o r dn tr info st',
    GymnasiumPufferEnv.__init__ pair_env 0%nat = Ok st0
    /\ GymnasiumPufferEnv.step contains_all pair_env (NDArray int64 [2%nat] [1; 2])
         (gym_run contains_all pair_env [GymReset None] st0)
       = (Ok (o, r, dn, tr, info), st')
    /\ exists native ob,
         nativize (NDArray int64 [2%nat] [1; 2]) (gym_action_space pair_env)
           (GymnasiumPufferEnv.atn_dtype pair_env
              (gym_run contains_all pair_env [GymReset None] st0)) = Ok native
         /\ gym_step pair_env native
              (w_env (GymnasiumPufferEnv.world pair_env
                        (gym_run contains_all pair_env [GymReset None] st0)))
            = (Ok (ob, r, dn, tr, info), w_env (GymnasiumPufferEnv.world pair_env st'))
         /\ GymnasiumPufferEnv.done pair_env st' = dn.
Proof.
  eexists.
  destruct (GymnasiumPufferEnv.step contains_all pair_env (NDArray int64 [2%nat] [1; 2])
              (gym_run contains_all pair_env [GymReset None] _))
    as [[[[[[o r] dn] tr] info] | e] st'] eqn:Hstep.
  - exists o, r, dn, tr, info, st'.
    split; [reflexivity |]. split; [reflexivity |].
    exact (gymnasium_step_forwards contains_all pair_env _ _ _ _ _ _ _ _ Hstep).
  - exfalso. vm_compute in Hstep. discriminate Hstep.
Defined.

(** Observations of a [Box] space pass through [step] untouched: when the
    observation space needs no emulation and no shared buffer is bound, the
    observation a step returns is the very value the environment's [step]
    returned, no copy and no cast being made. *)
Theorem gymnasium_step_native_observation (contains : Space -> PyVal -> PyResult bool)
    (E : GymEnv) (action : ndarray) (st st' : GymnasiumPufferEnv.t E)
    (o : PyVal) (r : gym_reward E) (dn tr : bool) (info : gym_info E) :
  GymnasiumPufferEnv.is_obs_emulated E st = false ->
  GymnasiumPufferEnv.mem E st = None ->
  GymnasiumPufferEnv.step contains E action st = (Ok (o, r, dn, tr, info), st') ->
  exists native ob env',
    gym_step E native (w_env (GymnasiumPufferEnv.world E st))
    = (Ok (ob, r, dn, tr, info), env')
    /\ o = VSample ob.
Proof.
  intros Hemu Hmem H. apply gym_step_inv in H
    as (_ & _ & native & ob & s1 & s2 & s3 & _ & Hstep & Hst & Hcfg & Hob & Hw & -> & Hr).
  exists native, ob, (w_env (GymnasiumPufferEnv.world E s1)). split; [exact Hstep |].
  unfold gym_store in Hst. injection Hst as Hmem1 Hobs1 Hbound1 _.
  unfold gym_cfg in Hcfg. injection Hcfg as _ _ _ _ Hemu1 _.
  rewrite Hmem in Hmem1. rewrite Hemu in Hemu1.
  unfold GymnasiumPufferEnv._emulate_ob, bindM, gets, modify in Hob. simpl in Hob.
  rewrite Hemu1, Hmem1 in Hob. simpl in Hob. injection Hob as <-.
  simpl in Hw. rewrite Hmem1 in Hw. subst s3.
  unfold GymnasiumPufferEnv.read_obs in Hr. simpl in Hr. rewrite Hmem1 in Hr.
  destruct (GymnasiumPufferEnv.obs_bound E s1); [done |]. by injection Hr as <-.
Qed.

Lemma gymnasium_step_native_observation_witness :
  exists st0 o r dn tr info st',
    GymnasiumPufferEnv.__init__ pair_env 0%nat = Ok st0
    /\ GymnasiumPufferEnv.is_obs_emulated pair_env
         (gym_run contains_all pair_env [GymReset None] st0) = false
    /\ GymnasiumPufferEnv.mem pair_env
         (gym_run contains_all pair_env [GymReset None] st0) = None
    /\ GymnasiumPufferEnv.step contains_all pair_env (NDArray int64 [2%nat] [1; 2])
         (gym_run contains_all pair_env [GymReset None] st0)
       = (Ok (o, r, dn, tr, info), st')
    /\ exists native ob env',
         gym_step pair_env native
           (w_env (GymnasiumPufferEnv.world pair_env
                     (gym_run contains_all pair_env [GymReset None] st0)))
         = (Ok (ob, r, dn, tr, info), env')
         /\ o = VSample ob.
Proof.
  eexists.
  destruct (GymnasiumPufferEnv.step contains_all pair_env (NDArray int64 [2%nat] [1; 2])
              (gym_run contains_all pair_env [GymReset None] _))
    as [[[[[[o r] dn] tr] info] | e] st'] eqn:Hstep.
  - exists o, r, dn, tr, info, st'.
    split; [reflexivity |].
    match goal with
    | |- ?A /\ ?B /\ _ =>
        assert (Hemu : A) by (vm_compute; reflexivity);
        assert (Hmem : B) by (vm_compute; reflexivity)
    end.
    split; [exact Hemu |]. split; [exact Hmem |]. split; [reflexivity |].
    exact (gymnasium_step_native_observation contains_all pair_env _ _ _ _ _ _ _ _
             Hemu Hmem Hstep).
  - exfalso. vm_compute in Hstep. discriminate Hstep.
Defined.

(** With a shared buffer bound, a step that returns has written the
    environment's reward, done flag and truncation flag into slot 0 of the
    buffer and set the mask of slot 0; every other slot of the four arrays
    is as it was. *)
Theorem gymnasium_step_fills_slot (contains : Space -> PyVal -> PyResult bool)
    (E : GymEnv) (action : ndarray) (st st' : GymnasiumPufferEnv.t E)
    (m : Mem (gym_reward E))
    (o : PyVal) (r : gym_reward E) (dn tr : bool) (info : gym_info E) :
  GymnasiumPufferEnv.mem E st = Some m ->
  GymnasiumPufferEnv.step contains E action st = (Ok (o, r, dn, tr, info), st') ->
  exists m',
    GymnasiumPufferEnv.mem E st' = Some m'
    /\ m_rew m' = <[0%nat := r]> (m_rew m)
    /\ m_done m' = <[0%nat := dn]> (m_done m)
    /\ m_trunc m' = <[0%nat := tr]> (m_trunc m)
    /\ m_mask m' = <[0%nat := true]> (m_mask m)
    /\ m_rew m' !! 0%nat = Some r
    /\ m_done m' !! 0%nat = Some dn
    /\ m_trunc m' !! 0%nat = Some tr
    /\ m_mask m' !! 0%nat = Some true.
Proof.
  intros Hmem H. apply gym_step_inv in H
    as (_ & _ & native & ob & s1 & s2 & s3 & _ & _ & Hst & _ & Hob & Hw & -> & _).
  unfold gym_store in Hst. injection Hst as Hmem1 _ _ _. rewrite Hmem in Hmem1.
  pose proof (gym__emulate_ob_keeps_scalars E ob s1) as Hk. rewrite Hob in Hk.
  unfold gym_scalars in Hk. simpl in Hk. rewrite Hmem1 in Hk. simpl in Hk.
  destruct (GymnasiumPufferEnv.mem E s2) as [m2 |]; [| done].
  simpl in Hk. injection Hk as Hrew Hdone Htrunc Hmask.
  destruct Hw as (m' & Hwrite & ->).
  apply mem_write_inv in Hwrite as (-> & L1 & L2 & L3 & L4).
  eexists. split; [reflexivity |]. simpl.
  rewrite Hrew, Hdone, Htrunc, Hmask in *.
  repeat split; try reflexivity; by apply list_lookup_insert_eq.
Qed.

Lemma gymnasium_step_fills_slot_witness :
  let m := mkMem (np_zeros [1%nat; 2%nat] uint8) [0] [false] [false] [false] in
  exists st0 m1 o r dn tr info st' m',
    GymnasiumPufferEnv.__init__ pair_env 0%nat = Ok st0
    /\ GymnasiumPufferEnv.mem pair_env
         (gym_run contains_all pair_env [GymReset None]
            (GymnasiumPufferEnv.bind_mem pair_env m st0)) = Some m1
    /\ GymnasiumPufferEnv.step contains_all pair_env (NDArray int64 [2%nat] [1; 2])
         (gym_run contains_all pair_env [GymReset None]
            (GymnasiumPufferEnv.bind_mem pair_env m st0))
       = (Ok (o, r, dn, tr, info), st')
    /\ GymnasiumPufferEnv.mem pair_env st' = Some m'
    /\ m_rew m' !! 0%nat = Some r
    /\ m_mask m' !! 0%nat = Some true.
Proof.
  intros m. eexists.
  destruct (GymnasiumPufferEnv.mem pair_env
              (gym_run contains_all pair_env [GymReset None]
                 (GymnasiumPufferEnv.bind_mem pair_env m _))) as [m1 |] eqn:Hmem.
  - destruct (GymnasiumPufferEnv.step contains_all pair_env (NDArray int64 [2%nat] [1; 2])
                (gym_run contains_all pair_env [GymReset None]
                   (GymnasiumPufferEnv.bind_mem pair_env m _)))
      as [[[[[[o r] dn] tr] info] | e] st'] eqn:Hstep.
    + destruct (gymnasium_step_fills_slot contains_all pair_env _ _ _ _ _ _ _ _ _
                  Hmem Hstep) as (m' & Hm & _ & _ & _ & _ & Hr & _ & _ & Hk).
      exists m1, o, r, dn, tr, info, st', m'.
      split; [reflexivity |]. split; [reflexivity |]. split; [reflexivity |].
      split; [exact Hm |]. split; [exact Hr | exact Hk].
    + exfalso. vm_compute in Hstep. discriminate Hstep.
  - exfalso. vm_compute in Hmem. discriminate Hmem.
Defined.

(** Observations of a [Box] space pass through [reset] untouched as well:
    when the observation space needs no emulation and no shared buffer is
    bound, the observation a reset returns is the very value that
    [_seed_and_reset] obtained from the environment. *)
Theorem gymnasium_reset_native_observation (contains : Space -> PyVal -> PyResult bool)
    (E : GymEnv) (sd : option Z) (st st' : GymnasiumPufferEnv.t E)
    (o : PyVal) (info : gym_info E) :
  GymnasiumPufferEnv.is_obs_emulated E st = false ->
  GymnasiumPufferEnv.mem E st = None ->
  GymnasiumPufferEnv.reset contains E sd st = (Ok (o, info), st') ->
  exists ob w,
    _seed_and_reset E sd (GymnasiumPufferEnv.world E st) = (Ok (ob, info), w)
    /\ o = VSample ob.
Proof.
  intros Hemu Hmem H.
  apply gym_reset_inv in H as (s0 & ob & w & s2 & Hs0 & Hsr & Hob & Hc & Hr).
  assert (s0 = st) as ->.
  { destruct (GymnasiumPufferEnv.initialized E st); [done |].
    unfold GymnasiumPufferEnv.reset_bind, bindM, gets, ret in Hs0. simpl in Hs0.
    rewrite Hmem, Hemu in Hs0. by injection Hs0 as <-. }
  exists ob, w. split; [exact Hsr |].
  unfold GymnasiumPufferEnv._emulate_ob, bindM, gets, modify in Hob. simpl in Hob.
  rewrite Hemu, Hmem in Hob. simpl in Hob. injection Hob as <-.
  pose proof (gym_check_observation_keeps_store contains E) as Hk.
  match type of Hc with _ ?s = _ => specialize (Hk s) end.
  rewrite Hc in Hk. unfold gym_store in Hk. simpl in Hk.
  injection Hk as Hmem' Hobs' Hbound' _.
  unfold GymnasiumPufferEnv.read_obs in Hr. rewrite Hmem', Hmem, Hbound', Hobs' in Hr.
  destruct (GymnasiumPufferEnv.obs_bound E st); [done |]. by injection Hr as <-.
Qed.

Lemma gymnasium_reset_native_observation_witness :
  exists st0 o info st',
    GymnasiumPufferEnv.__init__ legacy_env 0%nat = Ok st0
    /\ GymnasiumPufferEnv.is_obs_emulated legacy_env st0 = false
    /\ GymnasiumPufferEnv.mem legacy_env st0 = None
    /\ GymnasiumPufferEnv.reset contains_all legacy_env (Some 7) st0 = (Ok (o, info), st')
    /\ exists ob w,
         _seed_and_reset legacy_env (Some 7) (GymnasiumPufferEnv.world legacy_env st0)
         = (Ok (ob, info), w)
         /\ o = VSample ob.
Proof.
  eexists.
  destruct (GymnasiumPufferEnv.reset contains_all legacy_env (Some 7) _)
    as [[[o info] | e] st'] eqn:Hreset.
  - exists o, info, st'.
    split; [reflexivity |].
    match goal with
    | |- ?A /\ ?B /\ _ =>
        assert (Hemu : A) by reflexivity; assert (Hmem : B) by reflexivity
    end.
    split; [exact Hemu |]. split; [exact Hmem |]. split; [reflexivity |].
    exact (gymnasium_reset_native_observation contains_all legacy_env _ _ _ _ _
             Hemu Hmem Hreset).
  - exfalso. vm_compute in Hreset. discriminate Hreset.
Defined.

Section GymnasiumReset.
Context (contains : Space -> PyVal -> PyResult bool).
Context (E : GymEnv).

Lemma gym_reset_tail_keeps_life sd :
  keeps (gym_life E)
    (let* (ob, info) := GymnasiumPufferEnv.zoom E (_seed_and_reset E sd) in
     let* _ := GymnasiumPufferEnv._emulate_ob E ob in
     let* _ := GymnasiumPufferEnv.check_observation contains E in
     let* o := GymnasiumPufferEnv.read_obs E in
     ret (o, info)).
Proof.
  keeps_go ltac:(first
    [ apply gym_check_observation_keeps_life
    | apply gym_frame_life;
      first [ apply gym__emulate_ob_keeps | apply gym_read_obs_keeps ]
    | apply (keeps_proj (gym_flags E)
               (fun x => (fst (fst (fst (fst x))), snd (fst (fst (fst x))))));
      apply gym_zoom_keeps_flags ]).
Qed.
End GymnasiumReset.

(** A reset opens the episode before it calls the environment: once the
    first-call binding of the observation buffer has succeeded (or the
    adapter was initialized before), the adapter is initialized and not done
    after [reset] whatever the outcome of the call, also when the
    environment's [reset] or the observation check raises; a following
    [step] therefore passes both guards. *)
Theorem gymnasium_reset_opens_episode (contains : Space -> PyVal -> PyResult bool)
    (E : GymEnv) (sd : option Z) (st : GymnasiumPufferEnv.t E) :
  (GymnasiumPufferEnv.initialized E st = true
   \/ exists s0, GymnasiumPufferEnv.reset_bind E st = (Ok tt, s0)) ->
  GymnasiumPufferEnv.initialized E (snd (GymnasiumPufferEnv.reset contains E sd st)) = true
  /\ GymnasiumPufferEnv.done E (snd (GymnasiumPufferEnv.reset contains E sd st)) = false.
Proof.
  intros Hpre.
  assert (Hgoal : gym_life E (snd (GymnasiumPufferEnv.reset contains E sd st))
                  = (true, false)).
  { unfold GymnasiumPufferEnv.reset.
    unfold bindM at 1, gets at 1. unfold bindM at 1.
    assert (Hb : exists s0,
               (if negb (GymnasiumPufferEnv.initialized E st)
                then GymnasiumPufferEnv.reset_bind E else ret tt) st = (Ok tt, s0)).
    { destruct Hpre as [-> | [s0 Hb]]; [by exists st |].
      destruct (GymnasiumPufferEnv.initialized E st); [by exists st | by exists s0]. }
    destruct Hb as [s0 ->].
    unfold bindM at 1, modify at 1. unfold bindM at 1, modify at 1.
    by rewrite gym_reset_tail_keeps_life. }
  unfold gym_life in Hgoal. by injection Hgoal as -> ->.
Qed.

Lemma gymnasium_reset_opens_episode_witness :
  exists st0,
    GymnasiumPufferEnv.__init__ unready_env 0%nat = Ok st0
    /\ (GymnasiumPufferEnv.initialized unready_env st0 = true
        \/ exists s0, GymnasiumPufferEnv.reset_bind unready_env st0 = (Ok tt, s0))
    /\ fst (GymnasiumPufferEnv.reset contains_all unready_env None st0) = Raise EnvError
    /\ GymnasiumPufferEnv.initialized unready_env
         (snd (GymnasiumPufferEnv.reset contains_all unready_env None st0)) = true
    /\ GymnasiumPufferEnv.done unready_env
         (snd (GymnasiumPufferEnv.reset contains_all unready_env None st0)) = false.
Proof.
  eexists. split; [reflexivity |].
  match goal with
  | |- ?A /\ _ => assert (Hpre : A) by (right; eexists; reflexivity)
  end.
  split; [exact Hpre |]. split; [reflexivity |].
  exact (gymnasium_reset_opens_episode contains_all unready_env None _ Hpre).
Defined.

(** ** The multi-agent adapter: what a call does *)

Section PettingZooBehaviour.
Context (contains : Space -> PyVal -> PyResult bool).
Context (E : PettingZooEnv).

(** The observation storage and the mask of the adapter. *)
Definition pz_store (st : PettingZooPufferEnv.t E) :=
  (PettingZooPufferEnv.mem E st, PettingZooPufferEnv.obs E st,
   PettingZooPufferEnv.obs_bound E st, PettingZooPufferEnv._obs E st,
   PettingZooPufferEnv.dict_obs E st, PettingZooPufferEnv.mask E st).

Lemma pz_zoom_keeps_store {A : Type} (m : M (World (pz_state E)) A) :
  keeps pz_store (PettingZooPufferEnv.zoom E m).
Proof.
  intros st. unfold PettingZooPufferEnv.zoom.
  destruct (m (PettingZooPufferEnv.world E st)) as [r w]. reflexivity.
Qed.

Lemma pz_zoom_keeps_cfg {A : Type} (m : M (World (pz_state E)) A) :
  keeps (pz_cfg E) (PettingZooPufferEnv.zoom E m).
Proof. apply (keeps_proj (pz_flags E) snd), pz_zoom_keeps_flags. Qed.

Lemma pz_check_action_keeps_store actions :
  keeps pz_store (PettingZooPufferEnv.check_action contains E actions).
Proof.
  unfold PettingZooPufferEnv.check_action.
  keeps_go ltac:(apply pz_zoom_keeps_store).
Qed.

Lemma pz_check_action_keeps_cfg actions :
  keeps (pz_cfg E) (PettingZooPufferEnv.check_action contains E actions).
Proof.
  unfold PettingZooPufferEnv.check_action.
  keeps_go ltac:(apply pz_zoom_keeps_cfg).
Qed.

(** The action check adds at most the containment event to the record of
    calls. *)
Lemma pz_check_action_trace actions st :
  exists rest,
    w_trace (PettingZooPufferEnv.world E
               (snd (PettingZooPufferEnv.check_action contains E actions st)))
    = w_trace (PettingZooPufferEnv.world E st) ++ rest
    /\ (EvStep ∉ rest).
Proof.
  unfold PettingZooPufferEnv.check_action, bindM, gets, raise, ret. simpl.
  destruct (PettingZooPufferEnv.is_action_checked E st); simpl.
  { exists []. rewrite app_nil_r. split; [done | apply not_elem_of_nil]. }
  destruct actions as [| [agent atn] actions]; simpl.
  { exists []. rewrite app_nil_r. split; [done | apply not_elem_of_nil]. }
  unfold PettingZooPufferEnv.zoom.
  pose proof (check_space_world contains ActionCheck (VArray atn)
                (PettingZooPufferEnv.single_action_space E st)
                (PettingZooPufferEnv.world E st)) as Hw.
  destruct (check_space contains ActionCheck (VArray atn) _ _) as [[r |] w];
    simpl in *; subst w; simpl;
    (eexists; split; [reflexivity |]);
    by intros [Heq | Hin%elem_of_nil]%elem_of_cons.
Qed.

(** [unpack_actions] reads the population only through the environment and
    the action view fixed at construction. *)
Lemma unpack_actions_ext st1 st2 items acc :
  w_env (PettingZooPufferEnv.world E st1) = w_env (PettingZooPufferEnv.world E st2) ->
  pz_cfg E st1 = pz_cfg E st2 ->
  PettingZooPufferEnv.unpack_actions E st1 items acc
  = PettingZooPufferEnv.unpack_actions E st2 items acc.
Proof.
  intros Henv Hcfg. unfold pz_cfg in Hcfg.
  injection Hcfg as _ _ Hspace Hd _ Hemu _ _.
  revert acc. induction items as [| [agent atn] items IH]; intros acc; [done |].
  cbn [PettingZooPufferEnv.unpack_actions].
  unfold PettingZooPufferEnv.agents. rewrite Henv, Hspace, Hd, Hemu.
  destruct (negb (bool_decide (agent ∈ PettingZooPufferEnv.possible_agents E))); [done |].
  destruct (negb (bool_decide (agent ∈ pz_agents E (w_env (PettingZooPufferEnv.world E st2)))));
    [apply IH |].
  destruct (if PettingZooPufferEnv.is_atn_emulated E st2 then _ else _) as [atn' |];
    [apply IH | done].
Qed.

(** A step that returns has passed both guards, checked and unpacked the
    actions, stepped the environment once with the unpacked actions and
    stored the results. *)
Lemma pz_step_inv_full actions st out st' :
  PettingZooPufferEnv.step contains E actions st = (Ok out, st') ->
  PettingZooPufferEnv.initialized E st = true
  /\ PettingZooPufferEnv.done E st = false
  /\ exists acts sc unpacked obs rewards dones truncateds infos env1 s5 d,
      match actions with
      | ActArray a =>
          PettingZooPufferEnv.actions_of_array a 0 (PettingZooPufferEnv.possible_agents E) [] = Ok acts
      | ActDict items => acts = items
      end
      /\ PettingZooPufferEnv.check_action contains E acts st = (Ok tt, sc)
      /\ PettingZooPufferEnv.unpack_actions E st acts ∅ = Ok unpacked
      /\ pz_step E unpacked (w_env (PettingZooPufferEnv.world E st))
         = (Ok (obs, rewards, dones, truncateds, infos), env1)
      /\ PettingZooPufferEnv.step_agents E obs rewards dones truncateds 0
           (PettingZooPufferEnv.possible_agents E)
           (PettingZooPufferEnv.set_mask E (PettingZooPufferEnv.mask_all_false E)
              (PettingZooPufferEnv.set_world E
                 (mkWorld env1 (w_trace (PettingZooPufferEnv.world E sc) ++ [EvStep])) sc))
         = (Ok tt, s5)
      /\ st' = PettingZooPufferEnv.set_all_done E (all_values dones) s5
      /\ PettingZooPufferEnv.read_dict_obs E st' = (Ok d, st')
      /\ out = (d,
                pad_agent_data rewards (PettingZooPufferEnv.possible_agents E) (pz_zero E),
                pad_agent_data dones (PettingZooPufferEnv.possible_agents E) false,
                pad_agent_data truncateds (PettingZooPufferEnv.possible_agents E) false,
                infos).
Proof.
  unfold PettingZooPufferEnv.step. intros H.
  apply bindM_inv in H as (init & s1 & Hg & H). unfold gets in Hg. injection Hg as <- <-.
  destruct (PettingZooPufferEnv.initialized E st) eqn:Hinit; [| done]. simpl in H.
  apply bindM_inv in H as (dn & s1 & Hg & H). unfold gets in Hg. injection Hg as <- <-.
  destruct (PettingZooPufferEnv.done E st) eqn:Hdone; [done |].
  split; [done |]. split; [done |].
  apply bindM_inv in H as (acts & s2 & Ha & H).
  assert (Hacts : s2 = st
                  /\ match actions with
                     | ActArray a =>
                         PettingZooPufferEnv.actions_of_array a 0 (PettingZooPufferEnv.possible_agents E) []
                         = Ok acts
                     | ActDict items => acts = items
                     end).
  { destruct actions; [unfold lift in Ha | unfold ret in Ha]; by injection Ha as -> ->. }
  destruct Hacts as [-> Hacts].
  apply bindM_inv in H as ([] & sc & Hc & H).
  pose proof (pz_check_action_env contains E acts st) as Henv.
  rewrite Hc in Henv. simpl in Henv.
  pose proof (pz_check_action_keeps_cfg acts st) as Hcfg.
  rewrite Hc in Hcfg. simpl in Hcfg.
  unfold PettingZooPufferEnv.step_env in H.
  apply bindM_inv in H as (st_ & s1 & Hg & H). unfold gets in Hg. injection Hg as <- <-.
  apply bindM_inv in H as (unpacked & s2 & Hl & H). unfold lift in Hl.
  injection Hl as Hunp <-.
  rewrite (unpack_actions_ext sc st) in Hunp by done.
  apply bindM_inv in H as ([[[[obs rewards] dones] truncateds] infos] & s3 & Hz & H).
  unfold PettingZooPufferEnv.zoom, call in Hz.
  destruct (pz_step E unpacked (w_env (PettingZooPufferEnv.world E sc)))
    as [r env1] eqn:Hstep.
  injection Hz as -> <-.
  apply bindM_inv in H as ([] & s4 & Hm & H). unfold modify in Hm. injection Hm as <-.
  apply bindM_inv in H as ([] & s5 & Hloop & H).
  apply bindM_inv in H as ([] & s6 & Hm & H). unfold modify in Hm. injection Hm as <-.
  apply bindM_inv in H as (d & s7 & Hr & H).
  pose proof (pz_read_dict_obs_state E
                (PettingZooPufferEnv.set_all_done E (all_values dones) s5)) as Hs.
  rewrite Hr in Hs. simpl in Hs. subst s7.
  unfold ret in H. injection H as <- <-.
  exists acts, sc, unpacked, obs, rewards, dones, truncateds, infos, env1, s5, d.
  rewrite <- Henv. done.
Qed.
End PettingZooBehaviour.

(** Whether a call returned. *)
Definition returns {A : Type} (r : PyResult A) : bool :=
  match r with Ok _ => true | Raise _ => false end.

(** ** The adapter state machine: steps need a reset *)

Section PettingZooStepMade.
Context (contains : Space -> PyVal -> PyResult bool).
Context (E : PettingZooEnv).

(** The environment state and the [all_done] flag after a step that
    returns are those of the call the step made: the environment's [step]
    on the unpacked actions. *)
Lemma pz_step_made actions st out st' acts unpacked obs rewards dones truncateds infos env1 :
  PettingZooPufferEnv.step contains E actions st = (Ok out, st') ->
  match actions with
  | ActArray a =>
      PettingZooPufferEnv.actions_of_array a 0 (PettingZooPufferEnv.possible_agents E) []
  | ActDict items => Ok items
  end = Ok acts ->
  PettingZooPufferEnv.unpack_actions E st acts ∅ = Ok unpacked ->
  pz_step E unpacked (w_env (PettingZooPufferEnv.world E st))
  = (Ok (obs, rewards, dones, truncateds, infos), env1) ->
  w_env (PettingZooPufferEnv.world E st') = env1
  /\ PettingZooPufferEnv.all_done E st' = all_values dones.
Proof.
  intros Hstep Hacts Hunp Hraw.
  apply pz_step_inv_full in Hstep
    as (_ & _ & acts' & sc & unpacked' & obs' & rewards' & dones' & truncateds' & infos'
        & env1' & s5 & d & Hacts' & _ & Hunp' & Hraw' & Hloop & -> & _ & _).
  assert (acts' = acts) as ->.
  { destruct actions as [a | items].
    - rewrite Hacts' in Hacts. by injection Hacts.
    - subst acts'. by injection Hacts. }
  rewrite Hunp in Hunp'. injection Hunp' as <-.
  rewrite Hraw in Hraw'. injection Hraw' as <- <- <- <- <- <-.
  match type of Hloop with
  | _ ?s0 = _ =>
      pose proof (pz_step_agents_keeps E obs rewards dones truncateds 0
                    (PettingZooPufferEnv.possible_agents E) s0) as Hk
  end.
  rewrite Hloop in Hk. unfold pz_frame in Hk. simpl in Hk. injection Hk as Hw _.
  destruct s5. simpl in *. by rewrite Hw.
Qed.
End PettingZooStepMade.

(** C4: in both adapters a [step] on an adapter that was never reset
    (whatever steps were attempted before), and a [step] that follows a step
    which reported termination with no reset in between, raises the usage
    error [APIUsageError] and leaves the adapter as it was.  For the
    multi-agent adapter the step that was made is the call of the
    environment's [step] on the actions the adapter unpacked from the ones
    it was given; it reports termination when the done mapping that call
    returned marks every listed agent done, or when it leaves no agent
    active. *)
Theorem step_requires_reset (contains : Space -> PyVal -> PyResult bool)
    (G : GymEnv) (P : PettingZooEnv) :
  (forall env st0 earlier action,
     GymnasiumPufferEnv.__init__ G env = Ok st0 ->
     GymnasiumPufferEnv.step contains G action (gym_run contains G (map GymStep earlier) st0)
     = (Raise APIUsageError, gym_run contains G (map GymStep earlier) st0))
  /\ (forall st action o r truncated info st' action',
     GymnasiumPufferEnv.step contains G action st = (Ok (o, r, true, truncated, info), st') ->
     GymnasiumPufferEnv.step contains G action' st' = (Raise APIUsageError, st'))
  /\ (forall env p st0 earlier actions,
     PettingZooPufferEnv.__init__ P env p = Ok st0 ->
     PettingZooPufferEnv.step contains P actions (pz_run contains P (map PzStep earlier) st0)
     = (Raise APIUsageError, pz_run contains P (map PzStep earlier) st0))
  /\ (forall st actions out st' acts unpacked obs rewards dones truncateds infos env1
        actions',
     PettingZooPufferEnv.step contains P actions st = (Ok out, st') ->
     match actions with
     | ActArray a =>
         PettingZooPufferEnv.actions_of_array a 0 (PettingZooPufferEnv.possible_agents P) []
     | ActDict items => Ok items
     end = Ok acts ->
     PettingZooPufferEnv.unpack_actions P st acts ∅ = Ok unpacked ->
     pz_step P unpacked (w_env (PettingZooPufferEnv.world P st))
     = (Ok (obs, rewards, dones, truncateds, infos), env1) ->
     all_values dones = true \/ pz_agents P env1 = [] ->
     PettingZooPufferEnv.step contains P actions' st' = (Raise APIUsageError, st')).
Proof.
  repeat split.
  - intros env st0 earlier action Hinit.
    rewrite (gym_run_steps_only contains G env st0 earlier Hinit).
    apply gym_step_guard. left. by eapply gym_init_uninitialized.
  - intros st action o r truncated info st' action' Hstep.
    apply gym_step_guard. right. by eapply gym_step_done.
  - intros env p st0 earlier actions Hinit.
    rewrite (pz_run_steps_only contains P env p st0 earlier Hinit).
    apply pz_step_guard. left. by eapply pz_init_uninitialized.
  - intros st actions out st' acts unpacked obs rewards dones truncateds infos env1
      actions' Hstep Hacts Hunp Hraw Hterm.
    apply pz_step_guard. right.
    destruct (pz_step_made contains P _ _ _ _ _ _ _ _ _ _ _ _ Hstep Hacts Hunp Hraw)
      as [Henv Hdone].
    unfold PettingZooPufferEnv.done, PettingZooPufferEnv.agents.
    rewrite Hdone, Henv. destruct Hterm as [-> | ->]; [apply orb_true_r | done].
Qed.

Lemma step_requires_reset_witness :
  (exists st0 out st',
    GymnasiumPufferEnv.__init__ legacy_env 0%nat = Ok st0
    /\ GymnasiumPufferEnv.step contains_all legacy_env (NDArray int64 [] [1]) st0
       = (Raise APIUsageError, st0)
    /\ GymnasiumPufferEnv.step contains_all legacy_env (NDArray int64 [] [1])
         (gym_run contains_all legacy_env [GymReset None] st0)
       = (Ok (out, 1, true, false, tt), st')
    /\ GymnasiumPufferEnv.step contains_all legacy_env (NDArray int64 [] [0]) st'
       = (Raise APIUsageError, st'))
  /\ (exists st0,
    PettingZooPufferEnv.__init__ choice_env [] false = Ok st0
    /\ PettingZooPufferEnv.step contains_all choice_env two_actions st0
       = (Raise APIUsageError, st0)
    /\ exists out1 st1 out2 st2,
      PettingZooPufferEnv.step contains_all choice_env idle_actions
        (pz_run contains_all choice_env [PzReset None] st0) = (Ok out1, st1)
      /\ PettingZooPufferEnv.step contains_all choice_env two_actions st1 = (Ok out2, st2)
      /\ PettingZooPufferEnv.agents choice_env st2 = ["a"; "b"]
      /\ PettingZooPufferEnv.step contains_all choice_env idle_actions st2
         = (Raise APIUsageError, st2)).
Proof.
  split.
  - eexists.
    destruct (GymnasiumPufferEnv.step contains_all legacy_env (NDArray int64 [] [1])
                (gym_run contains_all legacy_env [GymReset None] _))
      as [[[[[[o r] dn] tr] info] | e] st'] eqn:Hstep.
    + exists o, st'. split; [reflexivity |].
      assert (Hres : r = 1 /\ dn = true /\ tr = false /\ info = tt).
      { vm_compute in Hstep. injection Hstep as _ <- <- <- <-. by repeat split. }
      destruct Hres as (-> & -> & -> & ->).
      split.
      { exact (proj1 (step_requires_reset contains_all legacy_env choice_env)
                 0%nat _ [] (NDArray int64 [] [1]) eq_refl). }
      split; [reflexivity |].
      exact (proj1 (proj2 (step_requires_reset contains_all legacy_env choice_env))
               _ _ _ _ _ _ _ (NDArray int64 [] [0]) Hstep).
    + exfalso. vm_compute in Hstep. discriminate Hstep.
  - eexists. split; [reflexivity |].
    split.
    { exact (proj1 (proj2 (proj2 (step_requires_reset contains_all legacy_env choice_env)))
               [] false _ [] two_actions eq_refl). }
    match goal with
    | |- context [pz_run ?c ?E ?cs ?s0] => set (sr := pz_run c E cs s0)
    end.
    pose (items := [("a", NDArray int64 [] [1]); ("b", NDArray int64 [] [0])]).
    pose (unpacked := ({["a" := VArray (NDArray int64 [] [1]);
                         "b" := VArray (NDArray int64 [] [0])]} : gmap Agent PyVal)).
    pose (dones := ({["a" := true; "b" := true]} : gmap Agent bool)).
    assert (Hall :
      let r1 := PettingZooPufferEnv.step contains_all choice_env idle_actions sr in
      let r2 := PettingZooPufferEnv.step contains_all choice_env two_actions (snd r1) in
      returns (fst r1) = true
      /\ returns (fst r2) = true
      /\ PettingZooPufferEnv.unpack_actions choice_env (snd r1) items ∅ = Ok unpacked
      /\ pz_step choice_env unpacked (w_env (PettingZooPufferEnv.world choice_env (snd r1)))
         = (Ok (both_obs, {["a" := 1; "b" := 1]}, dones,
                {["a" := false; "b" := false]}, tt), ["a"; "b"])
      /\ PettingZooPufferEnv.agents choice_env (snd r2) = ["a"; "b"])
      by (vm_compute; repeat split).
    cbv zeta in Hall.
    destruct (PettingZooPufferEnv.step contains_all choice_env idle_actions sr)
      as [[out1 | e1] st1] eqn:Hstep1;
      [| destruct Hall as [Hbad _]; discriminate Hbad].
    cbn [fst snd] in Hall.
    destruct (PettingZooPufferEnv.step contains_all choice_env two_actions st1)
      as [[out2 | e2] st2] eqn:Hstep2;
      [| destruct Hall as (_ & Hbad & _); discriminate Hbad].
    cbn [fst snd] in Hall. destruct Hall as (_ & _ & Hunp & Hraw & Hagents).
    exists out1, st1, out2, st2.
    split; [reflexivity |]. split; [exact Hstep2 |]. split; [exact Hagents |].
    exact (proj2 (proj2 (proj2 (step_requires_reset contains_all legacy_env choice_env)))
             st1 two_actions out2 st2 items unpacked _ _ dones _ _ _ idle_actions
             Hstep2 eq_refl Hunp Hraw (or_introl eq_refl)).
Defined.

Section PettingZooUnpack.
Context (E : PettingZooEnv).

(** The unpacking loop raises as soon as it meets an agent outside the
    population; without action emulation nothing else in it can raise. *)
Lemma unpack_actions_unknown (st : PettingZooPufferEnv.t E) items acc :
  Exists (fun kv => fst kv ∉ PettingZooPufferEnv.possible_agents E) items ->
  exists e,
    PettingZooPufferEnv.unpack_actions E st items acc = Raise e
    /\ (PettingZooPufferEnv.is_atn_emulated E st = false -> e = InvalidAgentError).
Proof.
  intros Hex. revert acc.
  induction items as [| [agent atn] items IH]; intros acc.
  { by apply Exists_nil in Hex. }
  cbn [PettingZooPufferEnv.unpack_actions].
  destruct (bool_decide_reflect (agent ∈ PettingZooPufferEnv.possible_agents E))
    as [Hin | Hnin]; simpl.
  2: { by exists InvalidAgentError. }
  apply Exists_cons in Hex as [Hhd | Htl]; [done |].
  destruct (negb (bool_decide (agent ∈ PettingZooPufferEnv.agents E st))); [by apply IH |].
  destruct (PettingZooPufferEnv.is_atn_emulated E st) eqn:Hemu.
  - destruct (nativize atn _ _) as [s | e]; simpl; [by apply IH |].
    by exists e.
  - simpl. by apply IH.
Qed.

(** What the unpacking loop returns has an entry exactly for the active
    agents among those the actions name, and it returns only when every
    agent named belongs to the population. *)
Lemma unpack_actions_dom (st : PettingZooPufferEnv.t E) items acc m :
  PettingZooPufferEnv.unpack_actions E st items acc = Ok m ->
  (forall agent,
     is_Some (m !! agent)
     <-> is_Some (acc !! agent)
         \/ (agent ∈ map fst items /\ agent ∈ PettingZooPufferEnv.agents E st))
  /\ Forall (fun kv => fst kv ∈ PettingZooPufferEnv.possible_agents E) items.
Proof.
  revert acc. induction items as [| [agent atn] items IH]; intros acc H.
  { simpl in H. injection H as <-. split; [| constructor].
    intros agent. split; [by left |]. intros [? | [Hin _]]; [done |].
    by apply not_elem_of_nil in Hin. }
  cbn [PettingZooPufferEnv.unpack_actions] in H.
  destruct (bool_decide_reflect (agent ∈ PettingZooPufferEnv.possible_agents E))
    as [Hin | Hnin]; simpl in H; [| done].
  destruct (bool_decide_reflect (agent ∈ PettingZooPufferEnv.agents E st))
    as [Hact | Hinact]; simpl in H.
  - destruct (if PettingZooPufferEnv.is_atn_emulated E st then _ else _) as [atn' |];
      simpl in H; [| done].
    apply IH in H as [Hdom Hall]. split; [| by constructor].
    intros a. rewrite Hdom. cbn [map fst]. rewrite elem_of_cons.
    destruct (decide (a = agent)) as [-> | Hne].
    + rewrite lookup_insert_eq. split; [| by eauto]. intros _. right. by split; [left |].
    + rewrite lookup_insert_ne by done. tauto.
  - apply IH in H as [Hdom Hall]. split; [| by constructor].
    intros a. rewrite Hdom. cbn [map fst]. rewrite elem_of_cons.
    split; [tauto |]. intros [Hacc | [[-> | Hin'] Hact]]; [tauto | done | tauto].
Qed.
End PettingZooUnpack.

(** An action for an agent outside the population stops the multi-agent
    [step] before the environment is touched: whatever the adapter's state,
    the call raises, the environment's state is unchanged and its [step] is
    not called; when the guards pass (the action check having been made
    before) and actions are not emulated, the exception is
    [InvalidAgentError]. *)
Theorem pettingzoo_step_unknown_agent (contains : Space -> PyVal -> PyResult bool)
    (E : PettingZooEnv) (items : list (Agent * ndarray)) (st : PettingZooPufferEnv.t E) :
  Exists (fun kv => fst kv ∉ PettingZooPufferEnv.possible_agents E) items ->
  exists e st' rest,
    PettingZooPufferEnv.step contains E (ActDict items) st = (Raise e, st')
    /\ w_env (PettingZooPufferEnv.world E st') = w_env (PettingZooPufferEnv.world E st)
    /\ w_trace (PettingZooPufferEnv.world E st')
       = w_trace (PettingZooPufferEnv.world E st) ++ rest
    /\ (EvStep ∉ rest)
    /\ (PettingZooPufferEnv.initialized E st = true ->
        PettingZooPufferEnv.done E st = false ->
        PettingZooPufferEnv.is_action_checked E st = true ->
        PettingZooPufferEnv.is_atn_emulated E st = false ->
        e = InvalidAgentError).
Proof.
  intros Hex. unfold PettingZooPufferEnv.step.
  unfold bindM at 1, gets at 1.
  destruct (PettingZooPufferEnv.initialized E st) eqn:Hinit; simpl.
  2: { exists APIUsageError, st, []. rewrite app_nil_r.
       repeat split; [apply not_elem_of_nil | done]. }
  unfold bindM at 1, gets at 1.
  destruct (PettingZooPufferEnv.done E st) eqn:Hdone.
  { exists APIUsageError, st, []. rewrite app_nil_r.
    repeat split; [apply not_elem_of_nil | done]. }
  unfold bindM at 1, ret at 1. unfold bindM at 1.
  pose proof (pz_check_action_env contains E items st) as Henv.
  pose proof (pz_check_action_keeps_cfg contains E items st) as Hcfg.
  destruct (pz_check_action_trace contains E items st) as (rest & Htr & Hrest).
  destruct (PettingZooPufferEnv.check_action contains E items st)
    as [[[] | e] sc] eqn:Hc; simpl in Henv, Hcfg, Htr.
  - unfold PettingZooPufferEnv.step_env. unfold bindM at 1, gets at 1.
    unfold bindM at 1, lift at 1.
    destruct (unpack_actions_unknown E sc items ∅ Hex) as (e & -> & He).
    exists e, sc, rest. repeat split; try done.
    intros _ _ _ Hemu. apply He.
    unfold pz_cfg in Hcfg. injection Hcfg as _ _ _ _ _ Hcfg _ _. congruence.
  - exists e, sc, rest. repeat split; try done.
    intros _ _ Hchk _. exfalso.
    unfold PettingZooPufferEnv.check_action, bindM, gets, ret in Hc. simpl in Hc.
    rewrite Hchk in Hc. simpl in Hc. discriminate Hc.
Qed.

Lemma pettingzoo_step_unknown_agent_witness :
  exists st0,
    PettingZooPufferEnv.__init__ duo_env ["a"; "b"] false = Ok st0
    /\ exists e st' rest,
    Exists (fun kv => fst kv ∉ PettingZooPufferEnv.possible_agents duo_env)
         [("a", NDArray int64 [] [1]); ("c", NDArray int64 [] [0])]
    /\ PettingZooPufferEnv.step contains_all duo_env
         (ActDict [("a", NDArray int64 [] [1]); ("c", NDArray int64 [] [0])])
         (pz_run contains_all duo_env [PzReset None; PzStep two_actions] st0)
       = (Raise e, st')
    /\ w_env (PettingZooPufferEnv.world duo_env st')
       = w_env (PettingZooPufferEnv.world duo_env
                  (pz_run contains_all duo_env [PzReset None; PzStep two_actions] st0))
    /\ w_trace (PettingZooPufferEnv.world duo_env st')
       = w_trace (PettingZooPufferEnv.world duo_env
                    (pz_run contains_all duo_env [PzReset None; PzStep two_actions] st0))
         ++ rest
    /\ (EvStep ∉ rest)
    /\ e = InvalidAgentError.
Proof.
  eexists. split; [reflexivity |].
  assert (Hex : Exists (fun kv => fst kv ∉ PettingZooPufferEnv.possible_agents duo_env)
                  [("a", NDArray int64 [] [1]); ("c", NDArray int64 [] [0])]).
  { apply Exists_cons_tl, Exists_cons_hd. simpl.
    intros Hin. apply list_elem_of_In in Hin. simpl in Hin.
    destruct Hin as [H | [H | []]]; discriminate H. }
  match goal with
  | |- context [PettingZooPufferEnv.step _ _ _ ?s] =>
      destruct (pettingzoo_step_unknown_agent contains_all duo_env _ s Hex)
        as (e & st' & rest & Hstep & Henv & Htr & Hrest & He);
      assert (Hinit : PettingZooPufferEnv.initialized duo_env s = true)
        by (vm_compute; reflexivity);
      assert (Hdone : PettingZooPufferEnv.done duo_env s = false)
        by (vm_compute; reflexivity);
      assert (Hchk : PettingZooPufferEnv.is_action_checked duo_env s = true)
        by (vm_compute; reflexivity);
      assert (Hemu : PettingZooPufferEnv.is_atn_emulated duo_env s = false)
        by (vm_compute; reflexivity)
  end.
  exists e, st', rest.
  split; [exact Hex |]. split; [exact Hstep |].
  split; [exact Henv |]. split; [exact Htr |]. split; [exact Hrest |].
  exact (He Hinit Hdone Hchk Hemu).
Defined.

(** Only active agents act: a multi-agent step that returns has called the
    environment's [step] with actions for agents that are both in the
    population and currently active, and, when the actions were given as a
    mapping, with an action for every active agent the mapping names.
    Actions of inactive agents are dropped silently. *)
Theorem pettingzoo_step_active_agents_only (contains : Space -> PyVal -> PyResult bool)
    (E : PettingZooEnv) (actions : Actions) (st st' : PettingZooPufferEnv.t E)
    (out : gmap Agent PyVal * gmap Agent (pz_reward E) * gmap Agent bool
           * gmap Agent bool * pz_info E) :
  PettingZooPufferEnv.step contains E actions st = (Ok out, st') ->
  exists unpacked obs rewards dones truncateds infos env1,
    pz_step E unpacked (w_env (PettingZooPufferEnv.world E st))
    = (Ok (obs, rewards, dones, truncateds, infos), env1)
    /\ (forall agent,
          is_Some (unpacked !! agent) ->
          agent ∈ PettingZooPufferEnv.agents E st
          /\ agent ∈ PettingZooPufferEnv.possible_agents E)
    /\ (forall items agent,
          actions = ActDict items ->
          agent ∈ map fst items ->
          agent ∈ PettingZooPufferEnv.agents E st ->
          is_Some (unpacked !! agent)).
Proof.
  intros H. apply pz_step_inv_full in H
    as (_ & _ & acts & sc & unpacked & obs & rewards & dones & truncateds & infos & env1
        & s5 & d & Hacts & _ & Hunp & Hstep & _).
  exists unpacked, obs, rewards, dones, truncateds, infos, env1.
  split; [exact Hstep |].
  apply unpack_actions_dom in Hunp as [Hdom Hall].
  split.
  - intros agent Hsome. apply Hdom in Hsome as [Hacc | [Hin Hact]].
    { rewrite lookup_empty in Hacc. by destruct Hacc. }
    split; [exact Hact |].
    apply list_elem_of_fmap in Hin as ([a atn] & -> & Hin).
    rewrite Forall_forall in Hall. exact (Hall _ Hin).
  - intros items agent -> Hin Hact. subst acts. apply Hdom. right. by split.
Qed.

Lemma pettingzoo_step_active_agents_only_witness :
  exists st0,
    PettingZooPufferEnv.__init__ duo_env ["a"; "b"] false = Ok st0
    /\ exists out st' (unpacked : gmap Agent PyVal) res env1,
    PettingZooPufferEnv.step contains_all duo_env two_actions
      (pz_run contains_all duo_env [PzReset None; PzStep two_actions] st0)
    = (Ok out, st')
    /\ pz_step duo_env unpacked
         (w_env (PettingZooPufferEnv.world duo_env
                   (pz_run contains_all duo_env [PzReset None; PzStep two_actions] st0)))
       = (Ok res, env1)
    /\ PettingZooPufferEnv.agents duo_env
         (pz_run contains_all duo_env [PzReset None; PzStep two_actions] st0) = ["a"]
    /\ is_Some (unpacked !! "a")
    /\ ~ is_Some (unpacked !! "b").
Proof.
  eexists. split; [reflexivity |].
  match goal with
  | |- context [PettingZooPufferEnv.step _ _ _ ?s] =>
      assert (Hag : PettingZooPufferEnv.agents duo_env s = ["a"])
        by (vm_compute; reflexivity);
      assert (Hok : returns (fst (PettingZooPufferEnv.step contains_all duo_env
                                    two_actions s)) = true)
        by (vm_compute; reflexivity);
      destruct (PettingZooPufferEnv.step contains_all duo_env two_actions s)
        as [[out | e] st'] eqn:Hstep; [| discriminate Hok]
  end.
  destruct (pettingzoo_step_active_agents_only contains_all duo_env _ _ _ _ Hstep)
    as (unpacked & obs & rewards & dones & truncateds & infos & env1 & Hraw & Hsub & Hall).
  exists out, st', unpacked, (obs, rewards, dones, truncateds, infos), env1.
  split; [reflexivity |]. split; [exact Hraw |]. split; [exact Hag |]. split.
  - apply (Hall _ "a" eq_refl).
    + apply list_elem_of_In. simpl. tauto.
    + rewrite Hag. apply list_elem_of_In. simpl. tauto.
  - intros Hb. apply Hsub in Hb as [Hb _]. rewrite Hag in Hb.
    apply list_elem_of_In in Hb. simpl in Hb. destruct Hb as [Hb | []].
    discriminate Hb.
Defined.

Section PettingZooMask.
Context (contains : Space -> PyVal -> PyResult bool).
Context (E : PettingZooEnv).

Lemma pz_obs_array_keeps_mask :
  keeps (PettingZooPufferEnv.mask E) (PettingZooPufferEnv.obs_array E).
Proof. intros st. by rewrite pz_obs_array_state. Qed.

Lemma pz_put_obs_array_keeps_mask a :
  keeps (PettingZooPufferEnv.mask E) (PettingZooPufferEnv.put_obs_array E a).
Proof.
  intros st. unfold PettingZooPufferEnv.put_obs_array.
  repeat case_match; try reflexivity; by destruct st.
Qed.

Lemma pz__emulate_ob_keeps_mask ob i agent :
  keeps (PettingZooPufferEnv.mask E) (PettingZooPufferEnv._emulate_ob E ob i agent).
Proof.
  unfold PettingZooPufferEnv._emulate_ob.
  keeps_go ltac:(first [ apply pz_obs_array_keeps_mask | apply pz_put_obs_array_keeps_mask ]).
Qed.

(** The mask entries the loop of [step] sets. *)
Definition mark_present (obs : gmap Agent Sample) (acc : gmap Agent bool) (agent : Agent)
  : gmap Agent bool :=
  match obs !! agent with
  | Some _ => <[agent := true]> acc
  | None => acc
  end.

Lemma pz_step_agents_mask obs rewards dones truncateds l :
  forall i s s',
    PettingZooPufferEnv.step_agents E obs rewards dones truncateds i l s = (Ok tt, s') ->
    PettingZooPufferEnv.mask E s'
    = foldl (mark_present obs) (PettingZooPufferEnv.mask E s) l.
Proof.
  induction l as [| agent l IH]; intros i s s' H.
  { simpl in H. unfold ret in H. by injection H as <-. }
  cbn [PettingZooPufferEnv.step_agents] in H.
  apply bindM_inv in H as ([] & s1 & Hhd & H).
  apply IH in H. rewrite H. cbn [foldl]. f_equal.
  unfold mark_present. destruct (obs !! agent) as [ob |].
  - apply bindM_inv in Hhd as ([] & s0 & Hm & Hhd).
    unfold modify in Hm. injection Hm as <-.
    match type of Hhd with
    | ?m ?s0 = _ =>
        assert (Hk : keeps (PettingZooPufferEnv.mask E) m);
        [| specialize (Hk s0); rewrite Hhd in Hk; exact Hk ]
    end.
    keeps_go ltac:(apply pz__emulate_ob_keeps_mask).
  - match type of Hhd with
    | ?m ?s0 = _ =>
        assert (Hk : keeps (PettingZooPufferEnv.mask E) m);
        [| specialize (Hk s0); rewrite Hhd in Hk; exact Hk ]
    end.
    keeps_go ltac:(first [ apply pz_obs_array_keeps_mask
                         | apply pz_put_obs_array_keeps_mask ]).
Qed.

Lemma mark_present_lookup obs l acc agent :
  foldl (mark_present obs) acc l !! agent
  = if decide (agent ∈ l) then
      match obs !! agent with Some _ => Some true | None => acc !! agent end
    else acc !! agent.
Proof.
  revert acc. induction l as [| x l IH]; intros acc; [done |].
  cbn [foldl]. rewrite IH.
  assert (Hx : mark_present obs acc x !! agent
               = if decide (agent = x)
                 then match obs !! agent with Some _ => Some true | None => acc !! agent end
                 else acc !! agent).
  { unfold mark_present. destruct (decide (agent = x)) as [-> | Hne].
    - destruct (obs !! x); [by rewrite lookup_insert_eq | done].
    - destruct (obs !! x); [by rewrite lookup_insert_ne | done]. }
  rewrite Hx.
  destruct (decide (agent ∈ l)) as [Hin | Hnin];
    destruct (decide (agent = x)) as [Heq | Hne];
    destruct (decide (agent ∈ x :: l)) as [Hc | Hc];
    try done;
    try (exfalso; apply Hc; apply elem_of_cons; tauto);
    try (apply elem_of_cons in Hc; tauto);
    by destruct (obs !! agent).
Qed.

Lemma mask_all_false_lookup agent :
  PettingZooPufferEnv.mask_all_false E !! agent
  = if decide (agent ∈ PettingZooPufferEnv.possible_agents E) then Some false else None.
Proof.
  unfold PettingZooPufferEnv.mask_all_false.
  assert (Hgen : forall (l : list Agent) (acc : gmap Agent bool),
    foldl (fun acc k => <[k := false]> acc) acc l !! agent
    = if decide (agent ∈ l) then Some false else acc !! agent).
  { induction l as [| x l IH]; intros acc; [done |].
    cbn [foldl]. rewrite IH.
    destruct (decide (agent ∈ l)) as [Hin | Hnin];
      destruct (decide (agent ∈ x :: l)) as [Hc | Hc];
      try done;
      try (exfalso; apply Hc; apply elem_of_cons; tauto).
    - apply elem_of_cons in Hc as [-> | Hc]; [| done]. by rewrite lookup_insert_eq.
    - rewrite lookup_insert_ne; [done |]. intros ->. apply Hc, elem_of_cons. by left. }
  rewrite Hgen. by destruct (decide (agent ∈ _)).
Qed.

Lemma pz_reset_tail_keeps_life sd :
  keeps (pz_life E)
    (let* _ := modify (PettingZooPufferEnv.set_mask E (PettingZooPufferEnv.mask_all_false E)) in
     let* (obs, info) := PettingZooPufferEnv.zoom E (call (EvReset sd) (pz_reset E sd)) in
     let* _ := PettingZooPufferEnv.reset_agents E obs 0
                 (PettingZooPufferEnv.possible_agents E) in
     let* _ := PettingZooPufferEnv.check_observation contains E in
     let* d := PettingZooPufferEnv.read_dict_obs E in
     ret (d, info)).
Proof.
  keeps_go ltac:(first
    [ apply pz_check_observation_life
    | apply pz_frame_life;
      first [ apply pz_reset_agents_keeps | apply pz_read_dict_obs_keeps ]
    | apply pz_zoom_life ]).
Qed.
End PettingZooMask.

(** The mask after a step says who was observed: a multi-agent step that
    returns leaves a mask over exactly the population in which an agent is
    marked true when the environment's [step] returned an observation for it
    and false otherwise. *)
Theorem pettingzoo_step_mask (contains : Space -> PyVal -> PyResult bool)
    (E : PettingZooEnv) (actions : Actions) (st st' : PettingZooPufferEnv.t E)
    (out : gmap Agent PyVal * gmap Agent (pz_reward E) * gmap Agent bool
           * gmap Agent bool * pz_info E) :
  PettingZooPufferEnv.step contains E actions st = (Ok out, st') ->
  exists unpacked obs rewards dones truncateds infos env1,
    pz_step E unpacked (w_env (PettingZooPufferEnv.world E st))
    = (Ok (obs, rewards, dones, truncateds, infos), env1)
    /\ forall agent,
         PettingZooPufferEnv.mask E st' !! agent
         = if decide (agent ∈ PettingZooPufferEnv.possible_agents E)
           then Some (bool_decide (is_Some (obs !! agent)))
           else None.
Proof.
  intros H. apply pz_step_inv_full in H
    as (_ & _ & acts & sc & unpacked & obs & rewards & dones & truncateds & infos & env1
        & s5 & d & _ & _ & _ & Hstep & Hloop & -> & _).
  exists unpacked, obs, rewards, dones, truncateds, infos, env1.
  split; [exact Hstep |]. intros agent.
  apply pz_step_agents_mask in Hloop. simpl in *. rewrite Hloop.
  rewrite mark_present_lookup, mask_all_false_lookup.
  destruct (decide (agent ∈ PettingZooPufferEnv.possible_agents E)); [| done].
  destruct (obs !! agent) eqn:Hob.
  - by rewrite bool_decide_eq_true_2.
  - rewrite bool_decide_eq_false_2; [done |]. by intros [? ?].
Qed.

Lemma pettingzoo_step_mask_witness :
  exists st0,
    PettingZooPufferEnv.__init__ duo_env ["a"; "b"] false = Ok st0
    /\ exists out st',
    PettingZooPufferEnv.step contains_all duo_env two_actions
      (pz_run contains_all duo_env [PzReset None] st0) = (Ok out, st')
    /\ exists unpacked obs rewards dones truncateds infos env1,
      pz_step duo_env unpacked
        (w_env (PettingZooPufferEnv.world duo_env
                  (pz_run contains_all duo_env [PzReset None] st0)))
      = (Ok (obs, rewards, dones, truncateds, infos), env1)
      /\ forall agent,
           PettingZooPufferEnv.mask duo_env st' !! agent
           = if decide (agent ∈ PettingZooPufferEnv.possible_agents duo_env)
             then Some (bool_decide (is_Some (obs !! agent)))
             else None.
Proof.
  eexists. split; [reflexivity |].
  match goal with
  | |- context [PettingZooPufferEnv.step _ _ _ ?s] =>
      assert (Hok : returns (fst (PettingZooPufferEnv.step contains_all duo_env
                                    two_actions s)) = true)
        by (vm_compute; reflexivity);
      destruct (PettingZooPufferEnv.step contains_all duo_env two_actions s)
        as [[out | e] st'] eqn:Hstep; [| discriminate Hok]
  end.
  exists out, st'. split; [reflexivity |].
  exact (pettingzoo_step_mask contains_all duo_env _ _ _ _ Hstep).
Defined.

(** A multi-agent reset opens the episode before it calls the environment:
    once the first-call binding of the observation buffer has succeeded (or
    the adapter was initialized before), the adapter is initialized and its
    [all_done] flag is false after [reset] whatever the outcome of the call,
    also when the environment's [reset] raises or an agent is missing from
    its result. *)
Theorem pettingzoo_reset_opens_episode (contains : Space -> PyVal -> PyResult bool)
    (E : PettingZooEnv) (sd : option Z) (st : PettingZooPufferEnv.t E) :
  (PettingZooPufferEnv.initialized E st = true
   \/ exists s0, PettingZooPufferEnv.reset_bind E st = (Ok tt, s0)) ->
  PettingZooPufferEnv.initialized E (snd (PettingZooPufferEnv.reset contains E sd st))
  = true
  /\ PettingZooPufferEnv.all_done E (snd (PettingZooPufferEnv.reset contains E sd st))
     = false.
Proof.
  intros Hpre.
  assert (Hgoal : pz_life E (snd (PettingZooPufferEnv.reset contains E sd st))
                  = (true, false)).
  { unfold PettingZooPufferEnv.reset.
    unfold bindM at 1, gets at 1. unfold bindM at 1.
    assert (Hb : exists s0,
               (if negb (PettingZooPufferEnv.initialized E st)
                then PettingZooPufferEnv.reset_bind E else ret tt) st = (Ok tt, s0)).
    { destruct Hpre as [-> | [s0 Hb]]; [by exists st |].
      destruct (PettingZooPufferEnv.initialized E st); [by exists st | by exists s0]. }
    destruct Hb as [s0 ->].
    unfold bindM at 1, modify at 1. unfold bindM at 1, modify at 1.
    by rewrite pz_reset_tail_keeps_life. }
  unfold pz_life in Hgoal. by injection Hgoal as -> ->.
Qed.

Lemma pettingzoo_reset_opens_episode_witness :
  exists st0,
    PettingZooPufferEnv.__init__ late_env ["a"; "b"] false = Ok st0
    /\ (PettingZooPufferEnv.initialized late_env st0 = true
        \/ exists s0, PettingZooPufferEnv.reset_bind late_env st0 = (Ok tt, s0))
    /\ fst (PettingZooPufferEnv.reset contains_all late_env None st0) = Raise AttributeError
    /\ PettingZooPufferEnv.initialized late_env
         (snd (PettingZooPufferEnv.reset contains_all late_env None st0)) = true
    /\ PettingZooPufferEnv.all_done late_env
         (snd (PettingZooPufferEnv.reset contains_all late_env None st0)) = false.
Proof.
  eexists. split; [reflexivity |].
  match goal with
  | |- ?A /\ _ => assert (Hpre : A) by (right; eexists; vm_compute; reflexivity)
  end.
  split; [exact Hpre |]. split; [vm_compute; reflexivity |].
  exact (pettingzoo_reset_opens_episode contains_all late_env None _ Hpre).
Defined.

(** ** Actions decoded against the flat view *)

(** Whether a native value holds a keyed mapping at any depth. *)
Fixpoint has_dict (s : Sample) : bool :=
  match s with
  | SDict _ => true
  | STuple items => existsb has_dict items
  | _ => false
  end.

Lemma DType_nested_ind (P : DType -> Prop) :
  (forall t shape, P (DArr t shape)) ->
  (forall fs, Forall (fun f => P (snd f)) fs -> P (DStruct fs)) ->
  forall d, P d.
Proof.
  intros HArr HStruct. fix IH 1. intros [t shape | fs].
  - apply HArr.
  - apply HStruct. induction fs as [| [k fd] fs IHl]; constructor; [apply IH | exact IHl].
Qed.

Lemma item_fields_no_dict buf base fs :
  Forall (fun f => forall off s, item_record buf (snd f) off = Ok s -> has_dict s = false) fs ->
  forall start vs,
    item_fields (item_record buf) base fs start = Ok vs -> existsb has_dict vs = false.
Proof.
  induction 1 as [| [k fd] fs Hfd _ IH]; intros start vs H.
  { simpl in H. by injection H as <-. }
  cbn [item_fields] in H.
  destruct (place start (itemsize fd) (alignment fd)) as [o next].
  destruct (item_record buf fd (base + o)) as [v |] eqn:Hv; [| done].
  cbn [mbind PyResult_bind] in H.
  destruct (item_fields (item_record buf) base fs next) as [vs' |] eqn:Hvs; [| done].
  simpl in H. injection H as <-. simpl.
  rewrite (Hfd _ _ Hv). simpl. by eapply IH.
Qed.

(** [.item()] on a record gives positional tuples: no keys survive. *)
Lemma item_record_no_dict buf d :
  forall off s, item_record buf d off = Ok s -> has_dict s = false.
Proof.
  induction d as [t shape | fs IH] using DType_nested_ind; intros off s H.
  - destruct shape; simpl in H; [| done]. by injection H as <-.
  - cbn [item_record] in H.
    destruct (item_fields (item_record buf) off fs 0) as [vs |] eqn:Hvs; [| done].
    simpl in H. injection H as <-. simpl. by eapply item_fields_no_dict.
Qed.

Lemma nativize_leaf_no_dict flat space d s :
  is_leaf space = true -> nativize flat space d = Ok s -> has_dict s = false.
Proof.
  intros Hleaf H. unfold nativize in H.
  destruct (nd_view_records flat d) as [nrec |]; [| done].
  cbn [mbind PyResult_bind] in H.
  assert (Hitem : item (array_bytes flat) nrec d 0 = Ok s).
  { destruct space; simpl in Hleaf; try done; exact H. }
  unfold item in Hitem. destruct d as [t shape | fs].
  - destruct (Nat.eqb _ 1); [| done]. by injection Hitem as <-.
  - destruct (Nat.eqb nrec 1); [| done]. by eapply item_record_no_dict.
Qed.

Section PettingZooActions.
Context (contains : Space -> PyVal -> PyResult bool).
Context (E : PettingZooEnv).

Lemma unpack_actions_values (st : PettingZooPufferEnv.t E) items :
  forall acc m,
    PettingZooPufferEnv.unpack_actions E st items acc = Ok m ->
    forall agent v,
      m !! agent = Some v ->
      acc !! agent = Some v
      \/ exists atn,
           (agent, atn) ∈ items
           /\ if PettingZooPufferEnv.is_atn_emulated E st
              then exists s,
                     nativize atn (PettingZooPufferEnv.single_action_space E st)
                       (PettingZooPufferEnv.atn_dtype E st) = Ok s
                     /\ v = VSample s
              else v = VArray atn.
Proof.
  induction items as [| [a atn] items IH]; intros acc m H agent v Hv.
  { simpl in H. injection H as <-. by left. }
  cbn [PettingZooPufferEnv.unpack_actions] in H.
  destruct (negb (bool_decide (a ∈ PettingZooPufferEnv.possible_agents E))); [done |].
  destruct (negb (bool_decide (a ∈ PettingZooPufferEnv.agents E st))).
  { destruct (IH _ _ H _ _ Hv) as [Hacc | (atn' & Hin & Hval)]; [by left |].
    right. exists atn'. split; [by apply elem_of_cons; right | done]. }
  destruct (PettingZooPufferEnv.is_atn_emulated E st) eqn:Hemu.
  - destruct (nativize atn _ _) as [s |] eqn:Hnat; simpl in H; [| done].
    destruct (IH _ _ H _ _ Hv) as [Hacc | (atn' & Hin & Hval)].
    + destruct (decide (agent = a)) as [-> | Hne].
      * rewrite lookup_insert_eq in Hacc. injection Hacc as <-.
        right. exists atn. split; [by apply elem_of_cons; left |]. by exists s.
      * rewrite lookup_insert_ne in Hacc by done. by left.
    + right. exists atn'. split; [by apply elem_of_cons; right | done].
  - simpl in H.
    destruct (IH _ _ H _ _ Hv) as [Hacc | (atn' & Hin & Hval)].
    + destruct (decide (agent = a)) as [-> | Hne].
      * rewrite lookup_insert_eq in Hacc. injection Hacc as <-.
        right. exists atn. split; [by apply elem_of_cons; left | done].
      * rewrite lookup_insert_ne in Hacc by done. by left.
    + right. exists atn'. split; [by apply elem_of_cons; right | done].
Qed.

(** The action view an adapter is built with is a leaf space. *)
Lemma emulate_action_space_leaf space aspace d :
  emulate_action_space space = Ok (aspace, d) -> is_leaf aspace = true.
Proof.
  unfold emulate_action_space.
  destruct (isinstance_Discrete space) eqn:Hd.
  - intros H. injection H as <- _. by destruct space.
  - destruct (leaf_cardinalities (flatten_space space)) as [nvec |]; [| done].
    simpl. intros H. by injection H as <- _.
Qed.

Lemma pz_init_action_space_leaf env p st0 :
  PettingZooPufferEnv.__init__ E env p = Ok st0 ->
  is_leaf (PettingZooPufferEnv.single_action_space E st0) = true.
Proof.
  unfold PettingZooPufferEnv.__init__. intros H.
  destruct (PettingZooPufferEnv.possible_agents E) as [| single l]; [done |].
  destruct (emulate_observation_space _) as [[o od] |]; [| done].
  destruct (emulate_action_space _) as [[a ad] |] eqn:Ha; [| done].
  simpl in H. injection H as <-. simpl. by eapply emulate_action_space_leaf.
Qed.

Lemma pz_frame_cfg {A : Type} (m : M (PettingZooPufferEnv.t E) A) :
  keeps (pz_frame E) m -> keeps (pz_cfg E) m.
Proof. apply (keeps_proj (pz_frame E) (fun x => snd (snd x))). Qed.

Ltac pz_cfg_go :=
  keeps_go
    ltac:(first
      [ apply pz_frame_cfg;
        first [ apply pz_obs_array_keeps | apply pz_put_obs_array_keeps
              | apply pz__emulate_ob_keeps | apply pz_reset_bind_keeps
              | apply pz_read_dict_obs_keeps | apply pz_reset_agents_keeps
              | apply pz_step_agents_keeps ]
      | apply pz_zoom_keeps_cfg ]).

Lemma pz_reset_keeps_cfg sd : keeps (pz_cfg E) (PettingZooPufferEnv.reset contains E sd).
Proof.
  unfold PettingZooPufferEnv.reset, PettingZooPufferEnv.check_observation. pz_cfg_go.
Qed.

Lemma pz_step_keeps_cfg actions :
  keeps (pz_cfg E) (PettingZooPufferEnv.step contains E actions).
Proof.
  unfold PettingZooPufferEnv.step, PettingZooPufferEnv.check_action,
    PettingZooPufferEnv.step_env.
  cbv zeta. pz_cfg_go.
Qed.

Lemma pz_run_cfg cs st : pz_cfg E (pz_run contains E cs st) = pz_cfg E st.
Proof.
  revert st. induction cs as [| c cs IH]; intros st; [done |].
  simpl. fold (pz_run contains E cs (pz_exec contains E c st)).
  rewrite IH. destruct c; [apply pz_reset_keeps_cfg | apply pz_step_keeps_cfg].
Qed.
End PettingZooActions.

(** ** One containment check per site *)

(** When the checks made all said yes, the checks made at a site whose
    ledger is kept are none or the one the flag records, and a call that
    adds its check only while the flag is unset leaves, after any later
    calls, the one check: its own when none was made before. *)
Lemma ledger_once contains space flag0 made0 (new : Space * PyVal) made1 made2 :
  ledger contains space flag0 made0 ->
  made1 = made0 ++ (if flag0 then [] else [new]) ->
  ledger contains space true made2 ->
  made1 `prefix_of` made2 ->
  Forall (fun c => contains (fst c) (snd c) = Ok true) made2 ->
  made2 = match made0 with [] => [new] | c :: made => c :: made end.
Proof.
  intros H0 -> H2 [k Hk] Hs.
  pose proof (ledger_succeed contains space true made2 H2 Hs) as [d Hd].
  rewrite Hk in Hs. apply Forall_app in Hs as [Hs1 _]. apply Forall_app in Hs1 as [Hs0 _].
  pose proof (ledger_succeed contains space flag0 made0 H0 Hs0) as Hm.
  destruct flag0.
  - destruct Hm as [d0 ->]. rewrite Hk, Hd in *. cbn in Hd.
    injection Hd as Hd Hk'. by rewrite Hd.
  - rewrite Hm in *. cbn in Hk. rewrite Hd in Hk. by injection Hk as <- _.
Qed.

(** C7 as stated fails: the observation check is not always made on the
    first observation the adapter produces.  Here the first reset raises
    inside the environment, after the adapter has opened the episode; the
    step that follows returns the first observation, which is not checked;
    the one observation check is made by the next reset, on the observation
    that reset returns. *)
Lemma observation_check_not_on_first_observation :
  exists st0,
    GymnasiumPufferEnv.__init__ flaky_env 0%nat = Ok st0
    /\ let r1 := GymnasiumPufferEnv.reset contains_bounds flaky_env None st0 in
       let r2 := GymnasiumPufferEnv.step contains_bounds flaky_env
                   (NDArray int64 [2%nat] [1; 2]) (snd r1) in
       let r3 := GymnasiumPufferEnv.reset contains_bounds flaky_env None (snd r2) in
       fst r1 = Raise EnvError
       /\ fst r2 = Ok (VSample (SArr [2%nat] [7; 7]), 1, false, false, tt)
       /\ site_checks ObservationCheck (gym_trace flaky_env (snd r2)) = []
       /\ fst r3 = Ok (VSample (SArr [2%nat] [1; 0]), tt)
       /\ checks_succeed contains_bounds (gym_trace flaky_env (snd r3)) = true
       /\ site_checks ObservationCheck (gym_trace flaky_env (snd r3))
          = [(Box 0 255 [2%nat] uint8, VSample (SArr [2%nat] [1; 0]))].
Proof. eexists. split; [reflexivity |]. vm_compute. repeat split. Qed.

(** C7 (amended): in both adapters, for every adapter that could be built
    and every sequence of resets and steps made on it, as long as the
    containment checks this adapter made said yes (nothing is asked of the
    test on other values): at most one check was made for observations and
    at most one for actions, each against the flat space the adapter
    declares; a reset that returns leaves, through all later calls, exactly
    one observation check, and when none had been made before it is the
    check of the observation this reset returns (for the multi-agent adapter
    the observation it returns for the first possible agent); a step that
    returns leaves, through all later calls, exactly one action check, and
    when none had been made before it is the check of the action this step
    consumed (the decoded action for the single-agent adapter, the first
    flat action of the mapping for the multi-agent one). *)
Theorem checks_made_once (contains : Space -> PyVal -> PyResult bool)
    (G : GymEnv) (P : PettingZooEnv) :
  (forall env st0 cs,
     GymnasiumPufferEnv.__init__ G env = Ok st0 ->
     exists ospace od aspace ad,
       emulate_observation_space (gym_observation_space G) = Ok (ospace, od)
       /\ emulate_action_space (gym_action_space G) = Ok (aspace, ad)
       /\ (checks_succeed contains (gym_trace G (gym_run contains G cs st0)) = true ->
           (site_checks ObservationCheck (gym_trace G (gym_run contains G cs st0)) = []
            \/ exists o,
                 site_checks ObservationCheck (gym_trace G (gym_run contains G cs st0))
                 = [(ospace, o)])
           /\ (site_checks ActionCheck (gym_trace G (gym_run contains G cs st0)) = []
               \/ exists a,
                    site_checks ActionCheck (gym_trace G (gym_run contains G cs st0))
                    = [(aspace, a)]))
       /\ (forall sd o info st' later,
             GymnasiumPufferEnv.reset contains G sd (gym_run contains G cs st0)
             = (Ok (o, info), st') ->
             checks_succeed contains (gym_trace G (gym_run contains G later st')) = true ->
             site_checks ObservationCheck (gym_trace G (gym_run contains G later st'))
             = match site_checks ObservationCheck
                       (gym_trace G (gym_run contains G cs st0)) with
               | [] => [(ospace, o)]
               | made => made
               end)
       /\ (forall action r st' later,
             GymnasiumPufferEnv.step contains G action (gym_run contains G cs st0)
             = (Ok r, st') ->
             checks_succeed contains (gym_trace G (gym_run contains G later st')) = true ->
             exists native,
               nativize action (gym_action_space G) ad = Ok native
               /\ site_checks ActionCheck (gym_trace G (gym_run contains G later st'))
                  = match site_checks ActionCheck
                            (gym_trace G (gym_run contains G cs st0)) with
                    | [] => [(aspace, VSample native)]
                    | made => made
                    end))
  /\ (forall env p st0 cs,
     PettingZooPufferEnv.__init__ P env p = Ok st0 ->
     exists first ospace od aspace ad,
       head (pz_possible_agents P) = Some first
       /\ emulate_observation_space (pz_observation_space P first) = Ok (ospace, od)
       /\ emulate_action_space (pz_action_space P first) = Ok (aspace, ad)
       /\ (checks_succeed contains (pz_trace P (pz_run contains P cs st0)) = true ->
           (site_checks ObservationCheck (pz_trace P (pz_run contains P cs st0)) = []
            \/ exists o,
                 site_checks ObservationCheck (pz_trace P (pz_run contains P cs st0))
                 = [(ospace, o)])
           /\ (site_checks ActionCheck (pz_trace P (pz_run contains P cs st0)) = []
               \/ exists a,
                    site_checks ActionCheck (pz_trace P (pz_run contains P cs st0))
                    = [(aspace, a)]))
       /\ (forall sd d info st' later,
             PettingZooPufferEnv.reset contains P sd (pz_run contains P cs st0)
             = (Ok (d, info), st') ->
             checks_succeed contains (pz_trace P (pz_run contains P later st')) = true ->
             match site_checks ObservationCheck
                     (pz_trace P (pz_run contains P cs st0)) with
             | [] =>
                 exists o,
                   d !! first = Some o
                   /\ site_checks ObservationCheck
                        (pz_trace P (pz_run contains P later st'))
                      = [(ospace, o)]
             | made =>
                 site_checks ObservationCheck (pz_trace P (pz_run contains P later st'))
                 = made
             end)
       /\ (forall actions out st' later,
             PettingZooPufferEnv.step contains P actions (pz_run contains P cs st0)
             = (Ok out, st') ->
             checks_succeed contains (pz_trace P (pz_run contains P later st')) = true ->
             match site_checks ActionCheck (pz_trace P (pz_run contains P cs st0)) with
             | [] =>
                 exists acts agent atn rest,
                   match actions with
                   | ActArray a =>
                       PettingZooPufferEnv.actions_of_array a 0
                         (PettingZooPufferEnv.possible_agents P) []
                   | ActDict items => Ok items
                   end = Ok acts
                   /\ acts = (agent, atn) :: rest
                   /\ site_checks ActionCheck
                        (pz_trace P (pz_run contains P later st'))
                      = [(aspace, VArray atn)]
             | made =>
                 site_checks ActionCheck (pz_trace P (pz_run contains P later st'))
                 = made
             end)).
Proof.
  split.
  - intros env st0 cs Hinit.
    destruct (gym_init_state contains G env st0 Hinit) as [Hst0 Haspace].
    pose proof (gym_init_observation_space G env st0 Hinit) as Hospace.
    exists (GymnasiumPufferEnv.observation_space G st0),
      (GymnasiumPufferEnv.obs_dtype G st0),
      (GymnasiumPufferEnv.action_space G st0), (GymnasiumPufferEnv.atn_dtype G st0).
    split; [exact Hospace |]. split; [exact Haspace |].
    set (st := gym_run contains G cs st0).
    destruct (gym_run_once contains G cs st0) as (Hinv & _ & _ & _ & _).
    specialize (Hinv Hst0). fold st in Hinv.
    pose proof (gym_run_cfg contains G cs st0) as Hcfg. fold st in Hcfg.
    unfold gym_cfg in Hcfg. injection Hcfg as Hos _ Has Had _ _.
    pose proof Hinv as [HinvO HinvA]. rewrite Hos in HinvO. rewrite Has in HinvA.
    split; [| split].
    + intros Hs.
      pose proof (ledger_succeed contains _ _ _ HinvO
                    (checks_succeed_site contains ObservationCheck _ Hs)) as HO.
      pose proof (ledger_succeed contains _ _ _ HinvA
                    (checks_succeed_site contains ActionCheck _ Hs)) as HA.
      split.
      * destruct (GymnasiumPufferEnv.is_observation_checked G st); [by right | by left].
      * destruct (GymnasiumPufferEnv.is_action_checked G st); [by right | by left].
    + intros sd o info st' later Hreset Hs.
      pose proof (gym_reset_made contains G sd o info st st' Hreset) as Hmade.
      unfold checks in Hmade. injection Hmade as Hmade _. rewrite Hos in Hmade.
      pose proof (gym_reset_once contains G sd st) as Hk. rewrite Hreset in Hk.
      cbn [snd] in Hk. destruct Hk as (Hk & _ & _ & _ & _).
      specialize (Hk Hinv).
      destruct (gym_run_once contains G later st') as (Hl & Hlo & _ & Hpo & _).
      destruct (Hl Hk) as [HinvO' _].
      rewrite (Hlo (gym_reset_checked contains G sd _ st st' Hreset)) in HinvO'.
      pose proof (gym_run_cfg contains G later st') as Hcfg'.
      pose proof (gym_reset_cfg contains G sd st) as Hcfg''. rewrite Hreset in Hcfg''.
      cbn [snd] in Hcfg''. rewrite Hcfg'' in Hcfg'.
      unfold gym_cfg in Hcfg'. injection Hcfg' as Hos' _ _ _ _ _.
      rewrite Hos', Hos in HinvO'.
      exact (ledger_once contains _ _ _ _ _ _ HinvO Hmade HinvO' Hpo
               (checks_succeed_site contains ObservationCheck _ Hs)).
    + intros action r st' later Hstep Hs.
      destruct (gym_step_made contains G action r st st' Hstep) as (native & Hnat & Hmade).
      rewrite Had in Hnat. exists native. split; [exact Hnat |].
      unfold checks in Hmade. injection Hmade as _ Hmade. rewrite Has in Hmade.
      pose proof (gym_step_once contains G action st) as Hk. rewrite Hstep in Hk.
      cbn [snd] in Hk. destruct Hk as (Hk & _ & _ & _ & _).
      specialize (Hk Hinv).
      destruct (gym_run_once contains G later st') as (Hl & _ & Hla & _ & Hpa).
      destruct (Hl Hk) as [_ HinvA'].
      rewrite (Hla (gym_step_checked contains G action _ st st' Hstep)) in HinvA'.
      pose proof (gym_run_cfg contains G later st') as Hcfg'.
      pose proof (gym_step_cfg contains G action st) as Hcfg''. rewrite Hstep in Hcfg''.
      cbn [snd] in Hcfg''. rewrite Hcfg'' in Hcfg'.
      unfold gym_cfg in Hcfg'. injection Hcfg' as _ _ Has' _ _ _.
      rewrite Has', Has in HinvA'.
      exact (ledger_once contains _ _ _ _ _ _ HinvA Hmade HinvA' Hpa
               (checks_succeed_site contains ActionCheck _ Hs)).
  - intros env p st0 cs Hinit.
    pose proof (pz_init_checked_once contains P env p st0 Hinit) as Hst0.
    destruct (pz_init_spaces P env p st0 Hinit) as (first & Hfirst & Hospace & Haspace).
    exists first, (PettingZooPufferEnv.single_observation_space P st0),
      (PettingZooPufferEnv.obs_dtype P st0),
      (PettingZooPufferEnv.single_action_space P st0),
      (PettingZooPufferEnv.atn_dtype P st0).
    split; [exact Hfirst |]. split; [exact Hospace |]. split; [exact Haspace |].
    set (st := pz_run contains P cs st0).
    destruct (pz_run_once contains P cs st0) as (Hinv & _ & _ & _ & _).
    specialize (Hinv Hst0). fold st in Hinv.
    pose proof (pz_run_cfg contains P cs st0) as Hcfg. fold st in Hcfg.
    unfold pz_cfg in Hcfg. injection Hcfg as Hos _ Has _ _ _ _ _.
    destruct Hinv as [HinvO HinvA].
    split; [| split].
    + intros Hs.
      pose proof (ledger_succeed contains _ _ _ HinvO
                    (checks_succeed_site contains ObservationCheck _ Hs)) as HO.
      pose proof (ledger_succeed contains _ _ _ HinvA
                    (checks_succeed_site contains ActionCheck _ Hs)) as HA.
      rewrite Hos in HO. rewrite Has in HA.
      split.
      * destruct (PettingZooPufferEnv.is_observation_checked P st); [by right | by left].
      * destruct (PettingZooPufferEnv.is_action_checked P st); [by right | by left].
    + intros sd d info st' later Hreset Hs.
      pose proof (pz_reset_made contains P sd d info st st' Hreset) as Hmade.
      pose proof (pz_reset_once contains P sd st) as Hk. rewrite Hreset in Hk.
      cbn [snd] in Hk. destruct Hk as (Hk & _ & _ & _ & _).
      specialize (Hk (conj HinvO HinvA)).
      destruct (pz_run_once contains P later st') as (Hl & Hlo & _ & Hpo & _).
      destruct (Hl Hk) as [HinvO' _].
      rewrite (Hlo (pz_reset_checked contains P sd _ st st' Hreset)) in HinvO'.
      pose proof (pz_run_cfg contains P later st') as Hcfg'.
      pose proof (pz_reset_keeps_cfg contains P sd st) as Hcfg''. rewrite Hreset in Hcfg''.
      cbn [snd] in Hcfg''. rewrite Hcfg'' in Hcfg'.
      unfold pz_cfg in Hcfg'. injection Hcfg' as Hos' _ _ _ _ _ _ _.
      rewrite Hos' in HinvO'.
      pose proof (checks_succeed_site contains ObservationCheck _ Hs) as Hsucc.
      destruct (PettingZooPufferEnv.is_observation_checked P st) eqn:Hflag.
      * unfold checks in Hmade. injection Hmade as Hmade _.
        pose proof (ledger_once contains _ true _ (PettingZooPufferEnv.single_observation_space P st, VSample (SScalar 0)) _ _
                      HinvO ltac:(by rewrite app_nil_r) HinvO' Hpo Hsucc) as Hone.
        destruct (site_checks ObservationCheck (pz_trace P st)) as [| c made] eqn:Hm.
        -- exfalso. destruct HinvO as [_ (pre & data & Hpre & _)].
           by destruct pre.
        -- exact Hone.
      * destruct Hmade as (first' & o & Hfirst' & Hd & Hmade).
        rewrite Hfirst in Hfirst'. injection Hfirst' as <-.
        unfold checks in Hmade. injection Hmade as Hmade _.
        pose proof (ledger_once contains _ false _ _ _ _
                      HinvO Hmade HinvO' Hpo Hsucc) as Hone.
        destruct HinvO as [_ HinvO]. 
        destruct Hpo as [k Hpo]. rewrite Hpo in Hsucc.
        apply Forall_app in Hsucc as [Hsucc _]. rewrite Hmade in Hsucc.
        apply Forall_app in Hsucc as [Hsucc _].
        rewrite (failed_succeeded_nil contains _ HinvO Hsucc) in Hone |- *.
        exists o. split; [exact Hd |]. by rewrite <- Hos.
    + intros actions out st' later Hstep Hs.
      pose proof (pz_step_checks_made contains P actions out st st' Hstep) as Hmade.
      pose proof (pz_step_once contains P actions st) as Hk. rewrite Hstep in Hk.
      cbn [snd] in Hk. destruct Hk as (Hk & _ & _ & _ & _).
      specialize (Hk (conj HinvO HinvA)).
      destruct (pz_run_once contains P later st') as (Hl & _ & Hla & _ & Hpa).
      destruct (Hl Hk) as [_ HinvA'].
      rewrite (Hla (pz_step_checked contains P actions _ st st' Hstep)) in HinvA'.
      pose proof (pz_run_cfg contains P later st') as Hcfg'.
      pose proof (pz_step_keeps_cfg contains P actions st) as Hcfg''.
      rewrite Hstep in Hcfg''.
      cbn [snd] in Hcfg''. rewrite Hcfg'' in Hcfg'.
      unfold pz_cfg in Hcfg'. injection Hcfg' as _ _ Has' _ _ _ _ _.
      rewrite Has' in HinvA'.
      pose proof (checks_succeed_site contains ActionCheck _ Hs) as Hsucc.
      destruct (PettingZooPufferEnv.is_action_checked P st) eqn:Hflag.
      * unfold checks in Hmade. injection Hmade as _ Hmade.
        pose proof (ledger_once contains _ true _ (PettingZooPufferEnv.single_action_space P st, VSample (SScalar 0)) _ _
                      HinvA ltac:(by rewrite app_nil_r) HinvA' Hpa Hsucc) as Hone.
        destruct (site_checks ActionCheck (pz_trace P st)) as [| c made] eqn:Hm.
        -- exfalso. destruct HinvA as [_ (pre & data & Hpre & _)].
           by destruct pre.
        -- exact Hone.
      * destruct Hmade as (acts & agent & atn & rest & Hacts & Hcons & Hmade).
        unfold checks in Hmade. injection Hmade as _ Hmade.
        pose proof (ledger_once contains _ false _ _ _ _
                      HinvA Hmade HinvA' Hpa Hsucc) as Hone.
        destruct HinvA as [_ HinvA].
        destruct Hpa as [k Hpa]. rewrite Hpa in Hsucc.
        apply Forall_app in Hsucc as [Hsucc _]. rewrite Hmade in Hsucc.
        apply Forall_app in Hsucc as [Hsucc _].
        rewrite (failed_succeeded_nil contains _ HinvA Hsucc) in Hone |- *.
        exists acts, agent, atn, rest. split; [exact Hacts |]. split; [exact Hcons |].
        by rewrite <- Has.
Qed.

Lemma checks_made_once_witness :
  contains_bounds (Discrete 2) (VArray (NDArray int64 [] [5])) = Ok false
  /\ (exists st0,
        GymnasiumPufferEnv.__init__ counting_env 0%nat = Ok st0
        /\ exists st1 r st2,
             GymnasiumPufferEnv.reset contains_bounds counting_env None st0
             = (Ok (VSample (SArr [2%nat] [0; 0]), tt), st1)
             /\ GymnasiumPufferEnv.step contains_bounds counting_env
                  (NDArray int64 [2%nat] [1; 2]) st1 = (Ok r, st2)
             /\ site_checks ObservationCheck
                  (gym_trace counting_env
                     (gym_run contains_bounds counting_env
                        [GymStep (NDArray int64 [2%nat] [1; 2]); GymReset (Some 3);
                         GymStep (NDArray int64 [2%nat] [0; 1])] st1))
                = [(Box 0 255 [2%nat] uint8, VSample (SArr [2%nat] [0; 0]))]
             /\ site_checks ActionCheck
                  (gym_trace counting_env
                     (gym_run contains_bounds counting_env
                        [GymReset (Some 3); GymStep (NDArray int64 [2%nat] [0; 1])] st2))
                = [(MultiDiscrete [2; 3], VSample (STuple [SScalar 1; SScalar 2]))])
  /\ (exists st0,
        PettingZooPufferEnv.__init__ duo_env [] false = Ok st0
        /\ exists d st1 out st2,
             PettingZooPufferEnv.reset contains_bounds duo_env None st0
             = (Ok (d, tt), st1)
             /\ PettingZooPufferEnv.step contains_bounds duo_env two_actions st1
                = (Ok out, st2)
             /\ site_checks ObservationCheck
                  (pz_trace duo_env
                     (pz_run contains_bounds duo_env
                        [PzStep two_actions; PzReset None; PzStep two_actions] st1))
                = [(Box 0 255 [2%nat] uint8, VSample (SArr [2%nat] [1; 1]))]
             /\ site_checks ActionCheck
                  (pz_trace duo_env
                     (pz_run contains_bounds duo_env
                        [PzReset None; PzStep two_actions] st2))
                = [(Discrete 2, VArray (NDArray int64 [] [1]))]).
Proof.
  split; [reflexivity |].
  destruct (checks_made_once contains_bounds counting_env duo_env) as [HG HP].
  split.
  - eexists. split; [reflexivity |].
    match goal with
    | |- context [GymnasiumPufferEnv.reset _ _ _ ?s0] =>
        destruct (HG 0%nat s0 [] eq_refl)
          as (ospace & od & aspace & ad & Ho & Ha & _ & Hreset & _);
        set (a1 := NDArray int64 [2%nat] [1; 2]);
        set (l1 := [GymStep a1; GymReset (Some 3); GymStep (NDArray int64 [2%nat] [0; 1])]);
        set (l2 := [GymReset (Some 3); GymStep (NDArray int64 [2%nat] [0; 1])]);
        assert (Hall :
          let r1 := GymnasiumPufferEnv.reset contains_bounds counting_env None s0 in
          let r2 := GymnasiumPufferEnv.step contains_bounds counting_env a1 (snd r1) in
          fst r1 = Ok (VSample (SArr [2%nat] [0; 0]), tt)
          /\ returns (fst r2) = true
          /\ checks_succeed contains_bounds
               (gym_trace counting_env (gym_run contains_bounds counting_env l1 (snd r1)))
             = true
          /\ checks_succeed contains_bounds
               (gym_trace counting_env (gym_run contains_bounds counting_env l2 (snd r2)))
             = true)
          by (vm_compute; repeat split);
        cbv zeta in Hall;
        destruct (GymnasiumPufferEnv.reset contains_bounds counting_env None s0)
          as [r1 st1] eqn:Hr1
    end.
    cbn [fst snd] in Hall. destruct Hall as (-> & Hok & Hs1 & Hs2).
    destruct (GymnasiumPufferEnv.step contains_bounds counting_env a1 st1)
      as [[r | e] st2] eqn:Hr2; [| discriminate Hok].
    cbn [snd] in Hs2.
    exists st1, r, st2.
    split; [reflexivity |]. split; [exact Hr2 |].
    vm_compute in Ho. injection Ho as <- <-.
    vm_compute in Ha. injection Ha as <- <-.
    split.
    + exact (Hreset None _ _ st1 l1 Hr1 Hs1).
    + destruct (HG 0%nat _ [GymReset None] eq_refl)
        as (ospace & od & aspace & ad & _ & Ha & _ & _ & Hstep).
      vm_compute in Ha. injection Ha as <- <-.
      match type of Hstep with
      | context [gym_run ?c ?E ?cs ?s0] =>
          assert (Hrun : gym_run c E cs s0 = st1)
            by (change (gym_run c E cs s0)
                  with (snd (GymnasiumPufferEnv.reset contains_bounds counting_env None s0));
                by rewrite Hr1)
      end.
      rewrite Hrun in Hstep.
      destruct (Hstep a1 r st2 l2 Hr2 Hs2) as (native & Hnat & Hone).
      vm_compute in Hnat. injection Hnat as <-.
      assert (Hnone : site_checks ActionCheck (gym_trace counting_env st1) = []).
      { rewrite <- Hrun. vm_compute. reflexivity. }
      rewrite Hnone in Hone. exact Hone.
  - eexists. split; [reflexivity |].
    match goal with
    | |- context [PettingZooPufferEnv.reset _ _ _ ?s0] =>
        destruct (HP [] false s0 [] eq_refl)
          as (first & ospace & od & aspace & ad & Hfirst & Ho & Ha & _ & Hreset & _);
        set (l1 := [PzStep two_actions; PzReset None; PzStep two_actions]);
        set (l2 := [PzReset None; PzStep two_actions]);
        assert (Hall :
          let r1 := PettingZooPufferEnv.reset contains_bounds duo_env None s0 in
          let r2 := PettingZooPufferEnv.step contains_bounds duo_env two_actions (snd r1) in
          match fst r1 with
          | Ok (d, _) => d !! "a"
          | Raise _ => None
          end = Some (VSample (SArr [2%nat] [1; 1]))
          /\ returns (fst r2) = true
          /\ checks_succeed contains_bounds
               (pz_trace duo_env (pz_run contains_bounds duo_env l1 (snd r1)))
             = true
          /\ checks_succeed contains_bounds
               (pz_trace duo_env (pz_run contains_bounds duo_env l2 (snd r2)))
             = true
          /\ site_checks ActionCheck (pz_trace duo_env (snd r1)) = [])
          by (vm_compute; repeat split);
        cbv zeta in Hall;
        destruct (PettingZooPufferEnv.reset contains_bounds duo_env None s0)
          as [[[d []] | e1] st1] eqn:Hr1;
          [| destruct Hall as [Hbad _]; discriminate Hbad]
    end.
    cbn [fst snd] in Hall. destruct Hall as (Hd & Hok & Hs1 & Hs2 & Hnone).
    destruct (PettingZooPufferEnv.step contains_bounds duo_env two_actions st1)
      as [[out | e] st2] eqn:Hr2; [| discriminate Hok].
    cbn [snd] in Hs2.
    exists d, st1, out, st2.
    split; [reflexivity |]. split; [exact Hr2 |].
    vm_compute in Hfirst. injection Hfirst as <-.
    vm_compute in Ho. injection Ho as <- <-.
    split.
    + destruct (Hreset None d tt st1 l1 Hr1 Hs1) as (o & Hdo & Hone).
      pose proof (eq_trans (eq_sym Hdo) Hd) as Heq. injection Heq as ->. exact Hone.
    + destruct (HP [] false _ [PzReset None] eq_refl)
        as (first' & ospace' & od' & aspace' & ad' & _ & _ & Ha' & _ & _ & Hstep).
      vm_compute in Ha'. injection Ha' as <- <-.
      match type of Hstep with
      | context [pz_run ?c ?E ?cs ?s0] =>
          assert (Hrun : pz_run c E cs s0 = st1)
            by (change (pz_run c E cs s0)
                  with (snd (PettingZooPufferEnv.reset contains_bounds duo_env None s0));
                by rewrite Hr1)
      end.
      rewrite Hrun in Hstep.
      pose proof (Hstep two_actions out st2 l2 Hr2 Hs2) as Hone.
      rewrite Hnone in Hone.
      destruct Hone as (acts & agent & atn & rest & Hacts & Hcons & Hone).
      cbn in Hacts. injection Hacts as <-. injection Hcons as <- <- _.
      exact Hone.
Defined.

(** The multi-agent adapter decodes actions against its flat action view,
    not against the environment's action space: in every state reached from
    construction, whatever action a step that returns hands to the
    environment as a decoded value is a number or a positional tuple (the
    [.item()] of the packed record) and holds no keyed mapping at any depth,
    also when the environment's action space is a [Dict]. *)
Theorem pettingzoo_actions_decoded_flat (contains : Space -> PyVal -> PyResult bool)
    (E : PettingZooEnv) (env : pz_state E) (p : bool) (st0 : PettingZooPufferEnv.t E)
    (cs : list pz_call) (actions : Actions) (st' : PettingZooPufferEnv.t E)
    (out : gmap Agent PyVal * gmap Agent (pz_reward E) * gmap Agent bool
           * gmap Agent bool * pz_info E) :
  PettingZooPufferEnv.__init__ E env p = Ok st0 ->
  PettingZooPufferEnv.step contains E actions (pz_run contains E cs st0) = (Ok out, st') ->
  exists unpacked obs rewards dones truncateds infos env1,
    pz_step E unpacked (w_env (PettingZooPufferEnv.world E (pz_run contains E cs st0)))
    = (Ok (obs, rewards, dones, truncateds, infos), env1)
    /\ forall agent s, unpacked !! agent = Some (VSample s) -> has_dict s = false.
Proof.
  intros Hinit H. apply pz_step_inv_full in H
    as (_ & _ & acts & sc & unpacked & obs & rewards & dones & truncateds & infos & env1
        & s5 & d & _ & _ & Hunp & Hstep & _).
  exists unpacked, obs, rewards, dones, truncateds, infos, env1.
  split; [exact Hstep |]. intros agent s Hs.
  destruct (unpack_actions_values E _ _ _ _ Hunp _ _ Hs) as [Hacc | (atn & _ & Hval)].
  { by rewrite lookup_empty in Hacc. }
  destruct (PettingZooPufferEnv.is_atn_emulated E _); [| done].
  destruct Hval as (s' & Hnat & Heq). injection Heq as <-.
  eapply nativize_leaf_no_dict; [| exact Hnat].
  pose proof (pz_run_cfg contains E cs st0) as Hcfg. unfold pz_cfg in Hcfg.
  injection Hcfg as _ _ -> _ _ _ _ _.
  by eapply pz_init_action_space_leaf.
Qed.

Lemma pettingzoo_actions_decoded_flat_witness :
  exists st0,
    PettingZooPufferEnv.__init__ keyed_env ["a"] false = Ok st0
    /\ exists out st',
    PettingZooPufferEnv.step contains_all keyed_env
      (ActDict [("a", NDArray int64 [2%nat] [3; 1])])
      (pz_run contains_all keyed_env [PzReset None] st0) = (Ok out, st')
    /\ exists unpacked obs rewards dones truncateds infos env1,
      pz_step keyed_env unpacked
        (w_env (PettingZooPufferEnv.world keyed_env
                  (pz_run contains_all keyed_env [PzReset None] st0)))
      = (Ok (obs, rewards, dones, truncateds, infos), env1)
      /\ forall agent s, unpacked !! agent = Some (VSample s) -> has_dict s = false.
Proof.
  eexists. split; [reflexivity |].
  match goal with
  | |- context [PettingZooPufferEnv.step _ _ ?a ?s] =>
      assert (Hok : returns (fst (PettingZooPufferEnv.step contains_all keyed_env a s))
                    = true)
        by (vm_compute; reflexivity);
      destruct (PettingZooPufferEnv.step contains_all keyed_env a s)
        as [[out | e] st'] eqn:Hstep; [| discriminate Hok]
  end.
  exists out, st'. split; [reflexivity |].
  exact (pettingzoo_actions_decoded_flat contains_all keyed_env ["a"] false _
           [PzReset None] _ _ _ eq_refl Hstep).
Defined.

(** The same flat action decoded by the two adapters for the keyed action
    space: the multi-agent adapter hands the environment a positional tuple,
    the single-agent adapter (which decodes against the environment's own
    space) the keyed mapping. *)
Example keyed_action_decoded_two_ways :
  let space := Dict [("move", Discrete 4); ("fire", Discrete 2)] in
  let flat := NDArray int64 [2%nat] [3; 1] in
  (aspace ← emulate_action_space space;
   nativize flat (fst aspace) (snd aspace)) = Ok (STuple [SScalar 3; SScalar 1])
  /\ nativize flat space (dtype_from_space space)
     = Ok (SDict [("move", SScalar 3); ("fire", SScalar 1)]).
Proof. split; reflexivity. Qed.

(** ** The flat view of a homogeneous schema *)

(** The scalar elements of a sample, leaves in depth-first order. *)
Fixpoint sample_elements (s : Sample) : list Z :=
  match s with
  | SScalar v => [v]
  | SArr _ vals => vals
  | STuple items => concat (map sample_elements items)
  | SDict items => concat (map (fun kv => sample_elements (snd kv)) items)
  end.

(** The memory image of these elements as elements of type [t]. *)
Definition sample_bytes (t : ScalarType) (s : Sample) : list byte :=
  concat (map (fun v => scalar_to_bytes t (cast t v)) (sample_elements s)).

(** Writing [s] at [off] replaces exactly the bytes of the field by the
    sample's elements one after the other. *)
Definition writes_at (t : ScalarType) (space : Space) (s : Sample) : Prop :=
  length (sample_bytes t s) = itemsize (dtype_from_space space)
  /\ forall buf off,
       (off + itemsize (dtype_from_space space) <= length buf)%nat ->
       _emulate (dtype_from_space space) off s buf
       = Ok (take off buf ++ sample_bytes t s
             ++ drop (off + itemsize (dtype_from_space space)) buf).

Lemma take_written (buf b1 : list byte) p :
  (p + length b1 <= length buf)%nat ->
  take (p + length b1) (take p buf ++ b1 ++ drop (p + length b1) buf) = take p buf ++ b1.
Proof.
  intros Hlen. rewrite app_assoc.
  rewrite take_app_le by (rewrite length_app, length_take; lia).
  apply take_ge. rewrite length_app, length_take. lia.
Qed.

Lemma drop_written (buf b1 : list byte) p r :
  (p + length b1 <= length buf)%nat ->
  drop (p + length b1 + r) (take p buf ++ b1 ++ drop (p + length b1) buf)
  = drop (p + length b1 + r) buf.
Proof.
  intros Hlen. rewrite app_assoc.
  rewrite drop_app_ge by (rewrite length_app, length_take; lia).
  rewrite length_app, length_take, drop_drop. f_equal. lia.
Qed.

Lemma concat_map_concat {A B : Type} (f : A -> list B) (ls : list (list A)) :
  concat (map f (concat ls)) = concat (map (fun l => concat (map f l)) ls).
Proof.
  induction ls as [| l ls IH]; simpl; [done |].
  by rewrite map_app, concat_app, IH.
Qed.

Lemma writes_leaf t space s :
  is_leaf space = true -> space_dtype space = t -> conforms s space = true ->
  writes_at t space s.
Proof.
  intros Hleaf <- Hconf. unfold writes_at.
  rewrite dtype_from_space_leaf by done.
  unfold itemsize. cbn [layout fst].
  destruct s as [v | sh vals | items | items].
  - assert (Hshape : space_shape space = []).
    { destruct space; simpl in Hleaf, Hconf |- *; try done;
        apply andb_true_iff in Hconf as [Hsh _]; by apply bool_decide_eq_true in Hsh. }
    rewrite Hshape. unfold sample_bytes.
    cbn [sample_elements map concat _emulate setitem numel foldr replicate].
    rewrite app_nil_r, length_scalar_to_bytes. split; [simpl; lia |].
    intros buf off Hlen. unfold splice. rewrite length_scalar_to_bytes.
    do 4 f_equal. simpl. lia.
  - assert (Hsh : sh = space_shape space /\ length vals = numel (space_shape space)).
    { destruct space; simpl in Hleaf, Hconf |- *; try done;
        apply andb_true_iff in Hconf as [Hsh _];
        apply bool_decide_eq_true in Hsh as (-> & _ & Hn); done. }
    unfold sample_bytes. cbn [sample_elements _emulate setitem].
    destruct (decide (sh = space_shape space ∧ length vals = numel (space_shape space)))
      as [_ | Hn]; [| done].
    assert (Hlenb : length (concat (map (fun v => scalar_to_bytes (space_dtype space)
                                                    (cast (space_dtype space) v)) vals))
                    = (scalar_itemsize (space_dtype space) * numel (space_shape space))%nat).
    { rewrite (length_concat_fixed _ (scalar_itemsize (space_dtype space)))
        by (intros; apply length_scalar_to_bytes).
      destruct Hsh as [_ ->]. lia. }
    split; [exact Hlenb |].
    intros buf off Hlen. unfold splice. by rewrite Hlenb.
  - destruct space; done.
  - destruct space; done.
Qed.

Lemma writes_fields t (spaces : list (string * Space)) :
  Forall (fun kv => homogeneous t (snd kv)
                    /\ forall s, conforms s (snd kv) = true -> writes_at t (snd kv) s)
    spaces ->
  forall items fs_all pre q buf off,
    conforms_dict conforms items spaces = true ->
    field_table fs_all 0
    = pre ++ field_table (dict_fields dtype_from_space spaces) (q * scalar_itemsize t) ->
    NoDup (map fst spaces) ->
    (forall k, k ∈ map fst spaces -> k ∉ map fst pre) ->
    (off + q * scalar_itemsize t
     + length (concat (map (fun kv => sample_bytes t (snd kv)) items)) <= length buf)%nat ->
    emulate_dict_items _emulate (DStruct fs_all) off items buf
    = Ok (take (off + q * scalar_itemsize t) buf
          ++ concat (map (fun kv => sample_bytes t (snd kv)) items)
          ++ drop (off + q * scalar_itemsize t
                   + length (concat (map (fun kv => sample_bytes t (snd kv)) items))) buf)
    /\ length (concat (map (fun kv => sample_bytes t (snd kv)) items))
       = sum_list (map (fun kv => itemsize (dtype_from_space (snd kv))) spaces).
Proof.
  pose proof (scalar_itemsize_pos t) as Hpos.
  induction 1 as [| [k e] spaces [Hhom IHe] _ IH];
    intros items fs_all pre q buf off Hconf Htbl Hnd Hdisj Hlen.
  - destruct items as [| [k' v] items]; [| done].
    simpl. rewrite Nat.add_0_r, take_drop. done.
  - destruct items as [| [k' v] items]; [done |].
    simpl in Hconf.
    apply andb_true_iff in Hconf as [Hconf Hrest].
    apply andb_true_iff in Hconf as [Hk Hv].
    apply bool_decide_eq_true in Hk. subst k'.
    cbn [snd] in Hhom, IHe.
    destruct (homogeneous_layout t e Hhom) as [Hsize Halign].
    destruct (IHe v Hv) as [Hb1 Hw1].
    cbn [dict_fields field_table] in Htbl.
    unfold place in Htbl.
    assert (Ho : round_up (q * scalar_itemsize t) (alignment (dtype_from_space e))
                 = (q * scalar_itemsize t)%nat).
    { destruct Halign as [-> | ->]; [apply round_up_one | by apply round_up_multiple]. }
    rewrite Ho in Htbl.
    set (d1 := dtype_from_space e) in *.
    set (b1 := sample_bytes t v) in *.
    set (k1 := total_elements e) in *.
    assert (Hget : getfield (DStruct fs_all) k = Ok (d1, (q * scalar_itemsize t)%nat)).
    { unfold getfield. rewrite Htbl, assoc_app_here; [done |].
      apply Hdisj. simpl. by left. }
    cbn [map concat snd] in Hlen |- *. fold b1 in Hlen |- *.
    rewrite length_app in Hlen |- *.
    set (bs := concat (map (fun kv => sample_bytes t (snd kv)) items)) in *.
    simpl in Hnd. apply NoDup_cons in Hnd as [Hk Hnd].
    destruct (IH items fs_all (pre ++ [(k, (d1, (q * scalar_itemsize t)%nat))])
                (q + k1)%nat
                (take (off + q * scalar_itemsize t) buf ++ b1
                 ++ drop (off + q * scalar_itemsize t + itemsize d1) buf)
                off) as [Hemu' Hlen']; try done.
    { rewrite <- app_assoc. simpl. rewrite Htbl. do 3 f_equal. rewrite Hsize. lia. }
    { intros k2 Hk2. rewrite map_app. apply not_elem_of_app. split.
      - apply Hdisj. simpl. by right.
      - simpl. intros Hin%list_elem_of_singleton. by subst k2. }
    { rewrite !length_app, length_take, length_drop. fold bs. lia. }
    fold bs in Hemu', Hlen'.
    split.
    + cbn [emulate_dict_items]. rewrite Hget. cbn [mbind PyResult_bind].
      rewrite <- Nat.add_assoc. rewrite Hw1 by lia. rewrite Nat.add_assoc.
      cbn [mbind PyResult_bind]. rewrite Hemu'. f_equal.
      replace (off + (q + k1) * scalar_itemsize t)%nat
        with (off + q * scalar_itemsize t + length b1)%nat by lia.
      rewrite <- Hb1.
      rewrite take_written by lia. rewrite drop_written by lia.
      rewrite <- !app_assoc. do 4 f_equal. lia.
    + rewrite sum_list_cons. fold d1. lia.
Qed.

Lemma fields_bytes_length t (spaces : list (string * Space)) :
  Forall (fun kv => forall s, conforms s (snd kv) = true -> writes_at t (snd kv) s) spaces ->
  forall items,
    conforms_dict conforms items spaces = true ->
    length (concat (map (fun kv => sample_bytes t (snd kv)) items))
    = sum_list (map (fun kv => itemsize (dtype_from_space (snd kv))) spaces).
Proof.
  induction 1 as [| [k e] spaces IHe _ IH]; intros [| [k' v] items] Hconf; try done.
  simpl in Hconf.
  apply andb_true_iff in Hconf as [Hconf Hrest].
  apply andb_true_iff in Hconf as [_ Hv].
  cbn [map concat snd]. rewrite length_app, sum_list_cons.
  destruct (IHe v Hv) as [-> _]. by rewrite (IH items Hrest).
Qed.

Lemma map_snd_enumerate_from {A B : Type} (f : A -> B) i (l : list A) :
  map (fun kv => f (snd kv)) (enumerate_from i l) = map f l.
Proof.
  revert i. induction l as [| x l IH]; intros i; simpl; [done | by rewrite IH].
Qed.

Lemma sample_bytes_tuple t items :
  sample_bytes t (STuple items) = concat (map (sample_bytes t) items).
Proof.
  unfold sample_bytes. cbn [sample_elements].
  by rewrite concat_map_concat, map_map.
Qed.

Lemma sample_bytes_dict t items :
  sample_bytes t (SDict items) = concat (map (fun kv => sample_bytes t (snd kv)) items).
Proof.
  unfold sample_bytes. cbn [sample_elements].
  by rewrite concat_map_concat, map_map.
Qed.

Lemma total_elements_tuple spaces :
  total_elements (Tuple spaces) = sum_list (map total_elements spaces).
Proof.
  unfold total_elements. cbn [flatten_space].
  induction spaces as [| e spaces IH]; [done |].
  cbn [map concat]. rewrite map_app, sum_list_with_app, sum_list_cons.
  unfold sum_list in *. by rewrite IH.
Qed.

Lemma total_elements_dict spaces :
  total_elements (Dict spaces) = sum_list (map (fun kv => total_elements (snd kv)) spaces).
Proof.
  unfold total_elements. cbn [flatten_space].
  induction spaces as [| [k e] spaces IH]; [done |].
  cbn [dict_fields map concat snd]. rewrite map_app, sum_list_with_app, sum_list_cons.
  unfold sum_list in *. by rewrite IH.
Qed.

Lemma homogeneous_tuple t spaces :
  homogeneous t (Tuple spaces) -> Forall (homogeneous t) spaces.
Proof.
  unfold homogeneous. cbn [flatten_space].
  induction spaces as [| e spaces IH]; intros H; [constructor |].
  cbn [map concat] in H. apply Forall_app in H as [He Hrest].
  constructor; [exact He | by apply IH].
Qed.

Lemma homogeneous_dict t spaces :
  homogeneous t (Dict spaces) -> Forall (fun kv => homogeneous t (snd kv)) spaces.
Proof.
  unfold homogeneous. cbn [flatten_space].
  induction spaces as [| [k e] spaces IH]; intros H; [constructor |].
  cbn [dict_fields map concat snd] in H. apply Forall_app in H as [He Hrest].
  constructor; [exact He | by apply IH].
Qed.

Lemma sum_itemsize_homogeneous t (spaces : list (string * Space)) :
  Forall (fun kv => homogeneous t (snd kv)) spaces ->
  sum_list (map (fun kv => itemsize (dtype_from_space (snd kv))) spaces)
  = (sum_list (map (fun kv => total_elements (snd kv)) spaces) * scalar_itemsize t)%nat.
Proof.
  induction 1 as [| [k e] spaces He _ IH]; [done |].
  cbn [map snd]. rewrite !sum_list_cons, IH.
  destruct (homogeneous_layout t e He) as [-> _]. lia.
Qed.

(** Every conforming sample of a well-formed schema whose leaves all have
    the element type [t] is written as its elements one after the other. *)
Lemma writes_space t space :
  wf_space space = true -> homogeneous t space ->
  forall s, conforms s space = true -> writes_at t space s.
Proof.
  induction space as [low high shape dtype | n | nvec | spaces IH | spaces IH]
    using Space_nested_ind; intros Hwf Hhom s Hconf.
  1-3: apply writes_leaf; [done | | done];
       unfold homogeneous in Hhom; cbn [flatten_space] in Hhom;
       by apply Forall_cons in Hhom as [-> _].
  - pose proof (homogeneous_layout t _ Hhom) as [Hsize _].
    apply wf_space_tuple in Hwf. pose proof (homogeneous_tuple _ _ Hhom) as Hall.
    destruct s as [v | sh vals | items | items]; try done.
    cbn [conforms] in Hconf.
    assert (Hfs : Forall (fun kv => homogeneous t (snd kv)
                            /\ forall s, conforms s (snd kv) = true
                                         -> writes_at t (snd kv) s)
                    (enumerate_from 0 spaces)).
    { apply (Forall_enumerate_from
               (fun sp => homogeneous t sp
                          /\ forall s, conforms s sp = true -> writes_at t sp s)).
      rewrite Forall_forall in IH, Hwf, Hall |- *. intros e He.
      split; [by apply Hall | intros s' Hs'; apply IH; auto]. }
    assert (Hlenb : length (sample_bytes t (STuple items))
                    = itemsize (dtype_from_space (Tuple spaces))).
    { rewrite sample_bytes_tuple, <- (map_snd_enumerate_from (sample_bytes t) 0 items).
      rewrite (fields_bytes_length t (enumerate_from 0 spaces)).
      - rewrite (sum_itemsize_homogeneous t)
          by (eapply Forall_impl; [exact Hfs | by intros kv [? _]]).
        rewrite (map_snd_enumerate_from total_elements).
        by rewrite Hsize, total_elements_tuple.
      - eapply Forall_impl; [exact Hfs | by intros kv [_ ?]].
      - by rewrite conforms_tuple_enumerate. }
    split; [exact Hlenb |].
    intros buf off Hlen. cbn [_emulate].
    rewrite emulate_tuple_items_enumerate.
    cbn [dtype_from_space] in Hlen |- *. rewrite tuple_fields_enumerate in Hlen |- *.
    destruct (writes_fields t (enumerate_from 0 spaces) Hfs (enumerate_from 0 items)
                (dict_fields dtype_from_space (enumerate_from 0 spaces)) [] 0%nat buf off)
      as [Hemu Hlen'].
    + by rewrite conforms_tuple_enumerate.
    + done.
    + apply enumerate_from_NoDup.
    + intros k _. simpl. apply not_elem_of_nil.
    + rewrite (map_snd_enumerate_from (sample_bytes t)), <- sample_bytes_tuple, Hlenb.
      cbn [dtype_from_space]. rewrite tuple_fields_enumerate. lia.
    + rewrite Hemu.
      rewrite (map_snd_enumerate_from (sample_bytes t)), <- sample_bytes_tuple, Hlenb.
      cbn [dtype_from_space]. rewrite tuple_fields_enumerate.
      simpl. by rewrite !Nat.add_0_r.
  - pose proof (homogeneous_layout t _ Hhom) as [Hsize _].
    apply wf_space_dict in Hwf as [Hnd Hwf].
    pose proof (homogeneous_dict _ _ Hhom) as Hall.
    destruct s as [v | sh vals | items | items]; try done.
    cbn [conforms] in Hconf.
    assert (Hfs : Forall (fun kv => homogeneous t (snd kv)
                            /\ forall s, conforms s (snd kv) = true
                                         -> writes_at t (snd kv) s) spaces).
    { rewrite Forall_forall in IH, Hwf, Hall |- *. intros kv He.
      split; [by apply Hall | intros s' Hs'; apply IH; auto]. }
    assert (Hlenb : length (sample_bytes t (SDict items))
                    = itemsize (dtype_from_space (Dict spaces))).
    { rewrite sample_bytes_dict.
      rewrite (fields_bytes_length t spaces).
      - rewrite (sum_itemsize_homogeneous t) by done.
        by rewrite Hsize, total_elements_dict.
      - eapply Forall_impl; [exact Hfs | by intros kv [_ ?]].
      - done. }
    split; [exact Hlenb |].
    intros buf off Hlen. cbn [_emulate].
    cbn [dtype_from_space] in Hlen |- *.
    destruct (writes_fields t spaces Hfs items
                (dict_fields dtype_from_space spaces) [] 0%nat buf off)
      as [Hemu Hlen']; try done.
    + intros k _. simpl. apply not_elem_of_nil.
    + rewrite <- sample_bytes_dict, Hlenb. cbn [dtype_from_space]. lia.
    + rewrite Hemu. rewrite <- sample_bytes_dict, Hlenb.
      cbn [dtype_from_space]. simpl. by rewrite !Nat.add_0_r.
Qed.

Lemma conforms_fields_in_range t (spaces : list (string * Space)) :
  Forall (fun kv => forall s, conforms s (snd kv) = true ->
                    Forall (fun v => in_range t v = true) (sample_elements s)) spaces ->
  forall items,
    conforms_dict conforms items spaces = true ->
    Forall (fun v => in_range t v = true)
      (concat (map (fun kv => sample_elements (snd kv)) items)).
Proof.
  induction 1 as [| [k e] spaces IHe _ IH]; intros [| [k' v] items] Hconf; try done;
    try (by constructor).
  simpl in Hconf.
  apply andb_true_iff in Hconf as [Hconf Hrest].
  apply andb_true_iff in Hconf as [_ Hv].
  cbn [map concat snd]. apply Forall_app. split; [by apply IHe | by apply IH].
Qed.

(** The elements of a conforming sample are elements of the leaves' type. *)
Lemma conforms_in_range t space :
  homogeneous t space ->
  forall s, conforms s space = true ->
  Forall (fun v => in_range t v = true) (sample_elements s).
Proof.
  induction space as [low high shape dtype | n | nvec | spaces IH | spaces IH]
    using Space_nested_ind; intros Hhom s Hconf.
  1-3: unfold homogeneous in Hhom; cbn [flatten_space] in Hhom;
       apply Forall_cons in Hhom as [<- _];
       destruct s as [v | sh vals | items | items]; try done;
       cbn [conforms] in Hconf; apply andb_true_iff in Hconf as [_ Hr];
       cbn [sample_elements];
       first
         [ apply Forall_cons; split; [exact Hr | by apply Forall_nil]
         | apply Forall_forall; intros v Hv; rewrite forallb_forall in Hr;
           apply Hr; by apply list_elem_of_In ].
  - pose proof (homogeneous_tuple _ _ Hhom) as Hall.
    destruct s as [v | sh vals | items | items]; try done.
    cbn [conforms] in Hconf. cbn [sample_elements].
    rewrite <- (map_snd_enumerate_from sample_elements 0 items).
    apply (conforms_fields_in_range t (enumerate_from 0 spaces)).
    + apply (Forall_enumerate_from
               (fun sp => forall s, conforms s sp = true ->
                          Forall (fun v => in_range t v = true) (sample_elements s))).
      rewrite Forall_forall in IH, Hall |- *. intros e He s' Hs'. apply (IH e); auto.
    + by rewrite conforms_tuple_enumerate.
  - pose proof (homogeneous_dict _ _ Hhom) as Hall.
    destruct s as [v | sh vals | items | items]; try done.
    cbn [conforms] in Hconf. cbn [sample_elements].
    apply (conforms_fields_in_range t spaces); [| done].
    rewrite Forall_forall in IH, Hall |- *. intros kv He s' Hs'. apply (IH kv); auto.
Qed.

Lemma chunks_concat {A : Type} (g : A -> list byte) (w : nat) (vals : list A) :
  (forall v, length (g v) = w) ->
  chunks w (length vals) (concat (map g vals)) = map g vals.
Proof.
  intros Hg. induction vals as [| v vals IH]; [done |].
  cbn [length chunks map concat].
  rewrite take_app_length' by done. rewrite drop_app_length' by done.
  by rewrite IH.
Qed.

Lemma map_scalar_of_to_bytes t vals :
  Forall (fun v => in_range t v = true) vals ->
  map (fun v => scalar_of_bytes t (scalar_to_bytes t (cast t v))) vals = vals.
Proof.
  induction 1 as [| v vals Hv _ IH]; [done |].
  cbn [map]. by rewrite scalar_of_to_bytes, IH.
Qed.

(** Viewing the memory image of a conforming sample of a homogeneous schema
    with the leaves' element type gives the sample's elements back. *)
Lemma view_as_sample_bytes space t s :
  wf_space space = true -> homogeneous t space -> conforms s space = true ->
  view_as t (sample_bytes t s) = Ok (NDArray t [total_elements space] (sample_elements s)).
Proof.
  intros Hwf Hhom Hconf.
  pose proof (scalar_itemsize_pos t) as Hpos.
  destruct (writes_space t space Hwf Hhom s Hconf) as [Hlenb _].
  destruct (homogeneous_layout t space Hhom) as [Hsize _].
  assert (Hn : length (sample_elements s) = total_elements space).
  { unfold sample_bytes in Hlenb.
    rewrite (length_concat_fixed _ (scalar_itemsize t)) in Hlenb
      by (intros; apply length_scalar_to_bytes).
    rewrite Hsize in Hlenb. nia. }
  unfold view_as. rewrite Hlenb, Hsize, Nat.Div0.mod_mul, Nat.div_mul by lia.
  cbn [Nat.eqb]. do 2 f_equal.
  unfold sample_bytes. rewrite <- Hn, chunks_concat
    by (intros; apply length_scalar_to_bytes).
  rewrite map_map. apply map_scalar_of_to_bytes. by eapply conforms_in_range.
Qed.



(** ** The observation an emulating adapter returns *)

Lemma Sample_nested_ind (P : Sample -> Prop) :
  (forall v, P (SScalar v)) ->
  (forall shape vals, P (SArr shape vals)) ->
  (forall items, Forall P items -> P (STuple items)) ->
  (forall items, Forall (fun kv => P (snd kv)) items -> P (SDict items)) ->
  forall s, P s.
Proof.
  intros HS HA HT HD. fix IH 1. intros [v | shape vals | items | items].
  - apply HS.
  - apply HA.
  - apply HT. induction items as [| s items IHl]; constructor; [apply IH | exact IHl].
  - apply HD. induction items as [| [k s] items IHl]; constructor; [apply IH | exact IHl].
Qed.

(** A field of a record lies inside the record. *)
Lemma field_table_bounds fs :
  forall off k fd o,
    assoc k (field_table fs off) = Some (fd, o) ->
    (off <= o /\ o + itemsize fd <= fields_end fs off)%nat.
Proof.
  induction fs as [| [name fd0] fs IH]; intros off k fd o H; [done |].
  cbn [field_table fields_end] in H |- *. unfold place in H |- *. cbn [snd] in *.
  pose proof (round_up_ge off (alignment fd0) (alignment_pos fd0)) as Hge.
  cbn [assoc] in H. destruct (decide (k = name)) as [-> | Hne].
  - injection H as <- <-.
    pose proof (fields_end_ge fs (round_up off (alignment fd0) + itemsize fd0)). lia.
  - apply IH in H. lia.
Qed.

Lemma getfield_bounds d k fd o :
  getfield d k = Ok (fd, o) -> (o + itemsize fd <= itemsize d)%nat.
Proof.
  unfold getfield. destruct d as [t shape | fs]; [done |].
  destruct (assoc k (field_table fs 0)) as [[fd' o'] |] eqn:Ha; [| done].
  intros H. injection H as -> ->.
  apply field_table_bounds in Ha. pose proof (itemsize_struct_ge fs). lia.
Qed.

Lemma length_concat_replicate {A : Type} n (b : list A) :
  length (concat (replicate n b)) = (n * length b)%nat.
Proof. induction n as [| n IH]; simpl; [done |]. by rewrite length_app, IH. Qed.

Lemma setitem_length d off s buf buf' :
  setitem d off s buf = Ok buf' ->
  (off + itemsize d <= length buf)%nat -> length buf' = length buf.
Proof.
  unfold setitem. destruct d as [t shape | fs]; [| done].
  unfold itemsize. cbn [layout fst].
  destruct s as [v | sh vals | items | items]; try done.
  - intros H Hlen. injection H as <-. apply length_splice.
    rewrite length_concat_replicate, length_scalar_to_bytes. lia.
  - destruct (decide (sh = shape ∧ length vals = numel shape)) as [[_ Hn] |]; [| done].
    intros H Hlen. injection H as <-. apply length_splice.
    rewrite (length_concat_fixed _ (scalar_itemsize t))
      by (intros; apply length_scalar_to_bytes).
    lia.
Qed.

Lemma emulate_dict_items_length d off items :
  Forall (fun kv => forall fd o buf buf',
            _emulate fd o (snd kv) buf = Ok buf' ->
            (o + itemsize fd <= length buf)%nat -> length buf' = length buf) items ->
  forall buf buf',
    emulate_dict_items _emulate d off items buf = Ok buf' ->
    (off + itemsize d <= length buf)%nat -> length buf' = length buf.
Proof.
  induction 1 as [| [k v] items Hv _ IH]; intros buf buf' H Hlen.
  { simpl in H. by injection H as <-. }
  cbn [emulate_dict_items] in H.
  destruct (getfield d k) as [[fd o] |] eqn:Hget; [| done].
  cbn [mbind PyResult_bind] in H.
  destruct (_emulate fd (off + o) v buf) as [buf1 |] eqn:Hemu; [| done].
  cbn [mbind PyResult_bind] in H.
  apply getfield_bounds in Hget.
  apply Hv in Hemu; [| cbn [snd]; lia].
  rewrite <- Hemu. apply IH; [done | lia].
Qed.

(** Encoding never changes the size of the buffer it writes into. *)
Lemma _emulate_length s :
  forall d off buf buf',
    _emulate d off s buf = Ok buf' ->
    (off + itemsize d <= length buf)%nat -> length buf' = length buf.
Proof.
  induction s as [v | shape vals | items IH | items IH] using Sample_nested_ind;
    intros d off buf buf' H Hlen.
  - by eapply setitem_length.
  - by eapply setitem_length.
  - cbn [_emulate] in H. rewrite emulate_tuple_items_enumerate in H.
    eapply (emulate_dict_items_length d off (enumerate_from 0 items)); [| exact H | done].
    apply (Forall_enumerate_from
             (fun s => forall fd o buf buf',
                _emulate fd o s buf = Ok buf' ->
                (o + itemsize fd <= length buf)%nat -> length buf' = length buf)).
    exact IH.
  - cbn [_emulate] in H.
    by eapply (emulate_dict_items_length d off items).
Qed.

Lemma scalar_to_bytes_zero t : scalar_to_bytes t 0 = replicate (scalar_itemsize t) x00.
Proof.
  unfold scalar_to_bytes. rewrite Z.mod_0_l by (unfold bits; destruct t; simpl; lia).
  simpl Z.to_N. generalize (scalar_itemsize t). intros w.
  induction w as [| w IH]; [done |]. cbn [le_bytes replicate].
  change (0 / 256)%N with 0%N. by rewrite IH.
Qed.

Lemma array_bytes_np_zeros n t :
  array_bytes (np_zeros [n] t) = replicate (n * scalar_itemsize t) x00.
Proof.
  unfold array_bytes, np_zeros. cbn [nd_dtype nd_data numel foldr].
  rewrite Nat.mul_1_r.
  induction n as [| n IH]; [done |].
  cbn [replicate map concat]. rewrite IH, scalar_to_bytes_zero.
  by rewrite <- replicate_add.
Qed.

(** Encoding into a fresh zero array of the flat view is [emulate]. *)
Lemma nd_emulate_record_zeros t d ob a :
  (itemsize d mod scalar_itemsize t = 0)%nat ->
  nd_emulate_record (np_zeros [(itemsize d / scalar_itemsize t)%nat] t) d 0 ob = Ok a ->
  emulate ob t d = Ok a.
Proof.
  intros Hmod. pose proof (scalar_itemsize_pos t) as Hpos.
  assert (Hn : (itemsize d / scalar_itemsize t * scalar_itemsize t)%nat = itemsize d).
  { pose proof (Nat.div_mod_eq (itemsize d) (scalar_itemsize t)). lia. }
  unfold nd_emulate_record, emulate.
  rewrite array_bytes_np_zeros, Hn. cbn [Nat.mul].
  destruct (_emulate d 0 ob (replicate (itemsize d) x00)) as [buf |] eqn:Hemu; [| done].
  cbn [mbind PyResult_bind].
  apply _emulate_length in Hemu; [| rewrite length_replicate; lia].
  rewrite length_replicate in Hemu.
  unfold view_as. cbn [np_zeros nd_dtype nd_shape].
  rewrite Hemu, Hmod. cbn [Nat.eqb mbind PyResult_bind nd_data].
  intros H. injection H as <-. reflexivity.
Qed.

Section GymnasiumEmulated.
Context (E : GymEnv).

Lemma gym_reset_bind_emulated st s0 z :
  GymnasiumPufferEnv.mem E st = None ->
  GymnasiumPufferEnv.is_obs_emulated E st = true ->
  GymnasiumPufferEnv.obs_bound E st = false ->
  GymnasiumPufferEnv.obs E st = VArray z ->
  GymnasiumPufferEnv.reset_bind E st = (Ok tt, s0) ->
  exists nrec, s0 = GymnasiumPufferEnv.set__obs E (Some nrec) st.
Proof.
  intros Hmem Hemu Hbound Hobs H.
  unfold GymnasiumPufferEnv.reset_bind, bindM, gets, ret, lift, modify,
    GymnasiumPufferEnv.obs_array in H.
  rewrite Hmem, Hemu, Hbound, Hobs in H.
  destruct (nd_view_records z _) as [nrec |]; [| done].
  injection H as <-. by exists nrec.
Qed.

Lemma gym__emulate_ob_emulated ob st st2 z :
  GymnasiumPufferEnv.is_obs_emulated E st = true ->
  GymnasiumPufferEnv.obs_bound E st = false ->
  GymnasiumPufferEnv.obs E st = VArray z ->
  GymnasiumPufferEnv._emulate_ob E ob st = (Ok tt, st2) ->
  exists a,
    nd_emulate_record z (GymnasiumPufferEnv.obs_dtype E st) 0 ob = Ok a
    /\ st2 = GymnasiumPufferEnv.set_obs E (VArray a) st.
Proof.
  intros Hemu Hbound Hobs H.
  unfold GymnasiumPufferEnv._emulate_ob, bindM, gets, ret, lift, modify, raise,
    GymnasiumPufferEnv.obs_array, GymnasiumPufferEnv.put_obs_array in H.
  rewrite Hemu in H.
  destruct (GymnasiumPufferEnv._obs E st) as [nrec |]; [| done].
  destruct (Nat.eqb nrec 1); [| done].
  rewrite Hbound, Hobs in H.
  destruct (nd_emulate_record z _ 0 ob) as [a |]; [| done].
  rewrite Hbound in H. injection H as <-. by exists a.
Qed.
End GymnasiumEmulated.

(** The first reset of an adapter with a composite observation space
    returns the encoding of the environment's observation: the array
    returned is exactly [emulate] of the observation obtained from the
    environment, with the element type of the flat observation space and the
    packed layout of the environment's space. *)
Theorem gymnasium_first_reset_emulates (contains : Space -> PyVal -> PyResult bool)
    (E : GymEnv) (env : gym_state E) (sd : option Z) (st0 st' : GymnasiumPufferEnv.t E)
    (o : PyVal) (info : gym_info E) :
  GymnasiumPufferEnv.__init__ E env = Ok st0 ->
  isinstance_Box (gym_observation_space E) = false ->
  GymnasiumPufferEnv.reset contains E sd st0 = (Ok (o, info), st') ->
  exists ob w a,
    _seed_and_reset E sd (mkWorld env []) = (Ok (ob, info), w)
    /\ emulate ob (space_dtype (GymnasiumPufferEnv.observation_space E st0))
         (GymnasiumPufferEnv.obs_dtype E st0) = Ok a
    /\ o = VArray a.
Proof.
  intros Hinit HBox Hreset.
  unfold GymnasiumPufferEnv.__init__ in Hinit.
  destruct (emulate_observation_space (gym_observation_space E)) as [[ospace d] |] eqn:Hos;
    [| done].
  destruct (emulate_action_space (gym_action_space E)) as [[aspace ad] |]; [| done].
  cbn [mbind PyResult_bind] in Hinit. rewrite HBox in Hinit. injection Hinit as <-.
  destruct (emulate_observation_space_divides _ _ _ HBox Hos) as (_ & Hmod & Hshape).
  apply gym_reset_inv in Hreset as (s0 & ob & w & s2 & Hs0 & Hsr & Hob & Hc & Hr).
  cbn [GymnasiumPufferEnv.initialized] in Hs0.
  eapply gym_reset_bind_emulated in Hs0 as [nrec ->]; [| reflexivity ..].
  eapply gym__emulate_ob_emulated in Hob as (a & Hrec & ->); [| reflexivity ..].
  exists ob, w, a. split; [exact Hsr |].
  cbn [GymnasiumPufferEnv.observation_space GymnasiumPufferEnv.obs_dtype].
  split.
  - cbn in Hrec. rewrite Hshape in Hrec. by apply nd_emulate_record_zeros.
  - pose proof (gym_check_observation_keeps_store contains E) as Hk.
    match type of Hc with _ ?s = _ => specialize (Hk s) end.
    rewrite Hc in Hk. unfold gym_store in Hk.
    injection Hk as _ Hobs Hbound _.
    unfold GymnasiumPufferEnv.read_obs in Hr. rewrite Hbound, Hobs in Hr.
    cbn in Hr. by injection Hr as <-.
Qed.

Lemma gymnasium_first_reset_emulates_witness :
  exists st0,
    GymnasiumPufferEnv.__init__ keyed_obs_env 0%nat = Ok st0
    /\ isinstance_Box (gym_observation_space keyed_obs_env) = false
    /\ exists o info st',
    GymnasiumPufferEnv.reset contains_all keyed_obs_env None st0 = (Ok (o, info), st')
    /\ exists ob w a,
      _seed_and_reset keyed_obs_env None (mkWorld 0%nat []) = (Ok (ob, info), w)
      /\ emulate ob (space_dtype (GymnasiumPufferEnv.observation_space keyed_obs_env st0))
           (GymnasiumPufferEnv.obs_dtype keyed_obs_env st0) = Ok a
      /\ o = VArray a.
Proof.
  eexists. split; [reflexivity |]. split; [reflexivity |].
  match goal with
  | |- context [GymnasiumPufferEnv.reset _ _ ?sd ?s] =>
      assert (Hok : returns (fst (GymnasiumPufferEnv.reset contains_all keyed_obs_env sd s))
                    = true)
        by (vm_compute; reflexivity);
      destruct (GymnasiumPufferEnv.reset contains_all keyed_obs_env sd s)
        as [[[o info] | e] st'] eqn:Hreset; [| discriminate Hok]
  end.
  exists o, info, st'. split; [reflexivity |].
  exact (gymnasium_first_reset_emulates contains_all keyed_obs_env 0%nat None _ _ _ _
           eq_refl eq_refl Hreset).
Defined.

(** ** Every observation of an emulating adapter over a homogeneous space *)


Lemma length_array_bytes a :
  length (array_bytes a) = (length (nd_data a) * scalar_itemsize (nd_dtype a))%nat.
Proof.
  unfold array_bytes.
  by rewrite (length_concat_fixed _ (scalar_itemsize (nd_dtype a)))
    by (intros; apply length_scalar_to_bytes).
Qed.


Section GymnasiumFlat.
Context (contains : Space -> PyVal -> PyResult bool).
Context (E : GymEnv).
Context (t : ScalarType) (D : DType) (n : nat).
Context (Hsize : itemsize D = (n * scalar_itemsize t)%nat).

















End GymnasiumFlat.





(** ** The multi-agent adapter without a shared buffer *)

Lemma pz_reset_bind_own_array (E : PettingZooEnv) (st : PettingZooPufferEnv.t E) m :
  PettingZooPufferEnv.mem E st = None ->
  PettingZooPufferEnv.is_obs_emulated E st = true ->
  PettingZooPufferEnv.obs_bound E st = false ->
  nd_shape (PettingZooPufferEnv.obs E st) = [m] ->
  (m * scalar_itemsize (nd_dtype (PettingZooPufferEnv.obs E st)))%nat
  = itemsize (PettingZooPufferEnv.obs_dtype E st) ->
  (2 <= PettingZooPufferEnv.num_agents E st)%nat ->
  PettingZooPufferEnv.reset_bind E st = (Raise ValueError, st).
Proof.
  intros Hmem Hemu Hbound Hshape Hm Hn.
  unfold PettingZooPufferEnv.reset_bind, PettingZooPufferEnv.obs_array,
    bindM, gets, ret, lift, modify, raise.
  rewrite Hmem, Hemu, Hbound.
  assert (Hv : nd_view_records (PettingZooPufferEnv.obs E st)
                 (PettingZooPufferEnv.obs_dtype E st) = Ok 1%nat
               \/ nd_view_records (PettingZooPufferEnv.obs E st)
                    (PettingZooPufferEnv.obs_dtype E st) = Raise ValueError).
  { unfold nd_view_records. rewrite Hshape.
    pose proof (scalar_itemsize_pos (nd_dtype (PettingZooPufferEnv.obs E st))) as Ht.
    destruct (Nat.eqb_spec (itemsize (PettingZooPufferEnv.obs_dtype E st))
                (scalar_itemsize (nd_dtype (PettingZooPufferEnv.obs E st)))) as [Heq | Hne].
    - left. cbn [numel foldr]. f_equal. rewrite Heq in Hm.
      assert (Hm1 : m = 1%nat).
      { apply (Nat.mul_cancel_r m 1
                 (scalar_itemsize (nd_dtype (PettingZooPufferEnv.obs E st)))); lia. }
      by rewrite Hm1.
    - unfold reverse. cbn [rev_append].
      destruct (has_subarray _); [by right |].
      destruct (Nat.ltb_spec (itemsize (PettingZooPufferEnv.obs_dtype E st))
                  (scalar_itemsize (nd_dtype (PettingZooPufferEnv.obs E st))))
        as [Hlt | Hge].
      + right.
        assert (H0 : itemsize (PettingZooPufferEnv.obs_dtype E st) = 0%nat).
        { destruct m as [| m']; [lia | nia]. }
        by rewrite H0.
      + left. rewrite Hm, Nat.Div0.mod_same, Nat.div_same by lia. reflexivity. }
  destruct Hv as [-> | ->]; [| done].
  destruct (Nat.eqb_spec (PettingZooPufferEnv.num_agents E st) 0) as [H0 | _]; [lia |].
  rewrite Nat.mod_small by lia. done.
Qed.

(** An emulating multi-agent adapter cannot be reset on its own: built for
    two or more agents on a composite observation space and not bound to a
    shared buffer, its first [reset] raises [ValueError] when it reshapes the
    record view of its own one-record observation array to one row per
    agent; the environment is not reset and the adapter is left as it was. *)
Theorem pettingzoo_emulated_reset_needs_buffer
    (contains : Space -> PyVal -> PyResult bool) (E : PettingZooEnv)
    (env : pz_state E) (p : bool) (sd : option Z) (st0 : PettingZooPufferEnv.t E) :
  PettingZooPufferEnv.__init__ E env p = Ok st0 ->
  PettingZooPufferEnv.is_obs_emulated E st0 = true ->
  (2 <= length (pz_possible_agents E))%nat ->
  PettingZooPufferEnv.reset contains E sd st0 = (Raise ValueError, st0).
Proof.
  intros Hinit Hemu Hn.
  assert (Hb : PettingZooPufferEnv.reset_bind E st0 = (Raise ValueError, st0)
               /\ PettingZooPufferEnv.initialized E st0 = false).
  { unfold PettingZooPufferEnv.__init__ in Hinit.
    unfold PettingZooPufferEnv.possible_agents in Hinit.
    destruct (pz_possible_agents E) as [| single l] eqn:Hpa; [done |].
    destruct (emulate_observation_space (pz_observation_space E single))
      as [[ospace d] |] eqn:Hos; [| done].
    destruct (emulate_action_space (pz_action_space E single)) as [[aspace ad] |]; [| done].
    cbn [mbind PyResult_bind] in Hinit. injection Hinit as <-.
    cbn [PettingZooPufferEnv.is_obs_emulated] in Hemu.
    apply negb_true_iff in Hemu.
    destruct (emulate_observation_space_divides _ _ _ Hemu Hos) as (_ & Hmod & Hshape).
    split; [| reflexivity].
    apply (pz_reset_bind_own_array E _
             (itemsize d / scalar_itemsize (space_dtype ospace))%nat).
    - reflexivity.
    - cbn. by rewrite Hemu.
    - reflexivity.
    - cbn. by rewrite Hshape.
    - cbn.
      pose proof (Nat.div_mod_eq (itemsize d) (scalar_itemsize (space_dtype ospace))). lia.
    - exact Hn. }
  destruct Hb as [Hb Hinit0].
  unfold PettingZooPufferEnv.reset. unfold bindM at 1, gets at 1.
  rewrite Hinit0. cbn [negb]. unfold bindM at 1. by rewrite Hb.
Qed.

Lemma pettingzoo_emulated_reset_needs_buffer_witness :
  exists st0,
    PettingZooPufferEnv.__init__ keyed_obs_duo_env ["a"; "b"] false = Ok st0
    /\ PettingZooPufferEnv.is_obs_emulated keyed_obs_duo_env st0 = true
    /\ (2 <= length (pz_possible_agents keyed_obs_duo_env))%nat
    /\ PettingZooPufferEnv.reset contains_all keyed_obs_duo_env None st0
       = (Raise ValueError, st0).
Proof.
  eexists.
  match goal with
  | |- ?A /\ ?B /\ ?C /\ _ =>
      assert (Hinit : A) by reflexivity;
      assert (Hemu : B) by reflexivity;
      assert (Hn : C) by (simpl; lia)
  end.
  split; [exact Hinit |]. split; [exact Hemu |]. split; [exact Hn |].
  exact (pettingzoo_emulated_reset_needs_buffer contains_all keyed_obs_duo_env
           ["a"; "b"] false None _ Hinit Hemu Hn).
Defined.

(** ** Decoding distributes the flat values over the leaves *)

Section UnflattenLoops.
Context (f : Space -> list Z -> Sample).

Fixpoint unflatten_tuple (spaces : list Space) (vals : list Z) : list Sample :=
  match spaces with
  | [] => []
  | e :: spaces' =>
      f e (take (total_elements e) vals)
      :: unflatten_tuple spaces' (drop (total_elements e) vals)
  end.

Fixpoint unflatten_dict (spaces : list (string * Space)) (vals : list Z)
  : list (string * Sample) :=
  match spaces with
  | [] => []
  | (k, e) :: spaces' =>
      (k, f e (take (total_elements e) vals))
      :: unflatten_dict spaces' (drop (total_elements e) vals)
  end.
End UnflattenLoops.

(** The nested value of a schema whose leaves hold, in depth-first order,
    the elements [vals]. *)
Fixpoint unflatten (space : Space) (vals : list Z) : Sample :=
  match space with
  | Tuple spaces => STuple (unflatten_tuple unflatten spaces vals)
  | Dict spaces => SDict (unflatten_dict unflatten spaces vals)
  | _ =>
      match space_shape space with
      | [] => SScalar (hd 0 vals)
      | shape => SArr shape vals
      end
  end.

Lemma unflatten_leaf space vals :
  is_leaf space = true ->
  unflatten space vals
  = match space_shape space with
    | [] => SScalar (hd 0 vals)
    | shape => SArr shape vals
    end.
Proof. by destruct space. Qed.

Lemma total_elements_leaf space :
  is_leaf space = true -> total_elements space = numel (space_shape space).
Proof.
  intros Hleaf. unfold total_elements. rewrite flatten_space_leaf by done.
  simpl. lia.
Qed.

Lemma unflatten_elements space :
  forall vals, length vals = total_elements space ->
  sample_elements (unflatten space vals) = vals.
Proof.
  induction space as [low high shape dtype | n | nvec | spaces IH | spaces IH]
    using Space_nested_ind; intros vals Hlen.
  1-3: rewrite unflatten_leaf by done; rewrite total_elements_leaf in Hlen by done;
       destruct (space_shape _) as [| k shape'] eqn:Hsh; [| done];
       simpl in Hlen; by destruct vals as [| v [| ? ?]].
  - rewrite total_elements_tuple in Hlen. cbn [unflatten sample_elements].
    revert vals Hlen. induction IH as [| e spaces He _ IHl]; intros vals Hlen.
    { simpl in *. by destruct vals. }
    cbn [map] in Hlen. rewrite sum_list_cons in Hlen.
    cbn [unflatten_tuple map concat].
    rewrite He by (rewrite length_take; lia).
    rewrite IHl by (rewrite length_drop; lia).
    apply take_drop.
  - rewrite total_elements_dict in Hlen. cbn [unflatten sample_elements].
    revert vals Hlen. induction IH as [| [k e] spaces He _ IHl]; intros vals Hlen.
    { simpl in *. by destruct vals. }
    cbn [map snd] in Hlen, He. rewrite sum_list_cons in Hlen.
    cbn [unflatten_dict map concat snd].
    rewrite He by (rewrite length_take; lia).
    rewrite IHl by (rewrite length_drop; lia).
    apply take_drop.
Qed.

Lemma unflatten_conforms t space :
  homogeneous t space ->
  forall vals,
    Forall (fun v => in_range t v = true) vals ->
    length vals = total_elements space ->
    conforms (unflatten space vals) space = true.
Proof.
  induction space as [low high shape dtype | n | nvec | spaces IH | spaces IH]
    using Space_nested_ind; intros Hhom vals Hr Hlen.
  1-3: unfold homogeneous in Hhom; cbn [flatten_space] in Hhom;
       apply Forall_cons in Hhom as [Ht _];
       rewrite unflatten_leaf by done; rewrite total_elements_leaf in Hlen by done;
       destruct (space_shape _) as [| k shape'] eqn:Hsh;
       [ simpl in Hlen; destruct vals as [| v [| ? ?]]; try done;
         apply Forall_cons in Hr as [Hv _];
         cbn [conforms hd]; rewrite Hsh, Ht, Hv; by rewrite bool_decide_eq_true_2
       | cbn [conforms]; rewrite Hsh, Ht;
         rewrite bool_decide_eq_true_2 by done;
         apply forallb_forall; intros v Hv; rewrite Forall_forall in Hr;
         apply Hr; by apply list_elem_of_In ].
  - pose proof (homogeneous_tuple _ _ Hhom) as Hall. clear Hhom.
    rewrite total_elements_tuple in Hlen. cbn [unflatten conforms].
    revert vals Hr Hlen.
    induction IH as [| e spaces He _ IHl]; intros vals Hr Hlen; [done |].
    apply Forall_cons in Hall as [Hhe Hall].
    cbn [map] in Hlen. rewrite sum_list_cons in Hlen.
    cbn [unflatten_tuple conforms_tuple].
    rewrite He; [ | done | by apply Forall_take | rewrite length_take; lia ].
    rewrite IHl; [ done | done | by apply Forall_drop | rewrite length_drop; lia ].
  - pose proof (homogeneous_dict _ _ Hhom) as Hall. clear Hhom.
    rewrite total_elements_dict in Hlen. cbn [unflatten conforms].
    revert vals Hr Hlen.
    induction IH as [| [k e] spaces He _ IHl]; intros vals Hr Hlen; [done |].
    apply Forall_cons in Hall as [Hhe Hall].
    cbn [map snd] in Hlen. rewrite sum_list_cons in Hlen.
    cbn [unflatten_dict conforms_dict].
    rewrite bool_decide_eq_true_2 by done.
    cbn [snd] in He.
    rewrite He; [ | done | by apply Forall_take | rewrite length_take; lia ].
    rewrite IHl; [ done | done | by apply Forall_drop | rewrite length_drop; lia ].
Qed.

Lemma cast_in_range t v : in_range t v = true -> cast t v = v.
Proof.
  intros Hr. destruct t; simpl in *; try done.
  destruct (Z.eqb_spec v 0); lia.
Qed.

Lemma sample_bytes_in_range t s :
  Forall (fun v => in_range t v = true) (sample_elements s) ->
  sample_bytes t s = concat (map (scalar_to_bytes t) (sample_elements s)).
Proof.
  unfold sample_bytes. induction 1 as [| v vals Hv _ IH]; [done |].
  cbn [map concat]. by rewrite IH, cast_in_range.
Qed.

(** Decoding is the inverse of the flat view on schemas with single-scalar
    leaves of one element type: a flat array of in-range elements, one per
    leaf, is decoded to the nested value that holds these elements at the
    leaves in depth-first order, and encoding that value gives the flat
    array back; decoding loses and invents nothing. *)
Theorem nativize_unflattens (space : Space) (t : ScalarType) (vals : list Z) :
  wf_space space = true ->
  scalar_leaves space = true ->
  homogeneous t space ->
  flatten_space space <> [] ->
  Forall (fun v => in_range t v = true) vals ->
  length vals = total_elements space ->
  nativize (NDArray t [length vals] vals) space (dtype_from_space space)
  = Ok (unflatten space vals)
  /\ sample_elements (unflatten space vals) = vals
  /\ emulate (unflatten space vals) t (dtype_from_space space)
     = Ok (NDArray t [length vals] vals).
Proof.
  intros Hwf Hsc Hhom Hne Hr Hlen.
  pose proof (unflatten_elements space vals Hlen) as Hel.
  pose proof (unflatten_conforms t space Hhom vals Hr Hlen) as Hconf.
  set (s := unflatten space vals) in *.
  set (d := dtype_from_space space).
  pose proof (itemsize_pos_scalar_leaves space Hne Hsc) as Hpos. fold d in Hpos.
  destruct (writes_space t space Hwf Hhom s Hconf) as [Hlenb Hw]. fold d in Hlenb, Hw.
  assert (Hbuf : _emulate d 0 s (replicate (itemsize d) x00) = Ok (sample_bytes t s)).
  { rewrite Hw by (rewrite length_replicate; lia).
    rewrite take_0, drop_ge by (rewrite length_replicate; lia).
    by rewrite app_nil_r, app_nil_l. }
  assert (Hbytes : array_bytes (NDArray t [length vals] vals) = sample_bytes t s).
  { rewrite sample_bytes_in_range by (by rewrite Hel). by rewrite Hel. }
  split; [| split; [done |]].
  - destruct (roundtrip_space space Hwf Hsc s Hconf (replicate (itemsize d) x00) 0%nat)
      as (buf & Hemu & _ & _ & Hread).
    { fold d. rewrite length_replicate. lia. }
    fold d in Hemu, Hread. rewrite Hbuf in Hemu. injection Hemu as <-.
    unfold nativize. rewrite Hbytes. fold d.
    rewrite nd_view_records_one; [| by apply has_subarray_scalar_leaves | lia |].
    + cbn [mbind PyResult_bind]. by apply Hread.
    + rewrite <- Hlenb, <- Hbytes, length_array_bytes. reflexivity.
  - unfold emulate. fold d. rewrite Hbuf. cbn [mbind PyResult_bind].
    rewrite (view_as_sample_bytes space) by done.
    by rewrite Hel, <- Hlen.
Qed.

Lemma nativize_unflattens_witness :
  let space := Dict [("move", Discrete 4); ("fire", Tuple [Discrete 2; Discrete 3])] in
  wf_space space = true
  /\ scalar_leaves space = true
  /\ homogeneous int64 space
  /\ nativize (NDArray int64 [3%nat] [3; 1; 2]) space (dtype_from_space space)
     = Ok (SDict [("move", SScalar 3); ("fire", STuple [SScalar 1; SScalar 2])])
  /\ emulate (SDict [("move", SScalar 3); ("fire", STuple [SScalar 1; SScalar 2])])
       int64 (dtype_from_space space)
     = Ok (NDArray int64 [3%nat] [3; 1; 2]).
Proof.
  intros space.
  assert (Hwf : wf_space space = true) by reflexivity.
  assert (Hsc : scalar_leaves space = true) by reflexivity.
  assert (Hhom : homogeneous int64 space) by (repeat constructor).
  assert (Hne : flatten_space space <> []) by discriminate.
  assert (Hr : Forall (fun v => in_range int64 v = true) [3; 1; 2])
    by (repeat constructor).
  destruct (nativize_unflattens space int64 [3; 1; 2] Hwf Hsc Hhom Hne Hr eq_refl)
    as (Hnat & _ & Hemu).
  split; [exact Hwf |]. split; [exact Hsc |]. split; [exact Hhom |].
  split; [exact Hnat | exact Hemu].
Defined.

(** ** Dense action arrays *)

Lemma alist_set_fresh {A : Type} (k : Agent) (v : A) (l : list (Agent * A)) :
  k ∉ map fst l -> alist_set k v l = l ++ [(k, v)].
Proof.
  induction l as [| [k' v'] l IH]; intros Hk; [done |].
  cbn [alist_set]. cbn [map fst] in Hk. apply not_elem_of_cons in Hk as [Hne Hk].
  rewrite decide_False by done. by rewrite IH.
Qed.

Lemma actions_of_array_rows a l :
  forall i acc items,
    NoDup l ->
    (forall k, k ∈ l -> k ∉ map fst acc) ->
    PettingZooPufferEnv.actions_of_array a i l acc = Ok items ->
    exists rows,
      length rows = length l
      /\ items = acc ++ zip l rows
      /\ forall j row, rows !! j = Some row -> nd_row a (i + j) = Ok row.
Proof.
  induction l as [| agent l IH]; intros i acc items Hnd Hfresh H.
  { simpl in H. injection H as <-. exists []. rewrite app_nil_r. by repeat split. }
  cbn [PettingZooPufferEnv.actions_of_array] in H.
  destruct (nd_row a i) as [row |] eqn:Hrow; [| done].
  cbn [mbind PyResult_bind] in H.
  apply NoDup_cons in Hnd as [Hagent Hnd].
  rewrite alist_set_fresh in H by (apply Hfresh; by left).
  apply IH in H as (rows & Hlen & -> & Hrows); [| done |].
  - exists (row :: rows). split; [simpl; lia |]. split.
    + by rewrite <- app_assoc.
    + intros [| j] r Hj; simpl in Hj.
      * injection Hj as <-. by rewrite Nat.add_0_r.
      * replace (i + S j)%nat with (S i + j)%nat by lia. by apply Hrows.
  - intros k Hk. rewrite map_app. apply not_elem_of_app. split.
    + apply Hfresh. by right.
    + simpl. intros Hin%list_elem_of_singleton. by subst k.
Qed.

Lemma pz_step_guards_passed (contains : Space -> PyVal -> PyResult bool)
    (E : PettingZooEnv) actions (st : PettingZooPufferEnv.t E) :
  PettingZooPufferEnv.initialized E st = true ->
  PettingZooPufferEnv.done E st = false ->
  PettingZooPufferEnv.step contains E actions st
  = match match actions with
          | ActArray a =>
              PettingZooPufferEnv.actions_of_array a 0
                (PettingZooPufferEnv.possible_agents E) []
          | ActDict items => Ok items
          end with
    | Ok acts =>
        (let* _ := PettingZooPufferEnv.check_action contains E acts in
         PettingZooPufferEnv.step_env E acts) st
    | Raise e => (Raise e, st)
    end.
Proof.
  intros Hinit Hdone. unfold PettingZooPufferEnv.step.
  unfold bindM at 1, gets at 1. rewrite Hinit. cbn [negb].
  unfold bindM at 1, gets at 1. rewrite Hdone.
  unfold bindM at 1. destruct actions as [a | items].
  - unfold lift. by destruct (PettingZooPufferEnv.actions_of_array a 0 _ []).
  - done.
Qed.

(** A dense action array is read positionally: when the agents of the
    population are distinct, a multi-agent [step] given an array behaves
    exactly as the [step] given the mapping that pairs the [i]-th possible
    agent with the [i]-th row of the array; rows beyond the population are
    ignored, and an array with fewer rows than possible agents raises
    [IndexError] before the environment is touched. *)
Theorem pettingzoo_dense_actions_positional (contains : Space -> PyVal -> PyResult bool)
    (E : PettingZooEnv) (a : ndarray) (st : PettingZooPufferEnv.t E) :
  NoDup (PettingZooPufferEnv.possible_agents E) ->
  PettingZooPufferEnv.initialized E st = true ->
  PettingZooPufferEnv.done E st = false ->
  match PettingZooPufferEnv.actions_of_array a 0 (PettingZooPufferEnv.possible_agents E) []
  with
  | Ok items =>
      PettingZooPufferEnv.step contains E (ActArray a) st
      = PettingZooPufferEnv.step contains E (ActDict items) st
      /\ map fst items = PettingZooPufferEnv.possible_agents E
      /\ forall i agent,
           PettingZooPufferEnv.possible_agents E !! i = Some agent ->
           exists row, nd_row a i = Ok row /\ items !! i = Some (agent, row)
  | Raise e =>
      PettingZooPufferEnv.step contains E (ActArray a) st = (Raise e, st)
  end.
Proof.
  intros Hnd Hinit Hdone.
  destruct (PettingZooPufferEnv.actions_of_array a 0 _ []) as [items | e] eqn:Hitems.
  - split.
    { rewrite !(pz_step_guards_passed contains E _ st Hinit Hdone). by rewrite Hitems. }
    apply actions_of_array_rows in Hitems as (rows & Hlen & -> & Hrows); [| done |].
    2: { intros k _. simpl. apply not_elem_of_nil. }
    rewrite app_nil_l. split.
    + apply fst_zip. lia.
    + intros i agent Hi.
      destruct (lookup_lt_is_Some_2 rows i) as [row Hrow].
      { rewrite Hlen. by eapply lookup_lt_Some. }
      exists row. split; [by apply (Hrows i row) |].
      apply lookup_zip_with_Some. by exists agent, row.
  - rewrite (pz_step_guards_passed contains E _ st Hinit Hdone). by rewrite Hitems.
Qed.

Lemma pettingzoo_dense_actions_positional_witness :
  exists st0,
    PettingZooPufferEnv.__init__ duo_env ["a"; "b"] false = Ok st0
    /\ NoDup (PettingZooPufferEnv.possible_agents duo_env)
    /\ PettingZooPufferEnv.initialized duo_env
         (pz_run contains_all duo_env [PzReset None] st0) = true
    /\ PettingZooPufferEnv.done duo_env
         (pz_run contains_all duo_env [PzReset None] st0) = false
    /\ PettingZooPufferEnv.step contains_all duo_env
         (ActArray (NDArray int64 [3%nat] [1; 0; 1]))
         (pz_run contains_all duo_env [PzReset None] st0)
       = PettingZooPufferEnv.step contains_all duo_env
           (ActDict [("a", NDArray int64 [] [1]); ("b", NDArray int64 [] [0])])
           (pz_run contains_all duo_env [PzReset None] st0).
Proof.
  eexists. split; [reflexivity |].
  assert (Hnd : NoDup (PettingZooPufferEnv.possible_agents duo_env)).
  { change (NoDup ["a"; "b"]). apply NoDup_cons. split; [| apply NoDup_singleton].
    intros Hin%list_elem_of_singleton. discriminate Hin. }
  split; [exact Hnd |].
  match goal with
  | |- ?A /\ ?B /\ _ =>
      assert (Hinit : A) by (vm_compute; reflexivity);
      assert (Hdone : B) by (vm_compute; reflexivity)
  end.
  split; [exact Hinit |]. split; [exact Hdone |].
  exact (proj1 (pettingzoo_dense_actions_positional contains_all duo_env
                  (NDArray int64 [3%nat] [1; 0; 1]) _ Hnd Hinit Hdone)).
Defined.

(** ** What [make_object] returns *)

(** [make_object] returns an object in exactly two cases: only an instance
    is given and it is neither callable nor a class, and the instance itself
    is returned; or only a creator is given, it is callable, and the call
    with the given arguments ([None] standing for no arguments) returns the
    object.  Giving both or neither raises [ValueError] without calling the
    creator. *)
Theorem make_object_returns {Env Arg : Type}
    (object_instance : option (ObjectInstance Env))
    (object_creator : option (ObjectCreator Env Arg))
    (creator_args : option (list Arg)) (creator_kwargs : option (list (string * Arg)))
    (env : Env) :
  (make_object object_instance object_creator creator_args creator_kwargs = Ok env
   <-> (exists inst,
          object_instance = Some inst /\ object_creator = None
          /\ inst_callable inst = false /\ inst_isclass inst = false
          /\ env = inst_value inst)
       \/ (exists creator,
             object_instance = None /\ object_creator = Some creator
             /\ creator_callable creator = true
             /\ creator_call creator (default [] creator_args)
                  (default [] creator_kwargs) = Ok env))
  /\ ((is_Some object_instance <-> is_Some object_creator) ->
      make_object object_instance object_creator creator_args creator_kwargs
      = Raise ValueError).
Proof.
  unfold make_object. split.
  - destruct object_instance as [inst |], object_creator as [creator |]; simpl.
    + split; [done |]. by intros [(i & _ & ? & _) | (c & ? & _)].
    + destruct (inst_callable inst) eqn:Hc, (inst_isclass inst) eqn:Hk; simpl;
        (split; [intros H; try done | intros [(i & Hi & _ & Hc' & Hk' & ->) | (c & ? & _)];
                                       [injection Hi as <-; congruence | done]]).
      injection H as <-. left. by exists inst.
    + destruct (creator_callable creator) eqn:Hc; simpl.
      * split; [intros H; right; by exists creator |].
        intros [(i & ? & _) | (c & _ & Hcr & _ & Hcall)]; [done |].
        by injection Hcr as <-.
      * split; [done |].
        intros [(i & ? & _) | (c & _ & Hcr & Hc' & _)]; [done |].
        injection Hcr as <-. congruence.
    + split; [done |]. by intros [(i & ? & _) | (c & _ & ? & _)].
  - intros Hiff.
    destruct object_instance as [inst |], object_creator as [creator |]; simpl; try done.
    + exfalso. assert (H : is_Some (@None (ObjectCreator Env Arg))) by (apply Hiff; eauto).
      by destruct H.
    + exfalso. assert (H : is_Some (@None (ObjectInstance Env))) by (apply Hiff; eauto).
      by destruct H.
Qed.

Lemma make_object_returns_witness :
  (is_Some (@None (ObjectInstance nat)) <-> is_Some (@None (ObjectCreator nat unit)))
  /\ make_object (Env := nat) (Arg := unit) None None None None = Raise ValueError
  /\ make_object (Arg := unit) (Some (mkInstance false false 7%nat)) None None None = Ok 7%nat.
Proof.
  assert (Hiff : is_Some (@None (ObjectInstance nat)) <-> is_Some (@None (ObjectCreator nat unit)))
    by (split; intros [? H]; discriminate H).
  split; [exact Hiff |]. split.
  - exact (proj2 (make_object_returns None None None None 0%nat) Hiff).
  - apply (proj1 (make_object_returns (Arg := unit)
                    (Some (mkInstance false false 7%nat)) None None None 7%nat)).
    left. eexists. repeat split.
Defined.

(** ** The per-agent spaces of the multi-agent adapter *)

(** Every agent is given the spaces of the first possible agent: for an
    adapter that could be built, in every state reached from construction by
    any sequence of resets and steps, [observation_space(agent)] and
    [action_space(agent)] return, for every agent of the population, the
    flat views derived from the spaces the environment declares for the
    first possible agent, whatever it declares for [agent] itself; for any
    other agent both raise [InvalidAgentError]. *)
Theorem pettingzoo_spaces_of_first_agent (contains : Space -> PyVal -> PyResult bool)
    (E : PettingZooEnv) (env : pz_state E) (p : bool) (st0 : PettingZooPufferEnv.t E)
    (cs : list pz_call) :
  PettingZooPufferEnv.__init__ E env p = Ok st0 ->
  exists first rest ospace od aspace ad,
    pz_possible_agents E = first :: rest
    /\ emulate_observation_space (pz_observation_space E first) = Ok (ospace, od)
    /\ emulate_action_space (pz_action_space E first) = Ok (aspace, ad)
    /\ forall agent,
         PettingZooPufferEnv.observation_space E agent (pz_run contains E cs st0)
         = (if decide (agent ∈ pz_possible_agents E) then Ok ospace
            else Raise InvalidAgentError)
         /\ PettingZooPufferEnv.action_space E agent (pz_run contains E cs st0)
            = (if decide (agent ∈ pz_possible_agents E) then Ok aspace
               else Raise InvalidAgentError).
Proof.
  intros Hinit.
  pose proof (pz_run_cfg contains E cs st0) as Hcfg.
  unfold pz_cfg in Hcfg. injection Hcfg as Hos _ Has _ _ _ _ _.
  unfold PettingZooPufferEnv.__init__, PettingZooPufferEnv.possible_agents in Hinit.
  destruct (pz_possible_agents E) as [| first rest] eqn:Hpop; [done |].
  destruct (emulate_observation_space _) as [[ospace od] |] eqn:Ho; [| done].
  destruct (emulate_action_space _) as [[aspace ad] |] eqn:Ha; [| done].
  cbn [mbind PyResult_bind] in Hinit. injection Hinit as <-.
  exists first, rest, ospace, od, aspace, ad.
  split; [done |]. split; [done |]. split; [done |].
  intros agent.
  unfold PettingZooPufferEnv.observation_space, PettingZooPufferEnv.action_space,
    PettingZooPufferEnv.possible_agents.
  rewrite Hos, Has, Hpop. cbn [PettingZooPufferEnv.single_observation_space
    PettingZooPufferEnv.single_action_space].
  destruct (decide (agent ∈ first :: rest)) as [Hin | Hin].
  - by rewrite !bool_decide_eq_true_2.
  - by rewrite !bool_decide_eq_false_2.
Qed.

Lemma pettingzoo_spaces_of_first_agent_witness :
  pz_observation_space mixed_env "b" = Box 0 255 [3%nat] uint8
  /\ pz_action_space mixed_env "b" = Discrete 5
  /\ exists st0,
       PettingZooPufferEnv.__init__ mixed_env [] false = Ok st0
       /\ let st := pz_run contains_all mixed_env [PzReset None] st0 in
          PettingZooPufferEnv.observation_space mixed_env "b" st
          = Ok (Box 0 255 [2%nat] uint8)
          /\ PettingZooPufferEnv.action_space mixed_env "b" st = Ok (Discrete 2)
          /\ PettingZooPufferEnv.observation_space mixed_env "c" st
             = Raise InvalidAgentError.
Proof.
  split; [reflexivity |]. split; [reflexivity |].
  eexists. split; [reflexivity |].
  match goal with
  | |- context [pz_run _ _ ?cs ?s0] =>
      destruct (pettingzoo_spaces_of_first_agent contains_all mixed_env [] false s0 cs
                  eq_refl)
        as (first & rest & ospace & od & aspace & ad & Hpop & Ho & Ha & Hall)
  end.
  injection Hpop as <- <-.
  vm_compute in Ho. injection Ho as <- <-.
  vm_compute in Ha. injection Ha as <- <-.
  cbv zeta.
  pose proof (Hall "b") as [Hob Hab]. pose proof (Hall "c") as [Hoc _].
  rewrite Hob, Hab, Hoc. repeat split.
Defined.

(** ** The shared buffer of the multi-agent adapter *)

(** Slot [j] of the reward, done, truncation and mask arrays of a buffer. *)
Definition mem_slot {R : Type} (m : Mem R) (j : nat)
  : option R * option bool * option bool * option bool :=
  (m_rew m !! j, m_done m !! j, m_trunc m !! j, m_mask m !! j).

Section PettingZooSlots.
Context (contains : Space -> PyVal -> PyResult bool).
Context (E : PettingZooEnv).

(** The four result arrays of the bound buffer. *)
Definition pz_slots (st : PettingZooPufferEnv.t E) :=
  match PettingZooPufferEnv.mem E st with
  | Some m => Some (m_rew m, m_done m, m_trunc m, m_mask m)
  | None => None
  end.

Lemma pz_slots_mem s s' m :
  pz_slots s' = pz_slots s ->
  PettingZooPufferEnv.mem E s = Some m ->
  exists m',
    PettingZooPufferEnv.mem E s' = Some m'
    /\ m_rew m' = m_rew m /\ m_done m' = m_done m
    /\ m_trunc m' = m_trunc m /\ m_mask m' = m_mask m.
Proof.
  unfold pz_slots. intros H Hm. rewrite Hm in H.
  destruct (PettingZooPufferEnv.mem E s') as [m' |]; [| done].
  injection H as H1 H2 H3 H4. by exists m'.
Qed.

Lemma pz_obs_array_keeps_slots : keeps pz_slots (PettingZooPufferEnv.obs_array E).
Proof. intros st. by rewrite pz_obs_array_state. Qed.

Lemma pz_put_obs_array_keeps_slots a :
  keeps pz_slots (PettingZooPufferEnv.put_obs_array E a).
Proof.
  intros st. unfold PettingZooPufferEnv.put_obs_array, pz_slots.
  destruct (PettingZooPufferEnv.obs_bound E st).
  - destruct (PettingZooPufferEnv.mem E st) as [m |] eqn:Hm; cbn [snd].
    + by destruct st.
    + by rewrite Hm.
  - by destruct st.
Qed.

Lemma pz__emulate_ob_keeps_slots ob i agent :
  keeps pz_slots (PettingZooPufferEnv._emulate_ob E ob i agent).
Proof.
  unfold PettingZooPufferEnv._emulate_ob.
  keeps_go ltac:(first [ apply pz_obs_array_keeps_slots
                       | apply pz_put_obs_array_keeps_slots ]).
Qed.

Lemma pz_zoom_keeps_slots {A : Type} (m : M (World (pz_state E)) A) :
  keeps pz_slots (PettingZooPufferEnv.zoom E m).
Proof.
  intros st. unfold PettingZooPufferEnv.zoom.
  destruct (m (PettingZooPufferEnv.world E st)) as [r w]. reflexivity.
Qed.

Lemma pz_check_action_keeps_slots actions :
  keeps pz_slots (PettingZooPufferEnv.check_action contains E actions).
Proof.
  unfold PettingZooPufferEnv.check_action.
  keeps_go ltac:(apply pz_zoom_keeps_slots).
Qed.

(** What the loop of [step] leaves in the buffer: the slot of an agent the
    environment observed holds its reward, done flag and truncation flag and
    a set mask; every other slot is as it was. *)
Lemma pz_step_agents_slots obs rewards dones truncateds l :
  forall i s s' m,
    PettingZooPufferEnv.step_agents E obs rewards dones truncateds i l s = (Ok tt, s') ->
    PettingZooPufferEnv.mem E s = Some m ->
    exists m',
      PettingZooPufferEnv.mem E s' = Some m'
      /\ forall j,
           mem_slot m' j
           = match (if decide (i <= j)%nat then l !! (j - i)%nat else None) with
             | Some agent =>
                 match obs !! agent with
                 | Some _ =>
                     (rewards !! agent, dones !! agent, truncateds !! agent, Some true)
                 | None => mem_slot m j
                 end
             | None => mem_slot m j
             end.
Proof.
  induction l as [| agent l IH]; intros i s s' m H Hm.
  { simpl in H. unfold ret in H. injection H as <-. exists m. split; [done |].
    intros j. by destruct (decide (i <= j)%nat). }
  cbn [PettingZooPufferEnv.step_agents] in H.
  apply bindM_inv in H as ([] & s1 & Hhd & H).
  assert (Hhead : exists m1,
    PettingZooPufferEnv.mem E s1 = Some m1
    /\ forall j,
         mem_slot m1 j
         = if decide (j = i) then
             match obs !! agent with
             | Some _ => (rewards !! agent, dones !! agent, truncateds !! agent, Some true)
             | None => mem_slot m j
             end
           else mem_slot m j).
  { destruct (obs !! agent) as [ob |].
    - apply bindM_inv in Hhd as ([] & s0 & Hmod & Hhd).
      unfold modify in Hmod. injection Hmod as <-.
      apply bindM_inv in Hhd as ([] & s2 & Hemu & Hhd).
      pose proof (pz__emulate_ob_keeps_slots ob i agent
                    (PettingZooPufferEnv.set_mask E
                       (<[agent := true]> (PettingZooPufferEnv.mask E s)) s)) as Hk.
      rewrite Hemu in Hk. cbn [snd] in Hk.
      destruct (pz_slots_mem s s2 m) as (m2 & Hm2 & R1 & R2 & R3 & R4); [| exact Hm |].
      { rewrite Hk. unfold pz_slots. by destruct s. }
      apply bindM_inv in Hhd as (mm & s3 & Hg & Hhd).
      unfold gets in Hg. injection Hg as <- <-. rewrite Hm2 in Hhd.
      destruct (rewards !! agent) as [r |]; [| done].
      destruct (dones !! agent) as [d |]; [| by destruct (truncateds !! agent)].
      destruct (truncateds !! agent) as [tr |]; [| done].
      apply bindM_inv in Hhd as (m3 & s4 & Hw & Hhd).
      unfold lift in Hw. injection Hw as Hw <-.
      unfold modify in Hhd. injection Hhd as <-.
      apply mem_write_inv in Hw as (-> & L1 & L2 & L3 & L4).
      eexists. split; [by destruct s2 |].
      intros j. unfold mem_slot. cbn [m_rew m_done m_trunc m_mask].
      rewrite R1, R2, R3, R4 in *.
      destruct (decide (j = i)) as [-> | Hne].
      + by rewrite !list_lookup_insert_eq.
      + by rewrite !list_lookup_insert_ne.
    - match type of Hhd with
      | ?act ?s0 = _ =>
          assert (Hk : keeps pz_slots act);
          [| specialize (Hk s0); rewrite Hhd in Hk; cbn [snd] in Hk ]
      end.
      { keeps_go ltac:(first [ apply pz_obs_array_keeps_slots
                             | apply pz_put_obs_array_keeps_slots ]). }
      destruct (pz_slots_mem s s1 m Hk Hm) as (m1 & Hm1 & R1 & R2 & R3 & R4).
      exists m1. split; [done |]. intros j. unfold mem_slot.
      rewrite R1, R2, R3, R4. by destruct (decide (j = i)). }
  destruct Hhead as (m1 & Hm1 & Hslot1).
  destruct (IH (S i) s1 s' m1 H Hm1) as (m' & Hm' & Hslot).
  exists m'. split; [done |]. intros j. rewrite Hslot.
  destruct (decide (i <= j)%nat) as [Hle | Hgt].
  - destruct (decide (j = i)) as [-> | Hne].
    + destruct (decide (S i <= i)%nat) as [Hbad | _]; [lia |].
      rewrite Nat.sub_diag. cbn [lookup list_lookup].
      rewrite Hslot1. by destruct (decide (i = i)).
    + destruct (decide (S i <= j)%nat) as [_ | Hbad]; [| lia].
      replace (j - i)%nat with (S (j - S i)) by lia. cbn [lookup list_lookup].
      assert (Hj : mem_slot m1 j = mem_slot m j).
      { rewrite Hslot1. by destruct (decide (j = i)). }
      destruct (l !! (j - S i)%nat) as [agent' |]; [| done].
      by destruct (obs !! agent').
  - destruct (decide (S i <= j)%nat) as [Hbad | _]; [lia |].
    rewrite Hslot1. destruct (decide (j = i)) as [-> | _]; [lia | done].
Qed.
End PettingZooSlots.

(** With a shared buffer bound, a multi-agent step that returns has written
    into slot [i] of the buffer the reward, done flag and truncation flag of
    the [i]-th possible agent and set its mask, for exactly the agents the
    environment's [step] returned an observation for; the slots of all other
    agents, their mask included, are left as they were, so a mask set by an
    earlier step stays set for an agent that is no longer observed. *)
Theorem pettingzoo_step_fills_slots (contains : Space -> PyVal -> PyResult bool)
    (E : PettingZooEnv) (actions : Actions) (st st' : PettingZooPufferEnv.t E)
    (m : Mem (pz_reward E))
    (out : gmap Agent PyVal * gmap Agent (pz_reward E) * gmap Agent bool
           * gmap Agent bool * pz_info E) :
  PettingZooPufferEnv.mem E st = Some m ->
  PettingZooPufferEnv.step contains E actions st = (Ok out, st') ->
  exists unpacked obs rewards dones truncateds infos env1 m',
    pz_step E unpacked (w_env (PettingZooPufferEnv.world E st))
    = (Ok (obs, rewards, dones, truncateds, infos), env1)
    /\ PettingZooPufferEnv.mem E st' = Some m'
    /\ forall j,
         mem_slot m' j
         = match PettingZooPufferEnv.possible_agents E !! j with
           | Some agent =>
               match obs !! agent with
               | Some _ =>
                   (rewards !! agent, dones !! agent, truncateds !! agent, Some true)
               | None => mem_slot m j
               end
           | None => mem_slot m j
           end.
Proof.
  intros Hm Hstep.
  apply pz_step_inv_full in Hstep
    as (_ & _ & acts & sc & unpacked & obs & rewards & dones & truncateds & infos
        & env1 & s5 & d & _ & Hchk & _ & Hraw & Hloop & -> & _ & _).
  pose proof (pz_check_action_keeps_slots contains E acts st) as Hk.
  rewrite Hchk in Hk. cbn [snd] in Hk.
  destruct (pz_slots_mem E st sc m Hk Hm) as (mc & Hmc & R1 & R2 & R3 & R4).
  eapply pz_step_agents_slots in Hloop as (m' & Hm' & Hslot).
  2: { instantiate (1 := mc). by destruct sc. }
  exists unpacked, obs, rewards, dones, truncateds, infos, env1, m'.
  split; [exact Hraw |]. split; [by destruct s5 |].
  intros j. rewrite Hslot.
  destruct (decide (0 <= j)%nat) as [_ | Hbad]; [| lia].
  rewrite Nat.sub_0_r.
  unfold mem_slot. by rewrite R1, R2, R3, R4.
Qed.

Lemma pettingzoo_step_fills_slots_witness :
  let m := mkMem (np_zeros [2%nat; 2%nat] uint8)
             [0; 0] [false; false] [false; false] [false; true] in
  exists st0,
    PettingZooPufferEnv.__init__ duo_env [] false = Ok st0
    /\ exists m1 out st' m',
       let st := pz_run contains_all duo_env [PzReset None]
                   (PettingZooPufferEnv.bind_mem duo_env m st0) in
       PettingZooPufferEnv.mem duo_env st = Some m1
       /\ PettingZooPufferEnv.step contains_all duo_env two_actions st = (Ok out, st')
       /\ PettingZooPufferEnv.mem duo_env st' = Some m'
       /\ mem_slot m' 0 = (Some 5, Some false, Some false, Some true)
       /\ mem_slot m' 1 = mem_slot m1 1
       /\ m_mask m' !! 1%nat = Some true
       /\ PettingZooPufferEnv.mask duo_env st' !! "b" = Some false.
Proof.
  intros m. eexists. split; [reflexivity |].
  match goal with
  | |- context [pz_run ?c ?E ?cs ?s] =>
      set (st := pz_run c E cs s);
      assert (Hall :
        (let st1 := st in
         let r := PettingZooPufferEnv.step contains_all E two_actions st1 in
         (returns (fst r), PettingZooPufferEnv.mask E (snd r) !! "b",
          option_map (fun m1 => m_mask m1 !! 1%nat) (PettingZooPufferEnv.mem E st1)))
        = (true, Some false, Some (Some true)))
        by (vm_compute; reflexivity)
  end.
  cbv zeta in Hall.
  destruct (PettingZooPufferEnv.mem duo_env st) as [m1 |] eqn:Hm1;
    [| cbn [option_map] in Hall; discriminate Hall].
  destruct (PettingZooPufferEnv.step contains_all duo_env two_actions st)
    as [[out | e] st'] eqn:Hstep;
    [| cbn [fst returns] in Hall; discriminate Hall].
  cbn [fst snd returns option_map] in Hall. injection Hall as Hb Hmask.
  destruct (pettingzoo_step_fills_slots contains_all duo_env two_actions st st' m1 out
              Hm1 Hstep)
    as (unpacked & obs & rewards & dones & truncateds & infos & env1 & m' & Hraw & Hm'
        & Hslot).
  assert (Hproj :
    (obs !! ("a" : Agent), obs !! ("b" : Agent), rewards !! ("a" : Agent),
     dones !! ("a" : Agent), truncateds !! ("a" : Agent))
    = (Some (SArr [2%nat] [3; 3]), None, Some 5, Some false, Some false)).
  { exact (eq_sym
             (f_equal (fun r => match fst r with
                                | Ok (o, rw, dn, tr, _) =>
                                    (o !! ("a" : Agent), o !! ("b" : Agent),
                                     rw !! ("a" : Agent), dn !! ("a" : Agent),
                                     tr !! ("a" : Agent))
                                | Raise _ => (None, None, None, None, None)
                                end) Hraw)). }
  injection Hproj as Hoa Hob Hra Hda Hta.
  exists m1, out, st', m'. cbv zeta. fold st.
  split; [exact Hm1 |]. split; [exact Hstep |]. split; [exact Hm' |].
  assert (H0 : mem_slot m' 0 = (Some 5, Some false, Some false, Some true)).
  { rewrite (Hslot 0%nat).
    change (PettingZooPufferEnv.possible_agents duo_env !! 0%nat) with (Some "a").
    cbv beta iota. rewrite Hoa.
    exact (f_equal2 pair (f_equal2 pair (f_equal2 pair Hra Hda) Hta) eq_refl). }
  assert (H1 : mem_slot m' 1 = mem_slot m1 1).
  { rewrite (Hslot 1%nat).
    change (PettingZooPufferEnv.possible_agents duo_env !! 1%nat) with (Some "b").
    cbv beta iota. by rewrite Hob. }
  split; [exact H0 |]. split; [exact H1 |]. split; [| exact Hb].
  unfold mem_slot in H1. injection H1 as _ _ _ H1. exact (eq_trans H1 Hmask).
Defined.
